(* ===== verification/_CoqProject ===== *)
-Q . S2P
Prelude.v
JsNumber.v
JsString.v
JsValue.v
JsOrder.v
Shapes.v
JsonUtils.v
JsonText.v
Sse.v
JobStore.v
Caches.v
LocalStorage.v
JobStreaming.v
WorkflowGraph.v
RunRequest.v
RunExecution.v
SessionStream.v
RunWatch.v
WorkflowPanel.v
RuntimeConfig.v
ConnectionProfiles.v
RunDiff.v
TeamRun.v
History.v
Conversation.v
Programs.v
Browser.v
ClientRpc.v
ConversationView.v
BrokerEvents.v
BrokerConsole.v
TeamEvents.v
Revisions.v
TeamActions.v
TeamConversation.v
SceneViews.v
SceneSession.v
ClientEffects.v
Http.v
ApiBroker.v
ApiSession.v
ApiDaemon.v
ConnectionAddresses.v
Approvals.v
