(* ===== verification/Prelude.v ===== *)
(** * The state and data logic of the agent WebUI

    A model of the TypeScript program in src/ui/src (paths below are relative
    to it) and the theorems that make it correct.  The WebUI is a React page
    that starts runs of an agent, watches their jobs over server-sent events,
    polling and a watchdog, keeps what it watches in the browser's storages and
    on the server, edits workflows, and compares and administers runs.  The
    development covers the code that keeps state or turns data from outside
    into the page's own; rendering and requests are its inputs and outputs.

    ** Parts, and how they fit together

    The language (no part of the program):
    - Prelude: sorting, results, list lemmas, tactics, hint databases.
    - JsNumber, JsString: binary64 numbers as multiples of 2^-1074 with
      rounding, strings of Latin-1 code units, conversions between them.
    - JsValue, JsOrder: values, objects as property lists in property order,
      the operators on [unknown] values, the class [Json] of a JSON codec with
      its law [JsonLaws] (printing a representable value and parsing it gives
      it back).  JsonText: a codec that satisfies the law, for the witnesses.
    - Shapes: run-time type tests, declared object types, rows.

    Helpers: JsonUtils (jsonUtils.ts); LocalStorage
    (hooks/useLocalStorageState.ts): a state with a copy in a storage, under a
    key that may change.  Programs: code that makes requests, as finite trees
    with a branch per answer; [runs] their executions, [always] what they may
    request, [never_throws] and [exec].

    Watching jobs:
    - Sse (sse.ts): the block parser and the reader that cuts chunks into
      frames.  [readSseStream] is a fold of [feed] over the chunks.
    - JobStore (jobStore.ts, runWatchPrefs.ts): the table of watched jobs:
      pruning, merging with the server's copy, comparing.
    - Caches (liveEvents.ts, sceneCache.ts, sessionScope.ts,
      utils/brokerBase.ts): the capped event list, the recently-used scene
      store and the scope keys.
    - JobStreaming (hooks/useJobStreaming.ts): one instance of the watching
      effect; [step] takes what the environment does (an answer, a frame, a
      tick, the cleanup) and the code up to the next wait is one step.  Its
      record [ui] holds the React state that several hooks write.
    - RunWatch (hooks/useRunWatchState.ts): the table as JSON text in the
      storage with its stale rendered copy, the throttled push to the server,
      resuming after a reload, tracking the cursor; it uses JobStore, Caches
      and JobStreaming, and [reload_resumes_log] composes it with the watcher.
    - SessionStream (hooks/useSessionEventStreaming.ts): the stored buffer of
      session events, and the reconnecting reader as a state machine on Sse.

    Starting runs:
    - RunRequest (workflowDefaults.ts, the request of hooks/useRunExecution.ts,
      types of hooks/uiSettingsTypes.ts): settings to requests.
    - RunExecution (the rest of hooks/useRunExecution.ts): the mutation, what
      its outcome does to the page (the [ui] of JobStreaming), the queue.

    Settings:
    - RuntimeConfig (runtime_config.ts): defaults, environment, page settings.
    - ConnectionProfiles (hooks/uiSettingsProfiles.ts,
      hooks/useUiConnectionProfileState.ts, the pull of
      hooks/useConnectionServerPrefs.ts): profiles, secrets, their storages.

    Workflows:
    - WorkflowGraph (workflowGraph.ts): export, import, layout, clamping.
    - WorkflowPanel (components/workflow/workflowPanelUtils.ts): rows, levels,
      cron and schedule checks.

    Panels:
    - RunDiff (components/runDiff/runDiffUtils.ts, useRunDiffPanelState.ts):
      the bounded JSON difference and the comparison of two recorded runs.
    - TeamRun (components/broker/teamRunUtils.ts, teamRunStatusUtils.ts,
      brokerObjectUtils.ts): team data readers, choice of runtime members.
    - History (history/historyPanelData.ts): readers of what the daemon stored
      about a session, its scene store, the conversation list and its searches.

    Calls of an agent to the page (components/conversation):
    - Conversation (conversationData.ts, utils.ts): the request and the
      operations on the scene it asks for.
    - Browser: the browser and the page as the requests of Programs.
    - ClientRpc (conversationRpcExecutor.ts): every call as such a program, what
      a script in a worker or code in the page may ask, and the reports.
    - ConversationView (useConversationViewState.ts,
      useConversationUiActionRpcState.ts): what was shown and run, calls that
      start by themselves, observers that time out.  Its cards build the
      requests of Conversation and run the programs of ClientRpc.

    The broker panel's events and runs (components/broker):
    - BrokerEvents (brokerPanelUtils.ts, teamEventPrefs.ts): event rows, their
      merging without duplicates, the cursor map kept on the server with its
      throttled pushes.
    - BrokerConsole (useBrokerEventsState.ts): the console's reader: the stream
      of Sse, the replay, and a cursor held in a state, a ref and a stored text,
      which renders and effects bring together.
    - TeamEvents (useBrokerTeamEventsState.ts): the team console, which merges
      the console's rows with replays of its own and keeps a cursor per team;
      [flush] is one render with its effects.
    - Revisions (brokerOrchestratorRunUtils.ts, useBrokerOrchestratorRunState.ts):
      revisions of a run, their lists and filters, the revision events among the
      rows of BrokerEvents, and the requests that create and change a run.

    The team chat (hooks):
    - TeamActions (useTeamChatActionState.ts, teamChatOrchestrationUtils.ts): an
      action (a run, guidance, a goal, shared files) is a program of Programs;
      [step] interleaves its answers with requests of the user and commits, and
      the queue of waiting actions is a state of LocalStorage.
    - TeamConversation (useTeamChatConversationState.ts): the members' messages,
      guidance and the activities recorded by TeamActions as one list, and its
      stored copy, again of LocalStorage; [render] is one commit.

    Requests of an agent to the page (hooks/useRuntimeClientEffects.ts):
    - SceneSession (module Scene): operations on the scenes of the sessions,
      kept in the cache of Caches with the times of their versions, the answers
      of the daemon and its snapshots.
    - SceneViews (components/scene/SceneEntityCard.tsx, DomEntityView.tsx,
      Canvas2DEntityView.tsx): the script of an entity of a scene, the function
      that its card makes of it, and the runs of one view.
    - ClientEffects: Capabilities, what the page announces; AutoRun, calls in
      the rows of the database that start by themselves, by loops that may
      overlap, on the executor of ClientRpc, with what becomes of their entities
      in SceneSession and SceneViews; Artifacts, files that are fetched, as programs of Programs.

    The clients of the daemon and the broker (api):
    - Http (auth.ts, query.ts): addresses, query strings, headers, and the
      programs of requests and answers; [within] bounds what a program sends.
    - ApiBroker (broker.ts), ApiSession (session.ts), ApiDaemon (the other
      files): a definition per function; the answers pass through [Schemas].
    - ConnectionAddresses (hooks/useUiConnectionSettings.ts): the addresses and
      credentials that a profile of ConnectionProfiles gives to these clients.
    - Approvals (components/approvalQueue/useApprovalQueueState.ts): the queue
      of approvals on the requests of ApiDaemon; the requests under way are part
      of its state, and [step] takes their answers in any order.

    Definitions bear the names of the code; where the code is a closure or a
    loop body, the doc comment says which.  Code that throws returns [None] or
    a [result]; code that updates React state is a function on the state; and
    a hook is a step function on inputs, so that every interleaving of its
    callbacks is a list of inputs.

    ** What the theorems show

    - The watcher: framing does not depend on chunking; the live events are a
      contiguous segment of the server's log through every mix of transports;
      completion paths agree, and where they do not; what the cleanup isolates.
    - The tables and caches: exact contents after pruning, merging, touching;
      bounds; a refinement of an in-memory table and of a recency list.
    - Runs: requests and defaults agree as far as stated; the queue is first
      in, first out under every interleaving, and does not stall; but a prompt
      that the daemon refuses when it acknowledges the run is lost.
    - The session stream: exactly-once delivery across reconnections, and a
      reload that restores the state, or the last one that the storage took.
    - Settings: types whatever is stored, precedence, what is set is what is
      used, secrets stay out of the local storage, and the exception; what is
      sent to the server, field by field.
    - Workflows: export and import round trip, layout and levels are longest
      chains and terminate on cycles, the checks accept exactly what they say,
      cron fields within the bounds written out in the statement.
    - Comparison: the bounded difference against the unlimited one, when it is
      empty, and the exact lists of events, types and artifacts.
    - Teams: allocation of agents to roles, stability of the readers.
    - History: every row read has its declared type and reads back as itself;
      the conversation is the timed items in the order of their times, stably.
    - Calls of an agent: what the settings forbid is not requested of the
      browser, whatever it answers, by the levels of ClientRpc: a report, a read,
      a change, a change that may carry code (an attribute, markup, an entity of
      a scene, an address), code of the call itself; what carries code is not
      subject to the permission for unsafe evaluation; every call is reported,
      with its own outcome; what queries hide; scene operations are bounded and
      well formed; calls start by themselves once as long as the page remembers
      them (2000 keys), and which do not start; observers are few.
    - Broker events: a feed is shown exactly once however stream and replays
      overlap; merged views are sorted and complete up to their bound; a cursor
      is always a reported time, and the largest one when renders keep up; what
      a replay brings to the team console is lost again, and its preference
      requests do not end.
    - The team chat: actions happen one at a time and the queue is first in,
      first out and runs dry whatever is answered; what an action changes, on
      every answer; failures are not retried; the queue and the copy of the
      conversation move to another team with the selection; the list shown is
      sorted and complete but for repeated prompts; its copy is stored without
      end and read back in part.
    - Requests of an agent: what happens to a scene is what is asked, on a finite
      map; calls of the database's rows start once (among 2000 rows), one after
      the other has returned, until all that are due have; a file is reported
      once, from the first path that serves it; what is announced is handled; a
      script in a scene runs where its card is shown, and the function with which
      it cleans up is called once, if the view has not gone on before.
    - The clients: an address reads back as its arguments; every function of the
      broker's client sends exactly its route, a table of method, path, query and
      body, at most once and with the connection's credentials, and nothing for a
      blank identifier; the daemon's and the session's send at most one request,
      or one per address of a session, to the resource of their name; further
      addresses are tried in order, and the result says what the last answer
      says; a run that is waited for ends and is posted at most twice.
    - Approvals: the decision posted is the button's with the form's fields, and
      the approval shown is the one decided about when selections do not overlap,
      and is not when an answer is late; no busy flag stays set.
    - Orchestrator runs: requests are well formed, busy flags end with their
      requests; revisions are listed by version and filters narrow them.

    Some theorems state a defect: the code of an exceptional path, with the
    input that leads to it, next to what holds otherwise.

    ** Fuel

    [Sse.drain] takes one unit per frame, and is started with more units than
    the buffer has characters (each frame removes two); [WorkflowGraph.probe]
    tries at most one more suffix than there are identifiers; [computeLevel]
    and [panelLevel] go one task deeper per unit and mark it, so more units
    than tasks are enough, which [layoutGraph_places] and [buildLevels_spec]
    prove.  [RunDiff.collectJsonDiffs] has no fuel of its own: its number is
    the code's [maxDepth - depth].  Printing numbers and parsing JSON take the
    length of the text.  [TeamActions.wait_sessions] counts the ten attempts of
    the code, and [ApiDaemon.wait_for_job] one pass per unit: [run_ends] says how
    many are enough.  All other recursion is structural.

    ** Parameters

    The JSON codec ([Json], with [JsonLaws]; [PrettyJson] for the indented
    form, with [PrettyLaws]), [localeCompare] ([Locale]), the URL parser
    ([UrlApi], [Urls]), the page's protocol ([PageLocation]), [CSS.escape]
    ([CssApi]), the ellipsis ([Ellipsis], not a Latin-1 character), the zod
    schemas of a job's events and result (arguments of JobStreaming), the text
    of a JSON syntax error ([ParseError]), the broker's replay endpoint (the
    hypothesis [serves] of TeamEvents), fresh identifiers, the clock and the answers of requests (inputs).

    ** Limits

    Strings are lists of Latin-1 code units, so text outside is not covered.
    Objects have no prototype: a key such as [constructor] or [__proto__],
    read from an object used as a map, is absent here and not in a browser.
    State updates of one callback are applied together, in order, as React
    batches them.  Messages of exceptions are not modelled beyond their kind.

    ** Not modelled

    Views (JSX), zod schemas, DOM, audio and speech, locale-dependent dates and
    fixed-point formatting, and the state hooks of panels that only wire forms
    to the requests of the clients: they have no logic apart from such effects,
    or none that can be stated without them.
    Of a client call's script the text that sets up the worker is not modelled.
    Of a scene's views only the scripts are: not the drawing operations, the
    addresses of files, or what the code of a script does.
    The readers of broker events are modelled for a fixed base, key and team: a
    change of them is a new start.
    An identifier that is a dot segment ([..]) is not encoded by the clients, and
    a browser resolves it: the addresses here are those before it does.
    The request state of the run comparison, the push of the preferences and the
    cookie session are a request with its busy flag each, and are left out.  The daemon, the
    broker, the command line and the core library are programs of their own in C++, Go and
    C. *)
From stdpp Require Export base sets list strings pretty sorting gmap.
From Stdlib Require Export ZArith Lia.
From Stdlib Require Import Permutation.

#[global] Open Scope Z_scope.

(** Rewriting rules of the JavaScript operations. *)
Create Rewrite HintDb js.
(** Lemmas on objects and values, for [eauto with js]. *)
Create HintDb js.
Declare Scope js_scope.
Set Default Goal Selector "!".

(** ** Tactics shared by the components *)

(** Case analysis on the innermost scrutinee of a [match] or [if] of the goal. *)
Ltac case_goal :=
  match goal with
  | |- context [match ?x with _ => _ end] =>
      lazymatch x with
      | context [match _ with _ => _ end] => fail
      | _ => destruct x eqn:?
      end
  end.

(** The same in a hypothesis. *)
Ltac case_hyp H :=
  match type of H with
  | context [match ?x with _ => _ end] =>
      lazymatch x with
      | context [match _ with _ => _ end] => fail
      | _ => destruct x eqn:?
      end
  end.

(** Close the routine goals left by a case analysis. *)
Ltac crush := repeat (simplify_eq/=; try case_goal); try done; try lia; eauto.

(** Decide a closed proposition by evaluation. *)
Ltac by_compute :=
  match goal with |- ?P => refine (bool_decide_eq_true_1 P _); vm_compute; reflexivity end.

(** ** Boolean tests *)

Lemma andb_split (a b : bool) : a && b = true -> a = true /\ b = true.
Proof. destruct a, b; done. Qed.

(** ** Lists *)

Section lists.
Context {A B : Type}.
Implicit Types (l k : list A).

(** [Array.prototype.slice(-n)] for a positive [n]: the last [n] elements. *)
Definition last_n (n : nat) (l : list A) : list A :=
  drop (length l - n) l.

Lemma length_last_n n l : (length (last_n n l) <= n)%nat.
Proof. unfold last_n. rewrite length_drop. lia. Qed.

Lemma last_n_short n l : (length l <= n)%nat -> last_n n l = l.
Proof. intros H. unfold last_n. by replace (length l - n)%nat with 0%nat by lia. Qed.

Lemma last_n_suffix n l : exists k, l = k ++ last_n n l.
Proof. exists (take (length l - n) l). unfold last_n. by rewrite take_drop. Qed.

Lemma last_n_app_absorb n l k :
  last_n n (last_n n l ++ k) = last_n n (l ++ k).
Proof.
  destruct (decide (length l <= n)%nat) as [Hle|Hgt].
  { by rewrite (last_n_short n l). }
  unfold last_n. rewrite !length_app, length_drop.
  rewrite !drop_app, length_drop, drop_drop.
  f_equal; f_equal; lia.
Qed.

Lemma in_last_n x n l : x ∈ last_n n l -> x ∈ l.
Proof.
  intros Hx. destruct (last_n_suffix n l) as [k ->].
  set_solver.
Qed.

(** [Array.prototype.find] and [some] are [List.find] and [existsb]. *)
Lemma existsb_elem_of (p : A -> bool) l :
  existsb p l = true <-> exists x, x ∈ l /\ p x = true.
Proof.
  rewrite existsb_exists. split; intros (x & H1 & H2); exists x; split; auto;
    by apply list_elem_of_In.
Qed.

Lemma existsb_false (p : A -> bool) l :
  existsb p l = false <-> forall x, x ∈ l -> p x = false.
Proof.
  split.
  - intros Hf x Hx. destruct (p x) eqn:E; [|done].
    assert (existsb p l = true) by (apply existsb_elem_of; eauto). congruence.
  - intros H. destruct (existsb p l) eqn:E; [|done].
    apply existsb_elem_of in E as (x & Hx & Hp). rewrite H in Hp by done. done.
Qed.
End lists.

Lemma map_last_n {A B} (f : A -> B) n (l : list A) : map f (last_n n l) = last_n n (map f l).
Proof.
  unfold last_n. rewrite length_map. change (map f) with (fmap (M := list) f). by rewrite fmap_drop.
Qed.

Lemma elem_of_filter_bool {A} (p : A -> bool) (l : list A) x :
  x ∈ List.filter p l <-> x ∈ l /\ p x = true.
Proof. by rewrite !list_elem_of_In, List.filter_In. Qed.

Lemma filter_bool_id {A} (p : A -> bool) (l : list A) :
  (forall x, x ∈ l -> p x = true) -> List.filter p l = l.
Proof.
  induction l as [|a l IH]; simpl; [done|]. intros H.
  rewrite (H a) by left. f_equal. apply IH. intros. apply H. by right.
Qed.

Lemma filter_length_le {A} (p : A -> bool) (l : list A) :
  (length (List.filter p l) <= length l)%nat.
Proof. induction l; simpl; [done|]. case_match; simpl; lia. Qed.

Lemma filter_length_eq {A} (p : A -> bool) (l : list A) :
  length (List.filter p l) = length l -> List.filter p l = l.
Proof.
  induction l as [|a l IH]; simpl; [done|]. pose proof (filter_length_le p l).
  destruct (p a); simpl; [|lia]. intros [=]. f_equal. auto.
Qed.

Lemma filter_filter {A} (p q : A -> bool) (l : list A) :
  List.filter q (List.filter p l) = List.filter (fun x => p x && q x) l.
Proof.
  induction l as [|a l IH]; simpl; [done|].
  destruct (p a); simpl; [|done]. destruct (q a); simpl; by rewrite IH.
Qed.

Lemma sublist_filter {A} (p : A -> bool) (l : list A) : sublist (List.filter p l) l.
Proof. induction l; simpl; [constructor|]. case_match; by constructor. Qed.

Lemma StronglySorted_app_rel {A} (R : A -> A -> Prop) l1 l2 x y :
  StronglySorted R (l1 ++ l2) -> x ∈ l1 -> y ∈ l2 -> R x y.
Proof.
  induction l1 as [|a l1 IH]; simpl; intros Hs Hx Hy; [by apply not_elem_of_nil in Hx|].
  apply StronglySorted_inv in Hs as [Hs Ha]. apply elem_of_cons in Hx as [->|Hx]; [|auto].
  rewrite Forall_forall in Ha. apply Ha. set_solver.
Qed.

Lemma StronglySorted_impl {A} (R R' : A -> A -> Prop) l :
  (forall x y, x ∈ l -> y ∈ l -> R x y -> R' x y) -> StronglySorted R l -> StronglySorted R' l.
Proof.
  intros H Hs. induction Hs as [|x l Hs IH Hx]; constructor.
  - apply IH. intros y z Hy Hz. apply H; by right.
  - rewrite Forall_forall in Hx |- *. intros y Hy. apply H; [by left|by right|by apply Hx].
Qed.

Lemma StronglySorted_app_r {A} (R : A -> A -> Prop) l1 l2 : StronglySorted R (l1 ++ l2) -> StronglySorted R l2.
Proof. induction l1 as [|x l1 IH]; [done|]. by intros [H%IH _]%StronglySorted_inv. Qed.

(** ** A stable sort

    [Array.prototype.sort] is stable (ECMA-262 since 2019) and, for a
    consistent comparator, this determines its result; [sort_by gt] is the
    insertion sort with that result, [gt x y] standing for
    [compare(x, y) > 0]. *)
Section sort.
Context {A : Type} (gt : A -> A -> bool).

Fixpoint insert_by (x : A) (l : list A) : list A :=
  match l with
  | [] => [x]
  | y :: l' => if gt x y then y :: insert_by x l' else x :: l
  end.

Fixpoint sort_by (l : list A) : list A :=
  match l with
  | [] => []
  | x :: l' => insert_by x (sort_by l')
  end.

Lemma insert_by_perm x l : Permutation (insert_by x l) (x :: l).
Proof.
  induction l as [|y l IH]; simpl; [done|].
  case_match; [|done]. rewrite IH. apply perm_swap.
Qed.

Lemma sort_by_perm l : Permutation (sort_by l) l.
Proof. induction l as [|x l IH]; simpl; [done|]. by rewrite insert_by_perm, IH. Qed.

Lemma elem_of_sort_by x l : x ∈ sort_by l <-> x ∈ l.
Proof. by rewrite sort_by_perm. Qed.

Lemma length_sort_by l : length (sort_by l) = length l.
Proof. apply Permutation_length, sort_by_perm. Qed.

(** [ngt x y]: [x] may stand before [y]. *)
Definition ngt (x y : A) : Prop := gt x y = false.

Section sorted.
Context (gt_asym : forall x y, gt x y = true -> gt y x = false)
        (ngt_trans : forall x y z, ngt x y -> ngt y z -> ngt x z).

Lemma insert_by_sorted x l :
  StronglySorted ngt l -> StronglySorted ngt (insert_by x l).
Proof.
  induction l as [|y l IH]; simpl; intros Hs.
  { repeat constructor. }
  apply StronglySorted_inv in Hs as [Hs Hy].
  destruct (gt x y) eqn:E.
  - constructor; [by apply IH|].
    apply Forall_forall. intros z Hz.
    rewrite insert_by_perm in Hz. apply elem_of_cons in Hz as [->|Hz].
    + by apply gt_asym.
    + rewrite Forall_forall in Hy. by apply Hy.
  - constructor; [by constructor|]. constructor; [done|].
    eapply Forall_impl; [exact Hy|]. intros z Hz. by eapply ngt_trans.
Qed.

Lemma sort_by_sorted l : StronglySorted ngt (sort_by l).
Proof. induction l; simpl; [constructor|]. by apply insert_by_sorted. Qed.
End sorted.

(** Equal elements keep their order. *)
Lemma insert_by_filter (p : A -> bool) x l :
  (forall y, y ∈ l -> p x = true -> p y = true -> gt x y = false) ->
  List.filter p (insert_by x l) = if p x then x :: List.filter p l else List.filter p l.
Proof.
  induction l as [|y l IH]; intros H; simpl; [done|].
  destruct (gt x y) eqn:E; [|done]. simpl.
  rewrite IH by (intros z Hz; apply H; by right).
  destruct (p x) eqn:Ex, (p y) eqn:Ey; try done.
  rewrite (H y) in E by (done || by left). done.
Qed.

Lemma sort_by_filter (p : A -> bool) l :
  (forall x y, x ∈ l -> y ∈ l -> p x = true -> p y = true -> gt x y = false) ->
  List.filter p (sort_by l) = List.filter p l.
Proof.
  induction l as [|x l IH]; intros H; [done|]. cbn [sort_by List.filter]. rewrite insert_by_filter.
  - rewrite IH; [done|]. intros y z Hy Hz. apply H; by right.
  - intros y Hy. apply H; [by left|]. right. by apply elem_of_sort_by.
Qed.
End sort.

(** A sort depends on the comparisons within the list only. *)
Lemma sort_by_ext {A} (gt gt' : A -> A -> bool) l :
  (forall x y, x ∈ l -> y ∈ l -> gt x y = gt' x y) -> sort_by gt l = sort_by gt' l.
Proof.
  induction l as [|x l IH]; intros H; [done|]. cbn [sort_by]. rewrite IH by (intros y z Hy Hz; apply H; by right).
  assert (Hx : forall y, y ∈ sort_by gt' l -> gt x y = gt' x y).
  { intros y Hy. apply H; [by left|]. right. by apply elem_of_sort_by in Hy. }
  clear IH H. induction (sort_by gt' l) as [|y l' IHl]; [done|]. cbn [insert_by]. rewrite (Hx y) by (by left).
  case_match; [|done]. f_equal. apply IHl. intros z Hz. apply Hx. by right.
Qed.

(** A comparison of integer keys sorts by them, and keeps the order of elements
    with the same key. *)
Lemma sort_by_key {A} (gt : A -> A -> bool) (key : A -> Z) l :
  (forall x y, x ∈ l -> y ∈ l -> gt x y = (key y <? key x)) ->
  StronglySorted (fun x y => key x <= key y) (sort_by gt l)
  /\ forall p, (forall x y, x ∈ l -> y ∈ l -> p x = true -> p y = true -> key x = key y) ->
       List.filter p (sort_by gt l) = List.filter p l.
Proof.
  intros H. split.
  - rewrite (sort_by_ext _ (fun x y => key y <? key x)) by done.
    eapply StronglySorted_impl; [|apply sort_by_sorted].
    + intros x y _ _. unfold ngt. by rewrite Z.ltb_ge.
    + intros x y. rewrite Z.ltb_lt, Z.ltb_ge. lia.
    + intros x y z. unfold ngt. rewrite !Z.ltb_ge. lia.
  - intros p Hp. apply sort_by_filter. intros x y Hx Hy Px Py. rewrite H, (Hp x y) by done. apply Z.ltb_irrefl.
Qed.

(** ** Results of code that may throw *)

Inductive result (E A : Type) := Ok (a : A) | Throw (e : E).
#[global] Arguments Ok {E A} a.
#[global] Arguments Throw {E A} e.

#[export] Instance result_ret {E} : MRet (result E) := fun A a => Ok a.
#[export] Instance result_bind {E} : MBind (result E) :=
  fun A B f m => match m with Ok a => f a | Throw e => Throw e end.

(** A list cut by the value of a function, the classes taken in any order. *)
Lemma concat_classes_perm {A K} `{EqDecision K} (f : A -> K) (ks : list K) (l : list A) :
  NoDup ks -> (forall x, x ∈ l -> f x ∈ ks) ->
  Permutation (concat (map (fun k => List.filter (fun x => bool_decide (f x = k)) l) ks)) l.
Proof.
  intros Hnd. revert l. induction Hnd as [|k ks Hk Hnd IH]; intros l Hl; simpl.
  { destruct l as [|x l]; [done|]. destruct (not_elem_of_nil (f x)). apply Hl. by left. }
  set (l' := List.filter (fun x => negb (bool_decide (f x = k))) l).
  assert (Hsplit : Permutation (List.filter (fun x => bool_decide (f x = k)) l ++ l') l).
  { unfold l'. clear. induction l as [|x l IH]; simpl; [done|].
    case_bool_decide; simpl; [by rewrite IH|]. by rewrite <- Permutation_middle, IH. }
  etransitivity; [|exact Hsplit]. apply Permutation_app_head.
  etransitivity; [|apply (IH l')].
  - match goal with |- Permutation ?a ?b => replace a with b; [done|] end.
    f_equal. apply map_ext_in. intros j Hj%list_elem_of_In.
    unfold l'. clear - Hj Hk.
    induction l as [|x l IH]; simpl; [done|].
    destruct (bool_decide_reflect (f x = k)); simpl; [|by rewrite IH].
    rewrite IH. symmetry. rewrite bool_decide_false; [done|]. congruence.
  - unfold l'. intros x [Hx Hf]%elem_of_filter_bool.
    apply Hl, elem_of_cons in Hx as [Hx|]; [|done].
    by rewrite (bool_decide_true _ Hx) in Hf.
Qed.

(** A function without repetitions on a list is injective there. *)
Lemma NoDup_map_eq {A B} (f : A -> B) (l : list A) x y :
  NoDup (map f l) -> x ∈ l -> y ∈ l -> f x = f y -> x = y.
Proof.
  induction l as [|z l IH]; simpl; [intros _ Hx; by apply not_elem_of_nil in Hx|].
  intros [Hz Hnd]%NoDup_cons Hx Hy Hf.
  assert (Hin : forall w, w ∈ l -> f w ∈ map f l) by (intros w Hw; by apply list_elem_of_In, in_map, list_elem_of_In).
  apply elem_of_cons in Hx as [->|Hx], Hy as [->|Hy]; [done| | |by apply IH].
  - destruct Hz. rewrite Hf. by apply Hin.
  - destruct Hz. rewrite <- Hf. by apply Hin.
Qed.

(** [Array.from(new Set(l))]: the first occurrences, in order. *)
Definition unique {A} `{EqDecision A} (l : list A) : list A :=
  fold_left (fun s x => if bool_decide (x ∈ s) then s else s ++ [x]) l [].

Lemma unique_fold {A} `{EqDecision A} (l s : list A) :
  NoDup s ->
  let u := fold_left (fun s x => if bool_decide (x ∈ s) then s else s ++ [x]) l s in
  NoDup u /\ forall x, x ∈ u <-> x ∈ s \/ x ∈ l.
Proof.
  revert s. induction l as [|y l IH]; intros s Hs; simpl; [split; [done|set_solver]|].
  case_bool_decide as Hy.
  - destruct (IH s Hs) as [H1 H2]. split; [done|]. set_solver.
  - destruct (IH (s ++ [y])) as [H1 H2].
    { apply NoDup_app. split_and!; [done|set_solver|apply NoDup_singleton]. }
    split; [done|]. intros x. rewrite H2, elem_of_app, list_elem_of_singleton, elem_of_cons. tauto.
Qed.

Lemma NoDup_unique {A} `{EqDecision A} (l : list A) : NoDup (unique l).
Proof. apply (unique_fold l []), NoDup_nil_2. Qed.

Lemma elem_of_unique {A} `{EqDecision A} (l : list A) x : x ∈ unique l <-> x ∈ l.
Proof. unfold unique. rewrite (proj2 (unique_fold l [] (NoDup_nil_2)) x). set_solver. Qed.

Lemma size_list_to_set_le (l : list string) : (size (list_to_set l : gset string) <= length l)%nat.
Proof.
  induction l as [|x l IH]; [apply Nat.eq_le_incl, (size_empty (C := gset string))|].
  rewrite list_to_set_cons. cbn [length].
  pose proof (size_union_alt {[x]} (list_to_set l : gset string)) as Hu. rewrite Hu, size_singleton.
  assert (size ((list_to_set l : gset string) ∖ {[x]}) <= size (list_to_set l : gset string))%nat
    by (apply subseteq_size; set_solver). lia.
Qed.
