(* ===== verification/JsNumber.v ===== *)
(** JavaScript numbers.  A finite binary64 value is an integer multiple of
    2^-1074 (the least positive subnormal), so [Fin k] stands for the number
    [k * 2^-1074]; addition and subtraction round to nearest, ties to even, at
    53 significant bits.  The sign of zero is not represented: no operation of
    the modelled code distinguishes the two zeros.  Comparison, [Math.floor],
    [Math.trunc], [Math.min], [Math.max] are here; conversion from and to
    strings is in JsString. *)
From S2P Require Import Prelude.

Inductive number := NaN | PInf | NInf | Fin (k : Z).

#[export] Instance number_eq_dec : EqDecision number.
Proof. solve_decision. Defined.

(** One, on the grid of multiples of 2^-1074. *)
Definition scale : Z := 2 ^ 1074.

(** The number [n]; exact for [|n| <= 2^53]. *)
Definition int (n : Z) : number := Fin (n * scale).

Lemma scale_pos : 0 < scale.
Proof. by apply Z.pow_pos_nonneg. Qed.

#[global] Opaque scale.

Lemma int_inj a b : int a = int b -> a = b.
Proof. unfold int. intros [= H]. pose proof scale_pos. nia. Qed.

(** ** Rounding *)

(** The number of bits of a natural number. *)
Definition bits (z : Z) : Z := if z =? 0 then 0 else Z.log2 z + 1.

(** The double nearest to [n / d] (in grid units; [d > 0]), ties to even. *)
Definition of_ratio (n d : Z) : number :=
  let a := Z.abs n in
  let s := Z.max 0 (bits (a / d) - 53) in
  let e := d * 2 ^ s in
  let q := a / e in
  let r := a mod e in
  let up := (e <? 2 * r) || ((e =? 2 * r) && Z.odd q) in
  let m := (if up then q + 1 else q) * 2 ^ s in
  if 2 ^ 1024 * scale <=? m then (if n <? 0 then NInf else PInf)
  else Fin (Z.sgn n * m).

Definition rnd (k : Z) : number := of_ratio k 1.

(** ** Predicates and comparisons *)

Definition is_finite (x : number) : bool :=
  match x with Fin _ => true | _ => false end.

Definition is_nan (x : number) : bool :=
  match x with NaN => true | _ => false end.

(** [x < y]. *)
Definition ltb (x y : number) : bool :=
  match x, y with
  | NaN, _ | _, NaN => false
  | Fin a, Fin b => a <? b
  | NInf, NInf => false
  | NInf, _ => true
  | _, PInf => negb (bool_decide (x = PInf))
  | _, _ => false
  end.

(** [x <= y], [x > y], [x >= y], [x === y]. *)
Definition leb (x y : number) : bool :=
  match x, y with
  | NaN, _ | _, NaN => false
  | Fin a, Fin b => a <=? b
  | NInf, _ | _, PInf => true
  | _, _ => false
  end.

Definition gtb (x y : number) : bool := ltb y x.
Definition geb (x y : number) : bool := leb y x.

Definition num_eqb (x y : number) : bool :=
  match x with NaN => false | _ => bool_decide (x = y) end.

(** The value is falsy: [0] and [NaN]. *)
Definition num_truthy (x : number) : bool :=
  match x with NaN => false | Fin k => negb (k =? 0) | _ => true end.

(** ** Arithmetic *)

Definition neg (x : number) : number :=
  match x with NaN => NaN | PInf => NInf | NInf => PInf | Fin k => Fin (- k) end.

Definition add (x y : number) : number :=
  match x, y with
  | Fin a, Fin b => rnd (a + b)
  | NaN, _ | _, NaN | PInf, NInf | NInf, PInf => NaN
  | PInf, _ | _, PInf => PInf
  | NInf, _ | _, NInf => NInf
  end.

Definition sub (x y : number) : number := add x (neg y).

Definition math_floor (x : number) : number :=
  match x with Fin k => Fin (k / scale * scale) | _ => x end.

Definition math_trunc (x : number) : number :=
  match x with Fin k => Fin (Z.quot k scale * scale) | _ => x end.

Definition math_min (x y : number) : number :=
  if is_nan x || is_nan y then NaN else if leb x y then x else y.

Definition math_max (x y : number) : number :=
  if is_nan x || is_nan y then NaN else if leb x y then y else x.

Definition math_abs (x : number) : number :=
  match x with NaN => NaN | PInf | NInf => PInf | Fin k => Fin (Z.abs k) end.

(** A safe integer, as an integer. *)
Definition to_Z (x : number) : option Z :=
  match x with
  | Fin k => if k mod scale =? 0 then Some (k / scale) else None
  | _ => None
  end.

(** ** Facts *)

Lemma bits_bound z : 0 <= z -> z < 2 ^ bits z.
Proof.
  intros Hz. unfold bits. destruct (Z.eqb_spec z 0) as [->|]; [done|].
  apply Z.log2_spec. lia.
Qed.

(** A grid integer with at most 53 significant bits is not rounded. *)
Lemma rnd_exact m t :
  0 <= t -> Z.abs m < 2 ^ 53 -> Z.abs m * 2 ^ t < 2 ^ 1024 * scale ->
  rnd (m * 2 ^ t) = Fin (m * 2 ^ t).
Proof.
  intros Ht Hm Hov. unfold rnd, of_ratio.
  rewrite Z.abs_mul, (Z.abs_eq (2 ^ t)) by lia. rewrite Z.div_1_r, Z.mul_1_l.
  set (s := Z.max 0 (bits (Z.abs m * 2 ^ t) - 53)).
  assert (Hs : 0 <= s <= t).
  { split; [lia|]. unfold s. apply Z.max_lub; [done|]. unfold bits.
    destruct (Z.eqb_spec (Z.abs m * 2 ^ t) 0); [lia|].
    assert (0 < Z.abs m) by (pose proof (Z.abs_nonneg m); nia).
    rewrite Z.log2_mul_pow2 by lia.
    assert (Z.log2 (Z.abs m) < 53) by (by apply Z.log2_lt_pow2). lia. }
  assert (Hsplit : Z.abs m * 2 ^ t = Z.abs m * 2 ^ (t - s) * 2 ^ s).
  { rewrite <- Z.mul_assoc, <- Z.pow_add_r by lia. do 2 f_equal. lia. }
  assert (0 < 2 ^ s) by (apply Z.pow_pos_nonneg; lia).
  rewrite Hsplit, Z.div_mul, Z.mod_mul by lia.
  replace (2 ^ s <? 2 * 0) with false by (symmetry; apply Z.ltb_ge; lia).
  replace (2 ^ s =? 2 * 0) with false by (symmetry; apply Z.eqb_neq; lia).
  simpl. rewrite <- Hsplit.
  destruct (Z.leb_spec (2 ^ 1024 * scale) (Z.abs m * 2 ^ t)); [lia|].
  f_equal. rewrite Z.sgn_mul, (Z.sgn_pos (2 ^ t)) by (apply Z.pow_pos_nonneg; lia).
  rewrite Z.mul_1_r, Z.mul_assoc. f_equal. by rewrite Z.mul_comm, Z.abs_sgn.
Qed.

#[local] Transparent scale.
Lemma rnd_int n : Z.abs n < 2 ^ 53 -> rnd (n * scale) = int n.
Proof.
  intros Hn. apply (rnd_exact n 1074); [lia|done|].
  unfold scale. pose proof (Z.pow_pos_nonneg 2 1074). 
  apply Z.mul_lt_mono_pos_r; [lia|]. 
  eapply Z.lt_trans; [exact Hn|]. apply Z.pow_lt_mono_r; lia.
Qed.
#[global] Opaque scale.

Lemma add_int a b : Z.abs (a + b) < 2 ^ 53 -> add (int a) (int b) = int (a + b).
Proof. intros H. unfold add, int. rewrite <- Z.mul_add_distr_r. by apply rnd_int. Qed.

Lemma sub_int a b : Z.abs (a - b) < 2 ^ 53 -> sub (int a) (int b) = int (a - b).
Proof.
  intros H. unfold sub, neg, int. rewrite <- Z.mul_opp_l. by apply add_int.
Qed.

Lemma ltb_int a b : ltb (int a) (int b) = (a <? b).
Proof.
  unfold ltb, int. pose proof scale_pos.
  destruct (Z.ltb_spec (a * scale) (b * scale)), (Z.ltb_spec a b); try done; nia.
Qed.

Lemma leb_int a b : leb (int a) (int b) = (a <=? b).
Proof.
  unfold leb, int. pose proof scale_pos.
  destruct (Z.leb_spec (a * scale) (b * scale)), (Z.leb_spec a b); try done; nia.
Qed.

Lemma floor_int a : math_floor (int a) = int a.
Proof. unfold math_floor, int. pose proof scale_pos. by rewrite Z.div_mul by lia. Qed.

Lemma to_Z_int a : to_Z (int a) = Some a.
Proof.
  unfold to_Z, int. pose proof scale_pos.
  by rewrite Z.mod_mul, Z.div_mul by lia.
Qed.

(** The orders. *)
Lemma leb_total x y : is_nan x = false -> is_nan y = false -> leb x y = true \/ leb y x = true.
Proof. destruct x, y; simpl; auto; try done. intros _ _. rewrite !Z.leb_le. lia. Qed.

Lemma leb_trans x y z : leb x y = true -> leb y z = true -> leb x z = true.
Proof. destruct x, y, z; simpl; try done. rewrite !Z.leb_le. lia. Qed.

Lemma leb_refl x : is_nan x = false -> leb x x = true.
Proof. destruct x; simpl; try done. intros _. apply Z.leb_refl. Qed.

Lemma leb_antisym x y : leb x y = true -> leb y x = true -> x = y.
Proof. destruct x, y; simpl; try done. rewrite !Z.leb_le. intros. f_equal. lia. Qed.

Lemma ltb_negb_leb x y :
  is_nan x = false -> is_nan y = false -> ltb x y = negb (leb y x).
Proof.
  destruct x, y; simpl; try done; try (by rewrite bool_decide_eq_true_2 by done);
    intros _ _; try (by rewrite bool_decide_eq_false_2 by done).
  by rewrite Z.ltb_antisym.
Qed.

Lemma floor_le x : is_nan x = false -> leb (math_floor x) x = true.
Proof.
  destruct x; simpl; try done. intros _. apply Z.leb_le.
  pose proof scale_pos. pose proof (Z.mul_div_le k scale). lia.
Qed.

Lemma floor_integral x k : math_floor x = Fin k -> exists n, math_floor x = int n.
Proof. destruct x; simpl; try done. intros _. by eexists. Qed.

Lemma floor_nonneg x : leb (int 0) x = true -> leb (int 0) (math_floor x) = true.
Proof.
  destruct x; simpl; try done. rewrite !Z.leb_le. pose proof scale_pos.
  intros. assert (0 <= k / scale) by (apply Z.div_pos; lia). nia.
Qed.

#[export] Hint Rewrite ltb_int leb_int floor_int to_Z_int : js.

(** Rounding keeps the sign, so a difference compared with zero compares the
    operands. *)
Lemma rnd_pos k : gtb (rnd k) (int 0) = (0 <? k).
Proof.
  unfold gtb, rnd, of_ratio. rewrite Z.div_1_r, Z.mul_1_l.
  change (int 0) with (Fin 0).
  set (s := Z.max 0 (bits (Z.abs k) - 53)). set (e := 2 ^ s).
  assert (He : 0 < e) by (apply Z.pow_pos_nonneg; lia).
  set (m := (if _ : bool then _ + 1 else _) * e).
  destruct (Z.ltb_spec 0 k) as [Hk|Hk].
  - assert (Hq : 1 <= Z.abs k / e).
    { apply Z.div_le_lower_bound; [done|]. rewrite Z.mul_1_r. unfold e.
      destruct (Z.max_spec 0 (bits (Z.abs k) - 53)) as [[? Hs]|[? Hs]]; fold s in Hs; rewrite Hs.
      - unfold bits in *. destruct (Z.eqb_spec (Z.abs k) 0); [lia|].
        transitivity (2 ^ Z.log2 (Z.abs k)); [apply Z.pow_le_mono_r; lia|].
        apply Z.log2_spec. lia.
      - rewrite Z.pow_0_r. lia. }
    assert (Hm : 0 < m) by (unfold m; case_match; nia).
    destruct (Z.leb_spec (2 ^ 1024 * scale) m).
    + replace (k <? 0) with false by (symmetry; apply Z.ltb_ge; lia). simpl.
      done.
    + simpl. rewrite Z.sgn_pos by done. apply Z.ltb_lt. lia.
  - assert (Hm : 0 <= m).
    { unfold m. assert (0 <= Z.abs k / e) by (apply Z.div_pos; lia). case_match; nia. }
    destruct (Z.leb_spec (2 ^ 1024 * scale) m) as [Hov|].
    + destruct (Z.ltb_spec k 0); [done|]. assert (k = 0) as -> by lia. exfalso.
      revert Hov. unfold m. rewrite Z.abs_0, Z.div_0_l, Z.mod_0_l by lia.
      replace (e <? 2 * 0) with false by (symmetry; apply Z.ltb_ge; lia).
      replace (e =? 2 * 0) with false by (symmetry; apply Z.eqb_neq; lia).
      pose proof scale_pos. simpl. nia.
    + simpl. apply Z.ltb_ge. destruct (Z.eqb_spec k 0) as [->|]; [simpl; lia|].
      rewrite Z.sgn_neg by lia. lia.
Qed.

Lemma sub_gt_0 a b : gtb (sub (Fin a) (Fin b)) (int 0) = (b <? a).
Proof.
  unfold sub, neg, add. rewrite rnd_pos.
  destruct (Z.ltb_spec 0 (a + - b)), (Z.ltb_spec b a); lia.
Qed.

(** ** Sorting by a number

    [l.sort((a, b) => f(a) - f(b))] and [l.sort((a, b) => f(b) - f(a))] of
    elements whose [f] is finite. *)
Definition fin_key (x : number) : Z := match x with Fin k => k | _ => 0 end.

Lemma sort_by_number {A} (f : A -> number) l :
  Forall (fun x => is_finite (f x) = true) l ->
  let sorted := sort_by (fun x y => gtb (sub (f x) (f y)) (int 0)) l in
  StronglySorted (fun x y => leb (f x) (f y) = true) sorted
  /\ forall t, List.filter (fun x => bool_decide (f x = t)) sorted = List.filter (fun x => bool_decide (f x = t)) l.
Proof.
  intros Hf sorted. rewrite Forall_forall in Hf. destruct (sort_by_key (fun x y => gtb (sub (f x) (f y)) (int 0))
    (fun x => fin_key (f x)) l) as [H1 H2].
  { intros x y Hx%Hf Hy%Hf. destruct (f x), (f y); try done. apply sub_gt_0. }
  split.
  - eapply StronglySorted_impl; [|exact H1]. intros x y Hx%elem_of_sort_by%Hf Hy%elem_of_sort_by%Hf. cbv beta.
    destruct (f x), (f y); try done. cbn. by rewrite Z.leb_le.
  - intros t. apply H2. by intros x y _ _ -> %bool_decide_eq_true ->%bool_decide_eq_true.
Qed.

Lemma sort_by_number_desc {A} (f : A -> number) l :
  Forall (fun x => is_finite (f x) = true) l ->
  let sorted := sort_by (fun x y => gtb (sub (f y) (f x)) (int 0)) l in
  StronglySorted (fun x y => leb (f y) (f x) = true) sorted
  /\ forall t, List.filter (fun x => bool_decide (f x = t)) sorted = List.filter (fun x => bool_decide (f x = t)) l.
Proof.
  intros Hf sorted. rewrite Forall_forall in Hf. destruct (sort_by_key (fun x y => gtb (sub (f y) (f x)) (int 0))
    (fun x => - fin_key (f x)) l) as [H1 H2].
  { intros x y Hx%Hf Hy%Hf. destruct (f x), (f y); try done. rewrite sub_gt_0. cbn.
    destruct (Z.ltb_spec k k0), (Z.ltb_spec (- k0) (- k)); lia. }
  split.
  - eapply StronglySorted_impl; [|exact H1]. intros x y Hx%elem_of_sort_by%Hf Hy%elem_of_sort_by%Hf. cbv beta.
    destruct (f x), (f y); try done. cbn. rewrite Z.leb_le. lia.
  - intros t. apply H2. by intros x y _ _ -> %bool_decide_eq_true ->%bool_decide_eq_true.
Qed.
