(* ===== verification/JsString.v ===== *)
(** JavaScript strings restricted to the Latin-1 code units U+0000 to U+00FF
    (one [ascii] per code unit), with the String.prototype operations the
    modelled code uses, and the conversions between strings and numbers
    ([Number(s)], [Number.parseFloat(s)], [String(n)]). *)
From S2P Require Import Prelude JsNumber.
From Stdlib Require Import Ascii.
From Stdlib Require Import String.
Export AsciiSyntax.
Abbreviation ascii := Ascii.ascii.
Delimit Scope char_scope with char.
#[global] Open Scope char_scope.

#[global] Open Scope string_scope.
#[global] Open Scope list_scope.
#[global] Open Scope Z_scope.

Notation "a ++s b" := (String.append a b) (at level 60, right associativity) : string_scope.

#[global] Arguments String.append !_ _ / : simpl nomatch.

(** ** Characters *)

Definition code (c : ascii) : N := N_of_ascii c.

Definition nl : string := String "010" "".
Definition cr : string := String "013" "".

(** WhiteSpace and LineTerminator code units of Latin-1. *)
Definition is_ws (c : ascii) : bool :=
  let n := code c in
  ((9 <=? n) && (n <=? 13) || (n =? 32) || (n =? 160))%N.

Definition lower_char (c : ascii) : ascii :=
  let n := code c in
  if ((65 <=? n) && (n <=? 90) || (192 <=? n) && (n <=? 222) && negb (n =? 215))%N
  then ascii_of_N (n + 32) else c.

Definition is_digit (c : ascii) : bool := ((48 <=? code c) && (code c <=? 57))%N.

(** ** Operations *)

Fixpoint map_str (f : ascii -> ascii) (s : string) : string :=
  match s with "" => "" | String c s' => String (f c) (map_str f s') end.

Fixpoint filter_str (f : ascii -> bool) (s : string) : string :=
  match s with
  | "" => ""
  | String c s' => if f c then String c (filter_str f s') else filter_str f s'
  end.

Definition to_lower : string -> string := map_str lower_char.

Fixpoint trim_start_by (p : ascii -> bool) (s : string) : string :=
  match s with
  | String c s' => if p c then trim_start_by p s' else s
  | "" => ""
  end.

Fixpoint trim_end_by (p : ascii -> bool) (s : string) : string :=
  match s with
  | "" => ""
  | String c s' =>
      match trim_end_by p s' with
      | "" => if p c then "" else String c ""
      | r => String c r
      end
  end.

Definition trim_start := trim_start_by is_ws.
Definition trim_end := trim_end_by is_ws.
Definition trim (s : string) : string := trim_end (trim_start s).

Definition truthy_str (s : string) : bool := negb (bool_decide (s = "")).

(** [a || b] on strings. *)
Definition str_or (a b : string) : string := if truthy_str a then a else b.

Definition starts_with (p s : string) : bool := String.prefix p s.

(** [s.indexOf(p)], [None] for -1. *)
Fixpoint index_of (p s : string) : option nat :=
  if String.prefix p s then Some O
  else match s with "" => None | String _ s' => S <$> index_of p s' end.

Definition includes (p s : string) : bool := bool_decide (is_Some (index_of p s)).

(** [s.slice(n)] and [s.slice(0, n)] for a non-negative [n]. *)
Fixpoint sdrop (n : nat) (s : string) : string :=
  match n, s with
  | O, _ => s
  | _, "" => ""
  | S n, String _ s' => sdrop n s'
  end.

Fixpoint stake (n : nat) (s : string) : string :=
  match n, s with
  | O, _ | _, "" => ""
  | S n, String c s' => String c (stake n s')
  end.

(** [s.split(c)] for a separator of one character. *)
Fixpoint split_on (p : ascii -> bool) (s : string) : list string :=
  match s with
  | "" => [""]
  | String c s' =>
      if p c then "" :: split_on p s'
      else match split_on p s' with
           | h :: t => String c h :: t
           | [] => [String c ""]
           end
  end.

(** [s.split(/[..]+/)]: a run of separators separates once; [insep] says that
    the preceding character was a separator. *)
Fixpoint split_runs (p : ascii -> bool) (insep : bool) (s : string) : list string :=
  match s with
  | "" => [""]
  | String c s' =>
      if p c then (if insep then split_runs p true s' else "" :: split_runs p true s')
      else match split_runs p false s' with
           | h :: t => String c h :: t
           | [] => [String c ""]
           end
  end.

Definition is_char (a : ascii) (c : ascii) : bool := bool_decide (a = c).
Definition is_comma_nl (c : ascii) : bool := is_char "," c || is_char "010" c.

Definition join (sep : string) (l : list string) : string := String.concat sep l.

(** [.map((s) => s.trim()).filter(Boolean)]. *)
Definition trimmed_nonempty (l : list string) : list string :=
  List.filter truthy_str (map trim l).

(** ** Number(s) and Number.parseFloat(s) *)

(** [m * 10^e], rounded; the guards keep the powers small and are the values
    that rounding gives outside them. *)
Definition of_decimal (m e : Z) : number :=
  if m =? 0 then Fin 0
  else if 310 <? e then PInf
  else if e + Z.of_nat (String.length (pretty m)) <? -330 then Fin 0
  else if 0 <=? e then of_ratio (m * 10 ^ e * scale) 1
  else of_ratio (m * scale) (10 ^ (- e)).

(** Read digits, accumulating [m] and their count [n]. *)
Fixpoint digits (m : Z) (n : nat) (s : string) : Z * nat * string :=
  match s with
  | String c s' =>
      if is_digit c then digits (10 * m + (Z.of_N (code c) - 48)) (S n) s' else (m, n, s)
  | "" => (m, n, "")
  end.

(** An exponent part, if there is a whole one. *)
Definition exponent (s : string) : Z * string :=
  match s with
  | String c s' =>
      if is_char "e" c || is_char "E" c then
        let '(sg, s'') := match s' with
                          | String "+" t => (1, t)
                          | String "-" t => (-1, t)
                          | _ => (1, s')
                          end in
        let '(m, n, r) := digits 0 0 s'' in
        if (n =? 0)%nat then (0, s) else (sg * m, r)
      else (0, s)
  | "" => (0, "")
  end.

(** The longest StrUnsignedDecimalLiteral prefix and the rest. *)
Definition unsigned_prefix (s : string) : option (number * string) :=
  if starts_with "Infinity" s then Some (PInf, sdrop 8 s)
  else
    let '(m1, n1, r1) := digits 0 0 s in
    let '(m2, n2, r2) := match r1 with
                         | String "." t => digits m1 0 t
                         | _ => (m1, O, r1)
                         end in
    if (n1 + n2 =? 0)%nat then None
    else let '(e, r3) := exponent r2 in
         Some (of_decimal m2 (e - Z.of_nat n2), r3).

Definition signed_prefix (s : string) : option (number * string) :=
  match s with
  | String "-" t => '(x, r) ← unsigned_prefix t; Some (neg x, r)
  | String "+" t => unsigned_prefix t
  | _ => unsigned_prefix s
  end.

Definition hex_digit (c : ascii) : option Z :=
  let n := Z.of_N (code (lower_char c)) in
  if (48 <=? n) && (n <=? 57) then Some (n - 48)
  else if (97 <=? n) && (n <=? 102) then Some (n - 87) else None.

Fixpoint radix_digits (b m : Z) (s : string) : option Z :=
  match s with
  | "" => Some m
  | String c s' =>
      d ← hex_digit c; if d <? b then radix_digits b (b * m + d) s' else None
  end.

Definition radix_literal (b : Z) (s : string) : number :=
  if truthy_str s then
    match radix_digits b 0 s with Some m => of_ratio (m * scale) 1 | None => NaN end
  else NaN.

(** [Number(s)]. *)
Definition str_to_number (s : string) : number :=
  match trim s with
  | "" => Fin 0
  | String "0" (String "x" t) | String "0" (String "X" t) => radix_literal 16 t
  | String "0" (String "o" t) | String "0" (String "O" t) => radix_literal 8 t
  | String "0" (String "b" t) | String "0" (String "B" t) => radix_literal 2 t
  | t => match signed_prefix t with Some (x, "") => x | _ => NaN end
  end.

(** [Number.parseFloat(s)]. *)
Definition parse_float (s : string) : number :=
  match signed_prefix (trim_start s) with Some (x, _) => x | None => NaN end.

(** ** String(n) *)

Fixpoint zeros (n : nat) : string :=
  match n with O => "" | S n => String "0" (zeros n) end.

(** The least [j >= 1] with [k * 10^j >= scale], from [j] on. *)
Fixpoint neg_exponent (fuel : nat) (k j : Z) : Z :=
  match fuel with
  | O => j
  | S f => if scale <=? k * 10 ^ j then j else neg_exponent f k (j + 1)
  end.

(** [n] with [10^(n-1) <= k / scale < 10^n], for [k > 0]. *)
Definition decimal_exponent (k : Z) : Z :=
  if scale <=? k then Z.of_nat (String.length (pretty (k / scale)))
  else 1 - neg_exponent 400 k 1.

(** The first precision [p] whose nearest decimal reads back as [k]. *)
Fixpoint shortest (fuel : nat) (k n p : Z) : Z * Z :=
  let e := p - n in
  let '(a, b) := if 0 <=? e then (k * 10 ^ e, scale) else (k, scale * 10 ^ (- e)) in
  let s := (2 * a + b) / (2 * b) in
  match fuel with
  | O => (s, p)
  | S f => if bool_decide (of_decimal s (n - p) = Fin k) then (s, p)
           else shortest f k n (p + 1)
  end.

Definition pos_to_string (k : Z) : string :=
  let n0 := decimal_exponent k in
  let '(s0, p0) := shortest 16 k n0 1 in
  let carry := s0 =? 10 ^ p0 in
  let '(s, p, n) := if carry then (1, 1, n0 + 1) else (s0, p0, n0) in
  let ds := pretty s in
  if (p <=? n) && (n <=? 21) then ds ++s zeros (Z.to_nat (n - p))
  else if (0 <? n) && (n <=? 21) then stake (Z.to_nat n) ds ++s "." ++s sdrop (Z.to_nat n) ds
  else if (-6 <? n) && (n <=? 0) then "0." ++s zeros (Z.to_nat (- n)) ++s ds
  else
    let ex := (if 0 <=? n - 1 then "e+" else "e-") ++s pretty (Z.abs (n - 1)) in
    if p =? 1 then ds ++s ex else stake 1 ds ++s "." ++s sdrop 1 ds ++s ex.

(** [String(x)]; integers up to 2^53 are printed in decimal directly. *)
Definition num_to_string (x : number) : string :=
  match x with
  | NaN => "NaN"
  | PInf => "Infinity"
  | NInf => "-Infinity"
  | Fin k =>
      if (k mod scale =? 0) && (Z.abs (k / scale) <=? 2 ^ 53) then pretty (k / scale)
      else if k <? 0 then "-" ++s pos_to_string (- k) else pos_to_string k
  end.

(** ** Tests against known conversions *)

Example str_to_number_ex :
  map str_to_number [" 42 "; ""; "1e3"; "0x1F"; "abc"; "-7"; "12px"] =
  [int 42; int 0; int 1000; int 31; NaN; int (-7); NaN].
Proof. by vm_compute. Qed.

Example num_to_string_ex :
  map (fun s => num_to_string (str_to_number s))
    ["0.1"; "123456789012345680000"; "1e21"; "1.5"; "5e-324"; "0.000001"; "1e-7"; "1.7976931348623157e308"; "-0.25"; "1e400"] =
  ["0.1"; "123456789012345680000"; "1e+21"; "1.5"; "5e-324"; "0.000001"; "1e-7"; "1.7976931348623157e+308"; "-0.25"; "Infinity"].
Proof. by vm_compute. Qed.

(** ** Facts *)

Lemma append_nil_r s : (s ++s "") = s.
Proof. induction s; simpl; congruence. Qed.

Lemma append_assoc a b c : ((a ++s b) ++s c) = (a ++s b ++s c).
Proof. induction a; simpl; congruence. Qed.

Lemma length_append a b : String.length (a ++s b) = (String.length a + String.length b)%nat.
Proof. induction a; simpl; congruence. Qed.

Lemma append_inj_l a b c : (a ++s b) = (a ++s c) -> b = c.
Proof. induction a; simpl; [done|]. intros [= H]. auto. Qed.

Lemma truthy_str_true s : truthy_str s = true <-> s <> "".
Proof. unfold truthy_str. rewrite negb_true_iff. apply bool_decide_eq_false. Qed.

Lemma truthy_str_false s : truthy_str s = false <-> s = "".
Proof. unfold truthy_str. rewrite negb_false_iff. apply bool_decide_eq_true. Qed.

Lemma num_to_string_int n : Z.abs n <= 2 ^ 53 -> num_to_string (int n) = pretty n.
Proof.
  intros H. unfold num_to_string, int. pose proof scale_pos.
  rewrite Z.mod_mul, Z.div_mul by lia.
  by replace (Z.abs n <=? 2 ^ 53) with true by (symmetry; apply Z.leb_le; lia).
Qed.

(** Trimming. *)
Lemma trim_start_by_idem p s : trim_start_by p (trim_start_by p s) = trim_start_by p s.
Proof. induction s as [|c s IH]; simpl; [done|]. destruct (p c) eqn:E; simpl; [done|by rewrite E]. Qed.

Lemma trim_end_by_idem p s : trim_end_by p (trim_end_by p s) = trim_end_by p s.
Proof.
  induction s as [|c s IH]; simpl; [done|].
  destruct (trim_end_by p s) as [|d r] eqn:E.
  - destruct (p c) eqn:Hc; simpl; [done|by rewrite Hc].
  - cbn [trim_end_by] in *. by rewrite IH.
Qed.

Lemma trim_start_end p s :
  trim_start_by p s = s -> trim_start_by p (trim_end_by p s) = trim_end_by p s.
Proof.
  destruct s as [|c s]; simpl; [done|]. destruct (p c) eqn:Hc.
  - intros H. exfalso. assert (Hl : forall t, (String.length (trim_start_by p t) <= String.length t)%nat).
    { clear. induction t; simpl; [done|]. case_match; simpl; lia. }
    specialize (Hl s). rewrite H in Hl. simpl in Hl. lia.
  - intros _. destruct (trim_end_by p s); simpl; by rewrite Hc.
Qed.

Lemma trim_idem s : trim (trim s) = trim s.
Proof.
  unfold trim, trim_start, trim_end.
  rewrite trim_start_end by apply trim_start_by_idem. apply trim_end_by_idem.
Qed.

Lemma trimmed_nonempty_spec x l : x ∈ trimmed_nonempty l -> trim x = x /\ x <> "".
Proof.
  unfold trimmed_nonempty. rewrite elem_of_filter_bool. intros [Hx Ht%truthy_str_true].
  apply list_elem_of_In, in_map_iff in Hx as (y & <- & _). by rewrite trim_idem.
Qed.

Lemma trimmed_nonempty_idem l : trimmed_nonempty (trimmed_nonempty l) = trimmed_nonempty l.
Proof.
  unfold trimmed_nonempty at 1. rewrite filter_bool_id.
  - rewrite <- (List.map_id (trimmed_nonempty l)) at 2. apply map_ext_in.
    intros x Hx%list_elem_of_In. by apply trimmed_nonempty_spec in Hx as [].
  - intros x (y & <- & Hy)%list_elem_of_In%in_map_iff. apply truthy_str_true.
    apply list_elem_of_In, trimmed_nonempty_spec in Hy as [-> ?]. done.
Qed.

#[export] Hint Rewrite trim_idem trimmed_nonempty_idem : js.

(** Trimming leaves alone what starts with a trimmed string and ends with a
    decimal numeral. *)
Lemma trim_end_app a b : trim_end b = b -> b <> "" -> trim_end (a ++s b) = (a ++s b).
Proof.
  intros Hb Hne. induction a as [|c a IH]; [done|].
  unfold trim_end in *. cbn [String.append trim_end_by]. rewrite IH.
  destruct (a ++s b) eqn:E; [|done]. destruct a; simpl in E; [congruence|done].
Qed.

Lemma trim_end_cons c s : is_ws c = false -> trim_end s = s -> trim_end (String c s) = String c s.
Proof.
  unfold trim_end. intros Hc Hs. cbn [trim_end_by]. rewrite Hs, Hc. by destruct s.
Qed.

Lemma pretty_N_go_trim n s :
  trim_end s = s -> trim_end (pretty_N_go n s) = pretty_N_go n s.
Proof.
  revert s. induction (N.lt_wf_0 n) as [n _ IH]. intros s Hs.
  destruct (decide (0 < n)%N) as [Hn|Hn].
  - rewrite pretty_N_go_step by done. apply IH; [by apply N.div_lt|].
    apply trim_end_cons; [|done]. unfold pretty_N_char. by repeat case_match.
  - assert (n = 0%N) as -> by lia. by rewrite pretty_N_go_0.
Qed.

Lemma pretty_trim_end z : 0 <= z -> trim_end (pretty z) = pretty z /\ pretty z <> "".
Proof.
  intros Hz. destruct z as [|p|p]; [done| |lia]. unfold pretty, pretty_Z, pretty, pretty_positive, pretty, pretty_N.
  rewrite decide_False by done. split; [by apply pretty_N_go_trim|].
  rewrite pretty_N_go_step by lia.
  enough (forall m s, s <> "" -> pretty_N_go m s <> "") as H by (by apply H).
  intros m. induction (N.lt_wf_0 m) as [m _ IH]. intros s Hs.
  destruct (decide (0 < m)%N) as [Hn|Hn].
  - rewrite pretty_N_go_step by done. apply IH; [by apply N.div_lt|done].
  - assert (m = 0%N) as -> by lia. by rewrite pretty_N_go_0.
Qed.

Lemma trim_start_app a b : trim_start a = a -> a <> "" -> trim_start (a ++s b) = (a ++s b).
Proof.
  unfold trim_start. destruct a as [|c a]; [done|]. cbn [String.append trim_start_by].
  destruct (is_ws c) eqn:E; [|done]. intros H _. exfalso.
  assert (Hl : forall p t, (String.length (trim_start_by p t) <= String.length t)%nat).
  { clear. induction t; simpl; [done|]. case_match; simpl; lia. }
  specialize (Hl is_ws a). rewrite H in Hl. simpl in Hl. lia.
Qed.

Lemma trim_fixed s : trim s = s -> trim_start s = s /\ trim_end s = s.
Proof.
  intros H. assert (Hs : trim_start s = s).
  { rewrite <- H. unfold trim, trim_start, trim_end.
    apply trim_start_end, trim_start_by_idem. }
  split; [done|]. unfold trim in H. by rewrite Hs in H.
Qed.
