(* ===== verification/JsValue.v ===== *)
(** JavaScript data values (what [JSON.parse] can return, and [undefined]),
    objects as records of own properties in property order, the conversions
    and operators the modelled code applies to [unknown] values, and the JSON
    text interface. *)
From S2P Require Import Prelude JsNumber JsString.

(** ** Objects used as maps: [Record<string, V>]

    An object is the list of its own properties in the order in which
    [Object.keys] and [Object.entries] list them: array-index keys first, in
    increasing order, then the other keys in insertion order.  (The key
    [__proto__], which an assignment treats specially, is not modelled.) *)
Abbreviation obj V := (list (string * V)).

Definition all_digits (s : string) : bool :=
  match filter_str (fun c => negb (is_digit c)) s with "" => truthy_str s | _ => false end.

(** The array index a key denotes, if it is one. *)
Definition array_index (s : string) : option Z :=
  let '(m, _, _) := digits 0 0 s in
  if all_digits s && bool_decide (pretty m = s) && (m <? 2 ^ 32 - 1) then Some m else None.

Section obj.
Context {V : Type}.
Implicit Types (o : obj V) (k : string) (v : V).

Definition keys o : list string := map fst o.

Fixpoint get k o : option V :=
  match o with
  | [] => None
  | (k', v) :: o' => if bool_decide (k = k') then Some v else get k o'
  end.

Definition has k o : bool := bool_decide (is_Some (get k o)).

Fixpoint replace k v o : obj V :=
  match o with
  | [] => []
  | (k', v') :: o' =>
      if bool_decide (k = k') then (k, v) :: o' else (k', v') :: replace k v o'
  end.

Fixpoint insert_index (n : Z) k v o : obj V :=
  match o with
  | [] => [(k, v)]
  | (k', v') :: o' =>
      match array_index k' with
      | Some n' => if n <? n' then (k, v) :: o else (k', v') :: insert_index n k v o'
      | None => (k, v) :: o
      end
  end.

(** [o[k] = v]. *)
Definition set k v o : obj V :=
  if has k o then replace k v o
  else match array_index k with
       | Some n => insert_index n k v o
       | None => app o [(k, v)]
       end.

(** [delete o[k]]. *)
Definition remove k o : obj V := List.filter (fun p => negb (bool_decide (k = fst p))) o.

(** No key twice. *)
Definition wf o : Prop := NoDup (keys o).

#[export] Instance wf_dec o : Decision (wf o).
Proof. unfold wf. apply _. Defined.

Lemma length_keys o : length (keys o) = length o.
Proof. apply length_map. Qed.

Lemma get_in k v o : get k o = Some v -> (k, v) ∈ o.
Proof.
  induction o as [|[k' v'] o IH]; simpl; [done|].
  case_bool_decide; intros; simplify_eq; [by left|right; auto].
Qed.

Lemma in_keys k o : k ∈ keys o <-> is_Some (get k o).
Proof.
  induction o as [|[k' v'] o IH]; simpl.
  { split; [by intros ?%not_elem_of_nil|by intros [? ?]]. }
  rewrite elem_of_cons, IH. case_bool_decide as H.
  { subst. split; [by eauto|by left]. }
  split; [by intros [?|?]|by right].
Qed.

Lemma get_none k o : get k o = None <-> k ∉ keys o.
Proof. rewrite in_keys, <- eq_None_not_Some. done. Qed.

Lemma wf_get k v o : wf o -> (k, v) ∈ o -> get k o = Some v.
Proof.
  unfold wf, keys. induction o as [|[k' v'] o IH]; simpl; intros Hwf Hin.
  { by apply not_elem_of_nil in Hin. }
  apply NoDup_cons in Hwf as [Hni Hwf]. apply elem_of_cons in Hin as [[= -> ->]|Hin].
  { by rewrite bool_decide_true. }
  rewrite bool_decide_false; [by auto|]. intros ->. apply Hni.
  apply list_elem_of_fmap. by exists (k', v).
Qed.

Lemma has_true k o : has k o = true <-> is_Some (get k o).
Proof. apply bool_decide_eq_true. Qed.

Lemma has_false k o : has k o = false <-> get k o = None.
Proof. unfold has. by rewrite bool_decide_eq_false, <- eq_None_not_Some. Qed.

Lemma get_replace k k' v o :
  get k (replace k' v o) =
    if bool_decide (k = k') then (if has k o then Some v else None) else get k o.
Proof.
  unfold has. induction o as [|[k1 v1] o IH]; simpl; [by case_bool_decide|].
  destruct (decide (k' = k1)) as [->|Hne].
  - rewrite (bool_decide_true (k1 = k1)) by done. simpl. by case_bool_decide.
  - rewrite (bool_decide_false (k' = k1)) by done. simpl. rewrite IH.
    destruct (decide (k = k')) as [->|]; [|by rewrite (bool_decide_false (k = k'))].
    by rewrite (bool_decide_false (k' = k1)).
Qed.

Lemma get_insert_index n k k' v o :
  get k' o = None ->
  get k (insert_index n k' v o) = if bool_decide (k = k') then Some v else get k o.
Proof.
  induction o as [|[k1 v1] o IH]; simpl; [done|].
  destruct (decide (k' = k1)) as [->|H1]; [by rewrite bool_decide_true|].
  rewrite (bool_decide_false (k' = k1)) by done. intros Hn.
  destruct (array_index k1) as [m|]; [destruct (n <? m)|]; simpl; try done.
  rewrite IH by done.
  destruct (decide (k = k1)) as [->|]; [|by rewrite (bool_decide_false (k = k1))].
  rewrite !(bool_decide_true (k1 = k1)) by done.
  by rewrite (bool_decide_false (k1 = k')) by congruence.
Qed.

Lemma get_app_single k k' v o :
  get k' o = None ->
  get k (o ++ [(k', v)]) = if bool_decide (k = k') then Some v else get k o.
Proof.
  induction o as [|[k1 v1] o IH]; simpl; [done|].
  destruct (decide (k' = k1)) as [->|H1]; [by rewrite bool_decide_true|].
  rewrite (bool_decide_false (k' = k1)) by done. intros Hn. rewrite IH by done.
  destruct (decide (k = k1)) as [->|]; [|by rewrite (bool_decide_false (k = k1))].
  rewrite !(bool_decide_true (k1 = k1)) by done.
  by rewrite (bool_decide_false (k1 = k')) by congruence.
Qed.

Lemma get_set k k' v o :
  get k (set k' v o) = if bool_decide (k = k') then Some v else get k o.
Proof.
  unfold set. destruct (has k' o) eqn:E.
  - rewrite get_replace. case_bool_decide; [|done]. subst. by rewrite E.
  - apply has_false in E.
    destruct (array_index k'); [by apply get_insert_index|by apply get_app_single].
Qed.

Lemma get_set_eq k v o : get k (set k v o) = Some v.
Proof. rewrite get_set. by rewrite bool_decide_true. Qed.

Lemma get_set_ne k k' v o : k <> k' -> get k (set k' v o) = get k o.
Proof. intros. rewrite get_set. by rewrite bool_decide_false. Qed.

Lemma get_remove k k' o :
  get k (remove k' o) = if bool_decide (k = k') then None else get k o.
Proof.
  induction o as [|[k1 v1] o IH]; simpl; [by case_bool_decide|].
  destruct (decide (k' = k1)) as [->|].
  - rewrite (bool_decide_true (k1 = k1)) by done. simpl. rewrite IH.
    by destruct (bool_decide (k = k1)).
  - rewrite (bool_decide_false (k' = k1)) by done. simpl. rewrite IH.
    destruct (decide (k = k1)) as [->|]; [|by rewrite (bool_decide_false (k = k1))].
    rewrite !(bool_decide_true (k1 = k1)) by done.
    by rewrite (bool_decide_false (k1 = k')) by congruence.
Qed.

Lemma in_keys_set k k' v o : k ∈ keys (set k' v o) <-> k = k' \/ k ∈ keys o.
Proof. rewrite !in_keys, get_set. case_bool_decide; naive_solver. Qed.

Lemma keys_replace k v o : keys (replace k v o) = keys o.
Proof.
  unfold keys. induction o as [|[k1 v1] o IH]; simpl; [done|].
  case_bool_decide; simpl; congruence.
Qed.

Lemma insert_index_perm n k v o : Permutation.Permutation (insert_index n k v o) ((k, v) :: o).
Proof.
  induction o as [|[k1 v1] o IH]; simpl; [done|].
  destruct (array_index k1) as [m|]; [destruct (n <? m)|]; try done.
  rewrite IH. apply Permutation.perm_swap.
Qed.

Lemma set_new_perm k v o :
  has k o = false -> Permutation.Permutation (set k v o) ((k, v) :: o).
Proof.
  intros E. unfold set. rewrite E. destruct (array_index k).
  - apply insert_index_perm.
  - symmetry. apply Permutation.Permutation_cons_append.
Qed.

Lemma wf_set k v o : wf o -> wf (set k v o).
Proof.
  unfold wf. intros H. destruct (has k o) eqn:E.
  - unfold set. by rewrite E, keys_replace.
  - unfold keys. rewrite (set_new_perm k v o E). simpl. apply NoDup_cons. split; [|done].
    by apply has_false, get_none in E.
Qed.

Lemma remove_sublist k o : sublist (remove k o) o.
Proof.
  unfold remove. induction o as [|p o IH]; simpl; [constructor|].
  case_bool_decide; simpl; by constructor.
Qed.

Lemma wf_remove k o : wf o -> wf (remove k o).
Proof.
  unfold wf, keys. intros H. eapply sublist_NoDup; [exact H|].
  apply (fmap_sublist fst), remove_sublist.
Qed.

Lemma length_set k v o : (length (set k v o) <= S (length o))%nat.
Proof.
  destruct (has k o) eqn:E.
  - unfold set. rewrite E. enough (length (replace k v o) = length o) by lia.
    rewrite <- (length_map fst). change (map fst (replace k v o)) with (keys (replace k v o)).
    rewrite keys_replace. unfold keys. by rewrite length_map.
  - by rewrite (set_new_perm k v o E).
Qed.

(** Two well-formed objects with the same properties. *)
Definition same_props (o1 o2 : obj V) : Prop := forall k, get k o1 = get k o2.

#[export] Instance same_props_equiv : Equivalence same_props.
Proof. split; unfold same_props; red; intros; congruence. Qed.

#[export] Instance set_proper k v : Proper (same_props ==> same_props) (set k v).
Proof. intros o1 o2 H j. rewrite !get_set. by rewrite (H j). Qed.

#[export] Instance remove_proper k : Proper (same_props ==> same_props) (remove k).
Proof. intros o1 o2 H j. rewrite !get_remove. by rewrite (H j). Qed.
End obj.

(** An object filled by assigning the entries in turn. *)
Definition of_entries {V} (l : obj V) : obj V :=
  fold_left (fun o p => set (fst p) (snd p) o) l [].

Section entries.
Context {V : Type}.
Implicit Types (l o : obj V).

Lemma fold_set_perm l o :
  NoDup (keys (l ++ o)) ->
  Permutation.Permutation (fold_left (fun o p => set (fst p) (snd p) o) l o) (l ++ o).
Proof.
  revert o. induction l as [|[k v] l IH]; intros o; [done|].
  unfold keys. cbn [map app fst snd fold_left]. intros Hnd.
  apply NoDup_cons in Hnd as [Hk Hnd].
  assert (Hp : Permutation.Permutation (set k v o) ((k, v) :: o)).
  { apply set_new_perm, has_false, get_none. unfold keys. rewrite map_app in Hk. set_solver. }
  rewrite IH.
  - rewrite Hp. symmetry. apply Permutation.Permutation_middle.
  - unfold keys. rewrite Hp, <- Permutation.Permutation_middle. simpl.
    by apply NoDup_cons.
Qed.

Lemma of_entries_perm l : wf l -> Permutation.Permutation (of_entries l) l.
Proof.
  intros H. unfold of_entries. rewrite fold_set_perm; by rewrite app_nil_r.
Qed.

Lemma wf_of_entries l : wf (of_entries l).
Proof.
  unfold of_entries. enough (forall o, wf o ->
    wf (fold_left (fun o p => set (fst p) (snd p) o) l o)) as H by (apply H; constructor).
  induction l as [|p l IH]; simpl; [done|]. intros o Ho. by apply IH, wf_set.
Qed.

Lemma wf_sublist l o : sublist l o -> wf o -> wf l.
Proof. intros Hs Ho. eapply sublist_NoDup; [exact Ho|]. by apply (fmap_sublist fst). Qed.

Lemma wf_filter p o : wf o -> wf (List.filter p o).
Proof. apply wf_sublist, sublist_filter. Qed.

Lemma get_elem k v o : wf o -> get k o = Some v <-> (k, v) ∈ o.
Proof. split; [apply get_in|by apply wf_get]. Qed.

Lemma wf_perm l o : Permutation.Permutation l o -> wf l -> wf o.
Proof. unfold wf, keys. by intros ->. Qed.

Lemma get_perm l o k : Permutation.Permutation l o -> wf l -> get k l = get k o.
Proof.
  intros Hp Hl. apply option_eq. intros v.
  rewrite !get_elem by eauto using wf_perm. by rewrite Hp.
Qed.

Lemma get_filter p k o :
  wf o ->
  get k (List.filter p o) =
    match get k o with Some v => if p (k, v) then Some v else None | None => None end.
Proof.
  intros Ho. apply option_eq. intros v.
  rewrite get_elem by (by apply wf_filter). rewrite elem_of_filter_bool, <- get_elem by done.
  destruct (get k o) as [w|]; [|naive_solver].
  split; [by intros [[= ->] ->]|]. destruct (p (k, w)) eqn:E; [|done].
  intros [= ->]. done.
Qed.

Lemma NoDup_of_wf o : wf o -> NoDup o.
Proof. apply NoDup_fmap_1. Qed.

(** A sub-object with as many properties has the same ones. *)
Lemma same_length_props l o :
  wf l -> wf o -> length l = length o ->
  (forall k v, get k l = Some v -> get k o = Some v) -> same_props l o.
Proof.
  intros Hl Ho Hlen Hsub k. apply get_perm; [|done].
  apply submseteq_length_Permutation; [|lia].
  apply NoDup_submseteq; [by apply NoDup_of_wf|].
  intros [j v] Hin. by apply get_in, Hsub, wf_get.
Qed.

Lemma get_of_entries_in k v l : get k (of_entries l) = Some v -> (k, v) ∈ l.
Proof.
  unfold of_entries. enough (forall o, get k (fold_left (fun o p => set (fst p) (snd p) o) l o) = Some v ->
    (k, v) ∈ l \/ get k o = Some v) as H by (intros Hg; destruct (H [] Hg) as [|[=]]; done).
  induction l as [|[k' v'] l IH]; intros o; cbn [fold_left fst snd]; [by right|].
  intros [H|H]%IH; [left; by right|]. rewrite get_set in H. case_bool_decide; [|by right].
  left. subst. injection H as [= ->]. left.
Qed.

Lemma get_of_entries k l : wf l -> get k (of_entries l) = get k l.
Proof. intros H. apply get_perm; [by apply of_entries_perm|apply wf_of_entries]. Qed.
End entries.

#[export] Hint Resolve wf_set wf_remove wf_of_entries wf_filter : js.

(** ** Values *)

Inductive value :=
  | VUndefined
  | VNull
  | VBool (b : bool)
  | VNumber (x : number)
  | VString (s : string)
  | VArray (l : list value)
  | VObject (o : obj value).

Section value_ind'.
Context (P : value -> Prop).
Hypothesis (HU : P VUndefined) (HN : P VNull) (HB : forall b, P (VBool b))
  (Hx : forall x, P (VNumber x)) (Hs : forall s, P (VString s))
  (Ha : forall l, Forall P l -> P (VArray l))
  (Ho : forall o, Forall (fun p => P (snd p)) o -> P (VObject o)).

Fixpoint value_ind' (v : value) : P v :=
  match v with
  | VUndefined => HU
  | VNull => HN
  | VBool b => HB b
  | VNumber x => Hx x
  | VString s => Hs s
  | VArray l =>
      Ha l ((fix go (l : list value) : Forall P l :=
               match l with
               | [] => List.Forall_nil P
               | x :: l' => List.Forall_cons P x l' (value_ind' x) (go l')
               end) l)
  | VObject o =>
      Ho o ((fix go (o : obj value) : Forall (fun p => P (snd p)) o :=
               match o with
               | [] => List.Forall_nil (fun p => P (snd p))
               | p :: o' => List.Forall_cons (fun p => P (snd p)) p o' (value_ind' (snd p)) (go o')
               end) o)
  end.
End value_ind'.

#[export] Instance value_eq_dec : EqDecision value.
Proof.
  refine (fix go (x y : value) : Decision (x = y) :=
    match x, y with
    | VUndefined, VUndefined | VNull, VNull => left eq_refl
    | VBool a, VBool b => cast_if (decide (a = b))
    | VNumber a, VNumber b => cast_if (decide (a = b))
    | VString a, VString b => cast_if (decide (a = b))
    | VArray a, VArray b => cast_if (@list_eq_dec _ go a b)
    | VObject a, VObject b => cast_if (@list_eq_dec _ (@prod_eq_dec _ _ _ go) a b)
    | _, _ => right _
    end); clear go; abstract congruence.
Defined.

(** ** Tests and conversions *)

Definition truthy (v : value) : bool :=
  match v with
  | VUndefined | VNull => false
  | VBool b => b
  | VNumber x => num_truthy x
  | VString s => truthy_str s
  | VArray _ | VObject _ => true
  end.

(** [v === null || v === undefined]. *)
Definition nullish (v : value) : bool :=
  match v with VUndefined | VNull => true | _ => false end.

(** [a ?? b] and [a || b]. *)
Definition coalesce (a b : value) : value := if nullish a then b else a.
Definition v_or (a b : value) : value := if truthy a then a else b.

Notation "a ??? b" := (coalesce a b) (at level 60, right associativity) : js_scope.
Notation "a |||| b" := (v_or a b) (at level 60, right associativity) : js_scope.
#[global] Open Scope js_scope.

(** [v && typeof v === "object"]: an array or an object. *)
Definition is_objectish (v : value) : bool :=
  match v with VArray _ | VObject _ => true | _ => false end.

Definition of_option (o : option value) : value := default VUndefined o.

(** The property [k] of a record, [undefined] when it has none. *)
Definition prop (k : string) (o : obj value) : value := of_option (get k o).

Lemma prop_cons k k' v (o : obj value) :
  prop k ((k', v) :: o) = if bool_decide (k = k') then v else prop k o.
Proof. unfold prop. cbn [get]. by case_bool_decide. Qed.

(** [v[k]] for a [v] that is an object or an array ([k] not an index or
    [length] in the latter case). *)
Definition vprop (k : string) (v : value) : value :=
  match v with VObject o => prop k o | _ => VUndefined end.

Fixpoint v_to_string (v : value) : string :=
  match v with
  | VUndefined => "undefined"
  | VNull => "null"
  | VBool true => "true"
  | VBool false => "false"
  | VNumber x => num_to_string x
  | VString s => s
  | VArray l =>
      join "," (map (fun x => if nullish x then "" else v_to_string x) l)
  | VObject _ => "[object Object]"
  end.

Definition v_to_number (v : value) : number :=
  match v with
  | VUndefined => NaN
  | VNull => int 0
  | VBool b => int (if b then 1 else 0)
  | VNumber x => x
  | VString s => str_to_number s
  | VArray _ => str_to_number (v_to_string v)
  | VObject _ => NaN
  end.

(** [typeof v === "string" ? Some v : None], and the like. *)
Definition as_string (v : value) : option string :=
  match v with VString s => Some s | _ => None end.
Definition as_number (v : value) : option number :=
  match v with VNumber x => Some x | _ => None end.
Definition as_bool (v : value) : option bool :=
  match v with VBool b => Some b | _ => None end.
Definition as_array (v : value) : option (list value) :=
  match v with VArray l => Some l | _ => None end.
Definition as_finite (v : value) : option number :=
  match v with VNumber x => if is_finite x then Some x else None | _ => None end.

(** [String(v || "")], and [String(v || "").trim()]. *)
Definition str_or_empty (v : value) : string := v_to_string (v |||| VString "").
Definition str_trim (v : value) : string := trim (str_or_empty v).

Lemma str_trim_string s : str_trim (VString s) = trim s.
Proof. unfold str_trim, str_or_empty, v_or. simpl. by destruct s. Qed.

(** ** JSON text

    [parse s] is [JSON.parse(s)], [None] where it throws; [stringify v] is
    [JSON.stringify(v)].  The law is ECMA-262's: a value that JSON can
    represent is read back. *)

(** The characters of a number literal, and JSON's grammar of numbers:
    an optional minus sign, digits without a superfluous leading zero, an
    optional fraction, an optional exponent. *)
Definition is_num_char (c : ascii) : bool :=
  is_digit c || existsb (is_char c) ["-"; "+"; "."; "e"; "E"]%char.

Definition json_number (s : string) : bool :=
  let t := match s with String "-" t => t | _ => s end in
  let '(_, n1, r1) := digits 0 0 t in
  let zero := match t with String "0" _ => (n1 =? 1)%nat | _ => true end in
  let frac := match r1 with
              | String "." r => let '(_, n2, r2) := digits 0 0 r in
                                if (n2 =? 0)%nat then None else Some r2
              | _ => Some r1
              end in
  (1 <=? n1)%nat && zero &&
  match frac with
  | Some "" => true
  | Some r => bool_decide (snd (exponent r) = "")
  | None => false
  end.

(** The number is finite and its decimal form is a JSON number literal that
    reads back as it (true of every finite double). *)
Definition num_ok (x : number) : bool :=
  let s := num_to_string x in
  is_finite x && bool_decide (filter_str is_num_char s = s) && json_number s
  && bool_decide (str_to_number s = x).

(** The value is representable: no [undefined], finite numbers, no key twice
    and keys in property order (re-inserting them gives the same object). *)
Fixpoint json_ok (v : value) : bool :=
  match v with
  | VUndefined => false
  | VNull | VBool _ | VString _ => true
  | VNumber x => num_ok x
  | VArray l => forallb json_ok l
  | VObject o => bool_decide (of_entries o = o) && forallb (fun p => json_ok (snd p)) o
  end.

Class Json := {
  parse : string -> option value;
  stringify : value -> string;
}.

Class JsonLaws (J : Json) := {
  parse_stringify : forall v, json_ok v = true -> parse (stringify v) = Some v;
  parse_empty : parse "" = None;
}.

(** [JSON.stringify(v, null, 2)]. *)
Class PrettyJson := stringifyJson : value -> string.

Section laws.
Context `{JL : JsonLaws}.

Lemma stringify_nonempty v : json_ok v = true -> truthy_str (stringify v) = true.
Proof.
  intros Hv%parse_stringify. apply truthy_str_true. intros E.
  rewrite E in Hv. by rewrite parse_empty in Hv.
Qed.
End laws.

(** An object is representable when its values are and its keys are in
    property order; [shape] settles the order of concrete keys. *)
Lemma json_ok_object (o : obj value) :
  of_entries o = o -> Forall (fun p => json_ok (snd p) = true) o -> json_ok (VObject o) = true.
Proof.
  intros Ho Hv. cbn [json_ok]. rewrite (bool_decide_true _ Ho). simpl.
  apply forallb_forall. intros p Hp%list_elem_of_In. rewrite Forall_forall in Hv. by apply Hv.
Qed.

Lemma json_ok_array l : Forall (fun v => json_ok v = true) l -> json_ok (VArray l) = true.
Proof.
  intros Hl. cbn [json_ok]. apply forallb_forall. intros v Hv%list_elem_of_In.
  rewrite Forall_forall in Hl. by apply Hl.
Qed.

Lemma json_ok_imap {A} (f : nat -> A -> value) l :
  (forall i x, json_ok (f i x) = true) -> json_ok (VArray (imap f l)) = true.
Proof.
  intros H. apply json_ok_array, Forall_forall. intros v (i & x & -> & _)%elem_of_lookup_imap_1.
  apply H.
Qed.

Lemma json_ok_map {A} (f : A -> value) l :
  (forall x, json_ok (f x) = true) -> json_ok (VArray (map f l)) = true.
Proof. intros H. apply json_ok_array, Forall_map, Forall_forall. auto. Qed.

Ltac shape :=
  repeat match goal with
  | |- context [@pair string value ?k ?v] =>
      tryif is_var v then fail else (generalize v; intros ?)
  end; vm_compute; reflexivity.

#[export] Hint Resolve json_ok_imap json_ok_map : js.
