(* ===== verification/JsOrder.v ===== *)
(** Property order: the objects that a sequence of assignments can build are
    those whose array-index keys come first and increase.  Assigning and
    deleting keep this order, so an object built by the code is one that JSON
    text can represent. *)
From S2P Require Import Prelude JsNumber JsString JsValue.

Section order.
Context {V : Type}.
Implicit Types (o : obj V) (k : string) (v : V).

(** [p] may stand before [q]. *)
Definition before (p q : string * V) : Prop :=
  match array_index (fst p), array_index (fst q) with
  | Some n, Some m => n < m
  | None, Some _ => False
  | _, None => True
  end.

Definition ordered o : Prop := StronglySorted before o.

Lemma array_index_pretty k n : array_index k = Some n -> pretty n = k.
Proof.
  unfold array_index. destruct (digits 0 0 k) as [[m c] r]. case_match; [|done]. intros [= <-].
  match goal with H : _ && _ = true |- _ => rename H into E end.
  apply andb_split in E as [E _]. apply andb_split in E as [_ E]. by apply bool_decide_eq_true in E.
Qed.

Lemma array_index_inj k k' n : array_index k = Some n -> array_index k' = Some n -> k = k'.
Proof. intros H1%array_index_pretty H2%array_index_pretty. congruence. Qed.

Lemma Forall_filter {A} (P : A -> Prop) (p : A -> bool) l : Forall P l -> Forall P (List.filter p l).
Proof. induction 1; simpl; [constructor|]. case_match; [by constructor|done]. Qed.

Lemma ordered_filter (p : string * V -> bool) o : ordered o -> ordered (List.filter p o).
Proof.
  induction 1 as [|q o Ho IH Hq]; simpl; [constructor|]. case_match; [|done].
  constructor; [done|]. by apply Forall_filter.
Qed.

Lemma ordered_remove k o : ordered o -> ordered (remove k o).
Proof. apply ordered_filter. Qed.

Lemma before_key p q q' : fst q = fst q' -> before p q -> before p q'.
Proof. unfold before. by intros ->. Qed.

Lemma replace_before p k v o : Forall (before p) o -> Forall (before p) (replace k v o).
Proof.
  induction 1 as [|[k' v'] o Hq Ho IH]; simpl; [constructor|].
  case_bool_decide; constructor; try done. eapply before_key; [|exact Hq]. done.
Qed.

Lemma ordered_replace k v o : ordered o -> ordered (replace k v o).
Proof.
  induction 1 as [|[k' v'] o Ho IH Hq]; simpl; [constructor|].
  case_bool_decide; constructor; try done; [|by apply replace_before].
  eapply Forall_impl; [exact Hq|]. subst. done.
Qed.

Lemma insert_before p n k v o :
  before p (k, v) -> Forall (before p) o -> Forall (before p) (insert_index n k v o).
Proof.
  intros Hk. induction 1 as [|[k' v'] o Hq Ho IH]; simpl; [by repeat constructor|].
  repeat case_match; repeat (constructor; try done).
Qed.

Lemma ordered_insert n k v o :
  array_index k = Some n -> get k o = None -> ordered o -> ordered (insert_index n k v o).
Proof.
  intros Hn. induction 2 as [|[k' v'] o Ho IH Hq]; simpl in *; [by repeat constructor|].
  destruct (bool_decide_reflect (k = k')) as [|Hne]; [done|].
  destruct (array_index k') as [n'|] eqn:Hn'.
  - destruct (Z.ltb_spec n n').
    + constructor; [by constructor|]. constructor; [unfold before; simpl; by rewrite Hn, Hn'|].
      eapply Forall_impl; [exact Hq|]. intros [j w]. unfold before. simpl. rewrite Hn, Hn'.
      destruct (array_index j); lia.
    + constructor; [by apply IH|]. apply insert_before; [|done]. unfold before. simpl. rewrite Hn, Hn'.
      destruct (decide (n = n')) as [->|]; [|lia]. destruct Hne. by eapply array_index_inj.
  - constructor; [by constructor|]. constructor; [unfold before; simpl; by rewrite Hn, Hn'|].
    eapply Forall_impl; [exact Hq|]. intros [j w]. unfold before. simpl. rewrite Hn, Hn'.
    by destruct (array_index j).
Qed.

Lemma ordered_app_single k v o : array_index k = None -> ordered o -> ordered (o ++ [(k, v)]).
Proof.
  intros Hk. induction 1 as [|p o Ho IH Hq]; simpl; [repeat constructor|].
  constructor; [done|]. apply Forall_app. split; [done|]. repeat constructor.
  unfold before. simpl. rewrite Hk. by destruct (array_index (fst p)).
Qed.

Lemma ordered_set k v o : ordered o -> ordered (set k v o).
Proof.
  intros Ho. unfold set. destruct (has k o) eqn:E; [by apply ordered_replace|].
  apply has_false in E. destruct (array_index k) eqn:Hk; [by apply ordered_insert|].
  by apply ordered_app_single.
Qed.

Lemma ordered_of_entries (l : obj V) : ordered (of_entries l).
Proof.
  unfold of_entries. enough (forall o, ordered o ->
    ordered (fold_left (fun o p => set (fst p) (snd p) o) l o)) as H by (apply H; constructor).
  induction l as [|p l IH]; simpl; [done|]. intros o Ho. by apply IH, ordered_set.
Qed.

Lemma insert_index_last n k v o :
  array_index k = Some n -> Forall (fun p => before p (k, v)) o -> insert_index n k v o = o ++ [(k, v)].
Proof.
  intros Hn. induction 1 as [|[k' v'] o Hq Ho IH]; simpl; [done|].
  unfold before in Hq. simpl in Hq. rewrite Hn in Hq. destruct (array_index k') as [n'|]; [|done].
  destruct (Z.ltb_spec n n'); [lia|]. by rewrite IH.
Qed.

Lemma ordered_snoc p o : ordered (o ++ [p]) -> ordered o /\ Forall (fun q => before q p) o.
Proof.
  unfold ordered. induction o as [|q o IH]; simpl; [repeat constructor|].
  intros [Hs Hq]%StronglySorted_inv. destruct (IH Hs) as [H1 H2].
  apply Forall_app in Hq as [Hq Hqp]. split; constructor; try done. by inversion Hqp.
Qed.

Lemma of_entries_ordered o : wf o -> ordered o -> of_entries o = o.
Proof.
  induction o as [|[k v] o IH] using rev_ind; [done|]. intros Hwf [Ho Hall]%ordered_snoc.
  unfold wf, keys in Hwf. rewrite map_app in Hwf. simpl in Hwf.
  apply NoDup_app in Hwf as (Hwf & Hk & _).
  unfold of_entries in *. rewrite fold_left_app. simpl. rewrite IH by done.
  assert (E : get k o = None).
  { apply get_none. intros Hin. apply (Hk k Hin). by left. }
  unfold set. rewrite (proj2 (has_false k o) E).
  destruct (array_index k) eqn:Hi; [|done]. by apply insert_index_last.
Qed.

Lemma of_entries_fixed o : of_entries o = o <-> wf o /\ ordered o.
Proof.
  split; [|by intros []; apply of_entries_ordered].
  intros <-. split; [apply wf_of_entries|apply ordered_of_entries].
Qed.
End order.

#[export] Hint Resolve ordered_set ordered_remove ordered_of_entries ordered_filter : js.

(** ** Objects that JSON can represent *)

Lemma json_ok_object_iff (o : obj value) :
  json_ok (VObject o) = true <-> wf o /\ ordered o /\ Forall (fun p => json_ok (snd p) = true) o.
Proof.
  cbn [json_ok]. rewrite andb_true_iff, bool_decide_eq_true, of_entries_fixed, forallb_forall, Forall_forall.
  split; [intros [[H1 H2] H3]|intros (H1 & H2 & H3)]; (split_and!; [done|done|]);
    intros p Hp; apply H3; by apply list_elem_of_In.
Qed.

Lemma json_ok_get (o : obj value) k v : json_ok (VObject o) = true -> get k o = Some v -> json_ok v = true.
Proof.
  intros (_ & _ & H)%json_ok_object_iff Hg%get_in. rewrite Forall_forall in H. by apply (H (k, v)).
Qed.

Lemma json_ok_filter p (o : obj value) :
  json_ok (VObject o) = true -> json_ok (VObject (List.filter p o)) = true.
Proof.
  rewrite !json_ok_object_iff. intros (H1 & H2 & H3). split_and!; auto with js. by apply Forall_filter.
Qed.

Lemma json_ok_remove k (o : obj value) : json_ok (VObject o) = true -> json_ok (VObject (remove k o)) = true.
Proof. apply json_ok_filter. Qed.

Lemma elem_of_set {V} (p : string * V) k v o : wf o -> p ∈ set k v o -> p = (k, v) \/ p ∈ o.
Proof.
  intros Hwf Hp. destruct p as [j w]. apply (wf_get j w) in Hp; [|by apply wf_set].
  rewrite get_set in Hp. case_bool_decide as E; [left; congruence|right; by apply get_in].
Qed.

Lemma json_ok_set k v (o : obj value) :
  json_ok v = true -> json_ok (VObject o) = true -> json_ok (VObject (set k v o)) = true.
Proof.
  rewrite !json_ok_object_iff. intros Hv (H1 & H2 & H3). split_and!; auto with js.
  apply Forall_forall. intros p Hp. apply elem_of_set in Hp as [->|Hp]; [done| |done].
  rewrite Forall_forall in H3. by apply H3.
Qed.

#[export] Hint Resolve json_ok_filter json_ok_remove json_ok_set json_ok_get : js.
