(* ===== verification/Shapes.v ===== *)
(** Run-time type tests and rows: the idiom `typeof raw.k === "string" ? raw.k
    : undefined` with which the page turns what a server sent, or what it
    stored itself, into records of the declared types. *)
From S2P Require Import Prelude JsNumber JsString JsValue JsOrder.

(** ** Type tests *)

Definition is_string (v : value) : bool := match v with VString _ => true | _ => false end.
Definition is_number (v : value) : bool := match v with VNumber _ => true | _ => false end.
Definition is_boolean (v : value) : bool := match v with VBool _ => true | _ => false end.
Definition is_array (v : value) : bool := match v with VArray _ => true | _ => false end.

(** [v && typeof v === "object" && !Array.isArray(v)]. *)
Definition is_record (v : value) : bool := match v with VObject _ => true | _ => false end.

Definition is_finite_number (v : value) : bool := bool_decide (is_Some (as_finite v)).

(** [v === "a" || v === "b" ...]. *)
Definition one_of (l : list string) (v : value) : bool :=
  match v with VString s => bool_decide (s ∈ l) | _ => false end.

Definition optional (t : value -> bool) (v : value) : bool := bool_decide (v = VUndefined) || t v.

(** The types of the fields of a declared object type. *)
Inductive ts_type := TString | TBoolean | TUnion (allowed : list string) | TStrings | TObject | TNumber | TArray | TUnknown
  | TOptional (t : ts_type).

#[export] Instance ts_type_eq_dec : EqDecision ts_type.
Proof. solve_decision. Defined.

Fixpoint has_type (t : ts_type) (v : value) : bool :=
  match t with
  | TString => is_string v
  | TBoolean => is_boolean v
  | TUnion allowed => one_of allowed v
  | TStrings => match v with VArray l => forallb is_string l | _ => false end
  | TObject => is_record v
  | TNumber => is_number v
  | TArray => is_array v
  | TUnknown => true
  | TOptional t => optional (has_type t) v
  end.

(** A field of a type; absent fields read as [undefined]. *)
Definition field_typed (o : obj value) (f : string * ts_type) : Prop := has_type (snd f) (prop (fst f) o) = true.

(** The properties that [JSON.stringify] writes. *)
Definition defined_props (o : obj value) : obj value :=
  List.filter (fun p => negb (bool_decide (snd p = VUndefined))) o.

Lemma ordered_plain (o : obj value) : Forall (fun p => array_index (fst p) = None) o -> ordered o.
Proof.
  induction 1 as [|p o Hp Ho IH]; constructor; [done|]. eapply Forall_impl; [exact Ho|].
  intros q Hq. unfold before. rewrite Hq. by destruct (array_index (fst p)).
Qed.

Lemma defined_json (o : obj value) :
  wf o -> ordered o -> Forall (fun p => snd p = VUndefined \/ json_ok (snd p) = true) o ->
  json_ok (VObject (defined_props o)) = true.
Proof.
  intros Hw Ho Hall. apply json_ok_object_iff. unfold defined_props.
  split; [by apply wf_filter|]. split; [by apply ordered_filter|]. apply Forall_forall.
  intros p [Hp Hu]%elem_of_filter_bool. rewrite Forall_forall in Hall.
  destruct (Hall p Hp) as [Heq|]; [|done]. by rewrite Heq in Hu.
Qed.

Lemma prop_defined k (o : obj value) : wf o -> prop k o = of_option (get k (defined_props o)).
Proof.
  intros Ho. unfold defined_props. rewrite get_filter by done. unfold prop.
  destruct (get k o) as [v|]; [|done]. cbn [snd]. by destruct (bool_decide_reflect (v = VUndefined)) as [->|].
Qed.

(** [t(v) ? v : undefined]. *)
Definition pick (t : value -> bool) (v : value) : value := if t v then v else VUndefined.

Lemma pick_typed t v : optional t (pick t v) = true.
Proof. unfold optional, pick. destruct (t v) eqn:E; [by rewrite E, orb_true_r|done]. Qed.

Lemma pick_idem t v : pick t (pick t v) = pick t v.
Proof. unfold pick. destruct (t v) eqn:E; [by rewrite E|by destruct (t VUndefined)]. Qed.

Lemma pick_true t v : t v = true -> pick t v = v.
Proof. unfold pick. by intros ->. Qed.

(** ** Object literals that start with a spread *)

(** [{ ...o, k1: v1, ..., kn: vn }]. *)
Definition spread (o l : obj value) : obj value := fold_left (fun o p => set (fst p) (snd p) o) l o.

Lemma set_same {V} k (v : V) (o : obj V) : get k o = Some v -> set k v o = o.
Proof.
  intros Hg. unfold set. rewrite (proj2 (has_true k o)) by eauto. revert Hg.
  induction o as [|[k' v'] o IH]; simpl; [done|]. case_bool_decide; [by intros [= ->]; subst|].
  intros Hg. by rewrite IH.
Qed.

Lemma get_spread k l o :
  wf l -> get k (spread o l) = match get k l with Some v => Some v | None => get k o end.
Proof.
  unfold spread, wf. revert o. induction l as [|[j v] l IH]; intros o; simpl; [done|].
  intros [Hj Hl]%NoDup_cons. rewrite IH by done. rewrite get_set.
  destruct (bool_decide_reflect (k = j)) as [->|]; [|done].
  by rewrite (proj2 (get_none j l) Hj).
Qed.

Lemma prop_spread k l o :
  wf l -> prop k (spread o l) = match get k l with Some v => v | None => prop k o end.
Proof. intros H. unfold prop. rewrite get_spread by done. by destruct (get k l). Qed.

Lemma spread_same l o : Forall (fun p => get (fst p) o = Some (snd p)) l -> spread o l = o.
Proof.
  unfold spread. induction l as [|[j v] l IH]; [done|]. intros [Hj Hl]%Forall_cons.
  cbn [fold_left]. rewrite set_same by done. by apply IH.
Qed.

Lemma wf_spread l o : wf o -> wf (spread o l).
Proof. unfold spread. revert o. induction l; intros o Ho; simpl; [done|]. auto using wf_set. Qed.

(** ** Rows *)

(** The declared fields of a row and their tests. *)
Abbreviation schema := (list (string * (value -> bool))).

Definition picked (s : schema) (raw : obj value) : obj value :=
  map (fun f => (fst f, pick (snd f) (prop (fst f) raw))) s.

(** The required identifiers of a row, trimmed; [None] when one is missing. *)
Definition row_id (k : string) (raw : obj value) : string := trim (default "" (as_string (prop k raw))).

Definition row (ids : list string) (s : schema) (raw : obj value) : option (obj value) :=
  if forallb (fun k => truthy_str (row_id k raw)) ids
  then Some (spread raw (map (fun k => (k, VString (row_id k raw))) ids ++ picked s raw))
  else None.

(** What a row normalizer promises: identifiers trimmed and not empty, the
    declared fields of their type or [undefined], a well-typed field kept,
    every other property kept, and a second pass that changes nothing. *)
Definition row_ok (ids : list string) (s : schema) (normalize : value -> option (obj value)) : Prop :=
  forall raw o, normalize raw = Some o -> exists r, raw = VObject r /\
    (forall k, k ∈ ids -> exists i, prop k o = VString i /\ trim i = i /\ i <> "") /\
    (forall k t, (k, t) ∈ s -> optional t (prop k o) = true
                            /\ (t (prop k r) = true -> prop k o = prop k r)) /\
    (forall k, k ∉ ids -> k ∉ map fst s -> prop k o = prop k r) /\
    normalize (VObject o) = Some o.

Section row.
Context (ids : list string) (s : schema).
Context (Hnd : NoDup (ids ++ map fst s)).

Lemma row_keys raw : wf (map (fun k => (k, VString (row_id k raw))) ids ++ picked s raw).
Proof.
  unfold wf, keys, picked. rewrite map_app, !map_map. cbn [fst]. by rewrite List.map_id.
Qed.

Lemma in_row_id k raw : k ∈ ids ->
  get k (map (fun k => (k, VString (row_id k raw))) ids ++ picked s raw) = Some (VString (row_id k raw)).
Proof.
  intros Hk. apply wf_get; [apply row_keys|]. apply elem_of_app. left.
  by apply (list_elem_of_fmap_2 (fun k => (k, VString (row_id k raw)))).
Qed.

Lemma in_row_field k t raw : (k, t) ∈ s ->
  get k (map (fun k => (k, VString (row_id k raw))) ids ++ picked s raw) = Some (pick t (prop k raw)).
Proof.
  intros Hk. apply wf_get; [apply row_keys|]. apply elem_of_app. right.
  by apply (list_elem_of_fmap_2 (fun f : string * (value -> bool) => (fst f, pick (snd f) (prop (fst f) raw)))) in Hk.
Qed.

Lemma in_row_other k raw : k ∉ ids -> k ∉ map fst s ->
  get k (map (fun k => (k, VString (row_id k raw))) ids ++ picked s raw) = None.
Proof.
  intros H1 H2. apply get_none. unfold keys, picked. rewrite map_app, !map_map. cbn [fst].
  rewrite List.map_id. by rewrite not_elem_of_app.
Qed.

Lemma row_spec raw o : row ids s raw = Some o ->
  (forall k, k ∈ ids -> get k o = Some (VString (row_id k raw)) /\ row_id k raw <> "") /\
  (forall k t, (k, t) ∈ s -> get k o = Some (pick t (prop k raw))) /\
  (forall k, k ∉ ids -> k ∉ map fst s -> get k o = get k raw).
Proof.
  unfold row. destruct (forallb _ ids) eqn:E; [|done]. intros [= <-].
  split_and!.
  - intros k Hk. rewrite get_spread, in_row_id by (done || apply row_keys). split; [done|].
    rewrite forallb_forall in E. apply truthy_str_true, E. by apply list_elem_of_In.
  - intros k t Hk. by rewrite get_spread, (in_row_field k t) by (done || apply row_keys).
  - intros k H1 H2. by rewrite get_spread, in_row_other by (done || apply row_keys).
Qed.

(** Any normalizer that is [row] on records keeps the promise. *)
Lemma row_row_ok (normalize : value -> option (obj value)) :
  (forall v, normalize v = match v with VObject r => row ids s r | _ => None end) ->
  row_ok ids s normalize.
Proof.
  intros Hn raw o. rewrite Hn. destruct raw as [| | | | | |r]; try done. intros Ho.
  exists r. split; [done|]. pose proof (row_spec r o Ho) as (H1 & H2 & H3).
  assert (Hid : forall k, k ∈ ids -> row_id k o = row_id k r).
  { intros k Hk. destruct (H1 k Hk) as [Hg _]. unfold row_id at 1, prop. rewrite Hg.
    change (trim (row_id k r) = row_id k r). unfold row_id. apply trim_idem. }
  split_and!.
  - intros k Hk. destruct (H1 k Hk) as [Hg Hne]. exists (row_id k r). unfold prop. rewrite Hg.
    split_and!; [done|apply trim_idem|done].
  - intros k t Hk. assert (prop k o = pick t (prop k r)) as -> by (unfold prop; by rewrite (H2 k t Hk)).
    split; [apply pick_typed|apply pick_true].
  - intros k Hk Hk'. unfold prop. by rewrite H3.
  - rewrite Hn. unfold row.
    rewrite (proj2 (forallb_forall _ ids)).
    2:{ intros k Hk%list_elem_of_In. rewrite Hid by done. by apply truthy_str_true, H1. }
    f_equal. apply spread_same, Forall_app. split; unfold picked; apply Forall_map, Forall_forall.
    + intros k Hk. cbn [fst snd]. rewrite Hid by done. by apply H1.
    + intros [k t] Hk. cbn [fst snd].
      assert (prop k o = pick t (prop k r)) as -> by (unfold prop; by rewrite (H2 k t Hk)).
      rewrite pick_idem. by apply H2.
Qed.
End row.
