(* ===== verification/JsonUtils.v ===== *)
(** The helpers of src/ui/src/jsonUtils.ts, on top of the JSON interface. *)
From S2P Require Import Prelude JsNumber JsString JsValue.

(** [isUnknownRecord]. *)
Definition isUnknownRecord (v : value) : bool :=
  truthy v && is_objectish v && match v with VArray _ => false | _ => true end.

(** [safeObject]: the record itself, or an empty one. *)
Definition safeObject (v : value) : obj value :=
  match v with
  | VObject o => if isUnknownRecord v then o else []
  | _ => []
  end.

(** The character that marks a cut, the only one of the program's texts that
    is not a code unit of the model. *)
Class Ellipsis := ellipsis : ascii.

(** [safeTrunc] of a string. *)
Definition safeTrunc {E : Ellipsis} (value : string) (max : nat) : string :=
  if (String.length value <=? max)%nat then value else stake (max - 1) value ++s String ellipsis "".

Lemma length_stake n s : String.length (stake n s) = Nat.min n (String.length s).
Proof. revert n. induction s as [|c s IH]; intros [|n]; simpl; auto. Qed.

Lemma length_safeTrunc {E : Ellipsis} s max : (0 < max)%nat -> (String.length (safeTrunc s max) <= max)%nat.
Proof.
  intros Hm. unfold safeTrunc. destruct (Nat.leb_spec (String.length s) max); [done|].
  rewrite length_append, length_stake. simpl. lia.
Qed.

Lemma safeTrunc_short {E : Ellipsis} s max : (String.length s <= max)%nat -> safeTrunc s max = s.
Proof. intros H. unfold safeTrunc. by rewrite (proj2 (Nat.leb_le _ _) H). Qed.

Lemma truthy_safeTrunc {E : Ellipsis} s max : truthy_str (safeTrunc s max) = truthy_str s.
Proof.
  unfold safeTrunc. destruct (Nat.leb_spec (String.length s) max) as [H|H]; [done|].
  destruct s as [|c s]; [simpl in H; lia|]. destruct (max - 1)%nat; reflexivity.
Qed.

Section json.
Context {J : Json}.

(** [safeJsonParse]: [null] where [JSON.parse] throws. *)
Definition safeJsonParse (raw : string) : value := default VNull (parse (str_or raw "")).

Definition normalizeEventData (data : value) : value :=
  match data with
  | VString s => safeJsonParse s ??? data
  | _ => data ??? VObject []
  end.

Definition loadJson (raw : string) : option (obj value) :=
  match safeJsonParse raw with
  | VObject o => if isUnknownRecord (VObject o) then Some o else None
  | _ => None
  end.

Definition prettyJsonOrRaw {P : PrettyJson} (raw : string) : string :=
  let parsed := safeJsonParse raw in
  if bool_decide (parsed = VNull) then raw else stringifyJson parsed.

Lemma safeJsonParse_stringify {L : JsonLaws J} v :
  json_ok v = true -> safeJsonParse (stringify v) = v.
Proof.
  intros Hv. unfold safeJsonParse, str_or. by rewrite stringify_nonempty, parse_stringify.
Qed.

Lemma loadJson_safeObject raw o : loadJson raw = Some o -> safeObject (safeJsonParse raw) = o.
Proof. unfold loadJson. by destruct (safeJsonParse raw); simpl; intros [=]. Qed.
End json.
