(* ===== verification/JsonText.v ===== *)
(** JSON text: a parser and a printer for the values of JsValue, the instance
    of the JSON interface on which witnesses are evaluated.  The printer is
    [JSON.stringify] without indentation; the parser is [JSON.parse] on texts
    whose strings stay within Latin-1 ([\u] escapes above U+00FF are refused).
    The laws of the interface are proved. *)
From S2P Require Import Prelude JsNumber JsString JsValue.
From Stdlib Require Import Ascii String.

(** ** Printing *)

Definition dquote : ascii := "034".

Definition hex_char (n : N) : ascii := ascii_of_N (if (n <? 10)%N then 48 + n else 87 + n)%N.

Definition escape_char (c : ascii) (rest : string) : string :=
  let n := code c in
  if (n =? 34)%N || (n =? 92)%N then String "\" (String c rest)
  else if (n =? 8)%N then String "\" (String "b" rest)
  else if (n =? 9)%N then String "\" (String "t" rest)
  else if (n =? 10)%N then String "\" (String "n" rest)
  else if (n =? 12)%N then String "\" (String "f" rest)
  else if (n =? 13)%N then String "\" (String "r" rest)
  else if (n <? 32)%N then
    "\u00" ++s String (hex_char (n / 16)) (String (hex_char (n mod 16)) rest)
  else String c rest.

(** The characters of a string literal, followed by the closing quote. *)
Fixpoint escape (s : string) (rest : string) : string :=
  match s with
  | "" => String dquote rest
  | String c s' => escape_char c (escape s' rest)
  end.

Fixpoint print (v : value) (rest : string) : string :=
  match v with
  | VUndefined | VNull => "null" ++s rest
  | VBool true => "true" ++s rest
  | VBool false => "false" ++s rest
  | VNumber x => if is_finite x then num_to_string x ++s rest else "null" ++s rest
  | VString s => String dquote (escape s rest)
  | VArray l =>
      String "[" ((fix go (first : bool) (l : list value) : string :=
        match l with
        | [] => String "]" rest
        | x :: l => let t := print x (go false l) in if first then t else String "," t
        end) true l)
  | VObject o =>
      String "{" ((fix go (first : bool) (o : obj value) : string :=
        match o with
        | [] => String "}" rest
        | (_, VUndefined) :: o => go first o
        | (k, x) :: o =>
            let t := String dquote (escape k (String ":" (print x (go false o)))) in
            if first then t else String "," t
        end) true o)
  end.

Definition print_elements (rest : string) : bool -> list value -> string :=
  fix go first l :=
    match l with
    | [] => String "]" rest
    | x :: l => let t := print x (go false l) in if first then t else String "," t
    end.

Definition print_members (rest : string) : bool -> obj value -> string :=
  fix go first o :=
    match o with
    | [] => String "}" rest
    | (_, VUndefined) :: o => go first o
    | (k, x) :: o =>
        let t := String dquote (escape k (String ":" (print x (go false o)))) in
        if first then t else String "," t
    end.

(** ** Parsing *)

Definition is_json_ws (c : ascii) : bool :=
  existsb (fun n => (code c =? n)%N) [9; 10; 13; 32]%N.

Definition skip_ws : string -> string := trim_start_by is_json_ws.

Definition unescape_char (c : ascii) : option ascii :=
  let n := code c in
  if (n =? 34)%N || (n =? 92)%N || (n =? 47)%N then Some c
  else if (n =? 98)%N then Some "008"%char
  else if (n =? 116)%N then Some "009"%char
  else if (n =? 110)%N then Some "010"%char
  else if (n =? 102)%N then Some "012"%char
  else if (n =? 114)%N then Some "013"%char
  else None.

(** The rest of a string literal, after the opening quote. *)
Fixpoint parse_chars (s : string) : option (string * string) :=
  match s with
  | "" => None
  | String c s1 =>
      if bool_decide (c = dquote) then Some ("", s1)
      else if bool_decide (c = "\"%char) then
        match s1 with
        | String "u" (String a (String b (String d (String e s2)))) =>
            n1 ← hex_digit d; n0 ← hex_digit e;
            if bool_decide (a = "0"%char) && bool_decide (b = "0"%char) then
              '(t, r) ← parse_chars s2; Some (String (ascii_of_N (Z.to_N (16 * n1 + n0))) t, r)
            else None
        | String c1 s2 => d ← unescape_char c1; '(t, r) ← parse_chars s2; Some (String d t, r)
        | "" => None
        end
      else if (code c <? 32)%N then None
      else '(t, r) ← parse_chars s1; Some (String c t, r)
  end.

Fixpoint span (p : ascii -> bool) (s : string) : string * string :=
  match s with
  | String c s' => if p c then let '(a, b) := span p s' in (String c a, b) else ("", s)
  | "" => ("", "")
  end.

Definition parse_number (s : string) : option (value * string) :=
  let '(a, b) := span is_num_char s in
  if json_number a then Some (VNumber (str_to_number a), b) else None.

Fixpoint parse_value (fuel : nat) (s0 : string) : option (value * string) :=
  match fuel with
  | O => None
  | S f =>
      match skip_ws s0 with
      | String "n" (String "u" (String "l" (String "l" r))) => Some (VNull, r)
      | String "t" (String "r" (String "u" (String "e" r))) => Some (VBool true, r)
      | String "f" (String "a" (String "l" (String "s" (String "e" r)))) => Some (VBool false, r)
      | String "034" r => '(t, r) ← parse_chars r; Some (VString t, r)
      | String "[" r =>
          match skip_ws r with
          | String "]" r => Some (VArray [], r)
          | _ => '(l, r) ← parse_elements f r; Some (VArray l, r)
          end
      | String "{" r =>
          match skip_ws r with
          | String "}" r => Some (VObject [], r)
          | _ => '(o, r) ← parse_members f r; Some (VObject (of_entries o), r)
          end
      | s => parse_number s
      end
  end
with parse_elements (fuel : nat) (s0 : string) : option (list value * string) :=
  match fuel with
  | O => None
  | S f =>
      '(v, r) ← parse_value f s0;
      match skip_ws r with
      | String "," r => '(l, r) ← parse_elements f r; Some (v :: l, r)
      | String "]" r => Some ([v], r)
      | _ => None
      end
  end
with parse_members (fuel : nat) (s0 : string) : option (obj value * string) :=
  match fuel with
  | O => None
  | S f =>
      match skip_ws s0 with
      | String "034" r =>
          '(k, r) ← parse_chars r;
          match skip_ws r with
          | String ":" r =>
              '(v, r) ← parse_value f r;
              match skip_ws r with
              | String "," r => '(o, r) ← parse_members f r; Some ((k, v) :: o, r)
              | String "}" r => Some ([(k, v)], r)
              | _ => None
              end
          | _ => None
          end
      | _ => None
      end
  end.

(** A nested list or object consumes its opening character, so this much fuel
    is enough (parse_print). *)
Definition json_parse (s : string) : option value :=
  '(v, r) ← parse_value (2 * String.length s + 1) s;
  if truthy_str (skip_ws r) then None else Some v.

#[export] Instance text_json : Json :=
  {| parse := json_parse; stringify := fun v => print v "" |}.

Definition dq : string := String dquote "".

Example json_parse_ex :
  json_parse (" { " ++s dq ++s "b" ++s dq ++s " : [1, -2.5e1, true , null], "
    ++s dq ++s "7" ++s dq ++s ": " ++s dq ++s "a\n\u0041" ++s dq ++s "} ")
  = Some (VObject [("7", VString ("a" ++s nl ++s "A"));
                   ("b", VArray [VNumber (int 1); VNumber (int (-25)); VBool true; VNull])]).
Proof. by vm_compute. Qed.

Example json_parse_errors :
  map json_parse [""; "tru"; "[1,]"; "01"; "1 2"; "{a:1}"; "NaN"; ".5"] =
  [None; None; None; None; None; None; None; None].
Proof. by vm_compute. Qed.

(** ** The laws *)

Lemma parse_chars_escape s rest : parse_chars (escape s rest) = Some (s, rest).
Proof.
  induction s as [|c s IH]; [done|]. cbn [escape].
  enough (forall t, parse_chars (escape_char c t) = '(u, r) ← parse_chars t; Some (String c u, r)) as ->
    by (by rewrite IH).
  intros t. destruct c as [[] [] [] [] [] [] [] []]; done.
Qed.

Lemma filter_str_length p s : (String.length (filter_str p s) <= String.length s)%nat.
Proof. induction s as [|c s IH]; simpl; [done|]. case_match; simpl; lia. Qed.

Lemma filter_str_kept p c s :
  filter_str p (String c s) = String c s -> p c = true /\ filter_str p s = s.
Proof.
  simpl. destruct (p c) eqn:E; [by intros [= H]|]. intros H.
  pose proof (filter_str_length p s) as Hl. rewrite H in Hl. simpl in Hl. lia.
Qed.

(** What may follow a value: not a character that would continue a number. *)
Definition ends (rest : string) : bool :=
  match rest with "" => true | String c _ => negb (is_num_char c) end.

Lemma span_prefix s rest :
  filter_str is_num_char s = s -> ends rest = true -> span is_num_char (s ++s rest) = (s, rest).
Proof.
  intros Hs Hr. induction s as [|c s IH].
  - destruct rest as [|c r]; [done|]. simpl in *. by destruct (is_num_char c).
  - apply filter_str_kept in Hs as [Hc Hs]. cbn [String.append span]. by rewrite Hc, IH.
Qed.

(** The first character of a printed value. *)
Definition starts (c : ascii) : bool :=
  is_digit c || existsb (is_char c) ["-"; "n"; "t"; "f"; "["; "{"; dquote]%char.

Lemma num_head x : num_ok x = true -> exists c s, num_to_string x = String c s /\
  (is_digit c || is_char c "-") = true.
Proof.
  unfold num_ok. rewrite !andb_true_iff. intros [[_ Hj] _].
  destruct (num_to_string x) as [|c s]; [done|]. exists c, s. split; [done|].
  revert Hj. clear. destruct c as [[] [] [] [] [] [] [] []]; try done; try (intros H; discriminate H).
Qed.

Lemma print_head v rest : json_ok v = true -> exists c t, print v rest = String c t /\ starts c = true.
Proof.
  destruct v as [| |[]|x|s|l|o]; intros Hv; [done|..]; try (by eexists _, _).
  cbn [json_ok] in Hv. destruct (num_head x Hv) as (c & s & E & Hc).
  unfold num_ok in Hv. cbn [print]. destruct (is_finite x); [|done]. rewrite E.
  exists c, (s ++s rest). split; [done|]. unfold starts.
  apply orb_true_iff in Hc as [->|Hc]; [done|]. cbn [existsb]. rewrite Hc. by rewrite orb_true_r.
Qed.

Lemma skip_ws_starts c t : starts c = true -> skip_ws (String c t) = String c t.
Proof. destruct c as [[] [] [] [] [] [] [] []]; try done; intros H; discriminate H. Qed.

Lemma parse_value_num f c t :
  (is_digit c || is_char c "-") = true -> parse_value (S f) (String c t) = parse_number (String c t).
Proof. destruct c as [[] [] [] [] [] [] [] []]; try done; intros H; discriminate H. Qed.

Lemma not_bracket {A} s c t (a : string -> A) (b : A) :
  s = String c t -> starts c = true -> match s with String "]" r => a r | _ => b end = b.
Proof. intros ->. destruct c as [[] [] [] [] [] [] [] []]; try done; intros H; discriminate H. Qed.

Lemma print_array x l rest :
  print (VArray (x :: l)) rest = String "[" (print x (print_elements rest false l)).
Proof. done. Qed.

Lemma print_elements_cons x l rest :
  print_elements rest false (x :: l) = String "," (print x (print_elements rest false l)).
Proof. done. Qed.

Lemma elements_ends l rest : ends (print_elements rest false l) = true.
Proof. by destruct l. Qed.

Lemma members_ends o rest : ends (print_members rest false o) = true.
Proof. induction o as [|[k v] o IH]; [done|]. by destruct v. Qed.

(** What a printed value is read back as, with enough fuel. *)
Definition reads (v : value) : Prop := forall rest fuel,
  json_ok v = true -> ends rest = true -> (2 * String.length (print v rest) < fuel)%nat ->
  parse_value fuel (print v rest) = Some (v, rest).

Lemma escape_length s rest : (String.length rest < String.length (escape s rest))%nat.
Proof.
  induction s as [|c s IH]; cbn [escape String.length]; [lia|].
  enough (forall t, (String.length t < String.length (escape_char c t))%nat) as H
    by (specialize (H (escape s rest)); lia).
  intros t. unfold escape_char. repeat case_match; simpl; lia.
Qed.

Definition grows (v : value) : Prop :=
  forall rest, (String.length rest <= String.length (print v rest))%nat.

Lemma elements_length l rest first :
  Forall grows l -> (String.length rest < String.length (print_elements rest first l))%nat.
Proof.
  intros Hl. revert first. induction Hl as [|x l Hx _ IH]; intros first; cbn; [lia|].
  fold (print_elements rest). specialize (Hx (print_elements rest false l)). specialize (IH false).
  destruct first; cbn [String.length]; lia.
Qed.

Lemma members_length o rest first :
  Forall (fun p => grows (snd p)) o ->
  (String.length rest < String.length (print_members rest first o))%nat.
Proof.
  intros Hl. revert first. induction Hl as [|[k x] o Hx _ IH]; intros first; [cbn; lia|].
  cbn in Hx. specialize (Hx (print_members rest false o)).
  pose proof (escape_length k (String ":" (print x (print_members rest false o)))) as He.
  pose proof (IH false). pose proof (IH first).
  cbn [String.length] in He. destruct x; [done|..]; destruct first; cbn [print_members String.length]; lia.
Qed.

Lemma print_length v : grows v.
Proof.
  induction v as [| |[]|x|s|l IH|o IH] using value_ind'; intros rest; cbn [print String.length String.append];
    try lia.
  - destruct (is_finite x); [rewrite length_append; lia|simpl; lia].
  - pose proof (escape_length s rest). lia.
  - pose proof (elements_length l rest true IH) as H. unfold print_elements in H. lia.
  - pose proof (members_length o rest true IH) as H. unfold print_members in H. lia.
Qed.

Lemma parse_elements_reads x l rest fuel :
  Forall reads (x :: l) -> Forall (fun v => json_ok v = true) (x :: l) ->
  (2 * String.length (print x (print_elements rest false l)) + 1 < fuel)%nat ->
  parse_elements fuel (print x (print_elements rest false l)) = Some (x :: l, rest).
Proof.
  revert x fuel. induction l as [|y l IH]; intros x fuel Hr Hok Hf;
    apply Forall_cons in Hr as [Hx Hr]; apply Forall_cons in Hok as [Hokx Hok];
    (destruct fuel as [|f]; [lia|]); cbn [parse_elements];
    (rewrite Hx; [|done|by destruct rest|lia]); cbn [mbind option_bind].
  { done. }
  pose proof (print_length x (print_elements rest false (y :: l))) as Hl.
  rewrite print_elements_cons in *.
  change (skip_ws (String "," ?t)) with (String "," t). cbv iota.
  rewrite IH; [done|done|done|]. cbn [String.length] in Hl. lia.
Qed.

Lemma print_members_cons k v o rest first :
  v <> VUndefined ->
  print_members rest first ((k, v) :: o) =
    let t := String dquote (escape k (String ":" (print v (print_members rest false o)))) in
    if first then t else String "," t.
Proof. by destruct v. Qed.

Lemma json_ok_defined v : json_ok v = true -> v <> VUndefined.
Proof. by destruct v. Qed.

Lemma skip_ws_value v rest : json_ok v = true -> skip_ws (print v rest) = print v rest.
Proof. intros H. destruct (print_head v rest H) as (c & t & -> & Hc). by apply skip_ws_starts. Qed.

Lemma parse_members_reads k v o rest fuel :
  Forall (fun p => reads (snd p)) ((k, v) :: o) ->
  Forall (fun p => json_ok (snd p) = true) ((k, v) :: o) ->
  (2 * String.length (print_members rest true ((k, v) :: o)) < fuel)%nat ->
  parse_members fuel (print_members rest true ((k, v) :: o)) = Some ((k, v) :: o, rest).
Proof.
  revert k v fuel. induction o as [|[k' v'] o IH]; intros k v fuel Hr Hok Hf;
    apply Forall_cons in Hr as [Hx Hr]; apply Forall_cons in Hok as [Hokx Hok]; simpl in Hx, Hokx;
    rewrite print_members_cons in * by (by apply json_ok_defined); cbv zeta iota in *;
    (destruct fuel as [|f]; [lia|]); cbn [parse_members];
    change (skip_ws (String dquote ?t)) with (String dquote t); unfold dquote at 1; cbv iota;
    rewrite parse_chars_escape; cbn [mbind option_bind];
    change (skip_ws (String ":" ?t)) with (String ":" t); cbv iota;
    cbn [String.length] in Hf.
  - rewrite Hx; [done|done|by destruct rest|].
    pose proof (escape_length k (String ":" (print v (print_members rest false [])))) as He.
    cbn [String.length] in He. lia.
  - pose proof (escape_length k (String ":" (print v (print_members rest false ((k', v') :: o))))) as He.
    cbn [String.length] in He.
    rewrite Hx; [|done|apply members_ends|lia]. cbn [mbind option_bind].
    pose proof (print_length v (print_members rest false ((k', v') :: o))) as Hp.
    apply Forall_cons in Hok as Hok'. destruct Hok' as [Hv' _]. simpl in Hv'.
    specialize (IH k' v' f Hr Hok).
    rewrite print_members_cons in * by (by apply json_ok_defined). cbv zeta iota in *.
    change (skip_ws (String "," ?t)) with (String "," t). cbv iota.
    rewrite IH; [done|]. cbn [String.length] in Hp |- *. lia.
Qed.

(** Every representable value is read back from its text, whatever follows
    that cannot continue a number. *)
Lemma parse_print v : reads v.
Proof.
  induction v as [| |b|x|s|l IH|o IH] using value_ind'; intros rest fuel Hok He Hf;
    (destruct fuel as [|f]; [lia|]); [done|done|by destruct b|..].
  - destruct (num_head x Hok) as (c & t & E & Hc). cbn [json_ok] in Hok. unfold num_ok in Hok.
    rewrite !andb_true_iff, !bool_decide_eq_true in Hok. destruct Hok as [[[Hfin Hcs] Hj] Hb].
    cbn [print]. rewrite Hfin. transitivity (parse_number (num_to_string x ++s rest)).
    { rewrite E. by apply parse_value_num. }
    unfold parse_number. rewrite span_prefix by done. by rewrite Hj, Hb.
  - cbn [print parse_value]. change (skip_ws (String dquote ?t)) with (String dquote t).
    unfold dquote at 1. cbv iota. by rewrite parse_chars_escape.
  - assert (Hl : Forall (fun v => json_ok v = true) l).
    { cbn [json_ok] in Hok. apply Forall_forall. intros y Hy.
      rewrite forallb_forall in Hok. by apply Hok, list_elem_of_In. }
    destruct l as [|x l]; [done|]. rewrite print_array in *. cbn [parse_value String.length] in *.
    change (skip_ws (String "[" ?t)) with (String "[" t). cbv iota.
    apply Forall_cons in Hl as Hx. destruct Hx as [Hx _]. rewrite skip_ws_value by done.
    destruct (print_head x (print_elements rest false l) Hx) as (c & t & E & Hc).
    rewrite (not_bracket _ c t) by done. clear c t E Hc.
    rewrite parse_elements_reads; [done|done|done|lia].
  - cbn [json_ok] in Hok. apply andb_true_iff in Hok as [Ho Hok]. apply bool_decide_eq_true in Ho.
    assert (Hl : Forall (fun p => json_ok (snd p) = true) o).
    { apply Forall_forall. intros p Hp. rewrite forallb_forall in Hok. by apply Hok, list_elem_of_In. }
    destruct o as [|[k v] o]; [done|].
    change (print (VObject ((k, v) :: o)) rest) with
      (String "{" (print_members rest true ((k, v) :: o))) in *.
    cbn [parse_value String.length] in *. change (skip_ws (String "{" ?t)) with (String "{" t). cbv iota.
    assert (Hm : exists t, print_members rest true ((k, v) :: o) = String dquote t).
    { apply Forall_cons in Hl as [Hv _]. rewrite print_members_cons by (by apply json_ok_defined). by eexists. }
    destruct Hm as [t Hm]. rewrite Hm at 1. change (skip_ws (String dquote ?t)) with (String dquote t).
    unfold dquote at 1. cbv iota.
    rewrite parse_members_reads; [|done|done|lia]. cbn [mbind option_bind]. by rewrite Ho.
Qed.

#[export] Instance text_json_laws : JsonLaws text_json.
Proof.
  split; [|done]. intros v Hv. unfold parse, stringify, text_json, json_parse.
  rewrite parse_print; [done|done|done|lia].
Qed.
