(* ===== verification/Sse.v ===== *)
(** The server-sent-events reader, src/ui/src/sse.ts: a block parser and a
    loop that cuts the decoded text at blank lines.  The reader is a function
    of its buffer and the next decoded chunk; [readSseStream] folds it over
    the chunks of a response (the byte decoder and the transport are the
    platform's). *)
From S2P Require Import Prelude JsNumber JsString.

Record SseEvent := mkSseEvent { event : string; data : string; id : option string }.

(** ** The block parser *)

(** The fields collected so far: event, id, data lines. *)
Definition fields : Type := string * option string * list string.

(** One line of a block. *)
Definition parse_line (acc : fields) (rawLine : string) : fields :=
  let '(ev, i, dl) := acc in
  let line := trim_end rawLine in
  if (String.length line =? 0)%nat then acc
  else if starts_with ":" line then acc
  else match index_of ":" line with
       | None => acc
       | Some idx =>
           let k := trim (stake idx line) in
           let v := trim_start (sdrop (S idx) line) in
           if bool_decide (k = "event") then (v, i, dl)
           else if bool_decide (k = "id") then (ev, Some v, dl)
           else if bool_decide (k = "data") then (ev, i, dl ++ [v])
           else acc
       end.

Definition parseSseBlock (block : string) : option SseEvent :=
  let lines := split_on (is_char "010") (filter_str (fun c => negb (is_char "013" c)) block) in
  let '(ev, i, dl) := fold_left parse_line lines ("message", None, []) in
  if (length dl =? 0)%nat && bool_decide (ev = "message") && negb (truthy_str (default "" i))
  then None
  else Some (mkSseEvent ev (join nl dl) i).

(** ** The stream reader *)

Definition blank : string := nl ++s nl.

(** The inner loop: dispatch every complete block of the buffer; [fuel] bounds
    the number of blocks. *)
Fixpoint drain (fuel : nat) (buf : string) : list SseEvent * string :=
  match fuel with
  | O => ([], buf)
  | S f =>
      match index_of blank buf with
      | None => ([], buf)
      | Some sep =>
          let block := stake sep buf in
          let '(evs, rest) := drain f (sdrop (sep + 2) buf) in
          (match parseSseBlock block with Some ev => ev :: evs | None => evs end, rest)
      end
  end.

(** One turn of the outer loop: a chunk arrives. *)
Definition feed (buf chunk : string) : list SseEvent * string :=
  let b := buf ++s chunk in drain (S (String.length b)) b.

(** The events passed to [onEvent], in order, and the final buffer. *)
Fixpoint readSse (buf : string) (chunks : list string) : list SseEvent * string :=
  match chunks with
  | [] => ([], buf)
  | c :: cs =>
      let '(e1, b1) := feed buf c in
      let '(e2, b2) := readSse b1 cs in
      (e1 ++ e2, b2)
  end.

Definition readSseStream (chunks : list string) : list SseEvent := fst (readSse "" chunks).

(** [if (!resp.body) throw]. *)
Definition readResponse (body : option (list string)) : string + list SseEvent :=
  match body with
  | None => inl "response has no body"
  | Some chunks => inr (readSseStream chunks)
  end.

(** ** Facts on searching *)

Lemma index_of_bound p s i :
  index_of p s = Some i -> (i + String.length p <= String.length s)%nat.
Proof.
  revert i. induction s as [|c s IH]; intros i; cbn [index_of].
  - destruct p; simpl; [|done]. intros [= <-]. done.
  - destruct (String.prefix p (String c s)) eqn:E.
    + intros [= <-]. clear IH. revert E. generalize (String c s).
      induction p as [|d p IH]; intros t; simpl; [lia|].
      destruct t as [|e t]; [done|]. simpl. destruct (Ascii.ascii_dec d e); [|done].
      intros H. apply IH in H. simpl. lia.
    + intros (j & Hj & ->)%fmap_Some. apply IH in Hj. simpl. lia.
Qed.

Lemma prefix_app p s t : String.prefix p s = true -> String.prefix p (s ++s t) = true.
Proof.
  revert s. induction p as [|c p IH]; intros s; simpl; [by destruct (s ++s t)|].
  destruct s as [|d s]; [done|]. simpl. destruct (Ascii.ascii_dec c d); [|done]. auto.
Qed.

(** Prepending text to the tail cannot move the first match earlier than it
    was, provided the pattern fits in what was there. *)
Lemma prefix_app_inv p s t :
  (String.length p <= String.length s)%nat ->
  String.prefix p (s ++s t) = String.prefix p s.
Proof.
  revert s. induction p as [|c p IH]; intros s; simpl.
  { by destruct s, t. }
  destruct s as [|d s]; simpl; [lia|]. intros. destruct (Ascii.ascii_dec c d); [|done].
  apply IH. lia.
Qed.

Lemma index_of_cons p c s :
  index_of p (String c s) =
    if String.prefix p (String c s) then Some O else S <$> index_of p s.
Proof. done. Qed.

Lemma index_of_app p s t i :
  index_of p s = Some i -> index_of p (s ++s t) = Some i.
Proof.
  revert i. induction s as [|c s IH]; intros i.
  { destruct p; simpl; [|done]. intros [= <-]. by destruct t. }
  change (String c s ++s t) with (String c (s ++s t)). rewrite !index_of_cons.
  destruct (String.prefix p (String c s)) eqn:E.
  - intros [= <-]. apply (prefix_app _ _ t) in E.
    change (String c s ++s t) with (String c (s ++s t)) in E. by rewrite E.
  - intros (j & Hj & ->)%fmap_Some.
    assert (HE : String.prefix p (String c (s ++s t)) = false).
    { change (String c (s ++s t)) with (String c s ++s t).
      rewrite prefix_app_inv; [done|]. apply index_of_bound in Hj. simpl. lia. }
    rewrite HE. by rewrite (IH j).
Qed.

Lemma stake_app n s t : (n <= String.length s)%nat -> stake n (s ++s t) = stake n s.
Proof.
  revert s. induction n as [|n IH]; intros s H; [by destruct s, t|].
  destruct s; simpl in *; [lia|]. f_equal. apply IH. lia.
Qed.

Lemma sdrop_app n s t : (n <= String.length s)%nat -> sdrop n (s ++s t) = (sdrop n s ++s t).
Proof.
  revert s. induction n as [|n IH]; intros s H; [by destruct s|].
  destruct s; simpl in *; [lia|]. apply IH. lia.
Qed.

Lemma length_sdrop n s : String.length (sdrop n s) = (String.length s - n)%nat.
Proof. revert s. induction n; intros [|c s]; simpl; auto. Qed.

(** ** The reader does not depend on the chunking *)

(** With enough fuel the number of turns does not matter: the inner loop
    always terminates. *)
Lemma drain_fuel f g b :
  (String.length b < f)%nat -> (String.length b < g)%nat -> drain f b = drain g b.
Proof.
  revert g b. induction f as [|f IH]; intros g b Hf Hg; [lia|].
  destruct g as [|g]; [lia|]. cbn [drain].
  destruct (index_of blank b) as [i|] eqn:E; [|done].
  apply index_of_bound in E. change (String.length blank) with 2%nat in E.
  rewrite (IH g); [done|rewrite length_sdrop; lia..].
Qed.

Definition drain_all (b : string) : list SseEvent * string := drain (S (String.length b)) b.

Lemma drain_all_unfold b :
  drain_all b =
    match index_of blank b with
    | None => ([], b)
    | Some sep =>
        let '(evs, rest) := drain_all (sdrop (sep + 2) b) in
        (match parseSseBlock (stake sep b) with Some ev => ev :: evs | None => evs end, rest)
    end.
Proof.
  unfold drain_all at 1. cbn [drain]. destruct (index_of blank b) as [i|] eqn:E; [|done].
  apply index_of_bound in E. change (String.length blank) with 2%nat in E.
  unfold drain_all. erewrite drain_fuel; [done|rewrite length_sdrop; lia..].
Qed.

(** What remains in the buffer holds no complete block. *)
Lemma drain_all_rest b : index_of blank (snd (drain_all b)) = None.
Proof.
  remember (String.length b) as n eqn:Hn. revert b Hn.
  induction (lt_wf n) as [n _ IH]. intros b ->. rewrite drain_all_unfold.
  destruct (index_of blank b) as [i|] eqn:E; [|done].
  pose proof (index_of_bound _ _ _ E) as HE. change (String.length blank) with 2%nat in HE.
  specialize (IH (String.length (sdrop (i + 2) b))).
  destruct (drain_all (sdrop (i + 2) b)) as [evs rest] eqn:Hd.
  specialize (IH ltac:(rewrite length_sdrop; lia) _ eq_refl). by rewrite Hd in IH.
Qed.

Lemma drain_all_app a b :
  drain_all (a ++s b) =
    let '(e1, r) := drain_all a in
    let '(e2, r2) := drain_all (r ++s b) in
    (e1 ++ e2, r2).
Proof.
  remember (String.length a) as n eqn:Hn. revert a Hn.
  induction (lt_wf n) as [n _ IH]. intros a ->.
  rewrite (drain_all_unfold a). destruct (index_of blank a) as [i|] eqn:E.
  - pose proof (index_of_bound _ _ _ E) as HE. change (String.length blank) with 2%nat in HE.
    rewrite drain_all_unfold, (index_of_app _ _ b _ E), stake_app, sdrop_app by lia.
    rewrite (IH (String.length (sdrop (i + 2) a))) by (rewrite ?length_sdrop; lia || done).
    destruct (drain_all (sdrop (i + 2) a)) as [e1 r].
    destruct (drain_all (r ++s b)) as [e2 r2].
    by destruct (parseSseBlock (stake i a)).
  - by destruct (drain_all (a ++s b)).
Qed.

Lemma readSse_concat buf cs :
  index_of blank buf = None ->
  readSse buf cs = drain_all (buf ++s String.concat "" cs).
Proof.
  revert buf. induction cs as [|c cs IH]; intros buf Hb; simpl.
  { by rewrite append_nil_r, drain_all_unfold, Hb. }
  change (feed buf c) with (drain_all (buf ++s c)).
  assert (Hc : String.concat "" (c :: cs) = (c ++s String.concat "" cs)).
  { destruct cs; simpl; [by rewrite append_nil_r|done]. }
  change (match cs with [] => c | _ :: _ => _ end) with (String.concat "" (c :: cs)).
  rewrite Hc, <- append_assoc, (drain_all_app (buf ++s c)).
  pose proof (drain_all_rest (buf ++s c)) as Hr.
  destruct (drain_all (buf ++s c)) as [e1 r]. simpl in Hr. simpl. by rewrite IH.
Qed.

Lemma readSse_start cs : readSse "" cs = drain_all (String.concat "" cs).
Proof. by rewrite readSse_concat. Qed.

(** ** Frames: what a server writes *)

(** A frame as the daemon writes it: an optional id, the event name and data
    lines, one field per line. *)
Record frame := mkFrame { f_id : option string; f_event : string; f_data : list string }.

Definition frame_lines (f : frame) : list string :=
  match f_id f with Some i => ["id: " ++s i] | None => [] end
  ++ ["event: " ++s f_event f] ++ map (fun d => "data: " ++s d) (f_data f).

Definition encode (f : frame) : string := join nl (frame_lines f).

Definition denote (f : frame) : SseEvent :=
  mkSseEvent (f_event f) (join nl (f_data f)) (f_id f).

Fixpoint all_chars (p : ascii -> bool) (s : string) : bool :=
  match s with "" => true | String c s' => p c && all_chars p s' end.

(** A field value: no line break and no surrounding white space. *)
Definition field_ok (s : string) : bool :=
  all_chars (fun c => negb (is_char "010" c) && negb (is_char "013" c)) s
  && bool_decide (trim_start s = s) && bool_decide (trim_end s = s).

(** The frame carries something: otherwise the reader drops it. *)
Definition frame_ok (f : frame) : bool :=
  match f_id f with Some i => field_ok i | None => true end
  && field_ok (f_event f) && forallb field_ok (f_data f)
  && (negb (length (f_data f) =? 0)%nat || negb (bool_decide (f_event f = "message"))
      || truthy_str (default "" (f_id f))).

Lemma all_chars_app p a b : all_chars p (a ++s b) = all_chars p a && all_chars p b.
Proof. induction a; simpl; [done|]. by rewrite IHa, andb_assoc. Qed.

Lemma trim_end_by_app p a b :
  trim_end_by p b <> "" -> trim_end_by p (a ++s b) = (a ++s trim_end_by p b).
Proof.
  intros H. induction a as [|c a IH]; simpl; [done|]. rewrite IH.
  destruct (a ++s trim_end_by p b) eqn:E; [|done].
  destruct a; simpl in E; [done|discriminate].
Qed.

(** The line of a field sets that field. *)
Lemma parse_field_line k v acc :
  field_ok v = true ->
  (k = "event" \/ k = "id" \/ k = "data") ->
  parse_line acc (k ++s ": " ++s v) =
    let '(ev, i, dl) := acc in
    if bool_decide (k = "event") then (v, i, dl)
    else if bool_decide (k = "id") then (ev, Some v, dl) else (ev, i, dl ++ [v]).
Proof.
  intros Hv Hk. apply andb_split in Hv as [Hv He]. apply andb_split in Hv as [_ Hs].
  apply bool_decide_eq_true in Hs, He. destruct acc as [[ev i] dl].
  assert (Hline : trim_end (k ++s ": " ++s v) =
    if bool_decide (v = "") then k ++s ":" else k ++s ": " ++s v).
  { case_bool_decide as Hn.
    - subst v. by destruct Hk as [->|[->| ->]].
    - unfold trim_end. rewrite <- append_assoc, trim_end_by_app; fold trim_end; by rewrite He. }
  unfold parse_line. rewrite Hline.
  assert (Hw : trim_start (" " ++s v) = v) by (rewrite <- Hs at 2; done).
  case_bool_decide as Hn.
  - subst v. by destruct Hk as [->|[->| ->]].
  - destruct Hk as [->|[->| ->]]; cbn; fold trim_start; by rewrite Hw || rewrite Hs.
Qed.

Lemma filter_str_all p s : all_chars p s = true -> filter_str p s = s.
Proof. induction s; simpl; [done|]. intros [-> H]%andb_split. by rewrite IHs. Qed.

Lemma split_on_line p a b :
  all_chars (fun c => negb (p c)) a = true ->
  split_on p (a ++s b) =
    match split_on p b with h :: t => (a ++s h) :: t | [] => [a] end.
Proof.
  induction a as [|c a IH]; simpl; intros H.
  { destruct b as [|c b]; simpl; [done|]. destruct (p c); [done|]. by destruct (split_on p b). }
  apply andb_split in H as [Hc Ha]. apply negb_true_iff in Hc. rewrite Hc, IH by done.
  by destruct (split_on p b).
Qed.

Lemma split_on_join (ls : list string) :
  ls <> [] ->
  Forall (fun l => all_chars (fun c => negb (is_char "010" c)) l = true) ls ->
  split_on (is_char "010") (join nl ls) = ls.
Proof.
  intros Hne Hall. induction Hall as [|l ls Hl Hls IH]; [done|].
  destruct ls as [|l' ls].
  - change (join nl [l]) with l. rewrite <- (append_nil_r l) at 1.
    rewrite split_on_line by done. simpl. by rewrite append_nil_r.
  - change (join nl (l :: l' :: ls)) with (l ++s nl ++s join nl (l' :: ls)).
    rewrite split_on_line by done.
    change (split_on (is_char "010") (nl ++s join nl (l' :: ls)))
      with ("" :: split_on (is_char "010") (join nl (l' :: ls))).
    cbv beta iota. rewrite append_nil_r, IH; done.
Qed.

Lemma prefix_ne c d p s : c <> d -> String.prefix (String c p) (String d s) = false.
Proof. intros. cbn [String.prefix]. by destruct (Ascii.ascii_dec c d). Qed.

Lemma prefix_eq c p s : String.prefix (String c p) (String c s) = String.prefix p s.
Proof. cbn [String.prefix]. by destruct (Ascii.ascii_dec c c). Qed.

Lemma not_nl c : negb (is_char "010" c) = true -> "010"%char <> c.
Proof. unfold is_char. by intros H%negb_true_iff%bool_decide_eq_false. Qed.

(** No blank line inside a frame; the first one is its terminator. *)
Lemma index_of_skip l t :
  all_chars (fun c => negb (is_char "010" c)) l = true ->
  index_of blank (l ++s t) = (fun n => (String.length l + n)%nat) <$> index_of blank t.
Proof.
  induction l as [|c l IH]; intros Hl.
  { change ("" ++s t) with t. by destruct (index_of blank t). }
  simpl in Hl. apply andb_split in Hl as [Hc Hl].
  change (String c l ++s t) with (String c (l ++s t)). rewrite index_of_cons.
  assert (Hp : String.prefix blank (String c (l ++s t)) = false).
  { by apply prefix_ne, not_nl. }
  rewrite Hp, IH by done. by destruct (index_of blank t).
Qed.

Definition plain_line (l : string) : Prop :=
  l <> "" /\ all_chars (fun c => negb (is_char "010" c)) l = true.

Lemma index_of_frame ls rest :
  ls <> [] -> Forall plain_line ls ->
  index_of blank (join nl ls ++s blank ++s rest) = Some (String.length (join nl ls)).
Proof.
  intros Hne Hall. induction Hall as [|l ls [Hl0 Hl] Hls IH]; [done|].
  destruct ls as [|l' ls].
  - change (join nl [l]) with l. rewrite index_of_skip by done.
    assert (Hb : index_of blank (blank ++s rest) = Some O) by (by destruct rest).
    rewrite Hb. simpl. by rewrite Nat.add_0_r.
  - change (join nl (l :: l' :: ls)) with (l ++s nl ++s join nl (l' :: ls)).
    rewrite append_assoc, append_assoc, index_of_skip by done.
    change (nl ++s join nl (l' :: ls) ++s blank ++s rest)
      with (String "010" (join nl (l' :: ls) ++s blank ++s rest)).
    rewrite index_of_cons, IH by done.
    apply Forall_inv in Hls as [Hne' Hnl'].
    assert (Hp : String.prefix blank (String "010" (join nl (l' :: ls) ++s blank ++s rest)) = false).
    { destruct l' as [|c l']; [done|]. simpl in Hnl'. apply andb_split in Hnl' as [Hc _].
      change blank with (String "010" (String "010" "")). rewrite prefix_eq.
      destruct ls; by apply prefix_ne, not_nl. }
    rewrite Hp, !length_append. change (String.length nl) with 1%nat.
    set (n := String.length (join nl (l' :: ls))). simpl. f_equal; lia.
Qed.

Lemma all_chars_impl (p q : ascii -> bool) s :
  (forall c, p c = true -> q c = true) -> all_chars p s = true -> all_chars q s = true.
Proof.
  intros H. induction s; simpl; [done|]. intros [Hc Hs]%andb_split.
  by rewrite (H _ Hc), IHs.
Qed.

Definition not_nl_cr (c : ascii) : bool := negb (is_char "010" c) && negb (is_char "013" c).

Lemma field_ok_chars v : field_ok v = true -> all_chars not_nl_cr v = true.
Proof. intros [[H _]%andb_split _]%andb_split. exact H. Qed.

Lemma line_chars a v :
  all_chars not_nl_cr a = true -> field_ok v = true -> all_chars not_nl_cr (a ++s v) = true.
Proof. intros Ha Hv. by rewrite all_chars_app, Ha, field_ok_chars. Qed.

(** The lines of a well-formed frame are not empty and hold no line break. *)
Lemma frame_lines_ok f :
  frame_ok f = true -> Forall (fun l => l <> "" /\ all_chars not_nl_cr l = true) (frame_lines f).
Proof.
  intros [[[Hi He]%andb_split Hd]%andb_split _]%andb_split. unfold frame_lines.
  apply Forall_app. split.
  { revert Hi. destruct (f_id f); [intros Hi|constructor]. constructor; [|constructor].
    split; [done|]. by apply line_chars. }
  apply List.Forall_cons; [split; [done|by apply line_chars]|].
  apply Forall_forall. intros l (d & -> & Hin)%list_elem_of_fmap.
  split; [done|]. apply line_chars; [done|]. rewrite forallb_forall in Hd.
  by apply Hd, list_elem_of_In.
Qed.

Lemma frame_lines_ne f : frame_lines f <> [].
Proof. unfold frame_lines. by destruct (f_id f). Qed.

(** A frame parses back to what it denotes. *)
Lemma parse_encode f : frame_ok f = true -> parseSseBlock (encode f) = Some (denote f).
Proof.
  intros Hok. pose proof (frame_lines_ok f Hok) as Hls. unfold parseSseBlock, encode.
  assert (Hcr : filter_str (fun c => negb (is_char "013" c)) (join nl (frame_lines f))
                = join nl (frame_lines f)).
  { apply filter_str_all. clear Hok. induction Hls as [|l ls [_ Hl] Hls IH]; [done|].
    apply (all_chars_impl _ (fun c => negb (is_char "013" c))) in Hl;
      [|by intros c [_ ?]%andb_split].
    destruct ls; [done|]. change (join nl (l :: s :: ls)) with (l ++s nl ++s join nl (s :: ls)).
    by rewrite !all_chars_app, Hl, IH. }
  rewrite Hcr, split_on_join; [|apply frame_lines_ne|].
  2:{ eapply Forall_impl; [exact Hls|]. intros l [_ Hl]. revert Hl.
      apply all_chars_impl. by intros c [? _]%andb_split. }
  clear Hls Hcr. unfold frame_ok in Hok.
  apply andb_split in Hok as [[Hhd Hd]%andb_split Hsome].
  apply andb_split in Hhd as [Hi He].
  assert (Hdata : forall ds ev i dl, forallb field_ok ds = true ->
    fold_left parse_line (map (fun d => "data: " ++s d) ds) (ev, i, dl) = (ev, i, dl ++ ds)).
  { induction ds as [|d ds IH]; intros ev i dl; cbn [map fold_left forallb];
      [by rewrite app_nil_r|].
    intros [Hd1 Hd2]%andb_split. change ("data: " ++s d) with ("data" ++s ": " ++s d).
    rewrite parse_field_line by auto. simpl. rewrite IH by done. by rewrite <- app_assoc. }
  unfold frame_lines. rewrite !fold_left_app.
  assert (Hid : fold_left parse_line
      match f_id f with Some i => ["id: " ++s i] | None => [] end ("message", None, []) =
      ("message", f_id f, [])).
  { revert Hi. destruct (f_id f) as [i|]; [intros Hi|done]. cbn [fold_left].
    change ("id: " ++s i) with ("id" ++s ": " ++s i). by rewrite parse_field_line by auto. }
  rewrite Hid. cbn [fold_left].
  change ("event: " ++s f_event f) with ("event" ++s ": " ++s f_event f).
  rewrite parse_field_line by auto. simpl. rewrite Hdata by done. simpl.
  unfold denote. revert Hsome.
  destruct (length (f_data f) =? 0)%nat, (bool_decide (f_event f = "message")),
    (truthy_str (default "" (f_id f))); done.
Qed.

(** The text a server sends for a list of frames. *)
Definition wire (fs : list frame) : string :=
  String.concat "" (map (fun f => encode f ++s blank) fs).

Lemma wire_cons f fs : wire (f :: fs) = (encode f ++s blank ++s wire fs).
Proof.
  unfold wire. destruct fs; [done|]. simpl. by rewrite append_assoc.
Qed.

Lemma stake_length_app a b : stake (String.length a) (a ++s b) = a.
Proof. induction a; simpl; [by destruct b|]. by f_equal. Qed.

Lemma sdrop_length_app a b : sdrop (String.length a) (a ++s b) = b.
Proof. induction a; simpl; [by destruct b|]. done. Qed.

Lemma sdrop_add n m s : sdrop (n + m) s = sdrop m (sdrop n s).
Proof. revert s. induction n; intros [|c s]; simpl; [done..|by destruct m|done]. Qed.

Lemma drain_wire fs :
  Forall (fun f => frame_ok f = true) fs -> drain_all (wire fs) = (map denote fs, "").
Proof.
  induction 1 as [|f fs Hf Hfs IH]; [done|]. rewrite wire_cons, drain_all_unfold.
  unfold encode at 1. rewrite index_of_frame; [|apply frame_lines_ne|].
  2:{ eapply Forall_impl; [by apply frame_lines_ok|]. intros l [Hne Hl]. split; [done|].
      revert Hl. apply all_chars_impl. by intros c [? _]%andb_split. }
  fold (encode f). rewrite sdrop_add, sdrop_length_app, stake_length_app.
  change (sdrop 2 (blank ++s wire fs)) with (wire fs).
  rewrite IH, parse_encode by done. done.
Qed.

(** ** The reader's contract *)

(** C25: for every list of well-formed frames, however the text is cut into
    chunks (even inside a frame or between the two line feeds of a
    terminator), [readSseStream] passes exactly the events the frames denote
    to [onEvent], in order, each one once. *)
Theorem readSseStream_frames (fs : list frame) (chunks : list string)
  (Hok : Forall (fun f => frame_ok f = true) fs)
  (Hcut : String.concat "" chunks = wire fs) :
  readSseStream chunks = map denote fs.
Proof. unfold readSseStream. by rewrite readSse_start, Hcut, drain_wire. Qed.

Lemma readSseStream_frames_witness :
  let f1 := mkFrame (Some "7") "agent_event" ["{}"] in
  let f2 := mkFrame None "job_done" ["a"; "b"] in
  let chunks := ["id: 7" ++s nl ++s "eve"; "nt: agent_event" ++s nl ++s "data: {}" ++s nl;
                 nl ++s "event: job_done" ++s nl ++s "data: a" ++s nl ++s "data: b" ++s nl ++s nl] in
  readSseStream chunks =
    [mkSseEvent "agent_event" "{}" (Some "7"); mkSseEvent "job_done" ("a" ++s nl ++s "b") None].
Proof.
  intros f1 f2 chunks. apply (readSseStream_frames [f1; f2] chunks).
  - repeat constructor.
  - reflexivity.
Defined.

(** The events dispatched, and the text kept for the next chunk, depend
    only on the concatenation of the chunks received: reading [cs1] then
    [cs2] is reading everything at once, for arbitrary text. *)
Theorem readSse_chunking (cs1 cs2 : list string)
  (Hsame : String.concat "" cs1 = String.concat "" cs2) :
  readSse "" cs1 = readSse "" cs2 /\
  index_of blank (snd (readSse "" cs1)) = None.
Proof.
  rewrite !readSse_start, Hsame. split; [done|]. apply drain_all_rest.
Qed.

Lemma readSse_chunking_witness :
  readSse "" ["data: x" ++s nl; nl ++s "da"] = readSse "" ["data: x" ++s nl ++s nl ++s "da"] /\
  index_of blank (snd (readSse "" ["data: x" ++s nl; nl ++s "da"])) = None.
Proof. apply (readSse_chunking _ ["data: x" ++s nl ++s nl ++s "da"]). reflexivity. Defined.

(** A stream framed with CRLF line ends is never dispatched: without two
    consecutive line feeds nothing reaches [onEvent] and the whole text stays
    in the buffer, although the block parser removes carriage returns. *)
Theorem readSse_without_blank (cs : list string)
  (Hno : index_of blank (String.concat "" cs) = None) :
  readSse "" cs = ([], String.concat "" cs).
Proof. by rewrite readSse_start, drain_all_unfold, Hno. Qed.

Definition crlf : string := cr ++s nl.

Lemma readSse_without_blank_witness :
  readSse "" ["event: job_done" ++s crlf ++s "data: {}" ++s crlf ++s crlf]
    = ([], "event: job_done" ++s crlf ++s "data: {}" ++s crlf ++s crlf)
  /\ parseSseBlock ("event: job_done" ++s crlf ++s "data: {}" ++s cr)
     = Some (mkSseEvent "job_done" "{}" None).
Proof.
  split; [|reflexivity].
  apply (readSse_without_blank ["event: job_done" ++s crlf ++s "data: {}" ++s crlf ++s crlf]).
  reflexivity.
Defined.
