(* ===== verification/JobStore.v ===== *)
(** The persisted table of watched runs: pruning by age and size
    (src/ui/src/jobStore.ts), extraction, last-writer-wins merge and
    comparison (src/ui/src/runWatchPrefs.ts).  A table maps a scope key to an
    entry; an entry is an arbitrary JavaScript value, whose shape the code
    tests at run time. *)
From S2P Require Import Prelude JsNumber JsString JsValue.

(** [RunWatchByScope]. *)
Abbreviation RunWatchByScope := (obj value).

(** ** runWatchPrefs.ts *)

Definition extractRunWatchByScope (prefs : value) : RunWatchByScope :=
  let root := if is_objectish prefs then vprop "run_watch" prefs else VNull in
  let byScope := if is_objectish root then vprop "by_scope" root else VNull in
  match byScope with VObject o => o | _ => [] end.

(** [typeof v?.k === "number" ? v.k : d]. *)
Definition number_field (k : string) (v : value) : option number := as_number (vprop k v).

Definition finite_or_0 (x : number) : number := if is_finite x then x else int 0.

Definition runWatchTs (v : value) : number :=
  let updated := default (int 0) (number_field "updated_unix_ms" v) in
  if is_finite updated && gtb updated (int 0) then updated
  else finite_or_0 (default (int 0) (number_field "started_unix_ms" v)).

(** [value && typeof value === "object" && !Array.isArray(value)]. *)
Definition is_entry (v : value) : bool := match v with VObject _ => true | _ => false end.

Definition merge_step (next : RunWatchByScope) (p : string * value) : RunWatchByScope :=
  let '(key, v) := p in
  if is_entry v then
    match get key next with
    | Some cur =>
        if negb (truthy cur) || geb (runWatchTs v) (runWatchTs cur) then set key v next else next
    | None => set key v next
    end
  else next.

Definition mergeRunWatchByScope (local remote : RunWatchByScope) : RunWatchByScope :=
  fold_left merge_step remote local.

(** [===] on the fields compared below (strings and numbers; other values
    compare structurally). *)
Definition strict_eq (a b : value) : bool :=
  match a, b with
  | VNumber x, VNumber y => num_eqb x y
  | _, _ => bool_decide (a = b)
  end.

(** One iteration of the comparison loop: [false] is the early return. *)
Definition entry_equal (av : value) (ob : option value) : bool :=
  match ob with
  | None => false
  | Some bv =>
      truthy bv
      && strict_eq (vprop "job_id" av |||| VString "") (vprop "job_id" bv |||| VString "")
      && strict_eq (vprop "cursor" av |||| VNumber (int 0)) (vprop "cursor" bv |||| VNumber (int 0))
      && num_eqb (runWatchTs av) (runWatchTs bv)
  end.

Definition runWatchMapsEqual (a b : RunWatchByScope) : bool :=
  (length (keys a) =? length (keys b))%nat
  && forallb (fun key => entry_equal (of_option (get key a)) (get key b)) (keys a).

(** ** jobStore.ts *)

Definition JOB_STORE_MAX : Z := 64.
Definition JOB_STORE_TTL_MS : Z := 7 * 24 * 60 * 60 * 1000.

Definition prune_ts (v : value) : number :=
  finite_or_0
    match number_field "updated_unix_ms" v with
    | Some x => x
    | None => default (int 0) (number_field "started_unix_ms" v)
    end.

(** [ttlMs > 0 && e.ts > 0 && nowMs - e.ts > ttlMs]. *)
Definition expired (nowMs : number) (ttlMs : Z) (ts : number) : bool :=
  (0 <? ttlMs) && gtb ts (int 0) && gtb (sub nowMs ts) (int ttlMs).

(** The comparator [b.ts - a.ts], positive. *)
Definition older (a b : string * value) : bool :=
  gtb (sub (prune_ts (snd b)) (prune_ts (snd a))) (int 0).

Definition pruneJobsBySession (nowMs : number) (jobs : RunWatchByScope)
    (maxEntries ttlMs : Z) : RunWatchByScope * bool :=
  let entries := List.filter (fun e => is_entry (snd e)) jobs in
  let live := List.filter (fun e => negb (expired nowMs ttlMs (prune_ts (snd e)))) entries in
  let next := of_entries live in
  let changed := negb (length live =? length entries)%nat in
  let '(next, changed) :=
    if (0 <? maxEntries) && (maxEntries <? Z.of_nat (length (keys next))) then
      let keep := map fst (take (Z.to_nat maxEntries) (sort_by older next)) in
      let kept := List.filter (fun e => bool_decide (fst e ∈ keep)) next in
      (kept, changed || negb (length kept =? length next)%nat)
    else (next, changed) in
  (next, changed || negb (length (keys next) =? length (keys jobs))%nat).

(** ** Facts on the comparator *)

Lemma finite_or_0_finite x : is_finite (finite_or_0 x) = true.
Proof. by destruct x. Qed.

Lemma prune_ts_fin v : exists k, prune_ts v = Fin k.
Proof.
  unfold prune_ts. match goal with |- exists k, finite_or_0 ?x = _ =>
    pose proof (finite_or_0_finite x); destruct (finite_or_0 x); naive_solver end.
Qed.

Lemma runWatchTs_fin v : exists k, runWatchTs v = Fin k.
Proof.
  unfold runWatchTs. destruct (is_finite _ && _) eqn:E.
  - apply andb_split in E as [E _]. destruct (default _ _); naive_solver.
  - match goal with |- exists k, finite_or_0 ?x = _ =>
      pose proof (finite_or_0_finite x); destruct (finite_or_0 x); naive_solver end.
Qed.

Lemma older_spec a b k j :
  prune_ts (snd a) = Fin k -> prune_ts (snd b) = Fin j -> older a b = (k <? j).
Proof. intros Ha Hb. unfold older. by rewrite Ha, Hb, sub_gt_0. Qed.

Lemma older_asym a b : older a b = true -> older b a = false.
Proof.
  destruct (prune_ts_fin (snd a)) as [k Ha], (prune_ts_fin (snd b)) as [j Hb].
  rewrite (older_spec _ _ _ _ Ha Hb), (older_spec _ _ _ _ Hb Ha).
  rewrite Z.ltb_lt, Z.ltb_ge. lia.
Qed.

Lemma not_older_trans a b c : ngt older a b -> ngt older b c -> ngt older a c.
Proof.
  unfold ngt.
  destruct (prune_ts_fin (snd a)) as [k Ha], (prune_ts_fin (snd b)) as [j Hb],
    (prune_ts_fin (snd c)) as [i Hc].
  rewrite (older_spec _ _ _ _ Ha Hb), (older_spec _ _ _ _ Hb Hc), (older_spec _ _ _ _ Ha Hc).
  rewrite !Z.ltb_ge. lia.
Qed.

Lemma not_older_leb a b : ngt older a b -> leb (prune_ts (snd b)) (prune_ts (snd a)) = true.
Proof.
  unfold ngt. destruct (prune_ts_fin (snd a)) as [k Ha], (prune_ts_fin (snd b)) as [j Hb].
  rewrite (older_spec _ _ _ _ Ha Hb), Ha, Hb. simpl. rewrite Z.ltb_ge, Z.leb_le. done.
Qed.

(** ** The first [n] entries by age *)

Definition newest (n : nat) (o : RunWatchByScope) : RunWatchByScope :=
  let keep := map fst (take n (sort_by older o)) in
  List.filter (fun e => bool_decide (fst e ∈ keep)) o.

Lemma newest_elem n o e : wf o -> e ∈ newest n o <-> e ∈ take n (sort_by older o).
Proof.
  intros Hwf. unfold newest. rewrite elem_of_filter_bool, bool_decide_eq_true.
  assert (Htake : forall x, x ∈ take n (sort_by older o) -> x ∈ o).
  { intros x Hx. apply (elem_of_sort_by older). by eapply elem_of_take in Hx as (i & ? & _);
      apply list_elem_of_lookup_2 in H. }
  split.
  - intros [He (e' & Hfst & He')%list_elem_of_fmap]. pose proof (Htake _ He') as Ho.
    destruct e as [k v], e' as [k' v']. simpl in Hfst. subst k'.
    apply (wf_get _ _ _ Hwf) in Ho. apply (wf_get _ _ _ Hwf) in He. by simplify_eq.
  - intros He. split; [by apply Htake|]. apply list_elem_of_fmap. eauto.
Qed.

Lemma newest_perm n o :
  wf o -> Permutation.Permutation (newest n o) (take n (sort_by older o)).
Proof.
  intros Hwf. apply NoDup_Permutation.
  - by apply NoDup_of_wf, wf_filter.
  - eapply sublist_NoDup; [|apply sublist_take]. rewrite sort_by_perm. by apply NoDup_of_wf.
  - intros e. by apply newest_elem.
Qed.

Lemma newest_length n o : wf o -> length (newest n o) = Nat.min n (length o).
Proof.
  intros Hwf. by rewrite (Permutation.Permutation_length (newest_perm n o Hwf)),
    length_take, length_sort_by.
Qed.

(** Nothing dropped is newer than something kept. *)
Lemma newest_older n o e e' :
  wf o -> e ∈ o -> e ∉ newest n o -> e' ∈ newest n o ->
  leb (prune_ts (snd e)) (prune_ts (snd e')) = true.
Proof.
  intros Hwf He Hne He'. rewrite newest_elem in Hne, He' by done.
  apply not_older_leb.
  apply (StronglySorted_app_rel (ngt older) (take n (sort_by older o)) (drop n (sort_by older o)));
    [|done|].
  - rewrite take_drop. apply sort_by_sorted; [exact older_asym|exact not_older_trans].
  - apply (elem_of_sort_by older) in He. rewrite <- (take_drop n (sort_by older o)) in He.
    apply elem_of_app in He as [He|He]; done.
Qed.

(** ** Pruning *)

Definition live_entry (nowMs : number) (ttlMs : Z) (e : string * value) : bool :=
  is_entry (snd e) && negb (expired nowMs ttlMs (prune_ts (snd e))).

Definition live_entries (nowMs : number) (ttlMs : Z) (jobs : RunWatchByScope) :=
  List.filter (live_entry nowMs ttlMs) jobs.

(** The kept table: the live entries, cut to the newest [maxEntries]. *)
Lemma prune_next nowMs jobs maxEntries ttlMs :
  fst (pruneJobsBySession nowMs jobs maxEntries ttlMs) =
    let live := of_entries (live_entries nowMs ttlMs jobs) in
    if (0 <? maxEntries) && (maxEntries <? Z.of_nat (length (keys live)))
    then newest (Z.to_nat maxEntries) live else live.
Proof.
  unfold pruneJobsBySession, live_entries, live_entry. rewrite filter_filter. cbv zeta.
  by destruct ((0 <? maxEntries) && _).
Qed.

Section prune.
Context (nowMs : number) (jobs : RunWatchByScope) (maxEntries ttlMs : Z).
Context (Hwf : wf jobs) (Hmax : 0 < maxEntries).

Let next := fst (pruneJobsBySession nowMs jobs maxEntries ttlMs).
Let live := of_entries (live_entries nowMs ttlMs jobs).

Lemma wf_live : wf live.
Proof. apply wf_of_entries. Qed.

Lemma get_live k :
  get k live = match get k jobs with
               | Some v => if live_entry nowMs ttlMs (k, v) then Some v else None
               | None => None
               end.
Proof.
  unfold live. rewrite get_of_entries by (by apply wf_filter). by apply get_filter.
Qed.

Lemma live_length : (length live <= length jobs)%nat.
Proof.
  unfold live. rewrite of_entries_perm by (by apply wf_filter). apply filter_length_le.
Qed.

(** [next] is the newest part of [live], or all of it. *)
Lemma next_cases :
  (next = live /\ Z.of_nat (length live) <= maxEntries) \/
  (next = newest (Z.to_nat maxEntries) live /\ maxEntries < Z.of_nat (length live)).
Proof.
  unfold next. rewrite prune_next. cbv zeta. fold live. rewrite length_keys.
  replace (0 <? maxEntries) with true by (symmetry; by apply Z.ltb_lt).
  destruct (Z.ltb_spec maxEntries (Z.of_nat (length live))); [by right|by left].
Qed.

Lemma wf_next : wf next.
Proof. destruct next_cases as [[-> _]|[-> _]]; [|apply wf_filter]; apply wf_live. Qed.

Lemma next_length : length next = Nat.min (Z.to_nat maxEntries) (length live).
Proof.
  destruct next_cases as [[-> ?]|[-> ?]]; [lia|]. by rewrite newest_length by apply wf_live.
Qed.

Lemma next_live k v : get k next = Some v -> get k live = Some v.
Proof.
  destruct next_cases as [[-> _]|[-> _]]; [done|]. unfold newest.
  rewrite get_filter by apply wf_live. by repeat case_match; intros; simplify_eq.
Qed.

Lemma next_newest k v k' v' :
  get k live = Some v -> get k next = None -> get k' next = Some v' ->
  leb (prune_ts v) (prune_ts v') = true.
Proof.
  intros Hk Hn Hk'. destruct next_cases as [[Hnx _]|[Hnx _]]; [congruence|].
  rewrite Hnx in Hn, Hk'. pose proof wf_live as Hl.
  apply (newest_older (Z.to_nat maxEntries) live (k, v) (k', v')); [done|by apply get_in| |].
  - rewrite <- get_elem; [congruence|by apply wf_filter].
  - by apply get_in.
Qed.

Lemma changed_iff :
  snd (pruneJobsBySession nowMs jobs maxEntries ttlMs) = false <-> length next = length jobs.
Proof.
  pose proof live_length as Hle. pose proof next_length as Hn. pose proof wf_live as Hwl.
  revert Hn. unfold next. rewrite prune_next.
  assert (Hlive : length (live_entries nowMs ttlMs jobs) = length live).
  { unfold live. by rewrite of_entries_perm by (by apply wf_filter). }
  assert (Hent : (length (live_entries nowMs ttlMs jobs) <=
                  length (List.filter (fun e => is_entry (snd e)) jobs) <= length jobs)%nat).
  { unfold live_entries, live_entry. rewrite <- filter_filter.
    split; apply filter_length_le. }
  unfold pruneJobsBySession. rewrite filter_filter.
  change (List.filter (fun x => is_entry (snd x) && negb (expired nowMs ttlMs (prune_ts (snd x)))) jobs)
    with (live_entries nowMs ttlMs jobs).
  fold live. cbv zeta. rewrite !length_keys. fold (newest (Z.to_nat maxEntries) live).
  destruct ((0 <? maxEntries) && _); simpl; intros Hn;
    rewrite !orb_false_iff, !negb_false_iff, !Nat.eqb_eq, ?length_keys; lia.
Qed.
End prune.

(** Pruning a table keeps only entries of it that are objects and have
    not expired, at most [maxEntries] of them; it drops such an entry only
    when the table is full of entries at least as recent; and it reports
    [changed = false] exactly when every scope keeps its entry. *)
Theorem pruneJobsBySession_spec (nowMs : number) (jobs : RunWatchByScope) (maxEntries ttlMs : Z)
  (Hwf : wf jobs) (Hmax : 0 < maxEntries) :
  let '(next, changed) := pruneJobsBySession nowMs jobs maxEntries ttlMs in
  wf next
  /\ Z.of_nat (length next) <= maxEntries
  /\ (forall k v, get k next = Some v ->
        get k jobs = Some v /\ live_entry nowMs ttlMs (k, v) = true)
  /\ (forall k v, get k jobs = Some v -> live_entry nowMs ttlMs (k, v) = true ->
        get k next = None ->
        Z.of_nat (length next) = maxEntries
        /\ forall k' v', get k' next = Some v' -> leb (prune_ts v) (prune_ts v') = true)
  /\ (changed = false <-> forall k, get k next = get k jobs).
Proof.
  pose proof (wf_next nowMs jobs maxEntries ttlMs Hmax) as Hwn.
  pose proof (next_length nowMs jobs maxEntries ttlMs Hmax) as Hlen.
  pose proof (next_live nowMs jobs maxEntries ttlMs Hmax) as Hlive.
  pose proof (next_newest nowMs jobs maxEntries ttlMs Hmax) as Hnew.
  pose proof (changed_iff nowMs jobs maxEntries ttlMs Hwf Hmax) as Hch.
  pose proof (get_live nowMs jobs ttlMs Hwf) as Hget.
  pose proof (next_cases nowMs jobs maxEntries ttlMs Hmax) as Hcase.
  destruct (pruneJobsBySession nowMs jobs maxEntries ttlMs) as [next changed].
  cbv zeta in *. cbn [fst snd] in *.
  assert (Hsub : forall k v, get k next = Some v ->
            get k jobs = Some v /\ live_entry nowMs ttlMs (k, v) = true).
  { intros k v Hk. apply Hlive in Hk. rewrite Hget in Hk.
    destruct (get k jobs) as [w|]; [|done].
    destruct (live_entry nowMs ttlMs (k, w)) eqn:E; [|done]. by simplify_eq. }
  split_and!; [done|lia|done| |].
  - intros k v Hk Hl Hn. assert (Hkl : get k (of_entries (live_entries nowMs ttlMs jobs)) = Some v)
      by (by rewrite Hget, Hk, Hl).
    split; [|by eauto]. destruct Hcase as [[-> _]|[_ ?]]; [congruence|lia].
  - rewrite Hch. split.
    + intros Heq. apply same_length_props; [done..|]. intros k v Hk. by apply Hsub.
    + intros Hall. apply Permutation.Permutation_length, NoDup_Permutation;
        [by apply NoDup_of_wf..|]. intros [k v]. by rewrite <- !get_elem, Hall.
Qed.

Definition entry_at (ts : Z) : value := VObject [("updated_unix_ms", VNumber (int ts))].

Lemma pruneJobsBySession_spec_witness :
  let jobs := [("a", entry_at 10); ("b", entry_at 30); ("c", VNull); ("d", entry_at 20)] in
  let '(next, changed) := pruneJobsBySession (int 100) jobs 2 85 in
  next = [("b", entry_at 30); ("d", entry_at 20)] /\ changed = true
  /\ Z.of_nat (length next) <= 2.
Proof.
  intros jobs.
  pose proof (pruneJobsBySession_spec (int 100) jobs 2 85 ltac:(by_compute)
    ltac:(lia)) as H.
  assert (E : pruneJobsBySession (int 100) jobs 2 85
              = ([("b", entry_at 30); ("d", entry_at 20)], true)) by (by vm_compute).
  rewrite E in H |- *. split_and!; [done..|]. apply H.
Defined.

(** ** Merging *)

Lemma get_merge_step next p k :
  get k (merge_step next p) =
    if bool_decide (k = fst p) && is_entry (snd p) then
      match get k next with
      | Some cur =>
          if negb (truthy cur) || geb (runWatchTs (snd p)) (runWatchTs cur)
          then Some (snd p) else Some cur
      | None => Some (snd p)
      end
    else get k next.
Proof.
  destruct p as [key v]. simpl. destruct (is_entry v); [|by rewrite andb_false_r].
  rewrite andb_true_r. case_bool_decide as Hk.
  - subst key. destruct (get k next) eqn:E; [|by rewrite get_set_eq].
    case_match; [by rewrite get_set_eq|done].
  - destruct (get key next); [case_match|]; by rewrite ?get_set_ne.
Qed.

Lemma wf_merge l r : wf l -> wf (mergeRunWatchByScope l r).
Proof.
  unfold mergeRunWatchByScope. revert l. induction r as [|[k v] r IH]; simpl; [done|].
  intros l Hl. apply IH. destruct (is_entry v); [|done].
  repeat case_match; by auto using wf_set.
Qed.

(** Last writer wins, the remote entry on a tie. *)
Definition lww (local remote : option value) : option value :=
  match remote with
  | Some v =>
      if is_entry v then
        match local with
        | Some cur => if negb (truthy cur) || geb (runWatchTs v) (runWatchTs cur)
                      then Some v else Some cur
        | None => Some v
        end
      else local
  | None => local
  end.

Lemma get_merge l r k :
  wf r -> get k (mergeRunWatchByScope l r) = lww (get k l) (get k r).
Proof.
  unfold mergeRunWatchByScope. revert l. induction r as [|[j v] r IH]; intros l Hr; [done|].
  apply NoDup_cons in Hr as [Hj Hr]. cbn [fold_left]. rewrite IH, get_merge_step by done.
  cbn [fst snd get]. case_bool_decide as Hk; [|done]. subst j.
  apply get_none in Hj. simpl in Hj. rewrite Hj. simpl. by destruct (is_entry v).
Qed.

(** The view of an entry the comparison looks at. *)
Definition watch_view (v : value) : value * value * number :=
  (vprop "job_id" v |||| VString "", vprop "cursor" v |||| VNumber (int 0), runWatchTs v).

Lemma v_or_no_nan a k : v_or a (VNumber (int k)) <> VNumber NaN.
Proof.
  unfold v_or. destruct a as [| |[]|x|s| |]; simpl; try done;
    [destruct x; simpl; by repeat case_match|by destruct (truthy_str s)].
Qed.

Lemma v_or_str_no_nan a s : v_or a (VString s) <> VNumber NaN.
Proof.
  unfold v_or. destruct a as [| |[]|x|t| |]; simpl; try done;
    [destruct x; simpl; by repeat case_match|by destruct (truthy_str t)].
Qed.

Lemma strict_eq_iff a b : a <> VNumber NaN -> strict_eq a b = true <-> a = b.
Proof.
  intros Ha. unfold strict_eq. destruct a as [| | |x| | |]; try apply bool_decide_eq_true.
  destruct b as [| | |y| | |]; try apply bool_decide_eq_true.
  destruct x; simpl; [done|..]; rewrite bool_decide_eq_true; naive_solver.
Qed.

Lemma entry_equal_iff av ob :
  entry_equal av ob = true <->
  exists bv, ob = Some bv /\ truthy bv = true /\ watch_view av = watch_view bv.
Proof.
  unfold entry_equal, watch_view. destruct ob as [bv|]; [|by split; [|intros (? & ? & _)]].
  rewrite !andb_true_iff, !strict_eq_iff by auto using v_or_no_nan, v_or_str_no_nan.
  assert (Hts : num_eqb (runWatchTs av) (runWatchTs bv) = true <->
                runWatchTs av = runWatchTs bv).
  { destruct (runWatchTs_fin av) as [k ->]. apply bool_decide_eq_true. }
  rewrite Hts. split.
  - intros [[[Ht Hj] Hc] Hk]. exists bv. split_and!; [done|done|congruence].
  - intros (bv' & [= <-] & Ht & [= H1 H2 H3]). done.
Qed.

(** A table as the code stores it: one object per scope. *)
Definition table_ok (o : RunWatchByScope) : Prop :=
  wf o /\ Forall (fun p => is_entry (snd p) = true) o.

Lemma table_ok_get o k v : table_ok o -> get k o = Some v -> is_entry v = true /\ truthy v = true.
Proof.
  intros [_ Ho] Hk%get_in. rewrite Forall_forall in Ho. specialize (Ho _ Hk). simpl in Ho.
  by destruct v.
Qed.

(** The comparison is equality of views. *)
Lemma runWatchMapsEqual_iff a b :
  table_ok a -> table_ok b ->
  runWatchMapsEqual a b = true <->
  forall k, watch_view <$> get k a = watch_view <$> get k b.
Proof.
  intros Ha Hb. unfold runWatchMapsEqual. rewrite andb_true_iff, Nat.eqb_eq, forallb_forall.
  rewrite !length_keys. split.
  - intros [Hlen Hall].
    assert (Hin : forall k, get k a <> None ->
      exists av bv, get k a = Some av /\ get k b = Some bv /\ watch_view av = watch_view bv).
    { intros k Hk. destruct (get k a) as [av|] eqn:E; [|done].
      assert (Hka : k ∈ keys a) by (apply in_keys; eauto).
      specialize (Hall k ltac:(by apply list_elem_of_In)). rewrite E in Hall.
      apply entry_equal_iff in Hall as (bv & -> & _ & Hv). eauto. }
    assert (Hkeys : Permutation.Permutation (keys a) (keys b)).
    { apply submseteq_length_Permutation; [|rewrite !length_keys; lia].
      apply NoDup_submseteq; [apply Ha|]. intros k Hk. apply in_keys in Hk as [v Hv].
      destruct (Hin k) as (? & bv & _ & Hb' & _); [congruence|]. apply in_keys. eauto. }
    intros k. destruct (get k a) as [av|] eqn:E.
    + destruct (Hin k) as (av' & bv & ? & -> & Hv); [congruence|]. simpl. congruence.
    + apply get_none in E. rewrite Hkeys in E. apply get_none in E. by rewrite E.
  - intros Hall.
    assert (Hkeys : Permutation.Permutation (keys a) (keys b)).
    { apply NoDup_Permutation; [apply Ha|apply Hb|]. intros k. rewrite !in_keys.
      specialize (Hall k). destruct (get k a), (get k b); simpl in Hall; naive_solver. }
    split; [by rewrite <- !length_keys, Hkeys|]. intros k Hk%list_elem_of_In.
    apply in_keys in Hk as [av Hav]. specialize (Hall k). rewrite Hav in *.
    destruct (get k b) as [bv|] eqn:Hbv; [|done]. simpl in Hall.
    change (of_option (Some av)) with av. apply entry_equal_iff.
    exists bv. split_and!; [done|by eapply table_ok_get|congruence].
Qed.

(** Equal up to what the comparison sees; an equivalence, preserved by merge
    on the remote side. *)
Definition same_watch (a b : RunWatchByScope) : Prop :=
  forall k, watch_view <$> get k a = watch_view <$> get k b.

#[export] Instance same_watch_equiv : Equivalence same_watch.
Proof. split; red; unfold same_watch; intros; congruence. Qed.

Lemma table_ok_merge l r : table_ok l -> table_ok r -> table_ok (mergeRunWatchByScope l r).
Proof.
  intros Hl Hr. split; [by apply wf_merge, Hl|]. apply Forall_forall. intros [k v] Hin.
  assert (Hg : get k (mergeRunWatchByScope l r) = Some v) by (apply wf_get; [by apply wf_merge, Hl|done]).
  rewrite get_merge in Hg by apply Hr. simpl.
  destruct (get k r) as [rv|] eqn:Er; simpl in Hg; [|by eapply table_ok_get in Hg as [? _]].
  apply table_ok_get in Er as [Hre _]; [|done]. rewrite Hre in Hg.
  destruct (get k l) as [lv|] eqn:El; [|naive_solver].
  apply table_ok_get in El as [Hle _]; [|done]. case_match; naive_solver.
Qed.

(** The merge of two tables: each scope gets the entry with the greater
    time stamp, the remote one on a tie, so no scope's time goes backwards,
    scopes known to only one side are kept, merging again changes nothing, and
    the comparison that decides whether the result must be written back holds
    exactly when the tables agree on every job id, cursor and time stamp. *)
Theorem mergeRunWatchByScope_spec (l r : RunWatchByScope)
  (Hl : table_ok l) (Hr : table_ok r) :
  let m := mergeRunWatchByScope l r in
  table_ok m
  /\ (forall k lv rv, get k l = Some lv -> get k r = Some rv ->
        get k m = Some (if geb (runWatchTs rv) (runWatchTs lv) then rv else lv))
  /\ (forall k v, get k m = Some v <->
        (get k r = None /\ get k l = Some v) \/ (get k l = None /\ get k r = Some v) \/
        (exists lv rv, get k l = Some lv /\ get k r = Some rv /\
           v = if geb (runWatchTs rv) (runWatchTs lv) then rv else lv))
  /\ (forall k lv, get k l = Some lv \/ get k r = Some lv ->
        exists v, get k m = Some v /\ leb (runWatchTs lv) (runWatchTs v) = true)
  /\ (forall k, get k (mergeRunWatchByScope m r) = get k m)
  /\ (runWatchMapsEqual m l = true <-> same_watch m l).
Proof.
  intros m. pose proof (table_ok_merge l r Hl Hr) as Hm.
  assert (Hboth : forall k lv rv, get k l = Some lv -> get k r = Some rv ->
    get k m = Some (if geb (runWatchTs rv) (runWatchTs lv) then rv else lv)).
  { intros k lv rv El Er. unfold m. rewrite get_merge, El, Er by apply Hr. simpl.
    destruct (table_ok_get _ _ _ Hl El) as [_ Ht], (table_ok_get _ _ _ Hr Er) as [-> _].
    rewrite Ht. simpl. by case_match. }
  assert (Hnr : forall k, get k r = None -> get k m = get k l).
  { intros k Er. unfold m. by rewrite get_merge, Er by apply Hr. }
  assert (Hnl : forall k v, get k l = None -> get k r = Some v -> get k m = Some v).
  { intros k v El Er. unfold m. rewrite get_merge, El, Er by apply Hr. simpl.
    by destruct (table_ok_get _ _ _ Hr Er) as [-> _]. }
  split_and!; [done|done| | | |by apply runWatchMapsEqual_iff].
  - intros k v. destruct (get k l) as [lv|] eqn:El, (get k r) as [rv|] eqn:Er.
    + rewrite (Hboth _ _ _ El Er). naive_solver.
    + rewrite (Hnr _ Er), El. naive_solver.
    + rewrite (Hnl _ _ El Er). naive_solver.
    + rewrite (Hnr _ Er), El. naive_solver.
  - intros k v Hv. destruct (get k l) as [lv|] eqn:El, (get k r) as [rv|] eqn:Er.
    + eexists. split; [by apply Hboth|]. unfold geb.
      destruct (runWatchTs_fin lv) as [i Hi], (runWatchTs_fin rv) as [j Hj].
      destruct Hv as [[= <-]|[= <-]]; rewrite Hi, Hj; simpl;
        destruct (Z.leb_spec i j); rewrite ?Hi, ?Hj; simpl; apply Z.leb_le; lia.
    + exists lv. rewrite (Hnr _ Er), El. destruct Hv as [[= <-]|]; [|done].
      destruct (runWatchTs_fin lv) as [i ->]. split; [done|apply Z.leb_refl].
    + exists rv. rewrite (Hnl _ _ El Er). destruct Hv as [|[= <-]]; [done|].
      destruct (runWatchTs_fin rv) as [i ->]. split; [done|apply Z.leb_refl].
    + naive_solver.
  - intros k. rewrite get_merge by apply Hr. destruct (get k r) as [rv|] eqn:Er; [|done].
    simpl. destruct (table_ok_get _ _ _ Hr Er) as [-> _].
    destruct (get k l) as [lv|] eqn:El.
    + rewrite (Hboth _ _ _ El Er). destruct (geb (runWatchTs rv) (runWatchTs lv)) eqn:E.
      * by case_match.
      * by rewrite E, orb_false_r, (proj2 (table_ok_get _ _ _ Hl El)).
    + rewrite (Hnl _ _ El Er). by case_match.
Qed.

Lemma mergeRunWatchByScope_spec_witness :
  let l := [("s", entry_at 10); ("t", entry_at 7)] in
  let r := [("s", entry_at 10); ("u", entry_at 3)] in
  let m := mergeRunWatchByScope l r in
  keys m = ["s"; "t"; "u"] /\ runWatchMapsEqual m l = false
  /\ (forall k, get k (mergeRunWatchByScope m r) = get k m).
Proof.
  intros l r m.
  assert (Hl : table_ok l) by (split; [by_compute|by repeat constructor]).
  assert (Hr : table_ok r) by (split; [by_compute|by repeat constructor]).
  pose proof (mergeRunWatchByScope_spec l r Hl Hr) as H.
  split_and!; [by vm_compute|by vm_compute|]. apply H.
Defined.
