(* ===== verification/Caches.v ===== *)
(** Bounded client-side buffers: the live event list (src/ui/src/liveEvents.ts),
    the least-recently-used scene store (src/ui/src/sceneCache.ts), and the keys
    under which per-session state is kept (src/ui/src/sessionScope.ts,
    src/ui/src/utils/brokerBase.ts). *)
From S2P Require Import Prelude JsNumber JsString JsValue.

(** ** liveEvents.ts *)

Definition LIVE_EVENTS_MAX : nat := 2000.

Section live.
Context {A : Type}.
Implicit Types (events prev next : list A).

Definition capLiveEvents events : list A :=
  if (length events <=? LIVE_EVENTS_MAX)%nat then events
  else drop (length events - LIVE_EVENTS_MAX) events.

Definition appendLiveEvents prev next : list A :=
  if (length next =? 0)%nat then prev else capLiveEvents (prev ++ next).

Lemma capLiveEvents_last_n events : capLiveEvents events = last_n LIVE_EVENTS_MAX events.
Proof.
  unfold capLiveEvents. destruct (Nat.leb_spec (length events) LIVE_EVENTS_MAX); [|done].
  by rewrite last_n_short.
Qed.

(** Appending to a capped buffer is capping the whole history. *)
Lemma appendLiveEvents_last_n events next :
  appendLiveEvents (last_n LIVE_EVENTS_MAX events) next = last_n LIVE_EVENTS_MAX (events ++ next).
Proof.
  unfold appendLiveEvents. destruct next as [|x next]; simpl; [by rewrite app_nil_r|].
  by rewrite capLiveEvents_last_n, last_n_app_absorb.
Qed.

Lemma capLiveEvents_length events : (length (capLiveEvents events) <= LIVE_EVENTS_MAX)%nat.
Proof. rewrite capLiveEvents_last_n. apply length_last_n. Qed.

Lemma appendLiveEvents_length events next :
  (length events <= LIVE_EVENTS_MAX)%nat ->
  (length (appendLiveEvents events next) <= LIVE_EVENTS_MAX)%nat.
Proof. intros. unfold appendLiveEvents. case_match; [done|apply capLiveEvents_length]. Qed.
End live.

(** ** sceneCache.ts

    The three structures the function mutates, as one state. *)

Definition SCENE_STORE_MAX : Z := 12.

Record SceneCache {E : Type} := mkSceneCache {
  store : obj E;
  order : list string;
  updated : obj number;
}.
Arguments SceneCache : clear implicits.

(** [order.splice(idx, 1)] for [idx = order.indexOf(key)]. *)
Fixpoint remove_first (key : string) (l : list string) : list string :=
  match l with
  | [] => []
  | k :: l' => if bool_decide (k = key) then l' else k :: remove_first key l'
  end.

Section scene.
Context {E : Type}.

Definition touchSceneStoreKey (c : SceneCache E) (key : string) (maxEntries : Z) : SceneCache E :=
  if negb (truthy_str key) then c
  else
    let order1 := remove_first key (order c) ++ [key] in
    if (maxEntries <=? 0) || (Z.of_nat (length order1) <=? maxEntries)
    then mkSceneCache E (store c) order1 (updated c)
    else
      let evictCount := (length order1 - Z.to_nat maxEntries)%nat in
      let evicted := take evictCount order1 in
      mkSceneCache E
        (fold_left (fun s k => remove k s) evicted (store c))
        (drop evictCount order1)
        (fold_left (fun s k => remove k s) evicted (updated c)).

Definition touch_all (c : SceneCache E) (ks : list string) (maxEntries : Z) : SceneCache E :=
  fold_left (fun c k => touchSceneStoreKey c k maxEntries) ks c.
End scene.

(** The unbounded recency list: least recently used first. *)
Definition recency (ks : list string) : list string :=
  fold_left (fun l k => remove_first k l ++ [k]) ks [].

Lemma remove_first_sublist k l : sublist (remove_first k l) l.
Proof. induction l; simpl; [constructor|]. case_bool_decide; by repeat constructor. Qed.

Lemma remove_first_not_in k l : NoDup l -> k ∉ remove_first k l.
Proof.
  induction l as [|x l IH]; simpl; intros H; [by apply not_elem_of_nil|].
  apply NoDup_cons in H as [Hx H]. case_bool_decide; [by subst|]. set_solver.
Qed.

Lemma elem_of_remove_first x k l : x <> k -> x ∈ remove_first k l <-> x ∈ l.
Proof. intros Hx. induction l; simpl; [done|]. case_bool_decide; set_solver. Qed.

Lemma remove_first_absent k l : k ∉ l -> remove_first k l = l.
Proof.
  induction l as [|x l IH]; simpl; [done|]. intros [Hne H]%not_elem_of_cons.
  rewrite bool_decide_false by congruence. f_equal. auto.
Qed.

Lemma remove_first_app k l1 l2 :
  remove_first k (l1 ++ l2) =
    if bool_decide (k ∈ l1) then remove_first k l1 ++ l2 else l1 ++ remove_first k l2.
Proof.
  induction l1 as [|x l1 IH]; [by rewrite bool_decide_false by apply not_elem_of_nil|].
  cbn [app remove_first]. destruct (decide (x = k)) as [->|Hx].
  - rewrite !bool_decide_true; [done|by left|done].
  - rewrite IH, (bool_decide_false (x = k)) by done.
    rewrite (bool_decide_ext (k ∈ x :: l1) (k ∈ l1)) by (rewrite elem_of_cons; naive_solver).
    by case_bool_decide.
Qed.

Lemma length_remove_first k l : (length l <= S (length (remove_first k l)))%nat.
Proof. induction l; simpl; [lia|]. case_bool_decide; simpl; lia. Qed.

Lemma touch_order_NoDup k l : NoDup l -> NoDup (remove_first k l ++ [k]).
Proof.
  intros H. apply NoDup_app. split_and!.
  - eapply sublist_NoDup; [exact H|apply remove_first_sublist].
  - intros x Hx ->%list_elem_of_singleton. by eapply remove_first_not_in.
  - apply NoDup_singleton.
Qed.

(** Touching a key of the cut list is touching it in the whole one. *)
Lemma touch_last_n n k l :
  (0 < n)%nat -> NoDup l ->
  last_n n (remove_first k (last_n n l) ++ [k]) = last_n n (remove_first k l ++ [k]).
Proof.
  intros Hn Hl. destruct (decide (length l <= n)%nat) as [Hs|Hs]; [by rewrite (last_n_short n l)|].
  destruct (last_n_suffix n l) as [p Hp]. set (q := last_n n l) in *.
  assert (Hq : length q = n) by (unfold q, last_n; rewrite length_drop; lia).
  assert (Hcut : forall a b : list string, (n <= length b)%nat -> last_n n (a ++ b) = last_n n b).
  { intros a b Hb. unfold last_n. rewrite length_app, drop_app.
    rewrite (drop_ge a) by lia. simpl. f_equal. lia. }
  rewrite Hp, remove_first_app. case_bool_decide as Hk.
  - assert (k ∉ q) by (rewrite Hp in Hl; apply NoDup_app in Hl; naive_solver).
    rewrite (remove_first_absent k q) by done. rewrite <- app_assoc.
    rewrite (Hcut _ (q ++ [k])); [done|]. rewrite length_app. simpl. lia.
  - rewrite <- app_assoc. symmetry. apply Hcut. rewrite length_app. simpl.
    pose proof (length_remove_first k q). lia.
Qed.

Lemma recency_NoDup ks : NoDup (recency ks).
Proof.
  unfold recency. enough (forall l, NoDup l -> NoDup (fold_left (fun l k => remove_first k l ++ [k]) ks l))
    as H by (apply H; constructor).
  induction ks as [|k ks IH]; intros l Hl; simpl; [done|]. by apply IH, touch_order_NoDup.
Qed.

Lemma recency_snoc ks k : recency (ks ++ [k]) = remove_first k (recency ks) ++ [k].
Proof. unfold recency. by rewrite fold_left_app. Qed.

Lemma keys_fold_remove {V} (ks : list string) (o : obj V) k :
  k ∈ keys (fold_left (fun s k => remove k s) ks o) <-> k ∈ keys o /\ k ∉ ks.
Proof.
  revert o. induction ks as [|k' ks IH]; intros o; simpl.
  { split; [intros; split; [done|apply not_elem_of_nil]|by intros [? _]]. }
  rewrite IH, !in_keys, get_remove, not_elem_of_cons.
  case_bool_decide; [|naive_solver]. split; [by intros [[? [=]] _]|naive_solver].
Qed.

(** Only keys in the recency list are stored. *)
Definition cache_ok {E} (c : SceneCache E) : Prop :=
  NoDup (order c) /\ (forall k, k ∈ keys (store c) -> k ∈ order c)
  /\ (forall k, k ∈ keys (updated c) -> k ∈ order c).

Lemma touch_order {E} (c : SceneCache E) k maxEntries :
  0 < maxEntries -> k <> "" ->
  order (touchSceneStoreKey c k maxEntries) =
    last_n (Z.to_nat maxEntries) (remove_first k (order c) ++ [k]).
Proof.
  intros Hm Hk. unfold touchSceneStoreKey. rewrite (proj2 (truthy_str_true k) Hk). simpl.
  destruct (Z.leb_spec maxEntries 0); [lia|]. simpl.
  destruct (Z.leb_spec (Z.of_nat (length (remove_first k (order c) ++ [k]))) maxEntries); simpl.
  - rewrite last_n_short; [done|lia].
  - done.
Qed.

(** The scene store is a least-recently-used cache: after any sequence of
    touches the recency list holds the last [maxEntries] distinct keys in order
    of their latest use. *)
Theorem touch_all_lru {E} (c : SceneCache E) (ks : list string) (maxEntries : Z)
  (Hempty : order c = []) (Hmax : 0 < maxEntries) (Hks : Forall (fun k => k <> "") ks) :
  order (touch_all c ks maxEntries) = last_n (Z.to_nat maxEntries) (recency ks).
Proof.
  induction ks as [|k ks IH] using rev_ind.
  { simpl. rewrite Hempty. by rewrite last_n_short by (simpl; lia). }
  apply Forall_app in Hks as [Hks Hk%Forall_inv].
  unfold touch_all. rewrite fold_left_app. simpl. rewrite touch_order by done.
  fold (touch_all c ks maxEntries). rewrite IH, recency_snoc by done.
  apply touch_last_n; [lia|apply recency_NoDup].
Qed.

Lemma touch_all_lru_witness :
  order (touch_all (mkSceneCache unit [] [] []) ["a"; "b"; "c"; "a"; "d"] 3) = ["c"; "a"; "d"].
Proof.
  rewrite (touch_all_lru (mkSceneCache unit [] [] []) ["a"; "b"; "c"; "a"; "d"] 3);
    [reflexivity|reflexivity|lia|repeat constructor; discriminate].
Defined.

(** A touch keeps the cache well formed and bounded, makes the key the most
    recent one, keeps every stored scene whose key stays in the recency list
    and drops the scene and the time stamp of every evicted key. *)
Theorem touchSceneStoreKey_invariant {E} (c : SceneCache E) (key : string) (maxEntries : Z)
  (Hok : NoDup (order c)) (Hstore : forall k, k ∈ keys (store c) -> k ∈ order c \/ k = key)
  (Hupd : forall k, k ∈ keys (updated c) -> k ∈ order c \/ k = key)
  (Hmax : 0 < maxEntries) (Hkey : key <> "") :
  let c' := touchSceneStoreKey c key maxEntries in
  cache_ok c' /\ Z.of_nat (length (order c')) <= maxEntries /\ last (order c') = Some key
  /\ (forall k, k ∈ order c' -> get k (store c') = get k (store c)).
Proof.
  intros c'. set (o1 := remove_first key (order c) ++ [key]).
  assert (Ho : order c' = last_n (Z.to_nat maxEntries) o1) by (by apply touch_order).
  assert (Hnd1 : NoDup o1) by (by apply touch_order_NoDup).
  assert (Hin1 : forall k, k ∈ order c \/ k = key -> k ∈ o1).
  { intros k Hk. unfold o1. rewrite elem_of_app, list_elem_of_singleton.
    destruct (decide (k = key)) as [->|Hne]; [by right|].
    left. apply elem_of_remove_first; [done|]. by destruct Hk. }
  assert (Hsplit : exists ev, o1 = ev ++ order c' /\
    (forall k, k ∈ keys (store c') <-> k ∈ keys (store c) /\ k ∉ ev) /\
    (forall k, k ∈ keys (updated c') <-> k ∈ keys (updated c) /\ k ∉ ev) /\
    (forall k, k ∉ ev -> get k (store c') = get k (store c))).
  { unfold c', touchSceneStoreKey. rewrite (proj2 (truthy_str_true key) Hkey). simpl.
    fold o1. destruct ((maxEntries <=? 0) || (Z.of_nat (length o1) <=? maxEntries)); simpl.
    - exists []. split_and!; [done|intros k; pose proof (not_elem_of_nil k); naive_solver..].
    - set (n := (length o1 - Z.to_nat maxEntries)%nat). exists (take n o1).
      split_and!; [by rewrite take_drop|intros; apply keys_fold_remove..|].
      intros k. generalize (take n o1). intros ev. generalize (store c) as s.
      induction ev as [|e ev IH]; intros s Hne; simpl; [done|].
      apply not_elem_of_cons in Hne as [Hne1 Hne2]. rewrite IH by done.
      rewrite get_remove. by rewrite bool_decide_false. }
  destruct Hsplit as (ev & Heq & Hs & Hu & Hg).
  assert (Hdisj : forall k, k ∈ order c' -> k ∉ ev).
  { intros k Hk Hev. rewrite Heq in Hnd1. apply NoDup_app in Hnd1. naive_solver. }
  split_and!.
  - split_and!.
    + rewrite Heq in Hnd1. apply NoDup_app in Hnd1. naive_solver.
    + intros k [Hk Hne]%Hs. apply Hstore, Hin1 in Hk. rewrite Heq in Hk. set_solver.
    + intros k [Hk Hne]%Hu. apply Hupd, Hin1 in Hk. rewrite Heq in Hk. set_solver.
  - rewrite Ho. pose proof (length_last_n (Z.to_nat maxEntries) o1). lia.
  - rewrite Ho. unfold o1, last_n. rewrite length_app, drop_app_le by (simpl; lia).
    by rewrite last_snoc.
  - intros k Hk. by apply Hg, Hdisj.
Qed.

Lemma touchSceneStoreKey_invariant_witness :
  let c := mkSceneCache nat [("a", 1%nat); ("b", 2%nat); ("c", 3%nat)] ["a"; "b"] [("a", int 5)] in
  let c' := touchSceneStoreKey c "c" 2 in
  c' = mkSceneCache nat [("b", 2%nat); ("c", 3%nat)] ["b"; "c"] [] /\ cache_ok c'.
Proof.
  intros c c'. split; [by vm_compute|].
  apply (touchSceneStoreKey_invariant c "c" 2); [by_compute|..]; [| |lia|done];
    intros k; simpl; set_solver.
Defined.

(** ** sessionScope.ts *)

(** The argument record; absent fields read as [""]. *)
Record ScopeParams := mkScopeParams {
  profileId : string; base : string; mode : string; deploymentId : string }.

Definition buildSessionScopeKey (p : ScopeParams) : string :=
  let pid := trim (str_or (profileId p) "") in
  let base := trim (str_or (base p) "") in
  let baseKey := if truthy_str base then "base:" ++s base else "base:default" in
  let deployment :=
    if bool_decide (mode p = "broker") then trim (str_or (deploymentId p) "") else "" in
  let deploymentKey := if truthy_str deployment then "deployment:" ++s deployment else "" in
  if negb (truthy_str deploymentKey)
  then (if truthy_str pid then "profile:" ++s pid ++s "::" ++s baseKey else baseKey)
  else if truthy_str pid then "profile:" ++s pid ++s "::" ++s baseKey ++s "::" ++s deploymentKey
  else baseKey ++s "::" ++s deploymentKey.

Definition buildScopedSessionKey (scopeKey sessionId : string) : string :=
  let sid := str_or (trim (str_or sessionId "")) "default" in
  scopeKey ++s "::" ++s sid.

(** ** utils/brokerBase.ts *)

(** [.replace(/\/+$/, "")]. *)
Definition strip_slashes (s : string) : string := trim_end_by (is_char "/") s.

Definition brokerBaseFromProxy (baseUrl : string) : string :=
  let trimmed := strip_slashes (trim (str_or baseUrl "")) in
  match index_of "/v1/agents/" trimmed with
  | Some idx => stake idx trimmed
  | None => trimmed
  end.
