(* ===== verification/LocalStorage.v ===== *)
(** A React state written through to a storage of the browser,
    src/ui/src/hooks/useLocalStorageState.ts (useSessionStorageState.ts is the
    same for the session storage).  The state is read from the storage when the
    component is mounted; a commit writes it when the key or the state is not
    the one of the commit before. *)
From S2P Require Import Prelude JsString JsValue.

(** How a state of type [V] is written as JSON text and read, unchecked, from
    it; [None] where [JSON.parse] throws. *)
Class Stored (V : Type) := { write : V -> string; read : string -> option V }.

Section hook.
Context {V : Type} `{Stored V}.

Definition safeParse (raw : option string) : option V :=
  match raw with
  | None => None
  | Some s => if truthy_str s then read s else None
  end.

(** [version] is the identity of the state: it changes with every update. *)
Record hook := mkHook {
  current : V; version : nat;
  written : option (string * nat);     (* the key and the state of the last commit *)
  storage : obj string }.

Definition mount (key : string) (initial : V) (storage : obj string) : hook :=
  mkHook (default initial (safeParse (get key storage))) 0 None storage.

Definition setValue (f : V -> V) (h : hook) : hook :=
  mkHook (f (current h)) (S (version h)) (written h) (storage h).

(** The effect of a commit under a key; [quota] says that [setItem] throws. *)
Definition commit (key : string) (quota : bool) (h : hook) : hook :=
  if bool_decide (written h = Some (key, version h)) then h
  else mkHook (current h) (version h) (Some (key, version h))
         (if quota then storage h else set key (write (current h)) (storage h)).

Lemma commit_current key quota h : current (commit key quota h) = current h.
Proof. unfold commit. by case_bool_decide. Qed.

Lemma commit_version key quota h : version (commit key quota h) = version h.
Proof. unfold commit. by case_bool_decide. Qed.

(** A commit touches no other key. *)
Lemma commit_other key k quota h : k <> key -> get k (storage (commit key quota h)) = get k (storage h).
Proof. intros Hk. unfold commit. case_bool_decide; [done|]. cbn. case_match; [done|]. by rewrite get_set_ne. Qed.

(** What the last commit says it wrote is what the storage holds. *)
Definition in_step (h : hook) : Prop :=
  forall key, written h = Some (key, version h) -> get key (storage h) = Some (write (current h)).

Lemma mount_in_step key initial s : in_step (mount key initial s).
Proof. by intros k. Qed.

Lemma commit_stores key h :
  in_step h -> get key (storage (commit key false h)) = Some (write (current h)) /\ in_step (commit key false h).
Proof.
  intros Hs. unfold commit. case_bool_decide as E; [by split; [apply Hs|]|]. cbn.
  split; [apply get_set_eq|]. intros k [= <-]. cbn. apply get_set_eq.
Qed.

(** A page opened again continues where the last commit was. *)
Theorem remount_restores key initial initial' h :
  in_step h -> write (current h) <> "" -> read (write (current h)) = Some (current h) ->
  current (mount key initial' (storage (commit key false h))) = current h
  /\ (safeParse (get key (storage h)) = None -> current (mount key initial (storage h)) = initial).
Proof.
  intros Hs Hw Hr. split.
  - destruct (commit_stores key h Hs) as [Hg _]. unfold mount. cbn. rewrite Hg. unfold safeParse.
    rewrite (proj2 (truthy_str_true _)) by done. by rewrite Hr.
  - intros E. unfold mount. cbn. by rewrite E.
Qed.

(** A render under another key keeps the state: what was stored under that key
    is not read but replaced by the state of the former key, which stays stored
    under the former key too. *)
Theorem key_change_replaces key key' h :
  key' <> key -> in_step h -> written h = Some (key, version h) ->
  let h' := commit key' false h in
  current h' = current h
  /\ get key' (storage h') = Some (write (current h))
  /\ get key (storage h') = Some (write (current h)).
Proof.
  intros Hk Hs Hw h'. split_and!; [apply commit_current|by apply commit_stores|].
  unfold h'. rewrite commit_other by done. by apply Hs.
Qed.
End hook.
Arguments hook : clear implicits.

(** ** Concrete inputs *)

Definition quote : string := String "034" "".

#[local] Instance stored_string : Stored string :=
  {| write s := quote ++s s ++s quote; read s := Some (stake (String.length s - 2) (sdrop 1 s)) |}.

(** A page under the key [a], and another value stored under [b]. *)
Definition example_page : hook string :=
  commit "a" false (setValue (fun _ => "work of a") (mount "a" "" [("b", quote ++s "work of b" ++s quote)])).

Lemma remount_restores_witness :
  current (mount "a" "new" (storage (commit "a" false example_page))) = "work of a".
Proof.
  apply (remount_restores "a" "" "new" example_page); [by intros k [= <-]|by vm_compute|by vm_compute].
Defined.

Lemma key_change_replaces_witness :
  let h' := commit "b" false example_page in
  get "b" (storage example_page) = Some (quote ++s "work of b" ++s quote)
  /\ current h' = "work of a" /\ get "b" (storage h') = Some (quote ++s "work of a" ++s quote).
Proof.
  assert (Hs : in_step example_page) by by intros k [= <-].
  destruct (key_change_replaces "a" "b" example_page) as (H1 & H2 & _); [done|exact Hs|done|].
  split; [done|]. split; [exact H1|exact H2].
Defined.
