(* ===== verification/JobStreaming.v ===== *)
(** The job watcher, src/ui/src/hooks/useJobStreaming.ts: one instance of the
    effect for a job, as a state machine whose inputs are the responses, the
    stream events, the timer ticks and the effect's cleanup.  The React states
    and refs the effect writes are one record [ui]; the local variables of the
    effect and what is in flight are one record [eff].  [step] is the code
    between two awaits.  The two zod schemas are parameters. *)
From S2P Require Import Prelude JsNumber JsString JsValue JsonUtils Sse JobStore Caches.

(** ** Data *)

(** [JobResp], the validated answer of the job endpoint (absent fields are
    [None]). *)
Record JobResp := mkJobResp {
  ok : bool; j_status : option string; j_error : option string; j_err : option string;
  j_code : option string; j_updated : option number;
  j_events : option (list value); j_cursor_next : option number; j_reset : option bool;
  j_result : option value }.

(** The arguments of the hook the effect reads. *)
Record Args := mkArgs {
  connectionMode : string; daemonAuthToken : option string; effectiveSseBase : string;
  sessionId : string; jobStoreKey : string; lastRunPrompt : string;
  hasEventSource : bool; hasFetch : bool }.

(** What the effect writes: React states, refs, the run-watch table, and the
    number of refetches requested. *)
Record ui := mkUi {
  activeJobId : option string; jobStatus : option string; jobError : option string;
  jobNotice : option string; jobUpdatedMs : option number; liveEvents : list value;
  result : option value; lastCompletedPrompt : string; cursor : number;
  jobs : RunWatchByScope; refetches : nat }.

Definition setActiveJobId x u := mkUi x (jobStatus u) (jobError u) (jobNotice u) (jobUpdatedMs u)
  (liveEvents u) (result u) (lastCompletedPrompt u) (cursor u) (jobs u) (refetches u).
Definition setJobStatus x u := mkUi (activeJobId u) x (jobError u) (jobNotice u) (jobUpdatedMs u)
  (liveEvents u) (result u) (lastCompletedPrompt u) (cursor u) (jobs u) (refetches u).
Definition setJobError x u := mkUi (activeJobId u) (jobStatus u) x (jobNotice u) (jobUpdatedMs u)
  (liveEvents u) (result u) (lastCompletedPrompt u) (cursor u) (jobs u) (refetches u).
Definition setJobNotice x u := mkUi (activeJobId u) (jobStatus u) (jobError u) x (jobUpdatedMs u)
  (liveEvents u) (result u) (lastCompletedPrompt u) (cursor u) (jobs u) (refetches u).
Definition setJobUpdatedMs x u := mkUi (activeJobId u) (jobStatus u) (jobError u) (jobNotice u) x
  (liveEvents u) (result u) (lastCompletedPrompt u) (cursor u) (jobs u) (refetches u).
Definition setLiveEvents x u := mkUi (activeJobId u) (jobStatus u) (jobError u) (jobNotice u)
  (jobUpdatedMs u) x (result u) (lastCompletedPrompt u) (cursor u) (jobs u) (refetches u).
Definition setResult x u := mkUi (activeJobId u) (jobStatus u) (jobError u) (jobNotice u)
  (jobUpdatedMs u) (liveEvents u) x (lastCompletedPrompt u) (cursor u) (jobs u) (refetches u).
Definition setLastCompletedPrompt x u := mkUi (activeJobId u) (jobStatus u) (jobError u)
  (jobNotice u) (jobUpdatedMs u) (liveEvents u) (result u) x (cursor u) (jobs u) (refetches u).
Definition setCursor x u := mkUi (activeJobId u) (jobStatus u) (jobError u) (jobNotice u)
  (jobUpdatedMs u) (liveEvents u) (result u) (lastCompletedPrompt u) x (jobs u) (refetches u).
Definition writeJobsBySession f u := mkUi (activeJobId u) (jobStatus u) (jobError u) (jobNotice u)
  (jobUpdatedMs u) (liveEvents u) (result u) (lastCompletedPrompt u) (cursor u) (f (jobs u)) (refetches u).
(** [void auditRefetch(); void sessionsRefetch();] *)
Definition refetch u := mkUi (activeJobId u) (jobStatus u) (jobError u) (jobNotice u)
  (jobUpdatedMs u) (liveEvents u) (result u) (lastCompletedPrompt u) (cursor u) (jobs u) (S (refetches u)).

(** The transport of the effect instance. *)
Inductive stream := NoStream | EsOpen | FetchPending | FetchReading.

(** Its locals: [polling] is the cursor sent with the poll request in flight,
    when the polling loop runs; [ticks] counts watchdog requests in flight. *)
Record eff := mkEff {
  cancelled : bool; fallbackStarted : bool; fetchFinished : bool; transport : stream;
  polling : option number; pollers : nat; watchdogOn : bool; ticks : nat }.

Record state := mkState { U : ui; E : eff }.

Inductive input :=
  | PollResult (r : string + JobResp)     (* a poll request settles *)
  | WatchdogTick
  | WatchdogResult (r : option JobResp)   (* a watchdog request settles *)
  | EsReset (d : string) | EsAgentEvent (d lastEventId : string) | EsJobDone (d : string) | EsError
  | FetchResponse (isOk : bool) (status : Z) | FetchEvent (ev : SseEvent)
  | FetchEnd | FetchThrow (msg : string)
  | Cleanup.

Section hook.
Context {J : Json}.
(** [EventSchema.safeParse] and [RunResponseSchema.safeParse] (zod). *)
Context (EventSchema RunResponseSchema : value -> option value).
Context (a : Args).

(** ** Parsers of stream payloads *)

Definition parseCursorBase (raw : string) : option number :=
  as_number (prop "cursor_base" (safeObject (safeJsonParse raw))).

Definition parseStreamAgentEvent (raw : string) : option value :=
  EventSchema (safeJsonParse raw).

Definition is_failure (status : string) : bool :=
  bool_decide (status = "error") || bool_decide (status = "interrupted").

Definition is_terminal (status : option string) : bool :=
  match status with
  | Some s => bool_decide (s = "done") || bool_decide (s = "error")
              || bool_decide (s = "cancelled") || bool_decide (s = "interrupted")
  | None => false
  end.

Definition failure_error (status : option string) (error : option string) : option string :=
  match status with Some s => if is_failure s then error else None | None => None end.

(** Status, error and result of a [job_done] payload. *)
Definition parseJobDonePayload (raw : string) : string * option string * option value :=
  let data := safeObject (safeJsonParse raw) in
  let status := default "done" (as_string (prop "status" data)) in
  let error := if is_failure status then as_string (prop "error" data) else None in
  (status, error, RunResponseSchema (prop "result" data)).

(** ** Shared pieces of the handlers *)

(** [sid && writeJobsBySession(delete jobStoreKey)]. *)
Definition forget_job (u : ui) : ui :=
  if truthy_str (trim (str_or (sessionId a) "")) then
    writeJobsBySession (remove (jobStoreKey a)) u
  else u.

Definition release (u : ui) : ui := refetch (forget_job (setActiveJobId None u)).

Definition job_not_found (job : JobResp) : bool :=
  let code := to_lower (default "" (j_code job)) in
  let err := to_lower (match j_error job with Some e => e | None => default "" (j_err job) end) in
  includes "not_found" code || includes "not found" err.

Definition show_result (r : value) (u : ui) : ui :=
  setLastCompletedPrompt (lastRunPrompt a) (setResult (Some r) u).

(** [a ?? b ?? ..]. *)
Fixpoint first_some (l : list (option string)) : option string :=
  match l with
  | [] => None
  | Some x :: _ => Some x
  | None :: l' => first_some l'
  end.

(** ** The polling loop: the code after [await apiGetJobProgress]; the
    boolean says whether the loop goes on to another request. *)
Definition poll_body (u : ui) (r : string + JobResp) (cancelled : bool) : ui * bool :=
  match r with
  | inl e => (setJobNotice (Some ("job fetch failed (retrying): " ++s e)) u, true)
  | inr job =>
      if cancelled then (u, false)
      else if negb (ok job) then
        if job_not_found job then
          (release (setJobNotice (Some "job not found (clearing)") u), false)
        else
          (setJobNotice (Some ("job fetch failed (retrying): "
             ++s default "unknown" (first_some [j_error job; j_err job; j_code job]))) u, true)
      else
        let u := setJobStatus (j_status job) u in
        let u := setJobError (failure_error (j_status job) (j_error job)) u in
        let u := setJobNotice None u in
        let u := setJobUpdatedMs (j_updated job) u in
        let ev := default [] (j_events job) in
        let next := match j_cursor_next job with
                    | Some n => n
                    | None => add (cursor u) (int (Z.of_nat (length ev)))
                    end in
        let u := if (0 <? length ev)%nat then
                   let u := if default false (j_reset job)
                            then setLiveEvents (capLiveEvents ev) u
                            else setLiveEvents (appendLiveEvents (liveEvents u) ev) u in
                   setCursor next u
                 else u in
        if is_terminal (j_status job) then
          let u := match j_result job with
                   | Some r => show_result r u
                   | None => setJobError (Some "job completed but missing result") u
                   end in
          (release (setJobNotice None u), false)
        else (u, true)
  end.

(** ** The watchdog: the code after [await apiGetJob] *)
Definition watchdog_body (u : ui) (r : option JobResp) : ui :=
  match r with
  | None => u
  | Some job =>
      if negb (ok job) then
        if job_not_found job
        then release (setJobNotice (Some "job not found (clearing)") u) else u
      else if is_terminal (j_status job) then
        let u := match j_result job with
                 | Some r =>
                     setJobNotice None
                       (setJobError (failure_error (j_status job) (j_error job))
                          (setJobStatus (j_status job) (show_result r u)))
                 | None => setJobNotice None (setJobError (Some "job completed but missing result") u)
                 end in
        release u
      else u
  end.

(** ** Stream handlers *)

Definition on_reset (d : string) (u : ui) : ui :=
  let u := match parseCursorBase (str_or d "{}") with
           | Some c => setCursor c u
           | None => u
           end in
  setLiveEvents [] u.

Definition advance_cursor (eventId : string) (u : ui) : ui :=
  if truthy_str eventId then
    let n := str_to_number eventId in
    if is_finite n then setCursor (add n (int 1)) u else u
  else u.

Definition on_agent_event (d : string) (u : ui) : ui :=
  match parseStreamAgentEvent (str_or d "{}") with
  | Some ev => setLiveEvents (appendLiveEvents (liveEvents u) [ev]) u
  | None => u
  end.

Definition on_job_done (d : string) (u : ui) : ui :=
  let '(status, error, res) := parseJobDonePayload (str_or d "{}") in
  let u := setJobNotice None (setJobError error (setJobStatus (Some status) u)) in
  let u := match res with Some r => show_result r u | None => u end in
  release u.

(** ** Transport choice and start of the effect *)

Definition http_base : bool :=
  starts_with "http://" (effectiveSseBase a) || starts_with "https://" (effectiveSseBase a).

Definition canUseEventSource : bool :=
  hasEventSource a && bool_decide (connectionMode a = "direct")
  && negb (truthy_str (trim (default "" (daemonAuthToken a)))) && http_base.

Definition canUseFetchSse : bool := hasFetch a && http_base.

(** [fallbackToPolling]: start the loop unless it was started already. *)
Definition fallbackToPolling (s : state) : state :=
  let e := E s in
  if fallbackStarted e then s
  else mkState (U s) (mkEff (cancelled e) true (fetchFinished e) (transport e)
         (if cancelled e then None else Some (cursor (U s))) (S (pollers e)) (watchdogOn e) (ticks e)).

Definition set_transport t (e : eff) : eff :=
  mkEff (cancelled e) (fallbackStarted e) (fetchFinished e) t (polling e) (pollers e) (watchdogOn e) (ticks e).
Definition set_polling p (e : eff) : eff :=
  mkEff (cancelled e) (fallbackStarted e) (fetchFinished e) (transport e) p (pollers e) (watchdogOn e) (ticks e).
Definition set_fetchFinished b (e : eff) : eff :=
  mkEff (cancelled e) (fallbackStarted e) b (transport e) (polling e) (pollers e) (watchdogOn e) (ticks e).
Definition set_ticks n (e : eff) : eff :=
  mkEff (cancelled e) (fallbackStarted e) (fetchFinished e) (transport e) (polling e) (pollers e) (watchdogOn e) n.

(** The effect body; [esThrows]: the [EventSource] constructor throws. *)
Definition start (esThrows : bool) (u : ui) : state :=
  let e := mkEff false false false NoStream None 0 true 0 in
  let running := setJobUpdatedMs None (setJobStatus (Some "running") u) in
  if canUseEventSource then
    if esThrows then fallbackToPolling (mkState u e) else mkState running (set_transport EsOpen e)
  else if canUseFetchSse then mkState running (set_transport FetchPending e)
  else fallbackToPolling (mkState u e).

(** One SSE frame of the fetch transport. *)
Definition fetch_event (ev : SseEvent) (s : state) : state :=
  if cancelled (E s) then s
  else
    let u := advance_cursor (default "" (id ev)) (U s) in
    if bool_decide (event ev = "reset") then mkState (on_reset (data ev) u) (E s)
    else if bool_decide (event ev = "agent_event") then mkState (on_agent_event (data ev) u) (E s)
    else if bool_decide (event ev = "job_done") then
      mkState (on_job_done (data ev) u) (set_fetchFinished true (E s))
    else mkState u (E s).

(** The rejection handler of the fetch transport. *)
Definition fetch_throw (msg : string) (s : state) : state :=
  let s' := mkState (U s) (set_transport NoStream (E s)) in
  if cancelled (E s) || fetchFinished (E s) then s'
  else fallbackToPolling
         (mkState (setJobNotice (Some ("job stream dropped (retrying via polling): " ++s msg)) (U s))
            (E s')).

(** ** One input *)
Definition step (s : state) (i : input) : state :=
  let u := U s in
  let e := E s in
  match i with
  | PollResult r =>
      match polling e with
      | None => s
      | Some _ =>
          let '(u', continue) := poll_body u r (cancelled e) in
          (* the loop head tests [cancelled] again before the next request *)
          mkState u' (set_polling (if continue && negb (cancelled e) then Some (cursor u') else None) e)
      end
  | WatchdogTick =>
      if watchdogOn e && negb (cancelled e) then mkState u (set_ticks (S (ticks e)) e) else s
  | WatchdogResult r =>
      match ticks e with
      | O => s
      | S n => mkState (watchdog_body u r) (set_ticks n e)
      end
  | EsReset d =>
      match transport e with
      | EsOpen => if cancelled e then s else mkState (on_reset d u) e
      | _ => s
      end
  | EsAgentEvent d lastEventId =>
      match transport e with
      | EsOpen =>
          if cancelled e then s
          else mkState (on_agent_event d (advance_cursor lastEventId u)) e
      | _ => s
      end
  | EsJobDone d =>
      match transport e with
      | EsOpen => if cancelled e then s else mkState (on_job_done d u) (set_transport NoStream e)
      | _ => s
      end
  | EsError =>
      match transport e with
      | EsOpen =>
          if cancelled e then s
          else fallbackToPolling
                 (mkState (setJobNotice (Some "job stream dropped (retrying via polling)") u)
                    (set_transport NoStream e))
      | _ => s
      end
  | FetchResponse isOk status =>
      match transport e with
      | FetchPending =>
          if isOk then mkState u (set_transport FetchReading e)
          else fetch_throw ("Error: SSE fetch failed: HTTP " ++s pretty status) s
      | _ => s
      end
  | FetchEvent ev => match transport e with FetchReading => fetch_event ev s | _ => s end
  | FetchEnd =>
      match transport e with
      | FetchReading =>
          let s' := mkState u (set_transport NoStream e) in
          if negb (cancelled e) && negb (fetchFinished e) then fallbackToPolling s' else s'
      | _ => s
      end
  | FetchThrow msg =>
      match transport e with
      | FetchPending | FetchReading => fetch_throw msg s
      | _ => s
      end
  | Cleanup =>
      (* es.close(); the aborted fetch settles with [FetchThrow] *)
      mkState u (mkEff true (fallbackStarted e) (fetchFinished e)
                   (match transport e with EsOpen => NoStream | t => t end)
                   (polling e) (pollers e) false (ticks e))
  end.
End hook.

(** ** The simple invariants *)

Section facts.
Context {J : Json} (EventSchema RunResponseSchema : value -> option value) (a : Args).
#[local] Abbreviation step := (step EventSchema RunResponseSchema a).
#[local] Abbreviation watchdog_body := (watchdog_body a).
#[local] Abbreviation poll_body := (poll_body a).

Definition run (s : state) (ins : list input) : state := fold_left step ins s.

Lemma liveEvents_release u : liveEvents (release a u) = liveEvents u.
Proof. unfold release, forget_job. by case_match. Qed.

Lemma cursor_release u : cursor (release a u) = cursor u.
Proof. unfold release, forget_job. by case_match. Qed.

(** Every way of finishing a job has the same effect on the active job, the
    run-watch table and the refetches. *)
Lemma release_spec u :
  activeJobId (release a u) = None
  /\ jobs (release a u) =
       (if truthy_str (trim (sessionId a)) then remove (jobStoreKey a) (jobs u) else jobs u)
  /\ refetches (release a u) = S (refetches u)
  /\ jobStatus (release a u) = jobStatus u /\ jobError (release a u) = jobError u
  /\ jobNotice (release a u) = jobNotice u /\ result (release a u) = result u
  /\ lastCompletedPrompt (release a u) = lastCompletedPrompt u.
Proof.
  unfold release, forget_job. replace (str_or (sessionId a) "") with (sessionId a).
  - by case_match.
  - unfold str_or. destruct (truthy_str (sessionId a)) eqn:E; [done|].
    by apply truthy_str_false in E.
Qed.

(** The transport is closed once polling has started, and there is at most
    one polling loop. *)
Definition eff_ok (e : eff) : Prop :=
  (fallbackStarted e = true -> transport e = NoStream)
  /\ (fallbackStarted e = false -> pollers e = 0%nat /\ polling e = None)
  /\ (pollers e <= 1)%nat.

Lemma fallback_ok s :
  eff_ok (E s) -> transport (E s) = NoStream -> eff_ok (E (fallbackToPolling s)).
Proof.
  intros H Ht. pose proof H as (H1 & H2 & H3). unfold fallbackToPolling.
  destruct (fallbackStarted (E s)) eqn:Hf; [done|].
  destruct (H2 eq_refl) as [Hp _]. unfold eff_ok. simpl. rewrite Hp.
  split_and!; [done|done|lia].
Qed.

Lemma eff_ok_close e : eff_ok e -> eff_ok (set_transport NoStream e).
Proof. intros (H1 & H2 & H3). by split_and!. Qed.

Lemma fetch_throw_ok msg s : eff_ok (E s) -> eff_ok (E (fetch_throw msg s)).
Proof.
  intros H. unfold fetch_throw. case_match; [by apply eff_ok_close|].
  apply fallback_ok; by simpl; auto using eff_ok_close.
Qed.

Lemma step_eff_ok s i : eff_ok (E s) -> eff_ok (E (step s i)).
Proof.
  intros H. pose proof H as (H1 & H2 & H3).
  destruct i; cbn [JobStreaming.step]; repeat case_match; try done;
    try (apply fallback_ok; simpl; auto using eff_ok_close);
    try (by apply eff_ok_close); try (by apply fetch_throw_ok).
  all: try (unfold fetch_event; repeat case_match; done).
  all: unfold eff_ok; simpl in *; split_and!; auto; try (intros Hf; specialize (H2 Hf); naive_solver).
  all: intros Hf; specialize (H1 Hf); naive_solver.
Qed.

Lemma start_eff_ok esThrows u : eff_ok (E (start a esThrows u)).
Proof.
  unfold start. repeat case_match; try (apply fallback_ok; [|done]); by split_and!; simpl; auto.
Qed.
End facts.

(** ** The live list is the server's log

    The server keeps a log [L] of the job's events; cursors are positions in
    it.  [consistent s i] says that input [i] is an answer the job endpoint or
    the job stream gives in state [s]: a successful poll returns the entries
    from the requested cursor (or, after a reset, from a later base), a stream
    event carries the entry at the current cursor with its position as id, and
    a stream reset announces a base. *)
Section log.
Context {J : Json} (EventSchema RunResponseSchema : value -> option value) (a : Args).
Context (L : list value) (HL : Z.of_nat (length L) < 2 ^ 53 - 1).
#[local] Abbreviation step := (step EventSchema RunResponseSchema a).

Definition pos (n : nat) : number := int (Z.of_nat n).

Definition segment (b c : nat) : list value := drop b (take c L).

(** The live list shows the log from some base up to the cursor. *)
Definition at_log (u : ui) : Prop :=
  exists b c, (b <= c <= length L)%nat /\ cursor u = pos c
    /\ liveEvents u = last_n LIVE_EVENTS_MAX (segment b c).

Inductive poll_answer (c : nat) : JobResp -> Prop :=
  | poll_events job n :
      (c + n <= length L)%nat -> j_reset job <> Some true ->
      j_events job = Some (take n (drop c L)) -> j_cursor_next job = Some (pos (c + n)) ->
      poll_answer c job
  | poll_reset job b n :
      (b + n <= length L)%nat -> j_reset job = Some true ->
      j_events job = Some (take n (drop b L)) -> j_cursor_next job = Some (pos (b + n)) ->
      poll_answer c job.

Definition stream_event (u : ui) (d eventId : string) : Prop :=
  exists c ev, cursor u = pos c /\ L !! c = Some ev /\ eventId <> ""
    /\ str_to_number eventId = pos c
    /\ parseStreamAgentEvent EventSchema (str_or d "{}") = Some ev.

Definition stream_reset (d : string) : Prop :=
  exists b, (b <= length L)%nat /\ parseCursorBase (str_or d "{}") = Some (pos b).

Definition consistent (s : state) (i : input) : Prop :=
  match i with
  | PollResult (inr job) =>
      ok job = true -> exists c, polling (E s) = Some (pos c) /\ poll_answer c job
  | EsReset d => stream_reset d
  | EsAgentEvent d lastEventId => stream_event (U s) d lastEventId
  | FetchEvent ev =>
      if bool_decide (event ev = "agent_event")
      then stream_event (U s) (data ev) (default "" (id ev))
      else id ev = None /\ (event ev = "reset" -> stream_reset (data ev))
  | _ => True
  end.

(** The request in flight was made at the current cursor. *)
Definition poll_ok (s : state) : Prop := forall c, polling (E s) = Some c -> c = cursor (U s).

Lemma segment_snoc b c n :
  (b <= c <= length L)%nat -> segment b c ++ take n (drop c L) = segment b (c + n).
Proof.
  intros H. unfold segment. rewrite <- (take_take_drop L c n).
  by rewrite drop_app_le by (rewrite length_take; lia).
Qed.

Lemma at_log_append u b c n :
  (b <= c <= length L)%nat -> (c + n <= length L)%nat ->
  liveEvents u = last_n LIVE_EVENTS_MAX (segment b c) ->
  at_log (setCursor (pos (c + n))
            (setLiveEvents (appendLiveEvents (liveEvents u) (take n (drop c L))) u)).
Proof.
  intros Hb Hc Hlive. exists b, (c + n)%nat. split_and!; [lia|done|done|]. simpl.
  by rewrite Hlive, appendLiveEvents_last_n, segment_snoc.
Qed.

Lemma at_log_ext u u' :
  cursor u' = cursor u -> liveEvents u' = liveEvents u -> at_log u -> at_log u'.
Proof. intros Hc Hl (b & c & H). exists b, c. by rewrite Hc, Hl. Qed.

Lemma at_log_release u : at_log u -> at_log (release a u).
Proof. apply at_log_ext; [apply cursor_release|apply liveEvents_release]. Qed.

Lemma pos_inj m n : pos m = pos n -> m = n.
Proof. intros H%int_inj. lia. Qed.

Lemma on_agent_event_log u d i :
  at_log u -> stream_event u d i ->
  at_log (on_agent_event EventSchema d (advance_cursor i u)).
Proof.
  intros (b & c & Hb & Hcur & Hlive) (c' & ev & Hc' & Hev & Hi & Hn & Hp).
  rewrite Hcur in Hc'. apply pos_inj in Hc' as <-.
  assert (Hlt : (c < length L)%nat) by (by eapply lookup_lt_Some).
  unfold on_agent_event, advance_cursor. rewrite Hp, (proj2 (truthy_str_true i) Hi), Hn.
  assert (Hadd : add (pos c) (int 1) = pos (c + 1)).
  { unfold pos. rewrite add_int by lia. f_equal. lia. }
  change (is_finite (pos c)) with true. cbv beta iota zeta. rewrite Hadd.
  assert (Hone : take 1 (drop c L) = [ev]).
  { rewrite (drop_S _ ev c Hev). done. }
  rewrite <- Hone. exact (at_log_append u b c 1 Hb ltac:(lia) Hlive).
Qed.

Lemma on_reset_log u d : stream_reset d -> at_log (on_reset d u).
Proof.
  intros (b & Hb & Hp). unfold on_reset. rewrite Hp. exists b, b.
  split_and!; [done|done|done|]. simpl. unfold segment.
  by rewrite drop_ge by (rewrite length_take; lia).
Qed.

Lemma on_job_done_log u d : at_log u -> at_log (on_job_done RunResponseSchema a d u).
Proof.
  apply at_log_ext; unfold on_job_done; destruct (parseJobDonePayload _ _) as [[? ?] []];
    by rewrite ?cursor_release, ?liveEvents_release.
Qed.

Lemma watchdog_log u r : at_log u -> at_log (watchdog_body a u r).
Proof.
  apply at_log_ext; unfold watchdog_body; repeat case_match;
    by rewrite ?cursor_release, ?liveEvents_release.
Qed.

(** The event part of a successful poll. *)
Lemma poll_log u c r canc :
  at_log u -> cursor u = pos c ->
  (forall job, r = inr job -> ok job = true -> poll_answer c job) ->
  at_log (fst (poll_body a u r canc)).
Proof.
  intros Hlog Hcur Hans. destruct r as [e|job]; [by apply (at_log_ext u)|].
  unfold poll_body. destruct canc; [done|]. destruct (ok job) eqn:Hok; cbn [negb].
  2:{ case_match; [by apply at_log_release|done]. }
  set (u1 := setJobUpdatedMs _ _).
  assert (Hev : at_log (if (0 <? length (default [] (j_events job)))%nat then
      setCursor (match j_cursor_next job with Some n => n
                 | None => add (cursor u1) (int (Z.of_nat (length (default [] (j_events job))))) end)
        (if default false (j_reset job)
         then setLiveEvents (capLiveEvents (default [] (j_events job))) u1
         else setLiveEvents (appendLiveEvents (liveEvents u1) (default [] (j_events job))) u1)
      else u1)).
  { destruct (Nat.ltb_spec 0 (length (default [] (j_events job)))); [|by apply (at_log_ext u)].
    destruct Hlog as (b & c' & Hb & Hc' & Hlive). rewrite Hcur in Hc'. apply pos_inj in Hc' as <-.
    destruct (Hans job eq_refl Hok) as [job' n Hn Hr Hev Hnx|job' b' n Hn Hr Hev Hnx];
      rewrite Hnx, Hev; simpl.
    - replace (default false (j_reset job')) with false by (by destruct (j_reset job') as [[]|]).
      by apply (at_log_append u1 b c n).
    - rewrite Hr. exists b', (b' + n)%nat. split_and!; [lia|done|done|]. simpl.
      rewrite capLiveEvents_last_n. f_equal. unfold segment.
      rewrite <- (take_take_drop L b' n).
      rewrite drop_app_ge by (rewrite length_take; lia). rewrite length_take.
      by replace (b' - Nat.min b' (length L))%nat with 0%nat by lia. }
  destruct (is_terminal (j_status job)); [|exact Hev].
  apply at_log_release. by destruct (j_result job).
Qed.

Lemma fallback_log s : at_log (U s) /\ poll_ok s ->
  at_log (U (fallbackToPolling s)) /\ poll_ok (fallbackToPolling s).
Proof.
  intros [Hl Hp]. unfold fallbackToPolling. case_match; [done|]. split; [done|].
  intros c. simpl. case_match; naive_solver.
Qed.

Lemma poll_ok_ext s u e :
  polling e = polling (E s) -> cursor u = cursor (U s) -> poll_ok s -> poll_ok (mkState u e).
Proof. intros He Hu H c. simpl. rewrite He, Hu. apply H. Qed.

Lemma poll_ok_none u e : polling e = None -> poll_ok (mkState u e).
Proof. intros He c. simpl. by rewrite He. Qed.
Definition log_inv (s : state) : Prop := at_log (U s) /\ poll_ok s /\ eff_ok (E s).

Lemma no_poll s : eff_ok (E s) -> transport (E s) <> NoStream -> polling (E s) = None.
Proof. intros (H1 & H2 & _) Ht. destruct (fallbackStarted (E s)); naive_solver. Qed.

(** A stream handler: the cursor may move, but no poll is in flight. *)
Lemma stream_log s u e :
  log_inv s -> transport (E s) <> NoStream -> polling e = polling (E s) ->
  at_log u -> eff_ok e -> log_inv (mkState u e).
Proof.
  intros (_ & _ & He) Ht Hp Hu Hee. split_and!; [done| |done].
  apply poll_ok_none. by rewrite Hp, no_poll.
Qed.

Lemma fallback_inv s : log_inv s -> transport (E s) = NoStream -> log_inv (fallbackToPolling s).
Proof.
  intros (H1 & H2 & H3) Ht. destruct (fallback_log s (conj H1 H2)) as [H1' H2'].
  split_and!; [done|done|by apply fallback_ok].
Qed.

Lemma fetch_throw_inv msg s :
  log_inv s -> transport (E s) <> NoStream -> log_inv (fetch_throw msg s).
Proof.
  intros H Ht. pose proof H as (H1 & H2 & H3). unfold fetch_throw.
  case_match; [|apply fallback_inv; [|done]];
    (apply (stream_log s); [done..|by apply eff_ok_close]).
Qed.

Lemma fetch_event_inv ev s :
  log_inv s -> transport (E s) <> NoStream -> consistent s (FetchEvent ev) ->
  log_inv (fetch_event EventSchema RunResponseSchema a ev s).
Proof.
  intros H Ht Hc. pose proof H as (H1 & H2 & H3). unfold fetch_event.
  destruct (cancelled (E s)); [done|]. cbn [consistent] in Hc.
  destruct (bool_decide (event ev = "agent_event")) eqn:Hag.
  - apply bool_decide_eq_true in Hag. rewrite Hag.
    rewrite bool_decide_false by done. apply (stream_log s); auto using on_agent_event_log.
  - destruct Hc as [-> Hr]. change (advance_cursor (default "" None) (U s)) with (U s).
    destruct (bool_decide (event ev = "reset")) eqn:Hre.
    + apply bool_decide_eq_true in Hre. apply (stream_log s); auto using on_reset_log.
    + destruct (bool_decide (event ev = "job_done")); [|by apply (stream_log s)].
      apply (stream_log s); auto using on_job_done_log.
Qed.

Lemma poll_result_inv r s :
  log_inv s -> consistent s (PollResult r) -> log_inv (step s (PollResult r)).
Proof.
  intros (H1 & H2 & H3) Hc.
  pose proof (step_eff_ok EventSchema RunResponseSchema a s (PollResult r) H3) as He.
  cbn [JobStreaming.step] in *. destruct (polling (E s)) as [c|] eqn:Hp; [|done].
  pose proof (H2 c Hp) as Hcur. destruct H1 as (b & n & Hbn).
  assert (Hlog : at_log (fst (poll_body a (U s) r (cancelled (E s))))).
  { apply (poll_log _ n); [by exists b, n|apply Hbn|]. intros job -> Hok.
    destruct (Hc Hok) as (c' & Hp' & Hans). assert (pos c' = pos n) as ->%pos_inj; [|done].
    destruct Hbn as (_ & Hn & _). congruence. }
  destruct (poll_body a (U s) r (cancelled (E s))) as [u' k]. simpl in *.
  split_and!; [done| |done]. intros c' Hc'. simpl in Hc'. case_match; naive_solver.
Qed.

Lemma step_log s i : log_inv s -> consistent s i -> log_inv (step s i).
Proof.
  intros H Hc. pose proof H as (H1 & H2 & H3). destruct i as [r| |r|d|d i|d| |k st|ev| |m|].
  1: by apply poll_result_inv.
  all: pose proof (step_eff_ok EventSchema RunResponseSchema a s) as Hs.
  - specialize (Hs WatchdogTick H3). cbn [JobStreaming.step] in *. case_match; [|done].
    split_and!; [done|by apply (poll_ok_ext s)|done].
  - specialize (Hs (WatchdogResult r) H3). cbn [JobStreaming.step] in *.
    destruct (ticks (E s)); [done|]. split_and!; [by apply watchdog_log| |done].
    apply (poll_ok_ext s); [done| |done]. unfold watchdog_body.
    by repeat case_match; rewrite ?cursor_release.
  - specialize (Hs (EsReset d) H3). cbn [JobStreaming.step] in *.
    destruct (transport (E s)) eqn:Ht; try done. destruct (cancelled (E s)); [done|].
    apply (stream_log s); auto using on_reset_log; congruence.
  - specialize (Hs (EsAgentEvent d i) H3). cbn [JobStreaming.step] in *.
    destruct (transport (E s)) eqn:Ht; try done. destruct (cancelled (E s)); [done|].
    apply (stream_log s); auto using on_agent_event_log; congruence.
  - specialize (Hs (EsJobDone d) H3). cbn [JobStreaming.step] in *.
    destruct (transport (E s)) eqn:Ht; try done. destruct (cancelled (E s)); [done|].
    apply (stream_log s); auto using on_job_done_log; congruence.
  - cbn [JobStreaming.step]. destruct (transport (E s)) eqn:Ht; try done.
    destruct (cancelled (E s)); [done|]. apply fallback_inv; [|done].
    apply (stream_log s); auto using eff_ok_close; congruence.
  - cbn [JobStreaming.step]. destruct (transport (E s)) eqn:Ht; try done. destruct k.
    + apply (stream_log s); [done|congruence|done|done|].
      specialize (Hs (FetchResponse true st) H3). cbn [JobStreaming.step] in Hs. by rewrite Ht in Hs.
    + apply fetch_throw_inv; [done|congruence].
  - cbn [JobStreaming.step]. destruct (transport (E s)) eqn:Ht; try done.
    apply fetch_event_inv; [done|congruence|done].
  - cbn [JobStreaming.step]. destruct (transport (E s)) eqn:Ht; try done. cbv zeta.
    case_match; [apply fallback_inv; [|done]|];
      (apply (stream_log s); auto using eff_ok_close; congruence).
  - cbn [JobStreaming.step]. destruct (transport (E s)) eqn:Ht; try done;
      (apply fetch_throw_inv; [done|congruence]).
  - specialize (Hs Cleanup H3). cbn [JobStreaming.step] in *.
    split_and!; [done|by apply (poll_ok_ext s)|done].
Qed.

Fixpoint consistent_run (s : state) (ins : list input) : Prop :=
  match ins with
  | [] => True
  | i :: ins' => consistent s i /\ consistent_run (step s i) ins'
  end.

Lemma run_log s ins : log_inv s -> consistent_run s ins ->
  log_inv (run EventSchema RunResponseSchema a s ins).
Proof.
  revert s. induction ins as [|i ins IH]; intros s Hs; [done|].
  intros [Hi Hins]. apply IH; [by apply step_log|done].
Qed.

Lemma start_log esThrows u : at_log u -> log_inv (start a esThrows u).
Proof.
  intros H.
  assert (Hfresh : forall v t, at_log v ->
    log_inv (mkState v (mkEff false false false t None 0 true 0))).
  { intros v t Hv. split; [exact Hv|]. split; [by apply poll_ok_none|].
    by split_and!; simpl; auto. }
  unfold start. destruct (canUseEventSource a); [destruct esThrows|destruct (canUseFetchSse a)];
    try (by apply Hfresh); (apply fallback_inv; [by apply Hfresh|done]).
Qed.

End log.

(** C26: whatever mixture of stream events, stream failures, polls, resets,
    watchdog answers and cleanups occurs, as long as the daemon answers from
    the job's log, the live event list is always the log's entries from some
    base to the current cursor, capped to the last 2000, with no entry lost,
    repeated or reordered by the fallback from streaming to polling. *)
Theorem liveEvents_follow_log {J : Json} (EventSchema RunResponseSchema : value -> option value)
  (a : Args) (L : list value) (u : ui) (esThrows : bool) (ins : list input)
  (HL : Z.of_nat (length L) < 2 ^ 53 - 1) (Hu : at_log L u)
  (Hins : consistent_run EventSchema RunResponseSchema a L (start a esThrows u) ins) :
  exists b c, (b <= c <= length L)%nat
    /\ cursor (U (run EventSchema RunResponseSchema a (start a esThrows u) ins)) = pos c
    /\ liveEvents (U (run EventSchema RunResponseSchema a (start a esThrows u) ins))
       = last_n LIVE_EVENTS_MAX (drop b (take c L)).
Proof. apply (run_log _ _ a L HL); [by apply start_log|done]. Qed.

(** A small codec and schemas for the concrete runs below. *)
Definition toy_json : Json :=
  {| parse := fun s => if bool_decide (s = "{}") then Some (VObject []) else None;
     stringify := fun _ => "{}" |}.

Definition toy_args : Args := mkArgs "direct" None "" "s1" "scope::s1" "hello" false false.

Definition idle_ui : ui :=
  mkUi (Some "job1") None None None None [] None "" (int 0) [("scope::s1", entry_at 1)] 0.

Definition running_job (evs : list value) (next : Z) : JobResp :=
  mkJobResp true (Some "running") None None None None (Some evs) (Some (int next)) None None.

Definition done_job (evs : list value) (next : Z) (r : option value) : JobResp :=
  mkJobResp true (Some "done") None None None None (Some evs) (Some (int next)) None r.

Lemma liveEvents_follow_log_witness :
  let L := [VString "e0"; VString "e1"; VString "e2"] in
  let ins := [PollResult (inl "offline"); PollResult (inr (running_job [VString "e0"; VString "e1"] 2));
              PollResult (inr (done_job [VString "e2"] 3 (Some VNull)))] in
  let s := @run toy_json Some Some toy_args (start toy_args false idle_ui) ins in
  liveEvents (U s) = L /\ activeJobId (U s) = None /\ jobs (U s) = []
  /\ exists b c, (b <= c <= length L)%nat /\ cursor (U s) = pos c
       /\ liveEvents (U s) = last_n LIVE_EVENTS_MAX (drop b (take c L)).
Proof.
  intros L ins s. split_and!; [by vm_compute..|].
  apply (@liveEvents_follow_log toy_json Some Some toy_args L idle_ui false ins).
  - reflexivity.
  - exists O, O. repeat split; simpl; lia.
  - cbn. repeat split.
    + intros _. exists O. split; [reflexivity|]. apply (poll_events L 0 _ 2); [simpl; lia|done|reflexivity|reflexivity].
    + intros _. exists 2%nat. split; [reflexivity|]. apply (poll_events L 2 _ 1); [simpl; lia|done|reflexivity|reflexivity].
Defined.

(** ** Completion *)

Section completion.
Context {J : Json} (EventSchema RunResponseSchema : value -> option value) (a : Args).

(** What the user sees of a finished job, the run-watch table and the
    refetches. *)
Definition completion (u : ui) :=
  (activeJobId u, jobStatus u, jobError u, jobNotice u, result u, lastCompletedPrompt u,
   jobs u, refetches u).

(** A finished job: no active job, its result shown, its entry gone from
    the table, one refetch more. *)
Definition finished (u u' : ui) (status : string) (error : option string) (r : value) : Prop :=
  activeJobId u' = None /\ jobStatus u' = Some status /\ jobError u' = error
  /\ jobNotice u' = None /\ result u' = Some r /\ lastCompletedPrompt u' = lastRunPrompt a
  /\ refetches u' = S (refetches u)
  /\ (trim (sessionId a) <> "" -> forall k, get k (jobs u') =
        if bool_decide (k = jobStoreKey a) then None else get k (jobs u)).
End completion.

(** A terminal answer with a result has the same effect whichever path
    observes it first (the polling loop, the watchdog or the stream's
    [job_done] frame carrying the same status, error and result): the job is no
    longer active, its result and its error (only for a failed or interrupted
    job) are shown, its entry and only it leaves the table, the lists are
    refetched once, and the polling loop stops. *)
Theorem completion_paths_agree {J : Json} (RunResponseSchema : value -> option value)
  (a : Args) (u : ui) (job : JobResp) (st : string) (r : value) (d : string)
  (Hok : ok job = true) (Hst : j_status job = Some st) (Hterm : is_terminal (Some st) = true)
  (Hres : j_result job = Some r)
  (Hd : parseJobDonePayload RunResponseSchema (str_or d "{}")
        = (st, failure_error (Some st) (j_error job), Some r)) :
  let up := fst (poll_body a u (inr job) false) in
  completion up = completion (watchdog_body a u (Some job))
  /\ completion up = completion (on_job_done RunResponseSchema a d u)
  /\ finished a u up st (failure_error (Some st) (j_error job)) r
  /\ snd (poll_body a u (inr job) false) = false.
Proof.
  assert (Hfin : forall v, jobStatus v = Some st -> result v = Some r ->
    jobError v = failure_error (Some st) (j_error job) -> jobNotice v = None ->
    lastCompletedPrompt v = lastRunPrompt a -> jobs v = jobs u -> refetches v = refetches u ->
    completion (release a v) =
      (None, Some st, failure_error (Some st) (j_error job), None, Some r, lastRunPrompt a,
       if truthy_str (trim (sessionId a)) then remove (jobStoreKey a) (jobs u) else jobs u,
       S (refetches u))).
  { intros v H1 H2 H3 H4 H5 H6 H7. unfold completion.
    destruct (release_spec a v) as (-> & -> & -> & -> & -> & -> & -> & ->).
    by rewrite H1, H2, H3, H4, H5, H6, H7. }
  assert (Hw : watchdog_body a u (Some job) = release a
    (setJobNotice None (setJobError (failure_error (j_status job) (j_error job))
       (setJobStatus (j_status job) (show_result a r u))))).
  { unfold watchdog_body. by rewrite Hok, Hst, Hterm, Hres. }
  assert (Hdone : completion (on_job_done RunResponseSchema a d u) =
    completion (watchdog_body a u (Some job))).
  { rewrite Hw. unfold on_job_done. rewrite Hd, !Hfin; simpl; rewrite ?Hst; done. }
  unfold poll_body. rewrite Hok. cbn [negb]. rewrite Hst, Hterm, Hres. cbn [fst snd].
  rewrite Hdone, Hw. set (b1 := (0 <? _)%nat). set (b2 := default false _).
  rewrite !Hfin by (destruct b1, b2; simpl; by rewrite ?Hst).
  split_and!; [done..| |done].
  match goal with |- finished _ _ (release a ?v) _ _ _ =>
    destruct (release_spec a v) as (H1 & H2 & H3 & H4 & H5 & H6 & H7 & H8) end.
  unfold finished. rewrite H1, H2, H3, H4, H5, H6, H7, H8.
  split_and!; try (destruct b1, b2; simpl; by rewrite ?Hst).
  intros Hsid k. apply truthy_str_true in Hsid. rewrite Hsid, get_remove. by destruct b1, b2.
Qed.

Lemma completion_paths_agree_witness :
  let payload := VObject [("status", VString "error"); ("error", VString "boom"); ("result", VString "r")] in
  let J := {| parse := fun _ => Some payload; stringify := fun _ => "" |} in
  let job := mkJobResp true (Some "error") (Some "boom") None None None None None None (Some (VString "r")) in
  let up := fst (poll_body toy_args idle_ui (inr job) false) in
  completion up = completion (watchdog_body toy_args idle_ui (Some job))
  /\ completion up = completion (@on_job_done J Some toy_args "x" idle_ui)
  /\ finished toy_args idle_ui up "error" (Some "boom") (VString "r")
  /\ snd (poll_body toy_args idle_ui (inr job) false) = false.
Proof.
  intros payload J job up.
  apply (@completion_paths_agree J Some toy_args idle_ui job "error" (VString "r") "x"); reflexivity.
Defined.

(** A terminal answer without a result is not treated alike: the polling
    loop and the watchdog report that the result is missing, the watchdog
    without showing the new status, while a [job_done] frame that carries no
    valid result shows the status and only the payload's error. *)
Theorem missing_result_paths {J : Json} (RunResponseSchema : value -> option value)
  (a : Args) (u : ui) (job : JobResp) (st : string) (d : string) (err : option string)
  (Hok : ok job = true) (Hst : j_status job = Some st) (Hterm : is_terminal (Some st) = true)
  (Hres : j_result job = None)
  (Hd : parseJobDonePayload RunResponseSchema (str_or d "{}") = (st, err, None)) :
  let up := fst (poll_body a u (inr job) false) in
  let uw := watchdog_body a u (Some job) in
  let us := on_job_done RunResponseSchema a d u in
  (jobError up = Some "job completed but missing result" /\ jobStatus up = Some st)
  /\ (jobError uw = Some "job completed but missing result" /\ jobStatus uw = jobStatus u)
  /\ (jobError us = err /\ jobStatus us = Some st)
  /\ activeJobId up = None /\ activeJobId uw = None /\ activeJobId us = None.
Proof.
  unfold poll_body, watchdog_body, on_job_done. rewrite Hok, Hd. cbn [negb].
  rewrite Hst, Hterm, Hres. cbn [fst]. cbv zeta.
  set (b1 := (0 <? _)%nat). set (b2 := default false _).
  repeat match goal with |- context [release a ?v] =>
    let H := fresh in destruct (release_spec a v) as (Ha & _ & _ & Hs & He & _);
    rewrite ?Ha, ?Hs, ?He; clear Ha Hs He; generalize (release a v); intros end.
  split_and!; destruct b1, b2; done.
Qed.

Lemma missing_result_paths_witness :
  let payload := VObject [("status", VString "cancelled")] in
  let J := {| parse := fun _ => Some payload; stringify := fun _ => "" |} in
  let job := mkJobResp true (Some "cancelled") None None None None None None None None in
  let us := @on_job_done J (fun _ => None) toy_args "x" idle_ui in
  jobError (fst (poll_body toy_args idle_ui (inr job) false)) = Some "job completed but missing result"
  /\ jobError us = None.
Proof.
  intros payload J job us.
  destruct (@missing_result_paths J (fun _ => None) toy_args idle_ui job "cancelled" "x" None)
    as ([H1 _] & _ & [H2 _] & _); [reflexivity..|]. split; [exact H1|exact H2].
Defined.

(** ** Cleanup *)

(** C27: after the effect's cleanup no stream event, stream failure, timer
    tick or successful poll changes anything the user sees, and no request is
    made any more; what still writes is a poll request failing (its notice) and
    a watchdog request answered late. *)
Theorem cleanup_isolates {J : Json} (EventSchema RunResponseSchema : value -> option value)
  (a : Args) (s : state) (i : input) (Hc : cancelled (E s) = true) :
  let s' := step EventSchema RunResponseSchema a s i in
  cancelled (E s') = true /\ (ticks (E s') <= ticks (E s))%nat
  /\ (polling (E s) = None -> polling (E s') = None)
  /\ (forall r, i = PollResult r -> polling (E s') = None)
  /\ (U s' = U s
      \/ (exists msg, i = PollResult (inl msg)
          /\ U s' = setJobNotice (Some ("job fetch failed (retrying): " ++s msg)) (U s))
      \/ (exists job n, i = WatchdogResult (Some job) /\ ticks (E s) = S n
          /\ U s' = watchdog_body a (U s) (Some job))).
Proof.
  destruct i as [r| |r|d|d i|d| |k st|ev| |m|]; cbn [step].
  - destruct (polling (E s)) as [c|] eqn:Hp; [|rewrite Hc; split_and!; eauto; by rewrite Hp].
    destruct r as [msg|job]; simpl; rewrite Hc; simpl; split_and!; eauto; naive_solver.
  - rewrite Hc, andb_false_r. split_and!; eauto. naive_solver.
  - destruct (ticks (E s)) as [|n] eqn:Ht; [split_and!; eauto; (lia || naive_solver)|].
    simpl. split_and!; [done|lia|done|naive_solver|].
    destruct r as [job|]; [|by left]. right. right. by exists job, n.
  - destruct (transport (E s)); rewrite ?Hc; split_and!; eauto; naive_solver.
  - destruct (transport (E s)); rewrite ?Hc; split_and!; eauto; naive_solver.
  - destruct (transport (E s)); rewrite ?Hc; split_and!; eauto; naive_solver.
  - destruct (transport (E s)); rewrite ?Hc; split_and!; eauto; naive_solver.
  - destruct (transport (E s)); [split_and!; eauto; naive_solver..| |split_and!; eauto; naive_solver].
    destruct k; simpl; [|unfold fetch_throw; rewrite Hc; simpl]; split_and!; eauto; naive_solver.
  - unfold fetch_event. destruct (transport (E s)); rewrite ?Hc; split_and!; eauto; naive_solver.
  - destruct (transport (E s)); rewrite ?Hc; simpl; split_and!; eauto; naive_solver.
  - unfold fetch_throw. destruct (transport (E s)); rewrite ?Hc; simpl; split_and!; eauto; naive_solver.
  - simpl. split_and!; eauto. naive_solver.
Qed.

(** A run in which job1 is watched while a watchdog request is in flight, is
    done, and is cleaned up. *)
Definition stale_state (next_ui : ui) : state :=
  let s := @run toy_json Some Some toy_args (start toy_args false idle_ui)
             [WatchdogTick; PollResult (inr (done_job [] 0 (Some VNull))); Cleanup] in
  mkState next_ui (E s).

Lemma cleanup_isolates_witness :
  let s := stale_state idle_ui in
  let s' := @step toy_json Some Some toy_args s (PollResult (inl "offline")) in
  U s' = U s /\ cancelled (E s') = true.
Proof.
  intros s s'. pose proof (@cleanup_isolates toy_json Some Some toy_args s (PollResult (inl "offline"))
    eq_refl) as (H & _). split; [by vm_compute|exact H].
Defined.

(** A watchdog answer that arrives after the cleanup is still applied:
    when it says that the old job is finished, whatever job is active by then
    is dropped and the table entry of the session, which may be the new job's,
    is removed. *)
Theorem stale_watchdog_drops_active_job {J : Json} (EventSchema RunResponseSchema : value -> option value)
  (a : Args) (s : state) (job : JobResp) (n : nat)
  (Hc : cancelled (E s) = true) (Hn : ticks (E s) = S n)
  (Hok : ok job = true) (Hterm : is_terminal (j_status job) = true)
  (Hsid : trim (sessionId a) <> "") :
  let s' := step EventSchema RunResponseSchema a s (WatchdogResult (Some job)) in
  activeJobId (U s') = None /\ get (jobStoreKey a) (jobs (U s')) = None.
Proof.
  cbn [step]. rewrite Hn. cbn [U watchdog_body]. rewrite Hok, Hterm. cbn [negb].
  match goal with |- context [release a ?v] =>
    destruct (release_spec a v) as (Ha & Hj & _); rewrite Ha, Hj end.
  split; [done|]. rewrite (proj2 (truthy_str_true _) Hsid), get_remove.
  by rewrite bool_decide_true.
Qed.

Lemma stale_watchdog_drops_active_job_witness :
  let next_ui := setActiveJobId (Some "job2") idle_ui in
  let s := stale_state next_ui in
  let s' := @step toy_json Some Some toy_args s (WatchdogResult (Some (done_job [] 0 (Some VNull)))) in
  activeJobId (U s) = Some "job2" /\ activeJobId (U s') = None
  /\ get (jobStoreKey toy_args) (jobs (U s')) = None.
Proof.
  intros next_ui s s'. split; [reflexivity|].
  apply (@stale_watchdog_drops_active_job toy_json Some Some toy_args s
    (done_job [] 0 (Some VNull)) 0); try reflexivity. discriminate.
Defined.
