(* ===== verification/WorkflowGraph.v ===== *)
(** The workflow composer's graph (src/ui/src/workflowGraph.ts): export of a
    graph to a workflow document, import of a workflow document, automatic
    layout and clamping of a stored graph. *)
From S2P Require Import Prelude JsNumber JsString JsValue JsonUtils JsonText.

(** [String.prototype.localeCompare] in the host's default locale, which is
    not fixed here: no theorem below depends on the order it gives. *)
Class Locale := localeCompare : string -> string -> Z.

(** ** Data *)

Inductive GraphNodeKind := llm | agent_parallel.

#[export] Instance GraphNodeKind_eq_dec : EqDecision GraphNodeKind.
Proof. solve_decision. Defined.

Record GraphNode := mkNode {
  node_id : string; node_kind : GraphNodeKind; node_x : number; node_y : number;
  node_prompt : string; node_targets : option (list string) }.

#[export] Instance GraphNode_eq_dec : EqDecision GraphNode.
Proof. solve_decision. Defined.

Record GraphEdge := mkEdge { from : string; to : string }.

#[export] Instance GraphEdge_eq_dec : EqDecision GraphEdge.
Proof. solve_decision. Defined.

Record GraphState := mkGraph { nodes : list GraphNode; edges : list GraphEdge }.

Record GraphBuildOptions := mkOptions {
  defaults : obj value; allowInlineKeys : bool; opt_targets : list string;
  bearerEnv : option string }.

Definition DEFAULT_PROMPT : string := "Draft a short plan for the goal.".

Definition DEFAULT_GRAPH_STATE : GraphState :=
  mkGraph [mkNode "A" llm (int 60) (int 60) DEFAULT_PROMPT None] [].

(** The exceptions thrown (the text that [JSON.parse] gives is left out). *)
Inductive GraphError := NoNodes | NoValidNodes | InvalidJson | NoTasks | NoSupportedTasks.

(** ** Small helpers *)

Definition isObjectRecord (v : value) : bool :=
  match v with VObject _ => true | _ => false end.

Definition isNonEmptyObject (v : value) : bool :=
  match v with VObject o => (0 <? length (keys o))%nat | _ => false end.

Definition normalizeTargets (targets : option (list string)) : list string :=
  trimmed_nonempty (default [] targets).

(** [`${candidate}_${i}`]. *)
Definition suffixed (c : string) (i : Z) : string := c ++s "_" ++s pretty i.

(** The [while] loop. *)
Fixpoint probe (fuel : nat) (ids : gset string) (c : string) (i : Z) : option string :=
  match fuel with
  | O => None
  | S f => if bool_decide (suffixed c i ∈ ids) then probe f ids c (i + 1)
           else Some (suffixed c i)
  end.

(** The probe always answers (probe_fresh). *)
Definition ensureUniqueId (ids : gset string) (baseId : string) : string :=
  let candidate := str_or (trim baseId) "T" in
  if bool_decide (candidate ∈ ids) then default "" (probe (S (size ids)) ids candidate 2)
  else candidate.

Definition clampNumber (v lo hi : number) : number := math_min (math_max v lo) hi.

(** [Map<string, string[]>]: the ids a node depends on. *)
Abbreviation deps_map := (gmap string (list string)).

(** The two collections the closure [computeLevel] mutates. *)
Abbreviation level_state := (gmap string Z * gset string)%type.

Section locale.
Context {L : Locale}.

(** [(a, b) => a.id.localeCompare(b.id)] gives a positive number. *)
Definition id_gt (a b : GraphNode) : bool := 0 <? localeCompare (node_id a) (node_id b).

(** ** Layout *)

Definition no_deps (ns : list GraphNode) : deps_map :=
  fold_left (fun m n => <[node_id n := []]> m) ns ∅.

Definition layout_deps (ns : list GraphNode) (es : list GraphEdge) : deps_map :=
  let ids : gset string := list_to_set (map node_id ns) in
  fold_left (fun m e =>
    if bool_decide (from e ∉ ids) || bool_decide (to e ∉ ids) then m
    else match m !! to e with
         | Some deps => <[to e := deps ++ [from e]]> m
         | None => m
         end) es (no_deps ns).

(** [for (const dep of deps) maxDep = Math.max(maxDep, computeLevel(dep))]. *)
Fixpoint max_level (go : string -> level_state -> option (Z * level_state))
    (deps : list string) (maxDep : Z) (st : level_state) : option (Z * level_state) :=
  match deps with
  | [] => Some (maxDep, st)
  | dep :: deps => '(l, st) ← go dep st; max_level go deps (Z.max maxDep l) st
  end.

(** [None] only for want of fuel; one more than the number of node ids is
    enough (computeLevel_total). *)
Fixpoint computeLevel (fuel : nat) (m : deps_map) (id : string) (st : level_state) :
    option (Z * level_state) :=
  match fuel with
  | O => None
  | S f =>
      let '(levels, visiting) := st in
      match levels !! id with
      | Some l => Some (l, st)
      | None =>
          if bool_decide (id ∈ visiting) then Some (0, st)
          else
            '(maxDep, st) ← max_level (computeLevel f m) (default [] (m !! id)) (-1)
                              (levels, {[id]} ∪ visiting);
            let '(levels, visiting) := (st : level_state) in
            let level := maxDep + 1 in
            Some (level, (<[id := level]> levels, visiting ∖ {[id]}))
      end
  end.

(** [nodes.forEach((n) => computeLevel(n.id))]. *)
Fixpoint all_levels (fuel : nat) (m : deps_map) (ids : list string) (st : level_state) :
    option level_state :=
  match ids with
  | [] => Some st
  | id :: ids => '(_, st) ← computeLevel fuel m id st; all_levels fuel m ids st
  end.

Definition bucket_step {A} (level : A -> Z) (b : gmap Z (list A)) (n : A) : gmap Z (list A) :=
  let lvl := level n in <[lvl := default [] (b !! lvl) ++ [n]]> b.

Definition xSpacing : Z := 240.
Definition ySpacing : Z := 140.
Definition startX : Z := 40.
Definition startY : Z := 40.

Definition place (lvl : Z) (idx : nat) (n : GraphNode) : GraphNode :=
  mkNode (node_id n) (node_kind n) (int (startX + lvl * xSpacing))
    (int (startY + Z.of_nat idx * ySpacing)) (node_prompt n) (node_targets n).

Definition layout_opt (ns : list GraphNode) (es : list GraphEdge) : option (list GraphNode) :=
  let m := layout_deps ns es in
  st ← all_levels (S (length ns)) m (map node_id ns) (∅, ∅);
  let level n := default 0 (fst st !! node_id n) in
  let buckets := fold_left (bucket_step level) ns ∅ in
  let orderedLevels := sort_by (fun a b => 0 <? a - b) (map fst (map_to_list buckets)) in
  Some (concat (map (fun lvl =>
    imap (place lvl) (sort_by id_gt (default [] (buckets !! lvl)))) orderedLevels)).

(** The computation always answers (layout_total). *)
Definition layoutGraph (ns : list GraphNode) (es : list GraphEdge) : list GraphNode :=
  default [] (layout_opt ns es).

(** ** Export *)

Definition strings (l : list string) : value := VArray (map VString l).

(** [{ prompt: node.prompt || DEFAULT_PROMPT, no_session: true }]. *)
Definition prompt_request (n : GraphNode) : value :=
  VObject [("prompt", VString (str_or (node_prompt n) DEFAULT_PROMPT)); ("no_session", VBool true)].

(** The properties both the workflow and the nested workflow get last. *)
Definition workflow_tail (o : GraphBuildOptions) : obj value :=
  (if isNonEmptyObject (VObject (defaults o)) then [("defaults", VObject (defaults o))] else [])
  ++ (if allowInlineKeys o && truthy (prop "api_key" (defaults o))
      then [("allow_inline_api_keys", VBool true)] else []).

Definition placeholder_target : string := "http://127.0.0.1:8123".

(** The target list of a node, and the warning of [buildAgentParallelTask]. *)
Definition node_target_list (n : GraphNode) (o : GraphBuildOptions) : list string * list string :=
  let nodeTargets := normalizeTargets (node_targets n) in
  let targets := match nodeTargets with
                 | [] => normalizeTargets (Some (opt_targets o))
                 | _ => nodeTargets
                 end in
  match targets with
  | [] => ([placeholder_target],
           ["Node " ++s node_id n ++s ": no targets configured; using placeholder base_url."])
  | _ => (targets, [])
  end.

(** [`t${idx + 1}`]. *)
Definition target_id (idx : nat) : string := "t" ++s pretty (Z.of_nat idx + 1).

Definition nestedWorkflow (n : GraphNode) (o : GraphBuildOptions) : obj value :=
  ("tasks", VArray [VObject [("task_id", VString "RUN"); ("request", prompt_request n)]])
  :: workflow_tail o.

Definition agentd_call (n : GraphNode) (o : GraphBuildOptions) : obj value :=
  [("op", VString "workflow_submit_and_wait"); ("timeout_ms", VNumber (int 20000));
   ("poll_ms", VNumber (int 50)); ("include_results", VBool true);
   ("include_tasks", VBool false)]
  ++ (match bearerEnv o with
      | Some e => if truthy_str e then [("bearer_env", VString e)] else []
      | None => []
      end)
  ++ [("workflow", VObject (nestedWorkflow n o))].

Definition agentd_parallel (n : GraphNode) (o : GraphBuildOptions) (targets : list string) : obj value :=
  [("targets", VArray (imap (fun idx base =>
      VObject [("id", VString (target_id idx)); ("base_url", VString base)]) targets));
   ("agentd_call", VObject (agentd_call n o));
   ("aggregate", VObject
      [("mode", VString "first_ok");
       ("task_ids", VArray (imap (fun idx _ =>
          VString (node_id n ++s ":" ++s target_id idx)) targets));
       ("ok_pointer", VString "/ok");
       ("value_pointer", VString "/agentd/final/result/results_by_task/RUN/assistant_text")])].

Definition buildAgentParallelTask (n : GraphNode) (o : GraphBuildOptions)
    (warnings : list string) : obj value * list string :=
  let '(targets, w) := node_target_list n o in
  ([("task_id", VString (node_id n));
    ("kind", VString "agentd_parallel");
    ("agentd_parallel", VObject (agentd_parallel n o targets))], warnings ++ w).

(** The first loop: nodes with fresh trimmed ids. *)
Definition clean_step (st : list string * gset string * list GraphNode) (n : GraphNode) :=
  let '(warnings, ids, cleaned) := st in
  let id := trim (node_id n) in
  if negb (truthy_str id) then
    (warnings ++ ["Found node with empty id; skipping."], ids, cleaned)
  else
    let uniqueId := ensureUniqueId ids id in
    (warnings ++ (if bool_decide (uniqueId = id) then []
                  else ["Renamed duplicate node id '" ++s id ++s "' to '" ++s uniqueId ++s "'."]),
     {[uniqueId]} ∪ ids,
     cleaned ++ [mkNode uniqueId (node_kind n) (node_x n) (node_y n) (node_prompt n) (node_targets n)]).

Definition clean_nodes (ns : list GraphNode) : list string * gset string * list GraphNode :=
  fold_left clean_step ns ([], ∅, []).

Definition valid_edge (ids : gset string) (e : GraphEdge) : bool :=
  bool_decide (from e ∈ ids) && bool_decide (to e ∈ ids) && negb (bool_decide (from e = to e)).

(** The second map of dependencies: no duplicates. *)
Definition export_deps (cleaned : list GraphNode) (es : list GraphEdge) : deps_map :=
  fold_left (fun m e =>
    match m !! to e with
    | Some deps => if bool_decide (from e ∈ deps) then m else <[to e := deps ++ [from e]]> m
    | None => m
    end) es (no_deps cleaned).

Definition dep_entry (deps : list string) : obj value :=
  match deps with [] => [] | _ => [("depends_on", strings deps)] end.

Definition build_task (m : deps_map) (o : GraphBuildOptions) (warnings : list string)
    (n : GraphNode) : value * list string :=
  let deps := default [] (m !! node_id n) in
  match node_kind n with
  | agent_parallel =>
      let '(task, warnings) := buildAgentParallelTask n o warnings in
      (VObject (task ++ dep_entry deps), warnings)
  | llm =>
      (VObject ([("task_id", VString (node_id n))] ++ dep_entry deps
                ++ [("request", prompt_request n)]), warnings)
  end.

Fixpoint build_tasks (m : deps_map) (o : GraphBuildOptions) (warnings : list string)
    (ns : list GraphNode) : list value * list string :=
  match ns with
  | [] => ([], warnings)
  | n :: ns =>
      let '(t, warnings) := build_task m o warnings n in
      let '(ts, warnings) := build_tasks m o warnings ns in
      (t :: ts, warnings)
  end.

Definition buildWorkflowFromGraph (g : GraphState) (o : GraphBuildOptions) :
    result GraphError (obj value * list string) :=
  if (length (nodes g) =? 0)%nat then Throw NoNodes
  else
    let '(warnings, ids, cleaned) := clean_nodes (nodes g) in
    if (length cleaned =? 0)%nat then Throw NoValidNodes
    else
      let es := List.filter (valid_edge ids) (edges g) in
      let m := export_deps cleaned es in
      let '(tasks, warnings) := build_tasks m o warnings (sort_by id_gt cleaned) in
      Ok (("tasks", VArray tasks) :: workflow_tail o, warnings).

(** ** Import *)

(** [isObjectRecord(v.k) ? v.k : null]. *)
Definition sub_record (k : string) (v : value) : option (obj value) :=
  match vprop k v with VObject o => Some o | _ => None end.

Fixpoint first_prompt (ts : list value) : option string :=
  match ts with
  | [] => None
  | t :: ts =>
      match as_string (vprop "prompt" (vprop "request" t)) with
      | Some p => if isObjectRecord t && isObjectRecord (vprop "request" t) && truthy_str (trim p)
                  then Some (trim p) else first_prompt ts
      | None => first_prompt ts
      end
  end.

Definition parseAgentParallelPrompt (task : value) : option string :=
  ap ← sub_record "agentd_parallel" task;
  call ← sub_record "agentd_call" (VObject ap);
  wf ← sub_record "workflow" (VObject call);
  tasks ← as_array (prop "tasks" wf);
  first_prompt tasks.

(** [s.replace(/\/$/, "")]. *)
Fixpoint strip_slash (s : string) : string :=
  match s with
  | "" => ""
  | String "/" "" => ""
  | String c s' => String c (strip_slash s')
  end.

Definition parse_target (st : list string * list string) (t : value) : list string * list string :=
  let '(out, warnings) := st in
  let base := default "" (as_string (vprop "base_url" t)) in
  if isObjectRecord t && truthy_str (trim base) then (out ++ [trim base], warnings)
  else
    match sub_record "broker_proxy" t with
    | Some broker =>
        let brokerBase := str_trim (prop "broker_base_url" broker) in
        let agentId := str_trim (prop "agent_id" broker) in
        if truthy_str brokerBase && truthy_str agentId then
          (out ++ [strip_slash brokerBase ++s "/v1/agents/" ++s agentId ++s "/proxy"],
           warnings ++ ["Converted broker_proxy target to base_url for " ++s agentId ++s "."])
        else st
    | None => st
    end.

Definition parseAgentParallelTargets (task : value) (warnings : list string) :
    list string * list string :=
  match sub_record "agentd_parallel" task with
  | Some ap =>
      match prop "targets" ap with
      | VArray targets => fold_left parse_target targets ([], warnings)
      | _ => ([], warnings)
      end
  | None => ([], warnings)
  end.

Definition import_state : Type := list GraphNode * list GraphEdge * list string.

(** The loop body for one task entry. *)
Definition parse_task (st : import_state) (task : value) : import_state :=
  let '(ns, es, warnings) := st in
  if negb (isObjectRecord task) then (ns, es, warnings ++ ["Skipped non-object task entry."])
  else
    let taskId := str_trim (vprop "task_id" task) in
    if negb (truthy_str taskId) then
      (ns, es, warnings ++ ["Skipped task with missing task_id."])
    else
      let dependsOn := match vprop "depends_on" task with
                       | VArray l => List.filter truthy_str (map str_trim l)
                       | _ => []
                       end in
      let es := es ++ map (fun dep => mkEdge dep taskId) dependsOn in
      let prompt := match sub_record "request" task with
                    | Some r => trim (default "" (as_string (prop "prompt" r)))
                    | None => ""
                    end in
      if truthy_str prompt then
        (ns ++ [mkNode taskId llm (int 0) (int 0) prompt None], es, warnings)
      else if bool_decide (str_or_empty (vprop "kind" task) = "agentd_parallel") then
        let remotePrompt := str_or (default "" (parseAgentParallelPrompt task)) DEFAULT_PROMPT in
        let '(targets, warnings) := parseAgentParallelTargets task warnings in
        (ns ++ [mkNode taskId agent_parallel (int 0) (int 0) remotePrompt (Some targets)],
         es, warnings)
      else
        (ns, es, warnings ++ ["Unsupported task '" ++s taskId ++s "' ignored (kind: " ++s
           str_or (str_or_empty (vprop "kind" task)) "request" ++s ")."]).

Definition import_tasks (tasks : list value) : result GraphError (GraphState * list string) :=
  match tasks with
  | [] => Throw NoTasks
  | _ =>
      let '(ns, es, warnings) := fold_left parse_task tasks ([], [], []) in
      match ns with
      | [] => Throw NoSupportedTasks
      | _ => Ok (mkGraph (layoutGraph ns es) es, warnings)
      end
  end.

Definition parseWorkflowToGraph {J : Json} (jsonText : string) :
    result GraphError (GraphState * list string) :=
  match parse (str_or jsonText "{}") with
  | None => Throw InvalidJson
  | Some parsed =>
      import_tasks (match parsed with
                    | VObject o => default [] (as_array (prop "tasks" o))
                    | _ => []
                    end)
  end.

Definition withAutoLayout (g : GraphState) : GraphState :=
  mkGraph (layoutGraph (nodes g) (edges g)) (edges g).
End locale.

(** ** Clamping a stored graph *)

(** One node of the stored value; [None] where reading a property of [null]
    or [undefined] throws.  Properties other than a node's are not kept. *)
Definition clamp_node (node : value) : option GraphNode :=
  if nullish node then None
  else
    let coord k := clampNumber (v_to_number (vprop k node |||| VNumber (int 0)))
                     (int (-2000)) (int 2000) in
    Some (mkNode (str_trim (vprop "id" node))
      (if bool_decide (vprop "kind" node = VString "agent_parallel") then agent_parallel else llm)
      (coord "x") (coord "y") (str_or_empty (vprop "prompt" node))
      (match vprop "targets" node with
       | VArray l => Some (map str_or_empty l)
       | _ => None
       end)).

Definition clampGraphState (state : obj value) : option (list GraphNode * list value) :=
  ns ← mapM clamp_node (default [] (as_array (prop "nodes" state)));
  Some (ns, default [] (as_array (prop "edges" state))).

(** ** Fresh ids *)

Lemma suffixed_inj c i j : suffixed c i = suffixed c j -> i = j.
Proof. unfold suffixed. intros H%append_inj_l. apply (append_inj_l "_") in H. by apply pretty_Z_inj. Qed.

Lemma probe_some fuel ids c i s : probe fuel ids c i = Some s -> s ∉ ids /\ exists j, i <= j /\ s = suffixed c j.
Proof.
  revert i. induction fuel as [|f IH]; intros i; simpl; [done|].
  case_bool_decide as Hi.
  - intros (Hs & j & Hj & ->)%IH. split; [done|]. exists j. split; [lia|done].
  - intros [= <-]. split; [done|]. by exists i.
Qed.

Lemma probe_none fuel ids c i :
  probe fuel ids c i = None -> forall k, (k < fuel)%nat -> suffixed c (i + Z.of_nat k) ∈ ids.
Proof.
  revert i. induction fuel as [|f IH]; intros i; simpl; [lia|].
  case_bool_decide as Hi; [|done]. intros Hn [|k] Hk.
  - by rewrite Z.add_0_r.
  - replace (i + Z.of_nat (S k)) with (i + 1 + Z.of_nat k) by lia. apply IH; [done|lia].
Qed.

(** The probing loop stops: among [size ids + 1] candidates one is free. *)
Lemma probe_fresh ids c i : is_Some (probe (S (size ids)) ids c i).
Proof.
  destruct (probe _ _ _ _) eqn:E; [done|exfalso].
  pose proof (probe_none _ _ _ _ E) as Hin.
  set (l := map (fun k => suffixed c (i + Z.of_nat k)) (seq 0 (S (size ids)))).
  assert (Hnd : NoDup l).
  { apply NoDup_fmap_2_strong; [|apply NoDup_seq]. intros x y _ _ H%suffixed_inj. lia. }
  assert (Hsub : (list_to_set l : gset string) ⊆ ids).
  { intros x Hx. apply elem_of_list_to_set, list_elem_of_In, in_map_iff in Hx as (k & <- & Hk).
    apply in_seq in Hk. apply Hin. lia. }
  apply subseteq_size in Hsub. rewrite size_list_to_set in Hsub by done.
  unfold l in Hsub. rewrite length_map, length_seq in Hsub. lia.
Qed.

Lemma trim_suffixed c i : 0 <= i -> trim c = c -> c <> "" -> trim (suffixed c i) = suffixed c i.
Proof.
  intros Hi Hc Hne. destruct (trim_fixed c Hc) as [Hs _].
  unfold trim, suffixed. rewrite trim_start_app by done.
  rewrite <- append_assoc. by apply trim_end_app; apply pretty_trim_end.
Qed.

(** A fresh id, trimmed and not empty; the id itself when it is free. *)
Lemma ensureUniqueId_spec ids id :
  trim id = id -> id <> "" ->
  let u := ensureUniqueId ids id in
  u ∉ ids /\ trim u = u /\ u <> "" /\ (id ∉ ids -> u = id).
Proof.
  intros Ht Hne. unfold ensureUniqueId. rewrite Ht. unfold str_or.
  rewrite (proj2 (truthy_str_true id) Hne). case_bool_decide as Hi; [|done].
  destruct (probe_fresh ids id 2) as [u Hu]. rewrite Hu. simpl.
  apply probe_some in Hu as (Hni & j & Hj & ->). split_and!; try done.
  - apply trim_suffixed; [lia|done|done].
  - unfold suffixed. by destruct id.
Qed.

(** ** The cleaning loop *)

Definition good_id (s : string) : Prop := trim s = s /\ s <> "".

Definition clean_inv (st : list string * gset string * list GraphNode) : Prop :=
  let '(_, ids, cleaned) := st in
  ids = list_to_set (map node_id cleaned) /\ NoDup (map node_id cleaned) /\
  Forall (fun n => good_id (node_id n)) cleaned.

Lemma clean_step_inv st n : clean_inv st -> clean_inv (clean_step st n).
Proof.
  destruct st as [[w ids] cleaned]. intros (Hids & Hnd & Hg). unfold clean_step.
  destruct (truthy_str (trim (node_id n))) eqn:E; simpl; [|done].
  apply truthy_str_true in E.
  destruct (ensureUniqueId_spec ids (trim (node_id n)) (trim_idem _) E) as (H1 & H2 & H3 & _).
  set (u := ensureUniqueId _ _) in *. rewrite map_app. simpl. split_and!.
  - subst ids. apply set_eq. set_solver.
  - apply NoDup_app. split_and!; [done| |apply NoDup_singleton]. subst ids. set_solver.
  - apply Forall_app. split; [done|]. by repeat constructor.
Qed.

Lemma clean_nodes_inv ns : clean_inv (clean_nodes ns).
Proof.
  unfold clean_nodes. generalize (clean_step_inv).
  assert (Hi : clean_inv ([], ∅, [])) by (split_and!; [done|constructor|constructor]).
  revert Hi. generalize (([], ∅, []) : list string * gset string * list GraphNode).
  induction ns; simpl; auto.
Qed.

(** One node is kept for each one whose id is not blank. *)
Lemma clean_nodes_length ns :
  length (snd (clean_nodes ns)) = length (List.filter (fun n => truthy_str (trim (node_id n))) ns).
Proof.
  unfold clean_nodes.
  enough (forall st, length (snd (fold_left clean_step ns st)) =
    (length (snd st) + length (List.filter (fun n => truthy_str (trim (node_id n))) ns))%nat) as H
    by (apply H).
  induction ns as [|n ns IH]; intros [[w ids] cl]; simpl; [lia|]. rewrite IH.
  destruct (truthy_str _); simpl; [|lia]. rewrite length_app. simpl. lia.
Qed.

(** A graph whose ids are trimmed, not empty and distinct is left alone. *)
Lemma clean_nodes_id ns :
  NoDup (map node_id ns) -> Forall (fun n => good_id (node_id n)) ns ->
  clean_nodes ns = ([], list_to_set (map node_id ns), ns).
Proof.
  intros Hnd Hg. unfold clean_nodes.
  enough (forall pre, NoDup (map node_id (pre ++ ns)) ->
    fold_left clean_step ns ([], list_to_set (map node_id pre), pre)
    = ([], list_to_set (map node_id (pre ++ ns)), pre ++ ns)) as H by (by apply (H [])).
  clear Hnd. induction Hg as [|n ns [Ht Hne] Hg IH]; intros pre Hp; simpl.
  { by rewrite app_nil_r. }
  rewrite Ht, (proj2 (truthy_str_true _) Hne). simpl.
  destruct (ensureUniqueId_spec (list_to_set (map node_id pre)) (node_id n) Ht Hne)
    as (_ & _ & _ & Hu).
  rewrite Hu; last first.
  { rewrite elem_of_list_to_set. rewrite map_app in Hp. simpl in Hp.
    apply NoDup_app in Hp as (_ & Hp & _). intros Hin. apply (Hp _ Hin). by left. }
  rewrite bool_decide_true by done.
  replace (mkNode (node_id n) (node_kind n) (node_x n) (node_y n) (node_prompt n) (node_targets n))
    with n by (by destruct n).
  replace ({[node_id n]} ∪ list_to_set (map node_id pre)) with
    (list_to_set (map node_id (pre ++ [n])) : gset string).
  - rewrite IH; rewrite <- app_assoc; [done|]. done.
  - apply set_eq. rewrite map_app. set_solver.
Qed.

(** ** Dependencies *)

Lemma no_deps_lookup ns id :
  no_deps ns !! id = if bool_decide (id ∈ map node_id ns) then Some [] else None.
Proof.
  unfold no_deps.
  enough (forall m : deps_map, fold_left (fun m n => <[node_id n := []]> m) ns m !! id =
    if bool_decide (id ∈ map node_id ns) then Some [] else m !! id) as H by (by rewrite H).
  induction ns as [|n ns IH]; intros m; cbn [fold_left map].
  { rewrite bool_decide_false; [done|]. by apply not_elem_of_nil. }
  rewrite IH. destruct (decide (id ∈ map node_id ns)) as [Hin|Hin].
  { rewrite !bool_decide_true; [done|by right|done]. }
  rewrite (bool_decide_false (id ∈ map _ _)) by done.
  destruct (decide (id = node_id n)) as [->|Hne].
  - rewrite lookup_insert_eq, bool_decide_true by left. done.
  - rewrite lookup_insert_ne, bool_decide_false by (done || set_solver). done.
Qed.

(** What a dependency map says of the edges [es] among the ids of [ns]. *)
Definition deps_ok (ns : list GraphNode) (es : list GraphEdge) (m : deps_map) : Prop :=
  forall id, match m !! id with
             | Some deps => id ∈ map node_id ns /\ forall d, d ∈ deps <-> mkEdge d id ∈ es
             | None => id ∉ map node_id ns
             end.

Lemma no_deps_ok ns : deps_ok ns [] (no_deps ns).
Proof.
  intros id. rewrite no_deps_lookup. case_bool_decide; [|done].
  split; [done|]. intros d. by rewrite !elem_of_nil.
Qed.

Lemma deps_ok_snoc ns es m e deps :
  deps_ok ns es m -> m !! to e = Some deps ->
  deps_ok ns (es ++ [e]) (<[to e := deps ++ [from e]]> m).
Proof.
  intros H Hd id. pose proof (H (to e)) as He. rewrite Hd in He. destruct He as [Hin Hs].
  destruct (decide (id = to e)) as [->|Hne].
  - rewrite lookup_insert_eq. split; [done|]. intros d. rewrite elem_of_app, Hs, elem_of_app.
    rewrite !list_elem_of_singleton. destruct e as [f t]; simpl. naive_solver.
  - rewrite lookup_insert_ne by done. specialize (H id). destruct (m !! id) as [ds|]; [|done].
    destruct H as [Hi Hs']. split; [done|]. intros d. rewrite Hs', elem_of_app, list_elem_of_singleton.
    destruct e as [f t]; simpl in *. naive_solver.
Qed.

(** An edge to an unknown node, or an edge seen before, adds nothing. *)
Lemma deps_ok_skip ns es m e :
  deps_ok ns es m -> (to e ∈ map node_id ns -> e ∈ es) -> deps_ok ns (es ++ [e]) m.
Proof.
  intros H Hskip id. specialize (H id). destruct (m !! id) as [ds|]; [|done].
  destruct H as [Hi Hs]. split; [done|]. intros d.
  rewrite Hs, elem_of_app, list_elem_of_singleton. destruct e as [f t]; simpl in *. naive_solver.
Qed.

Lemma export_deps_ok ns es :
  deps_ok ns es (export_deps ns es) /\
  forall id deps, export_deps ns es !! id = Some deps -> NoDup deps.
Proof.
  unfold export_deps. induction es as [|e es [IH1 IH2]] using rev_ind.
  { split; [apply no_deps_ok|]. intros id deps. simpl. rewrite no_deps_lookup.
    case_bool_decide; [|done]. intros [= <-]. constructor. }
  rewrite fold_left_app. simpl. set (m := fold_left _ es _) in *.
  pose proof (IH1 (to e)) as He. destruct (m !! to e) as [deps|] eqn:Em.
  - destruct He as [_ Hs]. case_bool_decide as Hd.
    + split; [|done]. apply deps_ok_skip; [done|]. intros _.
      apply Hs in Hd. by destruct e.
    + split; [by apply deps_ok_snoc|]. intros id ds.
      destruct (decide (id = to e)) as [->|]; [|rewrite lookup_insert_ne by done; apply IH2].
      rewrite lookup_insert_eq. intros [= <-]. apply NoDup_app.
      split_and!; [by eapply IH2| |apply NoDup_singleton]. set_solver.
  - split; [|done]. by apply deps_ok_skip.
Qed.

(** ** The exported tasks *)

Section export.
Context {L : Locale}.

Definition task_value (m : deps_map) (o : GraphBuildOptions) (n : GraphNode) : value :=
  fst (build_task m o [] n).

Lemma build_task_fst m o w n : fst (build_task m o w n) = task_value m o n.
Proof.
  unfold task_value, build_task, buildAgentParallelTask.
  destruct (node_kind n); [done|]. by destruct (node_target_list n o).
Qed.

Lemma build_tasks_fst m o w ns : fst (build_tasks m o w ns) = map (task_value m o) ns.
Proof.
  revert w. induction ns as [|n ns IH]; intros w; simpl; [done|].
  pose proof (build_task_fst m o w n) as Hf. destruct (build_task m o w n) as [t w'].
  specialize (IH w'). destruct (build_tasks m o w' ns) as [ts w'']. simpl in *. congruence.
Qed.

(** What a reader of the document sees of a task. *)
Definition task_id (t : value) : string := v_to_string (vprop "task_id" t).
Definition task_deps (t : value) : list string :=
  match vprop "depends_on" t with VArray l => map v_to_string l | _ => [] end.

Lemma task_value_id m o n : task_id (task_value m o n) = node_id n.
Proof.
  unfold task_value, build_task, buildAgentParallelTask, task_id.
  destruct (node_kind n); [done|]. by destruct (node_target_list n o).
Qed.

Lemma task_value_deps_prop m o n :
  vprop "depends_on" (task_value m o n) =
    match default [] (m !! node_id n) with [] => VUndefined | deps => strings deps end.
Proof.
  unfold task_value, build_task, buildAgentParallelTask, dep_entry.
  destruct (node_kind n); [|destruct (node_target_list n o)];
    by destruct (default [] (m !! node_id n)).
Qed.

Lemma task_value_deps m o n : task_deps (task_value m o n) = default [] (m !! node_id n).
Proof.
  unfold task_deps. rewrite task_value_deps_prop.
  destruct (default [] (m !! node_id n)) as [|d ds]; [done|]. unfold strings.
  rewrite map_map. by rewrite (List.map_id (d :: ds)) at 1.
Qed.

Lemma map_task_id m o ns : map task_id (map (task_value m o) ns) = map node_id ns.
Proof. rewrite map_map. apply map_ext. intros. apply task_value_id. Qed.

(** What the export of a graph is, with the intermediate values named. *)
Lemma build_ok g o wf w :
  buildWorkflowFromGraph g o = Ok (wf, w) ->
  exists w0 ids cleaned,
    clean_nodes (nodes g) = (w0, ids, cleaned) /\ cleaned <> [] /\
    let es := List.filter (valid_edge ids) (edges g) in
    let m := export_deps cleaned es in
    wf = ("tasks", VArray (map (task_value m o) (sort_by id_gt cleaned))) :: workflow_tail o /\
    w = snd (build_tasks m o w0 (sort_by id_gt cleaned)).
Proof.
  unfold buildWorkflowFromGraph. destruct (length (nodes g) =? 0)%nat; [done|].
  destruct (clean_nodes (nodes g)) as [[w0 ids] cleaned] eqn:Ec.
  destruct (length cleaned =? 0)%nat eqn:El; [done|].
  pose proof (build_tasks_fst (export_deps cleaned (List.filter (valid_edge ids) (edges g))) o w0
    (sort_by id_gt cleaned)) as Hf.
  destruct (build_tasks _ _ _ _) as [ts w'] eqn:Et. simpl in Hf. intros [= <- <-].
  exists w0, ids, cleaned. split; [done|]. split; [by destruct cleaned|]. simpl.
  rewrite Et. by subst ts.
Qed.

Lemma filter_nil_forall (ns : list GraphNode) :
  List.filter (fun n => truthy_str (trim (node_id n))) ns = [] ->
  forall n, n ∈ ns -> trim (node_id n) = "".
Proof.
  intros H n Hn. apply truthy_str_false. destruct (truthy_str _) eqn:E; [|done].
  assert (n ∈ List.filter (fun n => truthy_str (trim (node_id n))) ns) as Hf
    by (by apply elem_of_filter_bool).
  rewrite H in Hf. by apply not_elem_of_nil in Hf.
Qed.

(** Exporting a graph throws exactly when it has no node or only nodes
    with blank ids; otherwise the document has one task for each node whose
    id is not blank, with distinct trimmed non-empty ids, and a task's
    dependencies are exactly, without repetition, the edges of the graph that
    lead to it from another exported task. *)
Theorem buildWorkflowFromGraph_valid g o :
  match buildWorkflowFromGraph g o with
  | Throw e =>
      e = NoNodes /\ nodes g = []
      \/ e = NoValidNodes /\ nodes g <> [] /\ (forall n, n ∈ nodes g -> trim (node_id n) = "")
  | Ok (wf, _) =>
      exists tasks, prop "tasks" wf = VArray tasks /\
        length tasks = length (List.filter (fun n => truthy_str (trim (node_id n))) (nodes g)) /\
        NoDup (map task_id tasks) /\
        forall t, t ∈ tasks ->
          good_id (task_id t) /\ NoDup (task_deps t) /\
          forall d, d ∈ task_deps t <->
            mkEdge d (task_id t) ∈ edges g /\ d <> task_id t /\ d ∈ map task_id tasks
  end.
Proof.
  destruct (buildWorkflowFromGraph g o) as [[wf w]|e] eqn:E.
  - apply build_ok in E as (w0 & ids & cl & Ec & Hne & -> & _).
    pose proof (clean_nodes_inv (nodes g)) as Hinv. rewrite Ec in Hinv.
    destruct Hinv as (Hids & Hnd & Hg).
    pose proof (clean_nodes_length (nodes g)) as Hlen. rewrite Ec in Hlen. simpl in Hlen.
    eexists. split; [by rewrite prop_cons|]. rewrite map_task_id.
    split_and!; [by rewrite length_map, length_sort_by|by rewrite sort_by_perm|].
    intros t (n & <- & Hn)%list_elem_of_In%in_map_iff.
    apply list_elem_of_In, elem_of_sort_by in Hn.
    rewrite task_value_id, task_value_deps.
    destruct (export_deps_ok cl (List.filter (valid_edge ids) (edges g))) as [Hm Hmd].
    assert (Hin : node_id n ∈ map node_id cl) by (by apply list_elem_of_fmap_2).
    specialize (Hm (node_id n)). destruct (_ !! _) as [deps|] eqn:Ed; [|done].
    destruct Hm as [_ Hm]. split; [by rewrite Forall_forall in Hg; apply Hg|].
    split; [by eapply Hmd|].
    intros d. simpl. rewrite Hm, elem_of_filter_bool. unfold valid_edge. simpl.
    rewrite sort_by_perm, !andb_true_iff, !bool_decide_eq_true, negb_true_iff, bool_decide_eq_false.
    subst ids. rewrite !elem_of_list_to_set. naive_solver.
  - unfold buildWorkflowFromGraph in E. destruct (nodes g) as [|n ns] eqn:En.
    { left. by injection E. }
    right. cbn [length Nat.eqb] in E. rewrite <- En in *.
    pose proof (clean_nodes_length (nodes g)) as Hlen.
    destruct (clean_nodes (nodes g)) as [[w0 ids] cl]. simpl in Hlen.
    destruct cl as [|c cl]; simpl in E.
    + injection E as <-. split_and!; [done|congruence|]. apply filter_nil_forall.
      by destruct (List.filter _ _).
    + destruct (insert_by _ _ _); simpl in E; [done|]. by repeat case_match.
Qed.
End export.

(** ** Levels of the layout *)

Section layout.
Context {L : Locale}.

(** An edge of the graph between two of its nodes. *)
Definition dep (ns : list GraphNode) (es : list GraphEdge) (d id : string) : Prop :=
  mkEdge d id ∈ es /\ d ∈ map node_id ns /\ id ∈ map node_id ns.

Lemma layout_deps_ok ns es :
  deps_ok ns (List.filter (fun e => bool_decide (from e ∈ map node_id ns)) es)
    (layout_deps ns es).
Proof.
  unfold layout_deps. induction es as [|e es IH] using rev_ind; [apply no_deps_ok|].
  rewrite fold_left_app, List.filter_app. cbn [fold_left List.filter].
  set (m := fold_left _ es _) in *.
  destruct (decide (from e ∈ map node_id ns)) as [Hf|Hf].
  - rewrite (bool_decide_true (from e ∈ _)), (bool_decide_false (_ ∉ _)) by set_solver.
    destruct (bool_decide_reflect (to e ∉ (list_to_set (map node_id ns) : gset string))) as [Ht|Ht];
      simpl.
    + apply deps_ok_skip; [done|]. set_solver.
    + assert (Hto : to e ∈ map node_id ns).
      { apply dec_stable. intros H. apply Ht. set_solver. }
      pose proof (IH (to e)) as He. destruct (m !! to e) as [ds|] eqn:Ed; [|done].
      by apply deps_ok_snoc.
  - rewrite (bool_decide_false (from e ∈ _)), (bool_decide_true (_ ∉ _)) by set_solver.
    simpl. by rewrite app_nil_r.
Qed.

Lemma layout_deps_spec ns es d id :
  d ∈ default [] (layout_deps ns es !! id) <-> dep ns es d id.
Proof.
  pose proof (layout_deps_ok ns es id) as H. unfold dep.
  destruct (layout_deps ns es !! id) as [ds|]; simpl.
  - destruct H as [Hid Hs]. rewrite Hs, elem_of_filter_bool, bool_decide_eq_true. simpl. tauto.
  - rewrite elem_of_nil. tauto.
Qed.

(** Chains of dependencies, and the length of the longest one. *)
Inductive chain (R : string -> string -> Prop) : nat -> string -> Prop :=
  | chain_0 id : chain R 0 id
  | chain_S n d id : R d id -> chain R n d -> chain R (S n) id.

Definition longest (R : string -> string -> Prop) (id : string) (l : Z) : Prop :=
  exists n, l = Z.of_nat n /\ chain R n id /\ forall k, chain R k id -> (k <= n)%nat.

Lemma longest_step R id mx :
  (forall d, R d id -> exists l, longest R d l /\ l <= mx) ->
  mx = -1 \/ (exists d, R d id /\ longest R d mx) ->
  longest R id (mx + 1).
Proof.
  intros Hall [->|(d & Hd & n & -> & Hc & Hm)].
  - exists 0%nat. split_and!; [done|constructor|]. intros k Hk. inversion Hk as [|n d ? Hd]; [done|].
    destruct (Hall d Hd) as (l & (j & -> & _) & Hl). lia.
  - exists (S n). split_and!; [lia|by econstructor|].
    intros k Hk. inversion Hk as [|j d' ? Hd' Hj]; [lia|]. subst.
    destruct (Hall d' Hd') as (l & (i & -> & _ & Hi) & Hl). specialize (Hi j Hj). lia.
Qed.

Section compute.
Context (m : deps_map) (N : gset string).
Context (closed : forall id d, d ∈ default [] (m !! id) -> d ∈ N).

(** The recursion ends: each nested call visits one more node. *)
Lemma computeLevel_total fuel id lv vs :
  id ∈ N -> (size (N ∖ vs) < fuel)%nat ->
  exists l lv', computeLevel fuel m id (lv, vs) = Some (l, (lv', vs)).
Proof.
  revert id lv vs. induction fuel as [|f IH]; intros id lv vs Hid Hf; [lia|]. cbn [computeLevel].
  destruct (lv !! id) as [l|]; [by eauto|].
  destruct (bool_decide_reflect (id ∈ vs)) as [Hv|Hv]; [by eauto|].
  assert (Hsz : (size (N ∖ ({[id]} ∪ vs)) < f)%nat).
  { enough (size (N ∖ ({[id]} ∪ vs)) < size (N ∖ vs))%nat by lia. apply subset_size. set_solver. }
  assert (Hmax : forall ds mx lv, (forall d, d ∈ ds -> d ∈ N) -> exists l lv',
    max_level (computeLevel f m) ds mx (lv, {[id]} ∪ vs) = Some (l, (lv', {[id]} ∪ vs))).
  { induction ds as [|d ds IHd]; intros mx lv0 Hds; simpl; [by eauto|].
    destruct (IH d lv0 ({[id]} ∪ vs)) as (l & lv' & ->); [apply Hds; by left|done|].
    simpl. apply IHd. intros. apply Hds. by right. }
  destruct (Hmax (default [] (m !! id)) (-1) lv) as (l & lv' & E); [by apply closed|].
  rewrite E. simpl. do 2 eexists. do 3 f_equal. apply set_eq. set_solver.
Qed.

Lemma all_levels_total fuel ids lv :
  (forall id, id ∈ ids -> id ∈ N) -> (size N < fuel)%nat ->
  exists lv', all_levels fuel m ids (lv, ∅) = Some (lv', ∅).
Proof.
  intros Hin Hf. revert lv. induction ids as [|id ids IH]; intros lv; simpl; [by eauto|].
  destruct (computeLevel_total fuel id lv ∅) as (l & lv' & ->); [apply Hin; by left| |].
  { by replace (N ∖ ∅) with N by set_solver. }
  simpl. apply IH. intros. apply Hin. by right.
Qed.

End compute.

(** Without a cycle the level is the length of the longest chain. *)
Section acyclic.
Context (m : deps_map) (rank : string -> nat).
Context (acyclic : forall id d, d ∈ default [] (m !! id) -> (rank d < rank id)%nat).

Abbreviation R := (fun d id => d ∈ default [] (m !! id)).

Definition levels_ok (lv : gmap string Z) : Prop := forall id l, lv !! id = Some l -> longest R id l.

Definition answers (go : string -> level_state -> option (Z * level_state)) (id : string)
    (vs : gset string) : Prop :=
  forall lv l st, levels_ok lv -> go id (lv, vs) = Some (l, st) ->
    longest R id l /\ snd st = vs /\ levels_ok (fst st) /\ lv ⊆ fst st /\ is_Some (fst st !! id).

Lemma max_level_ok go ds vs mx lv r st :
  levels_ok lv -> (forall d, d ∈ ds -> answers go d vs) ->
  max_level go ds mx (lv, vs) = Some (r, st) ->
  (forall d, d ∈ ds -> exists l, longest R d l /\ l <= r) /\ mx <= r /\
  (r = mx \/ exists d, d ∈ ds /\ longest R d r) /\
  snd st = vs /\ levels_ok (fst st) /\ lv ⊆ fst st.
Proof.
  revert mx lv. induction ds as [|d ds IH]; intros mx lv Hlv Hgo; simpl.
  { intros [= <- <-]. split_and!; try done; [|by left]. intros d Hd. by apply not_elem_of_nil in Hd. }
  intros H. apply bind_Some in H as ([l st'] & Hd & H).
  destruct (Hgo d (list_elem_of_here _ _) lv l st' Hlv Hd) as (Hl & Hvs & Hlv' & Hsub & _).
  destruct st' as [lv' vs']. simpl in *. subst vs'.
  apply IH in H as (Hall & Hmx & Hor & Hvs & Hok & Hsub'); [|done|intros; apply Hgo; by right].
  split_and!; try done; [|lia| |by etransitivity].
  - intros d' [->|Hd']%elem_of_cons; [|by apply Hall]. exists l. split; [done|lia].
  - destruct Hor as [->|(d' & Hd' & Hr)]; [|right; exists d'; split; [by right|done]].
    destruct (Z.max_spec mx l) as [[? ->]|[? ->]]; [|by left].
    right. exists d. split; [by left|done].
Qed.

Lemma computeLevel_longest fuel id vs :
  (forall v, v ∈ vs -> (rank id < rank v)%nat) -> answers (computeLevel fuel m) id vs.
Proof.
  revert id vs. induction fuel as [|f IH]; intros id vs Hvs lv l st Hlv; cbn [computeLevel]; [done|].
  destruct (lv !! id) as [l'|] eqn:El.
  { intros [= <- <-]. simpl. rewrite El. split_and!; eauto. }
  destruct (bool_decide_reflect (id ∈ vs)) as [Hv|Hv].
  { specialize (Hvs id Hv). lia. }
  intros H. apply bind_Some in H as ([mx [lv' vs']] & Hmax & [= <- <-]).
  apply max_level_ok in Hmax as (Hall & Hge & Hor & Hvs' & Hok & Hsub); simpl in *; [|done|].
  - assert (Hlong : longest R id (mx + 1)) by (by apply longest_step).
    subst vs'. split_and!; [done|set_solver| | |by rewrite lookup_insert_eq].
    + intros i j. destruct (decide (i = id)) as [->|];
        [rewrite lookup_insert_eq; naive_solver|rewrite lookup_insert_ne by done; apply Hok].
    + etransitivity; [by apply (insert_subseteq lv id (mx + 1))|]. by apply insert_mono.
  - intros d Hd. apply IH. intros v [->%elem_of_singleton|Hin]%elem_of_union; [by apply acyclic|].
    specialize (Hvs v Hin). specialize (acyclic id d Hd). lia.
Qed.

Lemma all_levels_longest fuel ids lv lv' :
  levels_ok lv -> all_levels fuel m ids (lv, ∅) = Some (lv', ∅) ->
  levels_ok lv' /\ lv ⊆ lv' /\ forall id, id ∈ ids -> is_Some (lv' !! id).
Proof.
  revert lv. induction ids as [|id ids IH]; intros lv Hlv; simpl.
  { intros [= <-]. split_and!; [done|done|]. intros id Hid. by apply not_elem_of_nil in Hid. }
  intros H. apply bind_Some in H as ([l [lv1 vs1]] & Hc & H).
  apply computeLevel_longest in Hc as (_ & Hvs & Hok & Hsub & Hid); [|set_solver|done].
  simpl in *. subst vs1. apply IH in H as (Hok' & Hsub' & Hall); [|done].
  split_and!; [done|by etransitivity|]. intros i [->|Hi]%elem_of_cons; [|by apply Hall].
  destruct Hid as [x Hx]. exists x. by eapply lookup_weaken.
Qed.
End acyclic.
End layout.

(** ** The placed nodes *)

Section placed.
Context {L : Locale}.

(** A node without its position. *)
Definition unplaced (n : GraphNode) : GraphNode :=
  mkNode (node_id n) (node_kind n) (int 0) (int 0) (node_prompt n) (node_targets n).

Definition position (n : GraphNode) : number * number := (node_x n, node_y n).

Lemma bucket_lookup {A} (level : A -> Z) (ns : list A) l :
  fold_left (bucket_step level) ns ∅ !! l =
    match List.filter (fun n => bool_decide (level n = l)) ns with
    | [] => None
    | row => Some row
    end.
Proof.
  induction ns as [|n ns IH] using rev_ind; [done|].
  rewrite fold_left_app, List.filter_app. cbn [fold_left List.filter].
  set (b := fold_left _ ns ∅) in *. unfold bucket_step.
  destruct (decide (level n = l)) as [<-|Hne].
  - rewrite lookup_insert_eq, (bool_decide_true _ eq_refl), IH.
    by destruct (List.filter _ ns).
  - rewrite lookup_insert_ne, (bool_decide_false (level n = l)), app_nil_r by done. done.
Qed.

Lemma bucket_row {A} (level : A -> Z) (ns : list A) l :
  default [] (fold_left (bucket_step level) ns ∅ !! l) =
    List.filter (fun n => bool_decide (level n = l)) ns.
Proof. rewrite bucket_lookup. by destruct (List.filter _ ns). Qed.

Definition ordered_levels (b : gmap Z (list GraphNode)) : list Z :=
  sort_by (fun a b => 0 <? a - b) (map fst (map_to_list b)).

Lemma ordered_levels_NoDup b : NoDup (ordered_levels b).
Proof. unfold ordered_levels. rewrite sort_by_perm. apply NoDup_fst_map_to_list. Qed.

Lemma ordered_levels_elem b l : l ∈ ordered_levels b <-> is_Some (b !! l).
Proof.
  unfold ordered_levels. rewrite elem_of_sort_by. change (map fst) with (fmap (M := list) (@fst Z (list GraphNode))).
  rewrite list_elem_of_fmap. split.
  - intros ([k v] & -> & H%elem_of_map_to_list). by exists v.
  - intros [v Hv]. exists (l, v). by rewrite elem_of_map_to_list.
Qed.

(** The layout, given the level of every node. *)
Definition placed (level : GraphNode -> Z) (ns : list GraphNode) : list GraphNode :=
  let b := fold_left (bucket_step level) ns ∅ in
  concat (map (fun lvl => imap (place lvl) (sort_by id_gt (default [] (b !! lvl))))
            (ordered_levels b)).

(** The layout is total, and is [placed] for the computed levels. *)
Lemma layout_total ns es :
  exists lv, layoutGraph ns es = placed (fun n => default 0 (lv !! node_id n)) ns /\
    all_levels (S (length ns)) (layout_deps ns es) (map node_id ns) (∅, ∅) = Some (lv, ∅).
Proof.
  destruct (all_levels_total (layout_deps ns es) (list_to_set (map node_id ns))) with
    (fuel := S (length ns)) (ids := map node_id ns) (lv := ∅ : gmap string Z) as [lv Hlv].
  - intros id d Hd%layout_deps_spec. destruct Hd as (_ & Hd & _). set_solver.
  - set_solver.
  - pose proof (size_list_to_set_le (map node_id ns)) as H. rewrite length_map in H. lia.
  - exists lv. split; [|done]. unfold layoutGraph, layout_opt. rewrite Hlv. done.
Qed.

Lemma map_imap_place lvl l : map unplaced (imap (place lvl) l) = map unplaced l.
Proof.
  change (map unplaced) with (fmap (M := list) unplaced).
  rewrite fmap_imap, <- (imap_const unplaced l). done.
Qed.

Lemma placed_perm level ns : map unplaced (placed level ns) ≡ₚ map unplaced ns.
Proof.
  set (b := fold_left (bucket_step level) ns ∅).
  pose proof (concat_classes_perm level (ordered_levels b) ns (ordered_levels_NoDup b)) as Hc.
  etransitivity; [|apply Permutation_map, Hc].
  - unfold placed. fold b. rewrite !concat_map, !map_map.
    clear Hc. induction (ordered_levels b) as [|l ls IH]; simpl; [done|].
    rewrite map_imap_place. unfold b at 1. rewrite bucket_row.
    apply Permutation_app; [apply Permutation_map, sort_by_perm|].
    apply IH.
  - intros x Hx. apply ordered_levels_elem. unfold b. rewrite bucket_lookup.
    assert (x ∈ List.filter (fun n => bool_decide (level n = level x)) ns) as Hf
      by (apply elem_of_filter_bool; split; [done|by apply bool_decide_true]).
    destruct (List.filter _ ns); [by apply not_elem_of_nil in Hf|done].
Qed.

Lemma int_linear a k i j : 0 < k -> int (a + i * k) = int (a + j * k) -> i = j.
Proof. intros Hk H%int_inj. nia. Qed.

Lemma placed_distinct level ns : NoDup (map position (placed level ns)).
Proof.
  unfold placed. set (b := fold_left _ ns ∅). pose proof (ordered_levels_NoDup b) as Hnd.
  rewrite concat_map, map_map. induction Hnd as [|l ls Hl Hnd IH]; simpl; [constructor|].
  apply NoDup_app. split_and!; [| |done].
  - change (map position) with (fmap (M := list) position). rewrite fmap_imap.
    apply NoDup_alt. intros i j x. rewrite !list_lookup_imap.
    intros (n1 & _ & Hx1)%fmap_Some_1 (n2 & _ & Hx2)%fmap_Some_1.
    rewrite Hx1 in Hx2. injection Hx2 as He%(f_equal Fin). apply (int_linear startY ySpacing) in He; [lia|done].
  - intros p Hp Hq. apply list_elem_of_In, in_concat in Hq as (ps & Hps & Hq).
    apply in_map_iff in Hps as (l' & <- & Hl'). apply list_elem_of_In in Hl'.
    change (map position) with (fmap (M := list) position) in Hp, Hq. rewrite fmap_imap in Hp, Hq.
    apply list_elem_of_In in Hq.
    apply elem_of_lookup_imap_1 in Hp as (i & n & -> & _).
    apply elem_of_lookup_imap_1 in Hq as (j & n' & He & _).
    injection He as He%(f_equal Fin) _. apply (int_linear startX xSpacing) in He; [|done]. congruence.
Qed.

Lemma placed_x level ns n :
  n ∈ placed level ns -> exists n0, n0 ∈ ns /\ node_id n = node_id n0 /\
    node_x n = int (startX + level n0 * xSpacing).
Proof.
  unfold placed. intros (row & Hr & Hn)%list_elem_of_In%in_concat.
  apply in_map_iff in Hr as (l & <- & _). apply list_elem_of_In, elem_of_lookup_imap_1 in Hn
    as (i & n0 & -> & Hn0). apply list_elem_of_lookup_2, elem_of_sort_by in Hn0.
  rewrite bucket_row, elem_of_filter_bool, bool_decide_eq_true in Hn0.
  destruct Hn0 as [Hin <-]. by exists n0.
Qed.

(** C29: automatic layout keeps the nodes (ids, kinds, prompts, targets), only
    moves them, never puts two of them on the same spot, and always ends,
    also on a graph with cycles, self edges or edges to missing nodes. *)
Theorem layoutGraph_places g :
  edges (withAutoLayout g) = edges g /\
  map unplaced (nodes (withAutoLayout g)) ≡ₚ map unplaced (nodes g) /\
  NoDup (map position (nodes (withAutoLayout g))).
Proof.
  destruct g as [ns es]. unfold withAutoLayout. simpl.
  destruct (layout_total ns es) as (lv & -> & _).
  split_and!; [done|apply placed_perm|apply placed_distinct].
Qed.

(** In a graph without dependency cycles (some rank decreases along every
    edge) a node's column is the length of the longest chain of dependencies
    that leads to it, so every edge points strictly to the right. *)
Theorem layoutGraph_levels ns es (rank : string -> nat) :
  (forall d id, dep ns es d id -> (rank d < rank id)%nat) ->
  (forall n, n ∈ layoutGraph ns es ->
    exists l, longest (dep ns es) (node_id n) l /\ node_x n = int (40 + 240 * l)) /\
  (forall a b, a ∈ layoutGraph ns es -> b ∈ layoutGraph ns es ->
    dep ns es (node_id a) (node_id b) -> ltb (node_x a) (node_x b) = true).
Proof.
  intros Hrank. set (m := layout_deps ns es).
  assert (Hfirst : forall n, n ∈ layoutGraph ns es ->
    exists l, longest (dep ns es) (node_id n) l /\ node_x n = int (40 + 240 * l)).
  { destruct (layout_total ns es) as (lv & -> & Hlv). intros n (n0 & Hn0 & Hid & Hx)%placed_x.
    apply (all_levels_longest m) with (rank := rank) in Hlv as (Hok & _ & Hall).
    - destruct (Hall (node_id n0)) as [l Hl]; [by apply list_elem_of_fmap_2|].
      rewrite Hl in Hx. simpl in Hx. exists l.
      split; [|by rewrite Hx; unfold startX, xSpacing; rewrite Z.mul_comm].
      rewrite Hid. destruct (Hok _ _ Hl) as (k & -> & Hc & Hm).
      assert (Hch : forall j id, chain (fun d id => d ∈ default [] (m !! id)) j id
                              <-> chain (dep ns es) j id).
      { intros j id. split; (induction 1; [constructor|]);
          (econstructor; [|done]); by apply layout_deps_spec. }
      exists k. split; [done|]. rewrite <- Hch. split; [done|]. intros j Hj. apply Hm. by apply Hch.
    - intros id d Hd. apply Hrank. by apply layout_deps_spec.
    - intros id l. by rewrite lookup_empty. }
  split; [done|]. intros a b Ha Hb Hd.
  destruct (Hfirst a Ha) as (la & (i & -> & Hi & _) & ->).
  destruct (Hfirst b Hb) as (lb & (j & -> & _ & Hj) & ->).
  rewrite ltb_int. apply Z.ltb_lt. specialize (Hj (S i)).
  assert (chain (dep ns es) (S i) (node_id b)) as Hc by (by econstructor). specialize (Hj Hc). lia.
Qed.
End placed.

(** ** Export followed by import *)

Section roundtrip.
Context {L : Locale} {J : Json} {JL : JsonLaws J}.
Context (o : GraphBuildOptions) (defaults_ok : json_ok (VObject (defaults o)) = true).

(** A graph as the editor holds it: distinct trimmed ids, prompts without
    outer blanks, targets exactly on the parallel nodes, proper edges. *)
Definition normal_node (n : GraphNode) : Prop :=
  good_id (node_id n) /\ trim (node_prompt n) = node_prompt n /\ node_prompt n <> "" /\
  match node_kind n, node_targets n with
  | llm, None => True
  | agent_parallel, Some ts => ts <> [] /\ trimmed_nonempty ts = ts
  | _, _ => False
  end.

Definition normal_graph (g : GraphState) : Prop :=
  NoDup (map node_id (nodes g)) /\ Forall normal_node (nodes g) /\ NoDup (edges g) /\
  forall e, e ∈ edges g ->
    from e ∈ map node_id (nodes g) /\ to e ∈ map node_id (nodes g) /\ from e <> to e.

(** A target list reads back. *)
Lemma parse_targets_back f ts out w :
  (forall i b, f i b = VObject [("id", VString (target_id i)); ("base_url", VString b)]) ->
  trimmed_nonempty ts = ts ->
  forall k, fold_left parse_target (imap (fun i b => f (k + i)%nat b) ts) (out, w) = (out ++ ts, w).
Proof.
  intros Hf Ht.
  assert (Hall : Forall (fun x => trim x = x /\ x <> "") ts).
  { apply Forall_forall. intros x Hx. rewrite <- Ht in Hx. by apply trimmed_nonempty_spec in Hx. }
  clear Ht. revert out. induction Hall as [|t ts [Ht Hne] _ IH]; intros out k; simpl.
  { by rewrite app_nil_r. }
  rewrite Hf. simpl.
  rewrite Ht, (proj2 (truthy_str_true t) Hne). simpl.
  etransitivity; [|rewrite cons_middle, app_assoc; apply (IH _ (S k))].
  f_equal. apply imap_ext. intros i b _. simpl. by rewrite Nat.add_succ_r.
Qed.

Lemma task_deps_back m n :
  Forall good_id (default [] (m !! node_id n)) ->
  (match vprop "depends_on" (task_value m o n) with
   | VArray l => List.filter truthy_str (map str_trim l)
   | _ => []
   end) = default [] (m !! node_id n).
Proof.
  rewrite task_value_deps_prop. destruct (default [] (m !! node_id n)) as [|d ds]; [done|].
  intros Hg. unfold strings. rewrite map_map. transitivity (trimmed_nonempty (d :: ds)).
  - unfold trimmed_nonempty. f_equal. apply map_ext. apply str_trim_string.
  - revert Hg. generalize (d :: ds). clear. unfold trimmed_nonempty.
    induction 1 as [|x l [Hx Hne] _ IH]; simpl; [done|].
    rewrite Hx, (proj2 (truthy_str_true x) Hne). congruence.
Qed.

(** The nested prompt reads back. *)
Lemma agent_prompt_back n ts rest :
  trim (node_prompt n) = node_prompt n -> node_prompt n <> "" ->
  parseAgentParallelPrompt
    (VObject (("task_id", VString (node_id n)) :: ("kind", VString "agentd_parallel")
       :: ("agentd_parallel", VObject (agentd_parallel n o ts)) :: rest)) = Some (node_prompt n).
Proof.
  intros Ht Hne. unfold parseAgentParallelPrompt, sub_record. cbn [vprop]. rewrite !prop_cons. simpl.
  assert (Hwf : prop "workflow" (agentd_call n o) = VObject (nestedWorkflow n o)).
  { unfold agentd_call. destruct (bearerEnv o) as [e|]; [destruct (truthy_str e)|]; done. }
  change (prop "agentd_call" (agentd_parallel n o ts)) with (VObject (agentd_call n o)). simpl.
  rewrite Hwf. simpl. unfold str_or. rewrite (proj2 (truthy_str_true _) Hne), Ht.
  by rewrite (proj2 (truthy_str_true _) Hne).
Qed.

Lemma agent_targets_back n ts rest w :
  trimmed_nonempty ts = ts ->
  parseAgentParallelTargets
    (VObject (("task_id", VString (node_id n)) :: ("kind", VString "agentd_parallel")
       :: ("agentd_parallel", VObject (agentd_parallel n o ts)) :: rest)) w = (ts, w).
Proof.
  intros Ht. unfold parseAgentParallelTargets, sub_record. cbn [vprop]. rewrite !prop_cons. simpl.

  by apply (parse_targets_back (fun i b =>
    VObject [("id", VString (target_id i)); ("base_url", VString b)]) ts [] w) with (k := 0%nat).
Qed.

(** One exported task is read back as its node, unplaced. *)
Lemma parse_task_back m n ns es w :
  normal_node n -> Forall good_id (default [] (m !! node_id n)) ->
  parse_task (ns, es, w) (task_value m o n) =
    (ns ++ [unplaced n],
     es ++ map (fun d => mkEdge d (node_id n)) (default [] (m !! node_id n)), w).
Proof.
  intros ([Hid Hne] & Hp & Hpne & Hk) Hg. unfold parse_task.
  pose proof (task_deps_back m n Hg) as Hdeps.
  assert (Htid : str_trim (vprop "task_id" (task_value m o n)) = node_id n).
  { rewrite <- Hid, <- str_trim_string. f_equal.
    unfold task_value, build_task, buildAgentParallelTask. destruct (node_kind n); [done|].
    by destruct (node_target_list n o). }
  assert (isObjectRecord (task_value m o n) = true) as ->.
  { unfold task_value, build_task. destruct (node_kind n); [done|].
    by destruct (buildAgentParallelTask n o []). }
  cbn [negb]. rewrite Htid, Hdeps, (proj2 (truthy_str_true _) Hne). cbn [negb]. clear Hdeps Htid.
  assert (Hpr : str_or (node_prompt n) DEFAULT_PROMPT = node_prompt n).
  { unfold str_or. by rewrite (proj2 (truthy_str_true _) Hpne). }
  set (deps := default [] (m !! node_id n)). unfold task_value, build_task. fold deps.
  unfold unplaced. destruct (node_kind n) eqn:Ek, (node_targets n) as [ts|] eqn:Et; try done.
  - assert (Hr : sub_record "request" (VObject ([("task_id", VString (node_id n))]
        ++ dep_entry deps ++ [("request", prompt_request n)]))
      = Some [("prompt", VString (node_prompt n)); ("no_session", VBool true)]).
    { unfold prompt_request. rewrite Hpr. by destruct deps. }
    cbn [fst]. rewrite Hr. rewrite prop_cons. simpl. rewrite Hp.
    by rewrite (proj2 (truthy_str_true _) Hpne).
  - destruct Hk as [Hts Hnorm].
    unfold buildAgentParallelTask, node_target_list, normalizeTargets. rewrite Et.
    change (default [] (Some ts)) with ts. rewrite Hnorm. destruct ts as [|t ts]; [done|]. cbn [fst app].
    rewrite agent_prompt_back, agent_targets_back by done.
    assert (Hr : forall rest, sub_record "request" (VObject (("task_id", VString (node_id n))
       :: ("kind", VString "agentd_parallel")
       :: ("agentd_parallel", VObject rest) :: dep_entry deps)) = None) by (by destruct deps).
    rewrite Hr. change (truthy_str "") with false. cbv iota.
    rewrite (bool_decide_true (str_or_empty _ = _)) by done.
    change (default "" (Some (node_prompt n))) with (node_prompt n). by rewrite Hpr.
Qed.

Lemma fold_parse_back m ns ns0 es0 w :
  Forall normal_node ns -> (forall n, n ∈ ns -> Forall good_id (default [] (m !! node_id n))) ->
  fold_left parse_task (map (task_value m o) ns) (ns0, es0, w) =
    (ns0 ++ map unplaced ns,
     es0 ++ concat (map (fun n => map (fun d => mkEdge d (node_id n))
                                    (default [] (m !! node_id n))) ns), w).
Proof.
  intros Hn. revert ns0 es0. induction Hn as [|n ns Hn _ IH]; intros ns0 es0 Hg; cbn [map fold_left concat].
  { by rewrite !app_nil_r. }
  rewrite parse_task_back; [|done|apply Hg; by left]. rewrite IH by (intros; apply Hg; by right).
  by rewrite <- !app_assoc.
Qed.

(** Everything the export writes is representable in JSON. *)
Lemma workflow_tail_ok : Forall (fun p => json_ok (snd p) = true) (workflow_tail o).
Proof.
  unfold workflow_tail. apply Forall_app. split; case_match; repeat constructor; done.
Qed.

Lemma with_tail_ok v : json_ok v = true -> json_ok (VObject (("tasks", v) :: workflow_tail o)) = true.
Proof.
  intros Hv. apply json_ok_object; [|constructor; [done|apply workflow_tail_ok]].
  unfold workflow_tail. do 2 case_match; shape.
Qed.

Lemma prompt_request_ok n : json_ok (prompt_request n) = true.
Proof. apply json_ok_object; [unfold prompt_request; shape|by repeat constructor]. Qed.

Lemma strings_ok l : json_ok (strings l) = true.
Proof. by apply json_ok_map. Qed.

Lemma agentd_call_ok n : json_ok (VObject (agentd_call n o)) = true.
Proof.
  assert (json_ok (VObject (nestedWorkflow n o)) = true) as Hn.
  { apply with_tail_ok, json_ok_array. repeat constructor.
    apply json_ok_object; [shape|]. repeat constructor. apply prompt_request_ok. }
  apply json_ok_object; unfold agentd_call.
  - destruct (bearerEnv o) as [e|]; [destruct (truthy_str e)|]; shape.
  - destruct (bearerEnv o) as [e|]; [destruct (truthy_str e)|]; repeat constructor; done.
Qed.

Lemma task_value_ok m n : json_ok (task_value m o n) = true.
Proof.
  assert (Hd : forall d ds, json_ok (VArray (map VString (d :: ds))) = true)
    by (intros; apply strings_ok).
  unfold task_value, build_task, buildAgentParallelTask, dep_entry, strings.
  destruct (node_kind n).
  - destruct (default [] (m !! node_id n)) as [|d ds];
      (apply json_ok_object; [simpl app; shape|]); repeat constructor; try apply prompt_request_ok.
    apply Hd.
  - destruct (node_target_list n o) as [ts w]. cbn [fst].
    assert (Ha : json_ok (VObject (agentd_parallel n o ts)) = true).
    { apply json_ok_object; [unfold agentd_parallel; shape|]. repeat constructor.
      - apply json_ok_imap. intros. apply json_ok_object; [shape|by repeat constructor].
      - apply agentd_call_ok.
      - apply json_ok_object; [shape|]. repeat constructor. by apply json_ok_imap. }
    destruct (default [] (m !! node_id n)) as [|d ds];
      (apply json_ok_object; [simpl app; shape|]); repeat constructor; try done. apply Hd.
Qed.

(** Normal nodes are exported without a warning. *)
Lemma build_tasks_quiet m ns : Forall normal_node ns -> snd (build_tasks m o [] ns) = [].
Proof.
  induction 1 as [|n ns (_ & _ & _ & Hk) _ IH]; [done|]. cbn [build_tasks].
  assert (Hw : snd (build_task m o [] n) = []).
  { unfold build_task, buildAgentParallelTask, node_target_list, normalizeTargets.
    destruct (node_kind n), (node_targets n) as [ts|]; try done. destruct Hk as [Hts Hn].
    change (default [] (Some ts)) with ts. rewrite Hn. by destruct ts. }
  destruct (build_task m o [] n) as [t w]. simpl in Hw. subst w.
  by destruct (build_tasks m o [] ns).
Qed.

Lemma dep_edges_NoDup (f : GraphNode -> list string) ns :
  NoDup (map node_id ns) -> (forall n, n ∈ ns -> NoDup (f n)) ->
  NoDup (concat (map (fun n => map (fun d => mkEdge d (node_id n)) (f n)) ns)).
Proof.
  induction ns as [|n ns IH]; simpl; [constructor|]. intros [Hn Hnd]%NoDup_cons Hf.
  apply NoDup_app. split_and!.
  - apply NoDup_fmap_2; [by intros x y [=]|]. apply Hf. by left.
  - intros e (d & <- & _)%list_elem_of_In%in_map_iff (l & Hl & He)%list_elem_of_In%in_concat.
    apply in_map_iff in Hl as (n' & <- & Hn'). apply in_map_iff in He as (d' & [= _ Heq] & _).
    apply Hn. rewrite <- Heq. apply list_elem_of_fmap_2. by apply list_elem_of_In.
  - apply IH; [done|]. intros. apply Hf. by right.
Qed.

Lemma dep_edges_elem m ns es e :
  deps_ok ns es m ->
  e ∈ concat (map (fun n => map (fun d => mkEdge d (node_id n)) (default [] (m !! node_id n))) ns)
  <-> e ∈ es /\ to e ∈ map node_id ns.
Proof.
  intros Hm. rewrite list_elem_of_In, in_concat. split.
  - intros (l & (n & <- & Hn)%in_map_iff & (d & <- & Hd)%in_map_iff).
    apply list_elem_of_In in Hn, Hd. simpl. specialize (Hm (node_id n)).
    destruct (m !! node_id n) as [ds|]; [|by apply not_elem_of_nil in Hd].
    split; [by apply Hm|by apply Hm].
  - intros [He (n & Hto & Hn)%list_elem_of_In%in_map_iff].
    eexists. split; [by apply in_map_iff; eexists|]. apply in_map_iff. exists (from e).
    split; [rewrite Hto; by destruct e|]. apply list_elem_of_In. specialize (Hm (node_id n)).
    destruct (m !! node_id n) as [ds|].
    + simpl. apply Hm. rewrite Hto. by destruct e.
    + destruct Hm. apply list_elem_of_fmap_2. by apply list_elem_of_In.
Qed.

(** C28: a normal graph exported to a workflow document and imported again
    comes back: same nodes, targets and prompts (in some order, placed by the
    layout) and same edges (in some order), with no warning either way. *)
Theorem graph_roundtrip g :
  normal_graph g -> nodes g <> [] ->
  exists wf g',
    buildWorkflowFromGraph g o = Ok (wf, []) /\
    parseWorkflowToGraph (stringify (VObject wf)) = Ok (g', []) /\
    map unplaced (nodes g') ≡ₚ map unplaced (nodes g) /\ edges g' ≡ₚ edges g.
Proof.
  intros (Hnd & Hn & Hed & Hev) Hne.
  assert (Hids : Forall (fun n => good_id (node_id n)) (nodes g)).
  { eapply Forall_impl; [exact Hn|]. by intros n [? _]. }
  set (ids := list_to_set (map node_id (nodes g)) : gset string).
  assert (Hes : List.filter (valid_edge ids) (edges g) = edges g).
  { apply filter_bool_id. intros e (Hf & Ht & Hft)%Hev. unfold valid_edge, ids.
    rewrite !bool_decide_true, (bool_decide_false (from e = to e)) by set_solver. done. }
  set (m := export_deps (nodes g) (edges g)). set (ns := sort_by id_gt (nodes g)).
  destruct (export_deps_ok (nodes g) (edges g)) as [Hm Hmd]. fold m in Hm, Hmd.
  assert (Hns : ns ≡ₚ nodes g) by apply sort_by_perm.
  assert (Hn' : Forall normal_node ns) by (by rewrite Hns).
  set (es := concat (map (fun n => map (fun d => mkEdge d (node_id n))
                                     (default [] (m !! node_id n))) ns)).
  exists (("tasks", VArray (map (task_value m o) ns)) :: workflow_tail o),
    (mkGraph (layoutGraph (map unplaced ns) es) es). split_and!.
  - unfold buildWorkflowFromGraph. rewrite clean_nodes_id by done. fold ids.
    destruct (nodes g) as [|n0 ns0] eqn:Eg; [done|]. cbn [length Nat.eqb]. rewrite Hes. fold m.
    pose proof (build_tasks_fst m o [] (sort_by id_gt (n0 :: ns0))) as Hfst.
    pose proof (build_tasks_quiet m (sort_by id_gt (n0 :: ns0)) Hn') as Hsnd.
    destruct (build_tasks m o [] _) as [ts w]. simpl in Hfst, Hsnd. by subst.
  - unfold parseWorkflowToGraph, str_or.
    assert (Hok : json_ok (VObject (("tasks", VArray (map (task_value m o) ns)) :: workflow_tail o)) = true)
      by (apply with_tail_ok, json_ok_map, task_value_ok).
    rewrite stringify_nonempty, parse_stringify by done. rewrite prop_cons. cbn [as_array].
    rewrite bool_decide_true by done. unfold import_tasks. simpl default.
    pose proof (fold_parse_back m ns [] [] [] Hn') as Hfold. rewrite Hfold; clear Hfold.
    + destruct ns as [|n ns']; [|done]. apply Permutation_nil_l in Hns. done.
    + intros n _. apply Forall_forall. intros d Hd. specialize (Hm (node_id n)).
      destruct (m !! node_id n) as [ds|]; [|by apply not_elem_of_nil in Hd]. simpl in Hd.
      apply Hm, Hev in Hd as (Hd & _). simpl in Hd.
      apply list_elem_of_In, in_map_iff in Hd as (n' & <- & Hin).
      rewrite Forall_forall in Hids. by apply Hids, list_elem_of_In.
  - cbn [nodes]. destruct (layout_total (map unplaced ns) es) as (lv & -> & _).
    rewrite placed_perm, map_map. rewrite <- Hns. done.
  - cbn [edges]. apply NoDup_Permutation; [|done|].
    + apply dep_edges_NoDup; [by rewrite Hns|]. intros n _.
      destruct (m !! node_id n) eqn:E; [by eapply Hmd|constructor].
    + intros e. unfold es. rewrite (dep_edges_elem m ns (edges g)).
      * rewrite Hns. split; [by intros []|]. intros He. split; [done|]. by apply Hev.
      * intros id. specialize (Hm id). destruct (m !! id); rewrite Hns; done.
Qed.
End roundtrip.

(** ** Clamping *)

Definition in_range (x : number) : Prop := leb (int (-2000)) x = true /\ leb x (int 2000) = true.

Lemma clampNumber_range x :
  is_nan x = false -> in_range (clampNumber x (int (-2000)) (int 2000)).
Proof.
  unfold in_range, clampNumber, math_min, math_max. intros Hx. rewrite Hx. simpl.
  destruct (leb x (int (-2000))) eqn:E; cbn [is_nan orb].
  - by vm_compute.
  - rewrite Hx. simpl. destruct (leb x (int 2000)) eqn:E2; [|by vm_compute].
    destruct (leb_total x (int (-2000)) Hx) as [H|H]; [done|congruence|done].
Qed.

Lemma clampNumber_id x : in_range x -> clampNumber x (int (-2000)) (int 2000) = x.
Proof.
  unfold in_range, clampNumber, math_min, math_max. intros [H1 H2].
  destruct (is_nan x) eqn:Hx; [by destruct x|]. cbn [orb].
  change (is_nan (int (-2000))) with false. cbn [orb].
  destruct (leb x (int (-2000))) eqn:E.
  - assert (x = int (-2000)) as -> by (by apply leb_antisym). by vm_compute.
  - rewrite Hx. simpl. by rewrite H2.
Qed.

(** A node as it is stored. *)
Definition node_value (n : GraphNode) : value :=
  VObject [("id", VString (node_id n));
    ("kind", VString (match node_kind n with llm => "llm" | agent_parallel => "agent_parallel" end));
    ("x", VNumber (node_x n)); ("y", VNumber (node_y n)); ("prompt", VString (node_prompt n));
    ("targets", match node_targets n with Some l => strings l | None => VUndefined end)].

Lemma str_or_empty_string s : str_or_empty (VString s) = s.
Proof. unfold str_or_empty, v_or. simpl. by destruct s. Qed.

Lemma map_strings l : map str_or_empty (map VString l) = l.
Proof. induction l as [|s l IH]; simpl; [done|]. by rewrite str_or_empty_string, IH. Qed.

Lemma coord_number x : is_nan x = false -> v_to_number (VNumber x |||| VNumber (int 0)) = x.
Proof.
  unfold v_or. simpl. destruct x as [| | |k]; try done. simpl.
  destruct (Z.eqb_spec k 0) as [->|]; done.
Qed.

Lemma clamp_node_spec v n :
  clamp_node v = Some n ->
  trim (node_id n) = node_id n /\
  (in_range (node_x n) \/ node_x n = NaN) /\ (in_range (node_y n) \/ node_y n = NaN) /\
  (in_range (node_x n) -> in_range (node_y n) -> clamp_node (node_value n) = Some n).
Proof.
  unfold clamp_node. destruct (nullish v); [done|]. intros [= <-]. cbn [node_id node_x node_y].
  assert (Hc : forall w, in_range (clampNumber w (int (-2000)) (int 2000))
                      \/ clampNumber w (int (-2000)) (int 2000) = NaN).
  { intros w. destruct (is_nan w) eqn:E; [|left; by apply clampNumber_range].
    right. by destruct w. }
  split_and!; [apply trim_idem|apply Hc|apply Hc|]. intros Hx Hy.
  assert (Hnan : forall x, in_range x -> is_nan x = false) by (by intros [] []).
  unfold node_value. cbn [node_id node_kind node_x node_y node_prompt node_targets nullish vprop].
  rewrite !prop_cons. simpl bool_decide. cbv iota.
  set (cx := clampNumber _ _ _) in *. set (cy := clampNumber (v_to_number (vprop "y" v |||| _)) _ _) in *.
  rewrite !coord_number, !clampNumber_id by auto. do 2 f_equal.
  - unfold str_trim at 1. rewrite str_or_empty_string. apply trim_idem.
  - by destruct (bool_decide (vprop "kind" v = _)).
  - by rewrite str_or_empty_string.
  - destruct (vprop "targets" v); try done. unfold strings. f_equal. apply map_strings.
Qed.

(** A stored graph that is read without an exception has trimmed ids and
    coordinates within the canvas bounds (or NaN, where what was stored is not
    a number), one node for each stored one; and reading it again changes
    nothing, when no coordinate is NaN. *)
Theorem clampGraphState_normal state ns es :
  clampGraphState state = Some (ns, es) ->
  length ns = length (default [] (as_array (prop "nodes" state))) /\
  Forall (fun n => trim (node_id n) = node_id n /\
    (in_range (node_x n) \/ node_x n = NaN) /\ (in_range (node_y n) \/ node_y n = NaN)) ns /\
  (Forall (fun n => in_range (node_x n) /\ in_range (node_y n)) ns ->
   clampGraphState [("nodes", VArray (map node_value ns)); ("edges", VArray es)] = Some (ns, es)).
Proof.
  unfold clampGraphState. intros (ns' & Hns & [= <- <-])%bind_Some.
  pose proof Hns as Hall%mapM_Some. split_and!.
  - symmetry. by apply Forall2_length in Hall.
  - clear Hns. induction Hall as [|v n vs ns Hv _ IH]; constructor; [|done].
    apply clamp_node_spec in Hv. tauto.
  - intros Hr. rewrite !prop_cons. simpl. apply bind_Some. exists ns'. split; [|done].
    apply mapM_Some. clear Hns. induction Hall as [|v n vs ns Hv _ IH]; constructor.
    + apply Forall_cons in Hr as [[Hx Hy] _]. apply clamp_node_spec in Hv. by apply Hv.
    + apply Forall_cons in Hr as [_ Hr]. by apply IH.
Qed.

Lemma clampGraphState_normal_witness :
  let state := [("nodes", VArray [VObject [("id", VString " A "); ("x", VString "9e9"); ("y", VNull)]]);
                ("edges", VNull)] in
  let ns := [mkNode "A" llm (int 2000) (int 0) "" None] in
  clampGraphState state = Some (ns, []) /\
  Forall (fun n => in_range (node_x n) /\ in_range (node_y n)) ns /\
  clampGraphState [("nodes", VArray (map node_value ns)); ("edges", VArray [])] = Some (ns, []).
Proof.
  intros state ns. assert (H : clampGraphState state = Some (ns, [])) by (by vm_compute).
  assert (Hr : Forall (fun n => in_range (node_x n) /\ in_range (node_y n)) ns) by (by repeat constructor).
  split; [done|]. split; [done|]. by apply (clampGraphState_normal state ns []).
Defined.

(** ** Concrete graphs *)

(** Order by code units. *)
Definition code_unit_order : Locale := fun a b =>
  match String.compare a b with Lt => -1 | Eq => 0 | Gt => 1 end.

Definition plain_options : GraphBuildOptions :=
  mkOptions [("model", VString "m"); ("api_key", VString "k"); ("max_steps", VNumber (int 5))]
    true [] (Some "TOKEN").

Definition diamond : GraphState :=
  mkGraph [mkNode "top" llm (int 7) (int 7) "plan" None;
           mkNode "left" agent_parallel (int 0) (int 0) "do it" (Some ["http://a"; "http://b"]);
           mkNode "right" llm (int 3) (int 9) "check" None;
           mkNode "end" llm (int 0) (int 0) "sum up" None]
    [mkEdge "top" "left"; mkEdge "top" "right"; mkEdge "left" "end"; mkEdge "right" "end"].

Lemma graph_roundtrip_witness :
  normal_graph diamond /\ json_ok (VObject (defaults plain_options)) = true /\
  exists wf g',
    @buildWorkflowFromGraph code_unit_order diamond plain_options = Ok (wf, []) /\
    @parseWorkflowToGraph code_unit_order text_json (@stringify text_json (VObject wf)) = Ok (g', []) /\
    map unplaced (nodes g') ≡ₚ map unplaced (nodes diamond) /\ edges g' ≡ₚ edges diamond.
Proof.
  assert (Hg : normal_graph diamond).
  { split; [by_compute|]. split; [|split; [by_compute|]].
    - repeat constructor; try done; by_compute.
    - intros e He. apply list_elem_of_In in He. simpl in He.
      assert (Forall (fun e => from e ∈ map node_id (nodes diamond) /\
        to e ∈ map node_id (nodes diamond) /\ from e <> to e) (edges diamond)) as Hf by by_compute.
      rewrite Forall_forall in Hf. apply Hf. by apply list_elem_of_In. }
  assert (Hd : json_ok (VObject (defaults plain_options)) = true) by (by vm_compute).
  split; [done|]. split; [done|].
  by apply (@graph_roundtrip code_unit_order text_json text_json_laws plain_options Hd diamond).
Defined.

Definition diamond_rank (id : string) : nat :=
  if bool_decide (id = "top") then 0 else if bool_decide (id = "end") then 2 else 1.

Lemma layoutGraph_levels_witness :
  (forall d id, dep (nodes diamond) (edges diamond) d id -> (diamond_rank d < diamond_rank id)%nat) /\
  (forall n, n ∈ @layoutGraph code_unit_order (nodes diamond) (edges diamond) ->
    exists l, longest (dep (nodes diamond) (edges diamond)) (node_id n) l /\ node_x n = int (40 + 240 * l)) /\
  map node_x (@layoutGraph code_unit_order (nodes diamond) (edges diamond))
    = [int 40; int 280; int 280; int 520].
Proof.
  assert (Hr : forall d id, dep (nodes diamond) (edges diamond) d id ->
    (diamond_rank d < diamond_rank id)%nat).
  { intros d id (He & _ & _). apply list_elem_of_In in He. simpl in He.
    repeat (destruct He as [[= <- <-]|He]; [by vm_compute; lia|]). done. }
  split; [done|]. split; [|by vm_compute].
  by apply (@layoutGraph_levels code_unit_order _ _ diamond_rank).
Defined.

(** A renamed duplicate takes over the edges of a later node that already has
    the new name: here the second "A" becomes "A_2" and "B", which depended on
    the node "A_2" with prompt "third", depends on the one with prompt
    "second" instead. *)
Lemma renamed_edge_misattached :
  let node id p := mkNode id llm (int 0) (int 0) p None in
  let g := mkGraph [node "A" "first"; node "A" "second"; node "A_2" "third"; node "B" "fourth"]
             [mkEdge "A_2" "B"] in
  match @buildWorkflowFromGraph code_unit_order g (mkOptions [] false [] None) with
  | Ok ([("tasks", VArray tasks)], _) =>
      map (fun t => (task_id t, v_to_string (vprop "prompt" (vprop "request" t)), task_deps t)) tasks
  | _ => []
  end = [("A", "first", []); ("A_2", "second", []); ("A_2_2", "third", []); ("B", "fourth", ["A_2"])].
Proof. by vm_compute. Qed.
