(* ===== verification/RunRequest.v ===== *)
(** What a run is started with: the workflow defaults derived from the run
    settings (src/ui/src/workflowDefaults.ts) and the request of a direct run
    (the mutation function of src/ui/src/hooks/useRunExecution.ts), which read
    the same settings. *)
From S2P Require Import Prelude JsNumber JsString JsValue JsonUtils JsonText.

(** ** The settings *)

Inductive ToolMode := tools_none | tools_basic | tools_host.
Inductive HostPolicy := readonly | full.

#[export] Instance ToolMode_eq_dec : EqDecision ToolMode.
Proof. solve_decision. Defined.

Definition tool_name (t : ToolMode) : string :=
  match t with tools_none => "none" | tools_basic => "basic" | tools_host => "host" end.

Definition policy_name (p : HostPolicy) : string :=
  match p with readonly => "readonly" | full => "full" end.

(** [RunSettings]: numbers are kept as the text the user typed. *)
Record RunSettings := mkSettings {
  tools : ToolMode; yolo : bool; hostPolicy : HostPolicy; automationProfile : string;
  verbose : bool; model : string; summaryModel : string; summaryMaxChars : string;
  baseUrl : string; apiKey : string; proxyUrl : string; timeoutMs : string;
  maxCaptureBytes : string; streamAssistant : bool; trace : bool; maxSteps : string;
  maxRepeatedToolCalls : string; maxToolCallsTotal : string; maxToolCallsPerTool : string;
  toolCallLimits : string; maxChars : string; keepLast : string; memoryContextMode : string;
  memoryIncludeStructured : bool; memoryIncludeCore : bool; memoryIncludeDaily : bool;
  memoryIncludeSession : bool; memoryDailyDays : string; memoryTotalCap : string;
  memorySearchQuery : string; memorySearchOrder : string; memorySearchUseIndex : bool;
  memorySearchCaseSensitive : bool; memorySearchFallbackToFiles : bool;
  memorySearchMaxResults : string; memorySearchMaxSnippetChars : string;
  memorySearchContextLines : string }.

(** ** Objects built by a sequence of conditional assignments *)

Abbreviation fields := (list (string * option value)).

(** [if (v !== undefined) o.k = v]. *)
Definition assign (o : obj value) (f : string * option value) : obj value :=
  match snd f with Some v => set (fst f) v o | None => o end.

Definition assign_all (l : fields) : obj value := fold_left assign l [].

(** An object literal whose absent values are [undefined]. *)
Definition literal (l : fields) : obj value := of_entries (map (fun f => (fst f, of_option (snd f))) l).

(** [if (s) o.k = s], a boolean, a number that may be absent. *)
Definition f_str (k s : string) : string * option value :=
  (k, if truthy_str s then Some (VString s) else None).
Definition f_bool (k : string) (b : bool) : string * option value := (k, Some (VBool b)).
Definition f_num (k : string) (n : option number) : string * option value := (k, VNumber <$> n).

(** ** workflowDefaults.ts *)

Definition parseNumber (raw : string) (min : Z) : option number :=
  let s := trim raw in
  if truthy_str s then
    let n := str_to_number s in
    if negb (is_finite n) || ltb n (int min) then None else Some n
  else None.

(** [WorkflowToolCallLimit]: a tool and its [max_calls]. *)
Abbreviation limit := (string * number)%type.

(** [if (existing) existing.max_calls = max_calls; else out.push(..)]. *)
Fixpoint upsert_limit (tool : string) (n : number) (out : list limit) : list limit :=
  match out with
  | [] => [(tool, n)]
  | (t, m) :: out => if bool_decide (t = tool) then (t, n) :: out else (t, m) :: upsert_limit tool n out
  end.

(** The text of a comma or line separated list of limits, cut into parts. *)
Definition limit_parts (s : string) : list string := trimmed_nonempty (split_runs is_comma_nl false s).

(** [tool=max_calls], the parts trimmed and the number converted; [None]
    without an equals sign after the first character. *)
Definition split_limit (p : string) : option limit :=
  match index_of "=" p with
  | None | Some O => None
  | Some eq => Some (trim (stake eq p), str_to_number (trim (sdrop (S eq) p)))
  end.

Definition good_limit (n : number) : bool := is_finite n && negb (ltb n (int 0)).

Definition lenient_part (out : list limit) (p : string) : list limit :=
  match split_limit p with
  | None => out
  | Some (tool, n) =>
      if negb (truthy_str tool) then out
      else if negb (good_limit n) then out
      else upsert_limit tool (math_floor n) out
  end.

Definition limit_of (tool : string) (n : number) : option limit :=
  if negb (truthy_str tool) then None
  else if negb (good_limit n) then None
  else Some (tool, math_floor n).

(** [record.max_calls ?? record.maxCalls ?? record.max ?? record.limit ?? NaN]. *)
Definition raw_limit (r : obj value) : value :=
  prop "max_calls" r ??? prop "maxCalls" r ??? prop "max" r ??? prop "limit" r ??? VNumber NaN.

Definition lenient_item (item : value) : option limit :=
  if negb (is_objectish item) then None
  else
    let record := match item with VObject o => o | _ => [] end in
    limit_of (trim (v_to_string (prop "tool" record ??? prop "name" record ??? VString "")))
      (v_to_number (raw_limit record)).

(** [v.startsWith("[") || v.startsWith("{")]. *)
Definition is_json_text (s : string) : bool := starts_with "[" s || starts_with "{" s.

Definition json_items (v : value) : list value := match v with VArray l => l | _ => [v] end.

Definition nonempty {A} (l : list A) : option (list A) := match l with [] => None | _ => Some l end.

Section json.
Context {J : Json}.

Definition parseToolCallLimits (raw : string) : option (list limit) :=
  let s := trim raw in
  if negb (truthy_str s) then None
  else if is_json_text s then
    match parse s with
    | Some v => nonempty (omap lenient_item (json_items v))
    | None => None
    end
  else nonempty (fold_left lenient_part (limit_parts s) []).

Definition limits_value (l : list limit) : value :=
  VArray (map (fun p => VObject [("tool", VString (fst p)); ("max_calls", VNumber (snd p))]) l).

Definition is_host (t : ToolMode) : bool := bool_decide (t = tools_host).

Definition default_fields (run : RunSettings) : fields :=
  [f_str "tools" (tool_name (tools run));
   ("host_policy", if is_host (tools run) then Some (VString (policy_name (hostPolicy run))) else None);
   f_str "automation_profile" (trim (automationProfile run));
   f_bool "yolo" (yolo run); f_bool "verbose" (verbose run);
   f_str "model" (model run); f_str "summary_model" (summaryModel run);
   f_num "summary_max_chars" (parseNumber (summaryMaxChars run) 0);
   f_str "base_url" (baseUrl run); f_str "api_key" (apiKey run); f_str "proxy" (proxyUrl run);
   f_num "timeout_ms" (parseNumber (timeoutMs run) 1);
   f_bool "stream_assistant" (streamAssistant run);
   f_num "max_capture_bytes" (parseNumber (maxCaptureBytes run) 0);
   f_num "max_steps" (parseNumber (maxSteps run) 0);
   f_num "max_repeated_tool_calls" (parseNumber (maxRepeatedToolCalls run) 0);
   f_num "max_tool_calls_total" (parseNumber (maxToolCallsTotal run) 0);
   f_num "max_tool_calls_per_tool" (parseNumber (maxToolCallsPerTool run) 0);
   ("tool_call_limits", limits_value <$> parseToolCallLimits (toolCallLimits run));
   f_num "max_chars" (parseNumber (maxChars run) 0);
   f_num "keep_last" (parseNumber (keepLast run) 0)]
  ++ (if is_host (tools run) then
        [f_str "memory_context_mode" (memoryContextMode run);
         f_bool "memory_include_structured" (memoryIncludeStructured run);
         f_bool "memory_include_core" (memoryIncludeCore run);
         f_bool "memory_include_daily" (memoryIncludeDaily run);
         f_bool "memory_include_session" (memoryIncludeSession run);
         f_num "memory_daily_days" (parseNumber (memoryDailyDays run) 0);
         f_num "memory_total_cap" (parseNumber (memoryTotalCap run) 0);
         f_str "memory_search_query" (memorySearchQuery run);
         f_bool "memory_search_use_index" (memorySearchUseIndex run);
         f_bool "memory_search_case_sensitive" (memorySearchCaseSensitive run);
         f_bool "memory_search_fallback_to_files" (memorySearchFallbackToFiles run);
         f_str "memory_search_order" (memorySearchOrder run);
         f_num "memory_search_max_results" (parseNumber (memorySearchMaxResults run) 0);
         f_num "memory_search_max_snippet_chars" (parseNumber (memorySearchMaxSnippetChars run) 0);
         f_num "memory_search_context_lines" (parseNumber (memorySearchContextLines run) 0)]
      else [])
  ++ [f_bool "trace" (trace run)].

Definition buildWorkflowDefaults (run : RunSettings) : obj value := assign_all (default_fields run).

(** ** The request of a direct run *)

Record Attachment := mkAttachment {
  att_path : string; att_name : option string; att_mime : option string; att_kind : option string }.

(** The exceptions of the mutation function before the request is sent (the
    text of a JSON error is left out). *)
Inductive LimitError :=
  | InvalidLimitsJson
  | NoEquals (part : string) | NoToolName (part : string) | BadLimit (part : string).

(** [trimmed.length === 0 ? undefined : Number.isFinite(n) && n >= 0 ? n : undefined]. *)
Definition parseNonNegativeNumber (raw : string) : option number :=
  let trimmed := trim raw in
  if negb (truthy_str trimmed) then None
  else let n := str_to_number trimmed in
       if is_finite n && geb n (int 0) then Some n else None.

(** [Number.isFinite(Number(s)) && Number(s) >= 0 ? Number(s) : undefined]. *)
Definition raw_nonneg (s : string) : option number :=
  let n := str_to_number s in if is_finite n && geb n (int 0) then Some n else None.

(** [Number.isFinite(Number(s)) ? Number(s) : d]. *)
Definition raw_finite (s : string) (d : Z) : number :=
  let n := str_to_number s in if is_finite n then n else int d.

Definition strict_item (item : value) : option limit :=
  let record := safeObject item in
  let toolSource := match prop "tool" record with
                    | VString t => t
                    | _ => default "" (as_string (prop "name" record))
                    end in
  limit_of (trim toolSource) (v_to_number (raw_limit record)).

Definition strict_part (out : list limit) (p : string) : result LimitError (list limit) :=
  match split_limit p with
  | None => Throw (NoEquals p)
  | Some (tool, n) =>
      if negb (truthy_str tool) then Throw (NoToolName p)
      else if negb (good_limit n) then Throw (BadLimit p)
      else Ok (upsert_limit tool (math_floor n) out)
  end.

Fixpoint strict_parts (out : list limit) (ps : list string) : result LimitError (list limit) :=
  match ps with
  | [] => Ok out
  | p :: ps => match strict_part out p with Ok out => strict_parts out ps | Throw e => Throw e end
  end.

Definition strict_limits (raw : string) : result LimitError (option (list limit)) :=
  let s := trim raw in
  if negb (truthy_str s) then Ok None
  else if is_json_text s then
    match parse s with
    | Some v => Ok (Some (omap strict_item (json_items v)))
    | None => Throw InvalidLimitsJson
    end
  else match strict_parts [] (limit_parts s) with
       | Ok out => Ok (nonempty out)
       | Throw e => Throw e
       end.

Definition memMode (mode : string) : string :=
  if bool_decide (mode = "search") || bool_decide (mode = "index") || bool_decide (mode = "salience")
  then mode else "files".

Definition memOrder (order : string) : string :=
  if bool_decide (order = "newest") || bool_decide (order = "oldest") || bool_decide (order = "ranked")
  then order else "ranked".

Definition opt_string (o : option string) : value :=
  match o with Some s => VString s | None => VUndefined end.

(** [input_files]. *)
Definition attachment_value (a : Attachment) : value :=
  VObject [("path", VString (att_path a)); ("name", opt_string (att_name a));
           ("mime", opt_string (att_mime a)); ("kind", opt_string (att_kind a))].

(** The hook's other arguments that the request uses. *)
Record RequestContext := mkContext {
  ctx_session : string; ctx_client : obj value; automationProfileValue : option string }.

Definition request_fields (run : RunSettings) (c : RequestContext) (prompt : string)
    (attachments : list Attachment) (limits : option (list limit)) : fields :=
  [("prompt", Some (VString prompt));
   f_str "session_id" (ctx_session c);
   f_bool "no_session" false;
   ("input_files", (fun l => VArray (map attachment_value l)) <$> nonempty attachments);
   ("client", Some (VObject (set "kind" (VString "webui") (ctx_client c))));
   ("tools", Some (VString (tool_name (tools run))));
   ("host_policy", if is_host (tools run) then Some (VString (policy_name (hostPolicy run))) else None);
   ("automation_profile", VString <$> automationProfileValue c);
   f_bool "yolo" (yolo run); f_bool "verbose" (verbose run);
   f_str "model" (model run);
   f_str "summary_model" (trim (summaryModel run));
   f_num "summary_max_chars" (raw_nonneg (summaryMaxChars run));
   f_str "base_url" (baseUrl run); f_str "api_key" (apiKey run);
   f_str "proxy" (trim (proxyUrl run));
   f_num "timeout_ms" (let n := str_to_number (timeoutMs run) in
                       if is_finite n && gtb n (int 0) then Some n else None);
   f_bool "stream_assistant" (streamAssistant run);
   f_num "max_capture_bytes" (raw_nonneg (maxCaptureBytes run));
   f_num "max_steps" (parseNonNegativeNumber (maxSteps run));
   f_num "max_repeated_tool_calls" (raw_nonneg (maxRepeatedToolCalls run));
   f_num "max_tool_calls_total" (parseNonNegativeNumber (maxToolCallsTotal run));
   f_num "max_tool_calls_per_tool" (parseNonNegativeNumber (maxToolCallsPerTool run));
   ("tool_call_limits", limits_value <$> limits);
   f_num "max_chars" (Some (raw_finite (maxChars run) 20000));
   f_num "keep_last" (Some (raw_finite (keepLast run) 16));
   f_bool "trace" (trace run)].

(** The assignments after the literal, for the host tools. *)
Definition memory_fields (run : RunSettings) : fields :=
  [("memory_context_mode", Some (VString (memMode (memoryContextMode run))));
   f_bool "memory_include_structured" (memoryIncludeStructured run);
   f_bool "memory_include_core" (memoryIncludeCore run);
   f_bool "memory_include_daily" (memoryIncludeDaily run);
   f_bool "memory_include_session" (memoryIncludeSession run);
   ("memory_daily_days", Some (of_option (VNumber <$> parseNonNegativeNumber (memoryDailyDays run))));
   ("memory_total_cap", Some (of_option (VNumber <$> parseNonNegativeNumber (memoryTotalCap run))));
   f_str "memory_search_query" (trim (memorySearchQuery run));
   f_bool "memory_search_use_index" (memorySearchUseIndex run);
   f_bool "memory_search_case_sensitive" (memorySearchCaseSensitive run);
   f_bool "memory_search_fallback_to_files" (memorySearchFallbackToFiles run);
   ("memory_search_order", let o := memOrder (memorySearchOrder run) in
                           if bool_decide (o = "ranked") then None else Some (VString o));
   ("memory_search_max_results",
      Some (of_option (VNumber <$> parseNonNegativeNumber (memorySearchMaxResults run))));
   ("memory_search_max_snippet_chars",
      Some (of_option (VNumber <$> parseNonNegativeNumber (memorySearchMaxSnippetChars run))));
   ("memory_search_context_lines",
      Some (of_option (VNumber <$> parseNonNegativeNumber (memorySearchContextLines run))))].

(** The object, once the limits are parsed. *)
Definition request_object (run : RunSettings) (c : RequestContext) (prompt : string)
    (attachments : list Attachment) (limits : option (list limit)) : obj value :=
  let req := literal (request_fields run c prompt attachments limits) in
  if is_host (tools run) then fold_left assign (memory_fields run) req else req.

Definition build_request (run : RunSettings) (c : RequestContext) (prompt : string)
    (attachments : list Attachment) : result LimitError (obj value) :=
  match strict_limits (toolCallLimits run) with
  | Throw e => Throw e
  | Ok limits => Ok (request_object run c prompt attachments limits)
  end.
End json.

(** ** Facts *)

(** A setting whose text is blank. *)
Definition blank (s : string) : bool := negb (truthy_str (trim s)).

Lemma str_to_number_trim s : str_to_number (trim s) = str_to_number s.
Proof. unfold str_to_number. by rewrite trim_idem. Qed.

Lemma blank_number s : blank s = true -> str_to_number s = int 0.
Proof.
  unfold blank. rewrite negb_true_iff, truthy_str_false. intros H.
  rewrite <- str_to_number_trim, H. done.
Qed.

Lemma nonneg_ltb n : is_finite n = true -> geb n (int 0) = negb (ltb n (int 0)).
Proof.
  unfold geb. destruct n as [| | |k]; try done. intros _. simpl.
  by rewrite Z.ltb_antisym, negb_involutive.
Qed.

Lemma good_limit_geb n : good_limit n = is_finite n && geb n (int 0).
Proof. unfold good_limit. destruct (is_finite n) eqn:E; [|done]. by rewrite nonneg_ltb. Qed.

Lemma parseNumber_0 s : parseNumber s 0 = parseNonNegativeNumber s.
Proof.
  unfold parseNumber, parseNonNegativeNumber. destruct (truthy_str (trim s)); [|done]. cbn [negb].
  destruct (is_finite (str_to_number (trim s))) eqn:E; [|done].
  rewrite nonneg_ltb by done. by destruct (ltb _ _).
Qed.

Lemma raw_nonneg_spec s : raw_nonneg s = if blank s then Some (int 0) else parseNonNegativeNumber s.
Proof.
  unfold raw_nonneg, parseNonNegativeNumber, blank. rewrite str_to_number_trim.
  destruct (negb (truthy_str (trim s))) eqn:E; [|done]. by rewrite blank_number.
Qed.

(** Reading back what was assigned. *)
Lemma prop_set k k' v o : prop k (set k' v o) = if bool_decide (k = k') then v else prop k o.
Proof. unfold prop. rewrite get_set. by case_bool_decide. Qed.

Lemma prop_fold_assign k (l : fields) o :
  NoDup (map fst l) ->
  prop k (fold_left assign l o) = match default None (get k l) with Some v => v | None => prop k o end.
Proof.
  revert o. induction l as [|[k' v] l IH]; intros o; [done|]. cbn [map fst fold_left get].
  intros [Hn Hnd]%NoDup_cons. rewrite IH by done. unfold assign. cbn [fst snd].
  destruct (decide (k = k')) as [->|Hne].
  - rewrite (bool_decide_true (k' = k')) by done.
    assert (get k' l = None) as -> by (by apply get_none). simpl.
    destruct v; [|done]. by rewrite prop_set, bool_decide_true.
  - rewrite (bool_decide_false (k = k')) by done.
    destruct (default None (get k l)); [done|].
    destruct v; [|done]. by rewrite prop_set, bool_decide_false.
Qed.

Lemma prop_assign_all k l :
  NoDup (map fst l) -> prop k (assign_all l) = of_option (default None (get k l)).
Proof.
  intros H. unfold assign_all. rewrite prop_fold_assign by done.
  by destruct (default None (get k l)).
Qed.

Lemma prop_literal k l :
  NoDup (map fst l) -> prop k (literal l) = of_option (default None (get k l)).
Proof.
  intros H. unfold prop, literal. rewrite get_of_entries by (unfold wf, keys; by rewrite map_map).
  clear H. induction l as [|[k' v] l IH]; [done|]. cbn [map get fst snd]. by case_bool_decide.
Qed.

Section agree.
Context {J : Json}.

Lemma default_keys run : NoDup (map fst (default_fields run)).
Proof. unfold default_fields. destruct (is_host (tools run)); cbn [app map fst f_str f_bool f_num]; by_compute. Qed.

Lemma request_keys run c p a l : NoDup (map fst (request_fields run c p a l)).
Proof. unfold request_fields. cbn [map fst f_str f_bool f_num]. by_compute. Qed.

Lemma memory_keys run : NoDup (map fst (memory_fields run)).
Proof. unfold memory_fields. cbn [map fst f_str f_bool f_num]. by_compute. Qed.

(** A property of the request: from the memory assignments, else from the
    literal. *)
Lemma prop_request run c p a req :
  build_request run c p a = Ok req ->
  exists limits, strict_limits (toolCallLimits run) = Ok limits /\
    forall k, prop k req =
      of_option (match (if is_host (tools run) then default None (get k (memory_fields run)) else None) with
                 | Some v => Some v
                 | None => default None (get k (request_fields run c p a limits))
                 end).
Proof.
  unfold build_request. destruct (strict_limits (toolCallLimits run)) as [limits|e]; [|done].
  intros Hreq. injection Hreq as <-. exists limits. split; [done|]. intros k. unfold request_object.
  destruct (is_host (tools run)).
  - rewrite prop_fold_assign by apply memory_keys. rewrite prop_literal by apply request_keys.
    by destruct (default None (get k (memory_fields run))).
  - by rewrite prop_literal by apply request_keys.
Qed.

(** The settings that a workflow's defaults and a direct run always agree on. *)
Definition same_keys : list string :=
  ["tools"; "host_policy"; "yolo"; "verbose"; "model"; "base_url"; "api_key"; "stream_assistant";
   "max_steps"; "max_tool_calls_total"; "max_tool_calls_per_tool"; "trace";
   "memory_include_structured"; "memory_include_core"; "memory_include_daily";
   "memory_include_session"; "memory_daily_days"; "memory_total_cap"; "memory_search_use_index";
   "memory_search_case_sensitive"; "memory_search_fallback_to_files"; "memory_search_max_results";
   "memory_search_max_snippet_chars"; "memory_search_context_lines"].

(** The ones whose blank text is read as zero by a direct run only. *)
Definition blank_zero_keys (run : RunSettings) : list (string * string) :=
  [("summary_max_chars", summaryMaxChars run); ("max_capture_bytes", maxCaptureBytes run);
   ("max_repeated_tool_calls", maxRepeatedToolCalls run)].

(** The ones for which a direct run has a fallback, meant for a missing
    value. *)
Definition fallback_keys (run : RunSettings) : list (string * string * Z) :=
  [("max_chars", maxChars run, 20000); ("keep_last", keepLast run, 16)].

Lemma raw_finite_spec s d :
  VNumber (raw_finite s d) =
    if blank s then VNumber (int 0)
    else match parseNonNegativeNumber s with
         | Some n => VNumber n
         | None => if is_finite (str_to_number s) then VNumber (str_to_number s) else VNumber (int d)
         end.
Proof.
  unfold raw_finite, parseNonNegativeNumber. rewrite str_to_number_trim. fold (blank s).
  destruct (blank s) eqn:E; [by rewrite blank_number|].
  destruct (is_finite (str_to_number s)); [|done]. cbn [andb]. by destruct (geb _ _).
Qed.

(** Name the values of the fields, so that a lookup only computes on keys. *)
Ltac name_values :=
  unfold memory_fields, f_num, f_str, f_bool;
  repeat match goal with
  | |- context [parseNonNegativeNumber ?x] => generalize (parseNonNegativeNumber x); intro
  | |- context [parseNumber ?x ?m] => generalize (parseNumber x m); intro
  | |- context [raw_finite ?x ?d] => generalize (raw_finite x d); intro
  | |- context [memMode ?x] => generalize (memMode x); intro
  | |- context [memOrder ?x] => generalize (memOrder x); intro
  | |- context [trim ?x] => generalize (trim x); intro
  | |- context [str_to_number ?x] => generalize (str_to_number x); intro
  | |- context [parseToolCallLimits ?x] => generalize (parseToolCallLimits x); intro
  end.

Lemma fallback_value s d :
  VNumber (raw_finite s d) =
    if blank s then VNumber (int 0)
    else match of_option (VNumber <$> parseNonNegativeNumber s) with
         | VUndefined => VNumber (if is_finite (str_to_number s) then str_to_number s else int d)
         | v => v
         end.
Proof.
  rewrite raw_finite_spec. destruct (blank s); [reflexivity|].
  destruct (parseNonNegativeNumber s); [reflexivity|]. simpl.
  by destruct (is_finite (str_to_number s)).
Qed.

(** A workflow's defaults and the request of a direct run are computed by
    two functions from the same settings; for every settings that a direct run
    accepts they agree on the listed properties, and on the remaining numbers
    they differ exactly like this: a blank limit is absent from the defaults
    and zero in the request, and the request's fallbacks (20000 characters, 16
    messages) are reached only by text that is not a number, never by a blank
    setting. *)
Theorem defaults_vs_request run c p a req :
  build_request run c p a = Ok req ->
  let d := buildWorkflowDefaults run in
  Forall (fun k => prop k d = prop k req) same_keys /\
  Forall (fun '(k, s) => prop k req = if blank s then VNumber (int 0) else prop k d)
    (blank_zero_keys run) /\
  Forall (fun '(k, s, dflt) =>
      prop k req =
        if blank s then VNumber (int 0)
        else match prop k d with
             | VUndefined => VNumber (if is_finite (str_to_number s) then str_to_number s else int dflt)
             | v => v
             end) (fallback_keys run).
Proof.
  intros Hreq d. destruct (prop_request _ _ _ _ _ Hreq) as (limits & _ & Hp).
  assert (Hd : forall k, prop k d = of_option (default None (get k (default_fields run))))
    by (intros k; apply prop_assign_all, default_keys).
  unfold default_fields, request_fields, is_host in Hp, Hd.
  rewrite ?raw_nonneg_spec in Hp. split_and!.
  - eapply Forall_impl; [|intros k H; rewrite Hd, Hp; exact H]. clear Hd Hp.
    rewrite !parseNumber_0. destruct (tools run); name_values;
      repeat (apply List.Forall_cons; [reflexivity|]); apply List.Forall_nil.
  - repeat (apply List.Forall_cons; [rewrite Hd, Hp|]); [..|apply List.Forall_nil]; clear Hd Hp;
      rewrite !parseNumber_0; destruct (tools run); name_values;
      repeat match goal with |- context [blank ?x] => destruct (blank x) end; reflexivity.
  - repeat (apply List.Forall_cons; [|]); [..|apply List.Forall_nil].
    + assert (prop "max_chars" req = VNumber (raw_finite (maxChars run) 20000)) as ->
        by (rewrite Hp; clear Hd Hp; destruct (tools run); name_values; reflexivity).
      assert (prop "max_chars" d = of_option (VNumber <$> parseNonNegativeNumber (maxChars run))) as ->
        by (rewrite Hd; clear Hd Hp; rewrite !parseNumber_0; destruct (tools run); name_values; reflexivity).
      apply fallback_value.
    + assert (prop "keep_last" req = VNumber (raw_finite (keepLast run) 16)) as ->
        by (rewrite Hp; clear Hd Hp; destruct (tools run); name_values; reflexivity).
      assert (prop "keep_last" d = of_option (VNumber <$> parseNonNegativeNumber (keepLast run))) as ->
        by (rewrite Hd; clear Hd Hp; rewrite !parseNumber_0; destruct (tools run); name_values; reflexivity).
      apply fallback_value.
Qed.
End agree.

(** ** Tool call limits *)

Section limits.
Context {J : Json}.

(** An item whose name, if it gives one, is a string. *)
Definition named (item : value) : bool :=
  match item with
  | VObject o =>
      match prop "tool" o with
      | VString _ => true
      | t => nullish t && match prop "name" o with VString _ => true | n => nullish n end
      end
  | _ => true
  end.

(** A limit as the daemon takes it: a name and a whole number. *)
Definition limit_ok (l : limit) : Prop :=
  trim (fst l) = fst l /\ fst l <> "" /\ exists z, 0 <= z /\ snd l = int z.

Lemma floor_good n : good_limit n = true -> exists z, 0 <= z /\ math_floor n = int z.
Proof.
  unfold good_limit. destruct n as [| | |k]; try done. intros H.
  exists (k / scale). split; [|done]. simpl in H. apply negb_true_iff, Z.ltb_ge in H.
  apply Z.div_pos; [lia|apply scale_pos].
Qed.

Lemma limit_of_ok t n l : limit_of (trim t) n = Some l -> limit_ok l.
Proof.
  unfold limit_of. destruct (truthy_str (trim t)) eqn:Et; [|done].
  destruct (good_limit n) eqn:Eg; [|done]. intros [= <-].
  split; [apply trim_idem|]. split; [by apply truthy_str_true|]. by apply floor_good.
Qed.

Lemma strict_lenient_item item : named item = true -> lenient_item item = strict_item item.
Proof.
  unfold lenient_item, strict_item, named.
  destruct item as [| |b|x|s|l|o]; try done.
  change (safeObject (VObject o)) with o. unfold coalesce at 1 2.
  destruct (prop "tool" o); try done; simpl; destruct (prop "name" o); done.
Qed.

Lemma strict_lenient_items l :
  forallb named l = true -> omap lenient_item l = omap strict_item l.
Proof.
  induction l as [|x l IH]; [done|]. cbn [forallb]. intros [Hx Hn]%andb_true_iff.
  unfold omap in *. cbn [list_omap]. rewrite strict_lenient_item by done. by rewrite IH.
Qed.

Lemma lenient_strict_parts ps out out' :
  strict_parts out ps = Ok out' -> fold_left lenient_part ps out = out'.
Proof.
  revert out. induction ps as [|p ps IH]; intros out; cbn [strict_parts fold_left]; [by intros [=]|].
  unfold strict_part, lenient_part at 2. destruct (split_limit p) as [[t n]|]; [|done].
  destruct (truthy_str t); [|done]. destruct (good_limit n); [|done]. cbn [negb]. apply IH.
Qed.

Lemma upsert_ok t n out : limit_ok (t, n) -> Forall limit_ok out -> Forall limit_ok (upsert_limit t n out).
Proof.
  intros Hl. induction 1 as [|[t' m] out Hx Hout IH]; simpl; [by constructor|].
  case_bool_decide as E; constructor; try done. by rewrite E.
Qed.

Lemma upsert_keys t n out :
  NoDup (map fst out) -> NoDup (map fst (upsert_limit t n out)) /\
  forall x, x ∈ map fst (upsert_limit t n out) -> x = t \/ x ∈ map fst out.
Proof.
  induction out as [|[t' m] out IH]; cbn [upsert_limit map fst]; intros Hnd.
  { split; [apply NoDup_singleton|]. set_solver. }
  apply NoDup_cons in Hnd as [Hn Hnd]. case_bool_decide as E; cbn [map fst].
  { split; [by constructor|]. set_solver. }
  destruct (IH Hnd) as [H1 H2]. split; [|set_solver]. constructor; [|done].
  intros [->|Hin]%H2; done.
Qed.

Lemma strict_parts_ok ps out out' :
  Forall limit_ok out -> NoDup (map fst out) -> strict_parts out ps = Ok out' ->
  Forall limit_ok out' /\ NoDup (map fst out').
Proof.
  revert out. induction ps as [|p ps IH]; intros out Hok Hnd; cbn [strict_parts]; [by intros [= <-]|].
  unfold strict_part, split_limit.
  destruct (index_of "=" p) as [[|i]|]; [done| |done].
  destruct (truthy_str (trim (stake (S i) p))) eqn:Et; [|done].
  destruct (good_limit (str_to_number (trim (sdrop (S (S i)) p)))) eqn:Eg; [|done]. cbn [negb].
  apply IH; [|by apply upsert_keys]. apply upsert_ok; [|done].
  split; [apply trim_idem|]. split; [by apply truthy_str_true|]. by apply floor_good.
Qed.

(** Tool call limits that a direct run accepts (it refuses malformed ones)
    are read in the same way for a workflow's defaults, which skip malformed
    ones, provided the JSON form names tools by strings; and every limit that
    is read has a trimmed non-empty tool name and a non-negative whole number,
    with no tool twice in the list form. *)
Theorem tool_limits_agree raw r :
  strict_limits raw = Ok r ->
  (forall v, is_json_text (trim raw) = true -> parse (trim raw) = Some v ->
     forallb named (json_items v) = true) ->
  parseToolCallLimits raw = match r with Some l => nonempty l | None => None end /\
  Forall limit_ok (default [] r) /\
  (is_json_text (trim raw) = false -> NoDup (map fst (default [] r))).
Proof.
  unfold strict_limits, parseToolCallLimits.
  destruct (truthy_str (trim raw)); cbn [negb];
    [|intros [= <-] _; split; [done|]; split; [apply List.Forall_nil|intros _; apply NoDup_nil_2]].
  destruct (is_json_text (trim raw)) eqn:Ej.
  - destruct (parse (trim raw)) as [v|] eqn:Ev; [|done]. intros Hr Hn. injection Hr as <-.
    specialize (Hn v eq_refl eq_refl). split_and!; [| |done].
    + by rewrite strict_lenient_items.
    + apply Forall_forall. intros l (x & _ & Hx)%list_elem_of_omap. by apply limit_of_ok in Hx.
  - destruct (strict_parts [] (limit_parts (trim raw))) as [out|e] eqn:Ep; [|done].
    intros [= <-] _. rewrite (lenient_strict_parts _ _ _ Ep).
    destruct (strict_parts_ok _ _ _ (List.Forall_nil limit_ok) NoDup_nil_2 Ep) as [Hok Hnd].
    by destruct out.
Qed.
End limits.

(** ** Concrete settings *)

Definition sample_settings : RunSettings :=
  mkSettings tools_host false full " strict " true "m1" "" " " "http://api" "key" "" "30000" "4096"
    true false "12" "" "3" "x" "bash=3, read = 7.9,bash=5" "" "8" "search" true true false true "2" ""
    "todo" "newest" true false true "5" "" "1".

Definition sample_request : obj value :=
  match @build_request text_json sample_settings (mkContext "s1" [] None) "hi" [] with
  | Ok req => req
  | Throw _ => []
  end.

Lemma defaults_vs_request_witness :
  @build_request text_json sample_settings (mkContext "s1" [] None) "hi" [] = Ok sample_request /\
  prop "max_steps" sample_request = VNumber (int 12) /\
  (* the blank character limit: the daemon's default for a workflow, zero for a direct run *)
  prop "max_chars" (@buildWorkflowDefaults text_json sample_settings) = VUndefined /\
  prop "max_chars" sample_request = VNumber (int 0) /\
  Forall (fun k => prop k (@buildWorkflowDefaults text_json sample_settings) = prop k sample_request)
    same_keys.
Proof.
  assert (H : @build_request text_json sample_settings (mkContext "s1" [] None) "hi" [] = Ok sample_request)
    by (by vm_compute).
  split; [exact H|]. split; [by vm_compute|]. split; [by vm_compute|]. split; [by vm_compute|].
  exact (proj1 (@defaults_vs_request text_json _ _ _ _ _ H)).
Defined.

Lemma tool_limits_agree_witness :
  @strict_limits text_json "bash=3, read = 7.9,bash=5" = Ok (Some [("bash", int 5); ("read", int 7)]) /\
  @parseToolCallLimits text_json "bash=3, read = 7.9,bash=5" = Some [("bash", int 5); ("read", int 7)] /\
  @strict_limits text_json "bash=3,oops" = Throw (NoEquals "oops") /\
  @parseToolCallLimits text_json "bash=3,oops" = Some [("bash", int 3)].
Proof.
  split; [by vm_compute|]. split; [|by split; vm_compute].
  apply (@tool_limits_agree text_json _ (Some [("bash", int 5); ("read", int 7)])); [by vm_compute|].
  intros v H. by vm_compute in H.
Defined.
