(* ===== verification/RunExecution.v ===== *)
(** Starting runs, src/ui/src/hooks/useRunExecution.ts: the mutation that
    sends a run, what its success and failure do to the interface, and the
    queue of prompts waiting for the active job.  The interface fields that
    the job watcher also writes are its record [JobStreaming.ui]. *)
From S2P Require Import Prelude JsNumber JsString JsValue JsonUtils JsonText JobStore Caches JobStreaming RunRequest.

(** ** Data *)

Record QueuedRun := mkQueued { q_prompt : string; q_attachments : list Attachment; queued_unix_ms : number }.

(** What the daemon answers: the result of a synchronous run, or the
    acknowledgement of an asynchronous one. *)
Record AsyncAck := mkAck { ack_ok : bool; ack_job_id : option string; ack_error : option string }.

Inductive Outcome :=
  | Sync (out : value)
  | Async (job : AsyncAck)
  | Rejected (message : string).

(** The remaining arguments of the hook. *)
Record ExecArgs := mkExecArgs {
  settings : RunSettings; context : RequestContext; storeKey : string; now : number }.

(** A run in flight: its prompt and attachments, and the queue entry it was
    taken from. *)
Record flight := mkFlight {
  f_prompt : string; f_attachments : list Attachment; f_origin : option QueuedRun }.

Record state := mkState {
  page : ui;                        (* shared with the job watcher *)
  promptText : string; composerNonce : nat; lastRun : string;
  runQueue : list QueuedRun;
  dequeueInFlight : bool;           (* dequeueInFlightRef *)
  settling : bool;                  (* the [finally] of a queued run is due *)
  pending : list flight;            (* mutations in flight, oldest first *)
  latestPending : bool;             (* run.isPending: the one started last has not settled *)
  busy : bool;                      (* [activeJobId || run.isPending] as of the last render *)
  accepted : list QueuedRun;        (* history: the initial queue and what was enqueued *)
  finished : list (QueuedRun * Outcome)   (* history: queued runs whose mutation did not reject, with the answer *)
}.

Inductive input :=
  | DirectRun (prompt : string) (attachments : list Attachment)   (* handleDirectRunRequest *)
  | Render                                                        (* a render and its effect *)
  | Settle (i : nat) (r : Outcome)                                (* the i-th mutation in flight settles *)
  | Finally                                                       (* the [finally] of a queued run *)
  | PageChange (u : ui).                                          (* another hook writes the page *)

Section exec.
Context {J : Json} (a : ExecArgs).

(** ** The mutation *)

(** [String(error)] of the errors thrown while the request is built; the
    engine's text of a JSON syntax error is left out. *)
Definition limit_message (e : LimitError) : string :=
  match e with
  | InvalidLimitsJson => "Error: Invalid tool call limits JSON"
  | NoEquals p => "Error: Invalid tool call limit (expected tool=max_calls): " ++s p
  | NoToolName p => "Error: Invalid tool call limit tool name: " ++s p
  | BadLimit p => "Error: Invalid tool call limit value: " ++s p
  end.

(** The mutation function: it rejects before sending when the request cannot
    be built, otherwise it settles as the daemon answers. *)
Definition mutationFn (f : flight) (answer : Outcome) : Outcome :=
  match build_request (settings a) (context a) (f_prompt f) (f_attachments f) with
  | Throw e => Rejected (limit_message e)
  | Ok _ => answer
  end.

(** The watched entry of a run that has just started. *)
Definition started_entry (jobId : string) : value :=
  VObject [("job_id", VString jobId); ("cursor", VNumber (int 0)); ("started_unix_ms", VNumber (now a))].

(** [setJobError(null); setJobNotice(null); setJobStatus(null); setJobUpdatedMs(null)]. *)
Definition clear_job (u : ui) : ui :=
  setJobUpdatedMs None (setJobStatus None (setJobNotice None (setJobError None u))).

(** [onSuccess] and [onError]: the page after the mutation of [prompt]; the
    boolean tells whether the composer is reset and the prompt remembered. *)
Definition on_settled (prompt : string) (r : Outcome) (u : ui) : ui * bool :=
  match r with
  | Sync out =>
      (refetch (clear_job (setLiveEvents [] (setResult (Some out)
         (setLastCompletedPrompt prompt u)))), true)
  | Async job =>
      let jobId := default "" (ack_job_id job) in
      if negb (ack_ok job) || negb (truthy_str jobId) then
        (setJobNotice None (setJobError (Some (default "failed to start async job" (ack_error job))) u), false)
      else
        let u := setCursor (int 0) (setLiveEvents [] (clear_job u)) in
        let u := setJobStatus (Some "queued") (setActiveJobId (Some jobId) u) in
        (if truthy_str (trim (ctx_session (context a)))
         then writeJobsBySession (set (storeKey a) (started_entry jobId)) u else u, true)
  | Rejected msg => (setJobNotice None (setJobError (Some ("run failed: " ++s msg)) u), false)
  end.

(** ** The queue *)

Definition set_page (u : ui) (s : state) : state :=
  mkState u (promptText s) (composerNonce s) (lastRun s) (runQueue s) (dequeueInFlight s) (settling s)
    (pending s) (latestPending s) (busy s) (accepted s) (finished s).

Definition enqueueRun (prompt : string) (attachments : list Attachment) (s : state) : state :=
  let trimmed := trim prompt in
  if negb (truthy_str trimmed) && (length attachments =? 0)%nat then
    set_page (setJobNotice (Some "prompt or attachment required") (page s)) s
  else
    let q := mkQueued trimmed attachments (now a) in
    mkState (setJobNotice (Some "queued") (page s)) "" (S (composerNonce s)) (lastRun s)
      (runQueue s ++ [q]) (dequeueInFlight s) (settling s) (pending s) (latestPending s) (busy s)
      (accepted s ++ [q]) (finished s).

(** [run.mutate] and [run.mutateAsync]. *)
Definition mutate (f : flight) (s : state) : state :=
  mkState (page s) (promptText s) (composerNonce s) (lastRun s) (runQueue s) (dequeueInFlight s)
    (settling s) (pending s ++ [f]) true (busy s) (accepted s) (finished s).

Definition is_busy (s : state) : bool :=
  truthy_str (default "" (activeJobId (page s))) || latestPending s.

(** The effect of a render. *)
Definition dequeue (s : state) : state :=
  if is_busy s then s
  else match runQueue s with
       | [] => s
       | next :: rest =>
           if dequeueInFlight s then s
           else mutate (mkFlight (q_prompt next) (q_attachments next) (Some next))
                  (mkState (page s) (promptText s) (composerNonce s) (lastRun s) rest true (settling s)
                     (pending s) (latestPending s) (busy s) (accepted s) (finished s))
       end.

Definition render (s : state) : state :=
  dequeue (mkState (page s) (promptText s) (composerNonce s) (lastRun s) (runQueue s)
    (dequeueInFlight s) (settling s) (pending s) (latestPending s) (is_busy s) (accepted s) (finished s)).

Definition rejection (r : Outcome) : option string :=
  match r with Rejected msg => Some msg | _ => None end.

(** The i-th mutation settles: the mutation's callbacks, then, for a queued
    run, the rejection handler of [mutateAsync]. *)
Definition settle (i : nat) (answer : Outcome) (s : state) : state :=
  match pending s !! i with
  | None => s
  | Some f =>
      let r := mutationFn f answer in
      let '(u, started) := on_settled (f_prompt f) r (page s) in
      let last := (S i =? length (pending s))%nat in
      let '(u, queue, fin) :=
        match f_origin f, rejection r with
        | Some next, Some msg =>
            (setJobNotice (Some ("queued run failed: " ++s msg)) u, next :: runQueue s, finished s)
        | Some next, None => (u, runQueue s, finished s ++ [(next, r)])
        | None, _ => (u, runQueue s, finished s)
        end in
      mkState u (promptText s) (if started then S (composerNonce s) else composerNonce s)
        (if started then f_prompt f else lastRun s) queue (dequeueInFlight s)
        (settling s || bool_decide (is_Some (f_origin f)))
        (delete i (pending s)) (latestPending s && negb last) (busy s) (accepted s) fin
  end.

Definition step (s : state) (i : input) : state :=
  match i with
  | DirectRun prompt attachments =>
      if busy s then enqueueRun prompt attachments s
      else mutate (mkFlight prompt attachments None) s
  | Render => render s
  | Settle i r => settle i r s
  | Finally =>
      if settling s then
        mkState (page s) (promptText s) (composerNonce s) (lastRun s) (runQueue s) false false
          (pending s) (latestPending s) (busy s) (accepted s) (finished s)
      else s
  | PageChange u => set_page u s
  end.

Definition run (s : state) (ins : list input) : state := fold_left step ins s.

(** The page as first rendered, with the stored queue. *)
Definition init (u : ui) (queue : list QueuedRun) : state :=
  mkState u "" 0 "" queue false false [] false (truthy_str (default "" (activeJobId u))) queue [].
End exec.

(** ** Facts *)

Section facts.
Context {J : Json} (a : ExecArgs).
#[local] Abbreviation step := (step a).
#[local] Abbreviation run := (run a).
#[local] Abbreviation settle := (settle a).

(** The queue entries whose mutation is in flight. *)
Definition in_flight (s : state) : list QueuedRun := omap f_origin (pending s).

Record inv (s : state) : Prop := {
  inv_order : map fst (finished s) ++ in_flight s ++ runQueue s = accepted s;
  inv_one : (length (in_flight s) <= 1)%nat;
  inv_ref : dequeueInFlight s = true <-> in_flight s <> [] \/ settling s = true;
  inv_settling : settling s = true -> in_flight s = [];
  inv_latest : latestPending s = true -> pending s <> [];
  inv_answers : Forall (fun h => rejection (snd h) = None) (finished s);
}.

Lemma in_flight_split s i f :
  pending s !! i = Some f ->
  omap f_origin (pending s) =
    omap f_origin (take i (pending s)) ++ option_list (f_origin f) ++ omap f_origin (drop (S i) (pending s))
  /\ omap f_origin (delete i (pending s)) =
    omap f_origin (take i (pending s)) ++ omap f_origin (drop (S i) (pending s)).
Proof.
  intros Hf. rewrite <- (take_drop_middle _ _ _ Hf) at 1. rewrite omap_app, delete_take_drop, omap_app.
  split; [|done]. f_equal. cbn [omap list_omap]. by destruct (f_origin f).
Qed.

Lemma init_inv u q : inv (init u q).
Proof. split; simpl; try done; try lia. naive_solver. Qed.

Lemma in_flight_mutate f s : in_flight (mutate f s) = in_flight s ++ option_list (f_origin f).
Proof. unfold in_flight, mutate. cbn [pending]. rewrite omap_app. cbn. by destruct (f_origin f). Qed.

Lemma mutate_direct_inv p at' s : inv s -> inv (mutate (mkFlight p at' None) s).
Proof.
  intros [H1 H2 H3 H4 H5 H6].
  split; rewrite ?in_flight_mutate; cbn [f_origin option_list]; rewrite ?app_nil_r; try done.
  intros _ Hn. by apply app_nil in Hn as [_ ?].
Qed.

Lemma enqueue_inv p at' s : inv s -> inv (enqueueRun a p at' s).
Proof.
  intros [H1 H2 H3 H4 H5 H6]. unfold enqueueRun, set_page. case_match; split; try done.
  unfold in_flight in *. cbn [finished pending runQueue accepted]. by rewrite <- H1, !app_assoc.
Qed.

Lemma dequeue_inv s : inv s -> inv (dequeue s).
Proof.
  intros H. pose proof H as [H1 H2 H3 H4 H5 H6]. unfold dequeue.
  destruct (is_busy s); [done|]. destruct (runQueue s) as [|q rest] eqn:Eq; [done|].
  destruct (dequeueInFlight s) eqn:Ed; [done|].
  assert (Hn : in_flight s = []) by (destruct (in_flight s); [done|]; destruct H3; naive_solver).
  assert (Hs : settling s = false) by (destruct (settling s); naive_solver).
  match goal with |- inv (mutate ?f ?t) => assert (Hf : in_flight (mutate f t) = [q]) end.
  { rewrite in_flight_mutate. unfold in_flight in *. cbn [pending]. by rewrite Hn. }
  split; rewrite ?Hf; cbn [mutate finished runQueue accepted dequeueInFlight settling pending]; try done.
  - by rewrite <- H1, Hn.
  - split; [by left|done].
  - by rewrite Hs.
  - intros _ E. by apply app_nil in E as [_ ?].
Qed.

Lemma settle_inv i r s : inv s -> inv (settle i r s).
Proof.
  intros [H1 H2 H3 H4 H5 H6]. unfold RunExecution.settle.
  destruct (pending s !! i) as [f|] eqn:Ef; [|done].
  destruct (on_settled _ _ _ _) as [u started].
  destruct (in_flight_split s i f Ef) as [Hbefore Hafter]. unfold in_flight in *.
  assert (Hlast : latestPending s && negb (S i =? length (pending s))%nat = true -> delete i (pending s) <> []).
  { intros [_ Hl]%andb_true_iff Hd. apply (f_equal length) in Hd. apply lookup_lt_Some in Ef.
    rewrite length_delete in Hd by (by apply lookup_lt_is_Some). simpl in Hd.
    apply negb_true_iff, Nat.eqb_neq in Hl. lia. }
  destruct (f_origin f) as [q|] eqn:Eo.
  - assert (Hempty : omap f_origin (delete i (pending s)) = [] /\ omap f_origin (pending s) = [q]).
    { rewrite Hafter, Hbefore in *. simpl in *. rewrite !length_app in H2. simpl in H2.
      destruct (omap f_origin (take i (pending s))), (omap f_origin (drop (S i) (pending s)));
        simpl in *; try lia. done. }
    destruct Hempty as [Hd Hp]. rewrite Hp in *.
    assert (Hq : dequeueInFlight s = true) by (apply H3; by left).
    destruct (rejection (mutationFn a f r)) eqn:Er; split; simpl; unfold in_flight; simpl; rewrite ?Hd, ?Hq; try done;
      try (simpl; lia); rewrite ?map_app; try (by rewrite <- H1, <- ?app_assoc); try (by apply Forall_app; auto); try (rewrite orb_true_r; naive_solver).
  - rewrite Hbefore in *. simpl in *. rewrite <- Hafter in *.
    split; simpl; unfold in_flight; simpl; rewrite ?orb_false_r; done.
Qed.

Lemma step_inv s i : inv s -> inv (step s i).
Proof.
  intros H. destruct i; cbn [RunExecution.step].
  - destruct (busy s); [by apply enqueue_inv|by apply mutate_direct_inv].
  - apply dequeue_inv. by destruct H.
  - by apply settle_inv.
  - destruct (settling s) eqn:Es; [|done]. destruct H as [H1 H2 H3 H4 H5 H6].
    split; simpl; try done. unfold in_flight in *. simpl. rewrite (H4 Es). naive_solver.
  - by destruct H.
Qed.

Lemma run_inv s ins : inv s -> inv (run s ins).
Proof. revert s. induction ins as [|i ins IH]; [done|]. intros s H. by apply IH, step_inv. Qed.

Lemma accepted_grows s ins : exists l, accepted (run s ins) = accepted s ++ l.
Proof.
  revert s. induction ins as [|i ins IH]; intros s; [exists []; by rewrite app_nil_r|].
  destruct (IH (step s i)) as [l Hl]. cbn [RunExecution.run fold_left]. unfold RunExecution.run in Hl. rewrite Hl.
  assert (Hi : exists k, accepted (step s i) = accepted s ++ k).
  { destruct i; simpl; unfold enqueueRun, mutate, render, dequeue, RunExecution.settle, set_page;
      repeat case_match; simpl; try (by exists []; rewrite app_nil_r); by eexists. }
  destruct Hi as [k Hk]. exists (k ++ l). by rewrite Hk, app_assoc.
Qed.

(** The daemon acknowledges an asynchronous run without starting it. *)
Definition refused (r : Outcome) : Prop :=
  match r with Async job => ack_ok job = false \/ ack_job_id job = None \/ ack_job_id job = Some "" | _ => False end.

Lemma settle_queued s i f q answer :
  pending s !! i = Some f -> f_origin f = Some q ->
  let r := mutationFn a f answer in let s' := settle i answer s in
  match r with
  | Rejected m => runQueue s' = q :: runQueue s /\ finished s' = finished s /\ jobNotice (page s') = Some ("queued run failed: " ++s m)
  | _ => runQueue s' = runQueue s /\ finished s' = finished s ++ [(q, r)]
  end
  /\ (refused r -> exists job, r = Async job
        /\ jobError (page s') = Some (default "failed to start async job" (ack_error job))
        /\ activeJobId (page s') = activeJobId (page s) /\ jobs (page s') = jobs (page s)).
Proof.
  intros Hi Hq r s'. subst s'. unfold RunExecution.settle. rewrite Hi. fold r. destruct (on_settled a (f_prompt f) r (page s)) as [u b] eqn:E.
  rewrite Hq. split; [by destruct r|]. destruct r as [out|job|m]; [done| |done]. intros Hr. exists job. split; [done|].
  unfold on_settled in E. assert (Hn : negb (ack_ok job) || negb (truthy_str (default "" (ack_job_id job))) = true).
  { destruct Hr as [-> | [-> | ->]]; [done|by destruct (ack_ok job)..]. }
  rewrite Hn in E. injection E as <- <-. done.
Qed.

(** C30: queued prompts are neither repeated nor reordered, and leave the queue
    in one way only, whatever the interleaving of renders, direct runs, settling
    mutations, failures and page changes.  The entries whose run the daemon has
    answered, then the one in flight (at most one), then those still queued are
    exactly the entries accepted, in the order in which they were accepted.  An
    entry whose run cannot be sent goes back to the head of the queue.  But one
    that the daemon refuses, by an acknowledgement that is not [ok] or names no
    job, is gone from the queue as if it had run: only the error is shown, no
    job is watched. *)
Theorem runQueue_fifo u q0 ins :
  let s := run (init u q0) ins in
  map fst (finished s) ++ in_flight s ++ runQueue s = accepted s
  /\ (length (in_flight s) <= 1)%nat /\ (exists l, accepted s = q0 ++ l)
  /\ Forall (fun h => match snd h with Rejected _ => False | _ => True end) (finished s)
  /\ (forall i f q answer, pending s !! i = Some f -> f_origin f = Some q ->
       let r := mutationFn a f answer in let s' := step s (Settle i answer) in
       match r with
       | Rejected m => runQueue s' = q :: runQueue s /\ finished s' = finished s /\ jobNotice (page s') = Some ("queued run failed: " ++s m)
       | _ => runQueue s' = runQueue s /\ finished s' = finished s ++ [(q, r)]
       end
       /\ (refused r -> exists job, r = Async job
             /\ jobError (page s') = Some (default "failed to start async job" (ack_error job))
             /\ activeJobId (page s') = activeJobId (page s) /\ jobs (page s') = jobs (page s))).
Proof.
  intros s. assert (H : inv s) by apply run_inv, init_inv.
  split; [apply H|]. split; [apply H|]. split; [apply (accepted_grows (init u q0))|]. split.
  - eapply Forall_impl; [apply (inv_answers _ H)|]. by intros [q []].
  - intros i f q answer. apply settle_queued.
Qed.

(** C31: the queue does not stall: in every state that can be reached, when no
    job is active, no mutation is in flight and the last [finally] has run,
    the next render starts the first queued run. *)
Theorem runQueue_progress u q0 ins q rest :
  let s := run (init u q0) ins in
  runQueue s = q :: rest -> pending s = [] -> settling s = false ->
  truthy_str (default "" (activeJobId (page s))) = false ->
  runQueue (step s Render) = rest /\
  pending (step s Render) = [mkFlight (q_prompt q) (q_attachments q) (Some q)].
Proof.
  intros s Hq Hp Hs Ha. assert (H : inv s) by apply run_inv, init_inv.
  destruct H as [_ _ Href _ Hl _]. cbn [RunExecution.step]. unfold render, dequeue, is_busy. simpl.
  rewrite Ha. destruct (latestPending s); [by destruct (Hl eq_refl)|]. simpl. rewrite Hq.
  destruct (dequeueInFlight s) eqn:Ed.
  - destruct (proj1 Href eq_refl) as [Hn|Hn]; [|congruence]. unfold in_flight in Hn. by rewrite Hp in Hn.
  - unfold mutate. simpl. by rewrite Hp.
Qed.

(** Nothing is in flight and no job is active. *)
Definition quiet (s : state) : Prop :=
  dequeueInFlight s = false /\ settling s = false /\ pending s = [] /\ latestPending s = false /\
  truthy_str (default "" (activeJobId (page s))) = false.

Definition failing_round (r : Outcome) : list input := [Render; Settle 0 r; Finally].

Lemma failing_round_spec s q rest r m :
  quiet s -> runQueue s = q :: rest ->
  mutationFn a (mkFlight (q_prompt q) (q_attachments q) (Some q)) r = Rejected m ->
  let s' := run s (failing_round r) in
  quiet s' /\ runQueue s' = q :: rest /\ finished s' = finished s /\ accepted s' = accepted s /\
  jobNotice (page s') = Some ("queued run failed: " ++s m).
Proof.
  intros (Hd & Hs & Hp & Hl & Ha) Hq Hr. unfold failing_round, RunExecution.run. cbn [fold_left].
  assert (H1 : step s Render = mutate (mkFlight (q_prompt q) (q_attachments q) (Some q))
    (mkState (page s) (promptText s) (composerNonce s) (lastRun s) rest true (settling s)
       (pending s) (latestPending s) false (accepted s) (finished s))).
  { cbn [RunExecution.step]. unfold render, dequeue, is_busy. simpl. by rewrite Ha, Hl, Hq, Hd. }
  rewrite H1. cbn [RunExecution.step]. unfold RunExecution.settle, mutate. simpl. rewrite Hp. simpl.
  rewrite Hr. simpl. rewrite orb_true_r. simpl. unfold quiet. simpl. by split_and!.
Qed.

(** A queued run that is refused goes back to the head of the queue and is
    started again by the next render, without any delay or limit: however many
    rounds pass, the queue behind it does not move. *)
Theorem failing_head_blocks s q rest r m n :
  quiet s -> runQueue s = q :: rest ->
  mutationFn a (mkFlight (q_prompt q) (q_attachments q) (Some q)) r = Rejected m ->
  let s' := run s (concat (replicate n (failing_round r))) in
  runQueue s' = q :: rest /\ finished s' = finished s /\
  ((0 < n)%nat -> jobNotice (page s') = Some ("queued run failed: " ++s m)).
Proof.
  intros Hs Hq Hr. revert s Hs Hq. induction n as [|n IH]; intros s Hs Hq.
  { split_and!; [done|done|lia]. }
  destruct (failing_round_spec s q rest r m Hs Hq Hr) as (Hs' & Hq' & Hf & _ & Hn).
  cbn [replicate concat]. unfold RunExecution.run in *. rewrite fold_left_app.
  destruct (IH _ Hs' Hq') as (H1 & H2 & H3). cbv zeta in *.
  split_and!; [done|congruence|]. intros _. destruct n; [done|]. apply H3. lia.
Qed.

(** When the daemon accepts an asynchronous run, the page is handed to the
    job watcher in its initial state for that job: active, at cursor 0, with
    an empty event list (so that its live events start at the beginning of any
    job log), and, when there is a session, with the watched-run table naming
    the job under the session's key and otherwise unchanged. *)
Theorem async_run_handoff prompt job jid u :
  ack_ok job = true -> ack_job_id job = Some jid -> jid <> "" ->
  let '(u', started) := on_settled a prompt (Async job) u in
  started = true /\ activeJobId u' = Some jid /\ jobStatus u' = Some "queued" /\
  jobError u' = None /\ (forall log, at_log log u') /\
  (forall k, get k (jobs u') =
     if truthy_str (trim (ctx_session (context a))) && bool_decide (k = storeKey a)
     then Some (started_entry a jid) else get k (jobs u)).
Proof.
  intros Hok Hid Hne. unfold on_settled. rewrite Hok, Hid. change (default "" (Some jid)) with jid.
  rewrite (proj2 (truthy_str_true jid) Hne). cbn [negb orb].
  assert (Hlog : forall v log, cursor v = int 0 -> liveEvents v = [] -> at_log log v).
  { intros v log Hc He. exists O, O. split; [lia|]. by rewrite Hc, He. }
  destruct (truthy_str (trim (ctx_session (context a)))); split_and!; try done;
    try (intros; by apply Hlog).
  intros k. cbn [jobs writeJobsBySession]. rewrite get_set. done.
Qed.
End facts.

(** ** A concrete queue *)

Definition sample_exec : ExecArgs :=
  mkExecArgs sample_settings (mkContext "s1" [] None) "scope::s1" (int 1000).

Definition broken_exec : ExecArgs :=
  mkExecArgs
    (mkSettings tools_none false full "" false "" "" "" "" "" "" "" "" false false "" "" "" "" "bash" ""
       "" "" false false false false "" "" "" "" false false false "" "" "")
    (mkContext "s1" [] None) "scope::s1" (int 1000).

Definition empty_ui : ui := mkUi None None None None None [] None "" (int 0) [] 0.

Definition queued (p : string) : QueuedRun := mkQueued p [] (int 1000).

Definition sample_inputs : list input :=
  [DirectRun "one" []; DirectRun "two" []; Render; DirectRun " three " [];
   Settle 0 (Sync VNull); Settle 0 (Sync VNull); Render;
   Render; DirectRun "four" []; Settle 0 (Sync VNull); Finally].

Lemma runQueue_progress_witness :
  finished (@run text_json sample_exec (init empty_ui []) sample_inputs) = [(queued "three", Sync VNull)] /\
  runQueue (@run text_json sample_exec (init empty_ui []) sample_inputs) = [queued "four"] /\
  runQueue (@step text_json sample_exec
    (@run text_json sample_exec (init empty_ui []) sample_inputs) Render) = [].
Proof.
  assert (H : runQueue (@run text_json sample_exec (init empty_ui []) sample_inputs) = [queued "four"])
    by (by vm_compute).
  assert (H1 : pending (@run text_json sample_exec (init empty_ui []) sample_inputs) = [])
    by (by vm_compute).
  assert (H2 : settling (@run text_json sample_exec (init empty_ui []) sample_inputs) = false)
    by (by vm_compute).
  assert (H3 : truthy_str (default "" (activeJobId
    (page (@run text_json sample_exec (init empty_ui []) sample_inputs)))) = false) by (by vm_compute).
  split; [by vm_compute|]. split; [exact H|].
  exact (proj1 (@runQueue_progress text_json sample_exec empty_ui [] sample_inputs
    (queued "four") [] H H1 H2 H3)).
Defined.

Lemma failing_head_blocks_witness :
  let s := init empty_ui [queued "one"; queued "two"] in
  let m := "Error: Invalid tool call limit (expected tool=max_calls): bash" in
  @mutationFn text_json broken_exec (mkFlight "one" [] (Some (queued "one"))) (Sync VNull) = Rejected m /\
  runQueue (@run text_json broken_exec s (concat (replicate 50 (failing_round (Sync VNull)))))
    = [queued "one"; queued "two"].
Proof.
  intros s m. assert (H : @mutationFn text_json broken_exec
    (mkFlight "one" [] (Some (queued "one"))) (Sync VNull) = Rejected m) by (by vm_compute).
  split; [exact H|].
  by apply (@failing_head_blocks text_json broken_exec s (queued "one") [queued "two"] (Sync VNull) m 50).
Defined.

Lemma async_run_handoff_witness :
  let r := on_settled sample_exec "hi" (Async (mkAck true (Some "job7") None)) empty_ui in
  snd r = true /\ activeJobId (fst r) = Some "job7" /\
  jobs (fst r) = [("scope::s1", started_entry sample_exec "job7")].
Proof.
  assert (Hne : "job7" <> "") by done.
  pose proof (async_run_handoff sample_exec "hi" (mkAck true (Some "job7") None) "job7" empty_ui
    eq_refl eq_refl Hne) as H.
  split; [exact (proj1 H)|]. split; [exact (proj1 (proj2 H))|by vm_compute].
Defined.
