(* ===== verification/SessionStream.v ===== *)
(** The session event stream, src/ui/src/hooks/useSessionEventStreaming.ts: the
    persisted buffer of the last 200 events with its replay cursor, its JSON
    form in the browser's storage, the events it shows, and the reconnecting
    reader as a state machine. *)
From S2P Require Import Prelude JsNumber JsString JsValue JsonUtils JsonText Sse.

Definition SESSION_STREAM_MAX_EVENTS : nat := 200.
Definition SESSION_STREAM_SCHEMA_VERSION : Z := 1.

(** ** Data *)

Inductive SessionStreamStatus := disabled | idle | connecting | live | reconnecting | error.

Record PersistedEvent := mkEvent {
  p_id : option string; p_event : string; p_data : string; receivedAtMs : number }.

(** The [version] field is always the constant. *)
Record PersistedState := mkPersisted {
  lastEventId : string; lastEventAtMs : option number; updatedMs : option number;
  events : list PersistedEvent }.

Definition EMPTY_PERSISTED_STATE : PersistedState := mkPersisted "" None None [].

(** ** The persisted form *)

Section json.
Context {J : Json}.

(** One stored event; only objects (and arrays, as empty records) are read. *)
Definition read_event (now : number) (entry : value) : option PersistedEvent :=
  if negb (is_objectish entry) then None
  else
    let record := safeObject entry in
    let trimmed k := trim (default "" (as_string (prop k record))) in
    Some (mkEvent
      (if truthy_str (trimmed "id") then Some (trimmed "id") else None)
      (str_or (trimmed "event") "message")
      (default "" (as_string (prop "data" record)))
      (match as_finite (prop "receivedAtMs" record) with
       | Some x => if gtb x (int 0) then x else now
       | None => now
       end)).

(** [raw] is [localStorage.getItem(key)], [None] also where there is no
    storage or no key. *)
Definition readPersistedSessionStream (raw : option string) (now : number) : PersistedState :=
  match raw with
  | None => EMPTY_PERSISTED_STATE
  | Some raw =>
      if negb (truthy_str raw) then EMPTY_PERSISTED_STATE
      else
        let parsed := safeObject (safeJsonParse raw) in
        let rawEvents := default [] (as_array (prop "events" parsed)) in
        mkPersisted
          (trim (default "" (as_string (prop "lastEventId" parsed))))
          (as_finite (prop "lastEventAtMs" parsed))
          (as_finite (prop "updatedMs" parsed))
          (last_n SESSION_STREAM_MAX_EVENTS (omap (read_event now) rawEvents))
  end.

Definition opt_number (o : option number) : value :=
  match o with Some x => VNumber x | None => VNull end.

(** An [id] that is [undefined] is not written by [JSON.stringify]. *)
Definition event_value (e : PersistedEvent) : value :=
  VObject ((match p_id e with Some i => [("id", VString i)] | None => [] end)
    ++ [("event", VString (p_event e)); ("data", VString (p_data e));
        ("receivedAtMs", VNumber (receivedAtMs e))]).

Definition state_value (s : PersistedState) : value :=
  VObject [("version", VNumber (int SESSION_STREAM_SCHEMA_VERSION));
           ("lastEventId", VString (lastEventId s));
           ("lastEventAtMs", opt_number (lastEventAtMs s));
           ("updatedMs", opt_number (updatedMs s));
           ("events", VArray (map event_value (events s)))].

(** What is stored afterwards; [quota] says that [setItem] throws, which is
    ignored: the former text stays. *)
Definition writePersistedSessionStream (quota : bool) (s : PersistedState) (stored : option string) : option string :=
  if quota then stored else Some (stringify (state_value s)).

(** ** The events shown *)

Definition parseEventData (raw : string) : value :=
  if negb (truthy_str raw) then VObject [] else safeJsonParse raw ??? VString raw.

Definition opt_text (o : option string) : value :=
  match o with Some s => VString s | None => VUndefined end.

Definition agent_event (type trace_id data : value) : value :=
  VObject [("type", type); ("trace_id", trace_id); ("data", data)].

Definition materialize_event (e : PersistedEvent) : value :=
  let parsed := parseEventData (p_data e) in
  let record := safeObject parsed in
  match prop "type" record with
  | VString type =>
      let trace := opt_text (as_string (prop "trace_id" record)) in
      if has "data" record then agent_event (VString type) trace (prop "data" record)
      else agent_event (VString type) trace (VObject (remove "trace_id" (remove "type" record)))
  | _ => VObject [("type", VString (str_or (p_event e) "message")); ("data", parsed)]
  end.

Definition materializeAgentEvents (s : PersistedState) : list value :=
  map materialize_event (events s).

(** ** Appending *)

Definition appendSessionStreamEvent (now : number) (s : PersistedState) (ev : SseEvent) :
    option PersistedState :=
  let nextId := trim (default "" (id ev)) in
  if truthy_str nextId && existsb (fun e => bool_decide (p_id e = Some nextId)) (events s) then None
  else
    let e := mkEvent (if truthy_str nextId then Some nextId else None)
               (str_or (event ev) "message") (data ev) now in
    Some (mkPersisted (str_or nextId (lastEventId s)) (Some now) (Some now)
            (last_n SESSION_STREAM_MAX_EVENTS (events s ++ [e]))).

(** ** The reader *)

Record Args := mkArgs {
  activeJob : bool; connectionMode : string; sessionId : string; hasStreamUrl : bool }.

(** The states the hook sets, the shared ref, and the stored text. *)
Record ui := mkUi {
  status : SessionStreamStatus; shownId : string; shownAtMs : option number;
  shownUpdated : option number; bufferedCount : nat; streamError : option string;
  liveEvents : list value; persistedRef : PersistedState; stored : option string }.

Definition enabled (a : Args) : bool :=
  bool_decide (connectionMode a = "broker") && negb (activeJob a)
  && truthy_str (trim (sessionId a)) && hasStreamUrl a.

(** [persistKey] is empty without a session. *)
Definition has_key (a : Args) : bool := truthy_str (trim (sessionId a)).

Definition show_state (p : PersistedState) (u : ui) : ui :=
  mkUi (status u) (lastEventId p) (lastEventAtMs p) (updatedMs p) (length (events p))
    (streamError u) (liveEvents u) p (stored u).

Definition set_live (l : list value) (u : ui) : ui :=
  mkUi (status u) (shownId u) (shownAtMs u) (shownUpdated u) (bufferedCount u) (streamError u)
    l (persistedRef u) (stored u).

Definition set_status (st : SessionStreamStatus) (u : ui) : ui :=
  mkUi st (shownId u) (shownAtMs u) (shownUpdated u) (bufferedCount u) (streamError u)
    (liveEvents u) (persistedRef u) (stored u).

Definition set_error (e : option string) (u : ui) : ui :=
  mkUi (status u) (shownId u) (shownAtMs u) (shownUpdated u) (bufferedCount u) e
    (liveEvents u) (persistedRef u) (stored u).

Definition set_stored (s : option string) (u : ui) : ui :=
  mkUi (status u) (shownId u) (shownAtMs u) (shownUpdated u) (bufferedCount u) (streamError u)
    (liveEvents u) (persistedRef u) s.

(** The first effect: the stored buffer is loaded. *)
Definition load (a : Args) (now : number) (u : ui) : ui :=
  if negb (has_key a) then u
  else
    let persisted := readPersistedSessionStream (stored u) now in
    let u := show_state persisted u in
    if enabled a then set_live (materializeAgentEvents persisted) u
    else if negb (activeJob a) then set_live [] u else u.

(** Where the loop of an effect instance stands; [Connecting] carries the
    replay cursor sent as [Last-Event-ID], [Sleeping] the delay. *)
Inductive phase := Stopped | Connecting (cursor : string) | Reading | Sleeping (delayMs : Z).

Record reader := mkReader { cancelled : bool; reconnectAttempt : Z; where_ : phase }.

Inductive input :=
  | Response (isOk : bool) (httpStatus : Z)
  | StreamEvent (ev : SseEvent) (now : number) (quota : bool)   (* [quota]: the storage refuses the buffer *)
  | StreamEnd
  | StreamThrow (msg : string) (aborted : bool)
  | Wake
  | Cleanup.

(** The head of the loop. *)
Definition connect (r : reader) (u : ui) : reader * ui :=
  if cancelled r then (mkReader true (reconnectAttempt r) Stopped, u)
  else (mkReader false (reconnectAttempt r) (Connecting (lastEventId (persistedRef u))),
        set_status (if 0 <? reconnectAttempt r then reconnecting else connecting) u).

(** The second effect. *)
Definition start (a : Args) (u : ui) : reader * ui :=
  if negb (enabled a) || negb (has_key a) then
    (mkReader false 0 Stopped,
     set_error None (set_status (if truthy_str (trim (sessionId a)) then idle else disabled) u))
  else connect (mkReader false 0 Stopped) u.

Definition delay (attempt : Z) : Z := Z.min 5000 (1000 * attempt).

(** The end of an iteration: another attempt is due after the delay. *)
Definition retry (r : reader) (u : ui) : reader * ui :=
  let n := reconnectAttempt r + 1 in
  (mkReader (cancelled r) n (Sleeping (delay n)), u).

(** The rejection handler; [aborted] is [controller.signal.aborted]. *)
Definition on_throw (msg : string) (aborted : bool) (r : reader) (u : ui) : reader * ui :=
  if cancelled r || aborted then (mkReader (cancelled r) (reconnectAttempt r) Stopped, u)
  else retry r (set_status error (set_error (Some msg) u)).

Definition on_event (ev : SseEvent) (now : number) (quota : bool) (r : reader) (u : ui) : ui :=
  if cancelled r then u
  else match appendSessionStreamEvent now (persistedRef u) ev with
       | None => u
       | Some next =>
           set_live (materializeAgentEvents next)
             (show_state next (set_stored (writePersistedSessionStream quota next (stored u)) u))
       end.

Definition step (s : reader * ui) (i : input) : reader * ui :=
  let '(r, u) := s in
  match i, where_ r with
  | Response isOk code, Connecting _ =>
      if isOk then (mkReader (cancelled r) (reconnectAttempt r) Reading,
                    set_status live (set_error None u))
      else on_throw ("Error: session stream failed: HTTP " ++s pretty code) false r u
  | StreamEvent ev now quota, Reading => (r, on_event ev now quota r u)
  | StreamEnd, Reading =>
      if cancelled r then (mkReader true (reconnectAttempt r) Stopped, u)
      else retry r (set_status reconnecting u)
  | StreamThrow msg aborted, Connecting _ | StreamThrow msg aborted, Reading => on_throw msg aborted r u
  | Wake, Sleeping _ => connect r u
  | Cleanup, _ => (mkReader true (reconnectAttempt r) (where_ r), u)
  | _, _ => s
  end.

Definition run (s : reader * ui) (ins : list input) : reader * ui := fold_left step ins s.
End json.

(** ** The stored buffer reads back *)

Section persist.
Context {J : Json} {JL : JsonLaws J}.

Definition good_text (s : string) : Prop := trim s = s /\ s <> "".

(** A time stamp as the clock gives it. *)
Definition clock_ok (x : number) : Prop := num_ok x = true /\ gtb x (int 0) = true.

Definition event_ok (e : PersistedEvent) : Prop :=
  (forall i, p_id e = Some i -> good_text i) /\ good_text (p_event e) /\ clock_ok (receivedAtMs e).

Definition time_ok (o : option number) : Prop := forall x, o = Some x -> num_ok x = true.

Definition stream_ok (s : PersistedState) : Prop :=
  (length (events s) <= SESSION_STREAM_MAX_EVENTS)%nat /\ trim (lastEventId s) = lastEventId s /\
  time_ok (lastEventAtMs s) /\ time_ok (updatedMs s) /\ Forall event_ok (events s).

Lemma num_ok_finite x : num_ok x = true -> is_finite x = true.
Proof. unfold num_ok. rewrite !andb_true_iff. tauto. Qed.

Lemma as_finite_number x : num_ok x = true -> as_finite (VNumber x) = Some x.
Proof. intros H%num_ok_finite. unfold as_finite. by rewrite H. Qed.

Lemma event_json_ok e : event_ok e -> json_ok (event_value e) = true.
Proof.
  intros (_ & _ & [Hn _]). unfold event_value. destruct (p_id e);
    (apply json_ok_object; [simpl app; shape|by repeat constructor]).
Qed.

Lemma opt_number_ok o : time_ok o -> json_ok (opt_number o) = true.
Proof. destruct o; [|done]. intros H. by apply H. Qed.

Lemma state_json_ok s : stream_ok s -> json_ok (state_value s) = true.
Proof.
  intros (_ & _ & H1 & H2 & He). unfold state_value.
  apply json_ok_object; [shape|].
  apply List.Forall_cons; [by vm_compute|]. apply List.Forall_cons; [done|].
  apply List.Forall_cons; [by apply opt_number_ok|].
  apply List.Forall_cons; [by apply opt_number_ok|].
  apply List.Forall_cons; [|apply List.Forall_nil].
  apply json_ok_array, Forall_map. eapply Forall_impl; [exact He|]. apply event_json_ok.
Qed.

Lemma read_event_value e now : event_ok e -> read_event now (event_value e) = Some e.
Proof.
  intros (Hi & [He Hne] & [Hn Hpos]). unfold read_event, event_value.
  cbn [is_objectish negb]. f_equal. destruct e as [i ev d at']; simpl in *.
  assert (Hev : str_or (trim ev) "message" = ev).
  { unfold str_or. by rewrite He, (proj2 (truthy_str_true _) Hne). }
  destruct i as [i|]; simpl.
  - destruct (Hi i eq_refl) as [Ht Hn']. rewrite Ht, (proj2 (truthy_str_true _) Hn').
    rewrite (num_ok_finite _ Hn), Hpos. by rewrite Hev.
  - rewrite (num_ok_finite _ Hn), Hpos. by rewrite Hev.
Qed.

Lemma read_events_back es now : Forall event_ok es -> omap (read_event now) (map event_value es) = es.
Proof.
  induction 1 as [|e es He _ IH]; [done|]. unfold omap in *. cbn [map list_omap].
  rewrite read_event_value by done. by rewrite IH.
Qed.

Lemma as_finite_opt o : time_ok o -> as_finite (opt_number o) = o.
Proof. destruct o; [|done]. intros H. by apply as_finite_number, H. Qed.

Lemma persisted_back s now :
  stream_ok s -> readPersistedSessionStream (Some (stringify (state_value s))) now = s.
Proof.
  intros Hok. pose proof (state_json_ok s Hok) as Hj. destruct Hok as (Hl & Ht & H1 & H2 & He).
  unfold readPersistedSessionStream.
  rewrite stringify_nonempty by done. cbn [negb]. rewrite safeJsonParse_stringify by done.
  unfold state_value. cbv zeta. change (safeObject (VObject ?o)) with o.
  rewrite !prop_cons. simpl bool_decide. cbv iota.
  change (as_array (VArray ?l)) with (Some l). destruct s as [i at' up es].
  cbn [lastEventId lastEventAtMs updatedMs events as_string from_option] in *.
  unfold Datatypes.id. rewrite Ht.
  rewrite (as_finite_opt at'), (as_finite_opt up), read_events_back by done. by rewrite last_n_short.
Qed.

(** ** Appending keeps the buffer well formed *)

Definition sse_ok (ev : SseEvent) : Prop := trim (event ev) = event ev.

Lemma append_ok now s ev s' :
  stream_ok s -> sse_ok ev -> clock_ok now ->
  appendSessionStreamEvent now s ev = Some s' -> stream_ok s'.
Proof.
  intros (Hl & Ht & H1 & H2 & He) Hev [Hn Hp]. unfold appendSessionStreamEvent.
  destruct (_ && _); [done|]. intros [= <-]. set (i := trim (default "" (id ev))).
  unfold stream_ok. simpl. split_and!.
  - apply length_last_n.
  - unfold str_or. case_match; [apply trim_idem|done].
  - by intros x [= <-].
  - by intros x [= <-].
  - apply Forall_forall. intros e Hin%in_last_n. apply elem_of_app in Hin as [Hin|Hin].
    { rewrite Forall_forall in He. by apply He. }
    apply list_elem_of_singleton in Hin as ->. split; [|split; [|done]]; simpl.
    + destruct (truthy_str i) eqn:E; [|done]. intros j [= <-].
      split; [apply trim_idem|by apply truthy_str_true].
    + unfold str_or. destruct (truthy_str (event ev)) eqn:E; [|done].
      split; [exact Hev|by apply truthy_str_true].
Qed.

(** The parser of the stream trims event names. *)
Lemma trim_start_fixed s : trim_end s = s -> trim (trim_start s) = trim_start s.
Proof.
  intros H. unfold trim, trim_start. rewrite trim_start_by_idem. fold trim_start. clear - H.
  induction s as [|c s IH]; [done|]. cbn [trim_start trim_start_by] in *.
  unfold trim_start in *. cbn [trim_start_by]. destruct (is_ws c) eqn:E; [|done].
  apply IH. unfold trim_end in H. cbn [trim_end_by] in H. unfold trim_end.
  destruct (trim_end_by is_ws s) eqn:Es; [by rewrite E in H|]. by injection H.
Qed.

Lemma trim_end_sdrop n s : trim_end s = s -> trim_end (sdrop n s) = sdrop n s.
Proof.
  revert s. induction n as [|n IH]; intros s H; [done|]. destruct s as [|c s]; [done|].
  cbn [sdrop]. apply IH. unfold trim_end in *. cbn [trim_end_by] in H.
  destruct (trim_end_by is_ws s) eqn:E; [|by injection H].
  destruct (is_ws c); [done|]. by injection H as <-.
Qed.

Lemma parse_line_event acc line :
  trim (fst (fst acc)) = fst (fst acc) -> trim (fst (fst (parse_line acc line))) = fst (fst (parse_line acc line)).
Proof.
  destruct acc as [[ev i] dl]. simpl. intros H. unfold parse_line.
  assert (Hl : trim_end (trim_end line) = trim_end line) by apply trim_end_by_idem.
  revert Hl. generalize (trim_end line). intros t Ht.
  destruct (String.length t =? 0)%nat; [done|]. destruct (starts_with ":" t); [done|].
  destruct (index_of ":" t) as [k|]; [|done].
  destruct (bool_decide (trim (stake k t) = "event")).
  - cbn [fst]. apply trim_start_fixed. by apply (trim_end_sdrop (S k)).
  - by repeat case_bool_decide.
Qed.

Lemma parseSseBlock_event block ev : parseSseBlock block = Some ev -> sse_ok ev.
Proof.
  unfold parseSseBlock. set (lines := split_on _ _).
  assert (H : trim (fst (fst (fold_left parse_line lines ("message", None, []))))
              = fst (fst (fold_left parse_line lines ("message", None, [])))).
  { assert (Hi : trim (fst (fst (("message", None, []) : fields))) = fst (fst (("message", None, []) : fields)))
      by done.
    revert Hi. generalize (("message", None, []) : fields). induction lines as [|l ls IH]; [done|].
    intros acc Hacc. cbn [fold_left]. apply IH. by apply parse_line_event. }
  destruct (fold_left _ _ _) as [[e i] dl]. case_match; [done|]. by intros [= <-].
Qed.

(** ** Reloading *)

(** What the page shows agrees with its buffer. *)
Definition coherent (u : ui) : Prop :=
  stream_ok (persistedRef u) /\
  shownId u = lastEventId (persistedRef u) /\ bufferedCount u = length (events (persistedRef u)).

Definition input_ok (i : input) : Prop :=
  match i with StreamEvent ev now _ => sse_ok ev /\ clock_ok now | _ => True end.

(** The storage refuses what is written at this input. *)
Definition write_fails (i : input) : Prop := match i with StreamEvent _ _ quota => quota = true | _ => False end.

Lemma connect_coherent r u : coherent u -> coherent (snd (connect r u)).
Proof. intros H. unfold connect. by destruct (cancelled r). Qed.

Lemma step_coherent s i : input_ok i -> coherent (snd s) -> coherent (snd (step s i)).
Proof.
  destruct s as [r u]. intros Hi H. cbn [snd] in *. unfold step.
  destruct i; cbn [input_ok] in Hi; try (by destruct H).
  - destruct (where_ r); try done. destruct isOk; [done|]. unfold on_throw. by case_match.
  - destruct (where_ r); try done. cbn [snd]. unfold on_event. destruct (cancelled r); [done|].
    destruct (appendSessionStreamEvent now (persistedRef u) ev) as [next|] eqn:E; [|done].
    destruct Hi as [Hev Hn]. destruct H as (Hok & _). unfold coherent. simpl.
    split; [by eapply append_ok|done].
  - destruct (where_ r); try done. by case_match.
  - destruct (where_ r); try done; unfold on_throw; by case_match.
  - destruct (where_ r); try done. by apply connect_coherent.
Qed.

Lemma run_coherent s ins : Forall input_ok ins -> coherent (snd s) -> coherent (snd (run s ins)).
Proof.
  intros H. revert s. induction H as [|i ins Hi _ IH]; intros s Hs; [done|].
  cbn [run fold_left]. by apply IH, step_coherent.
Qed.

(** An input leaves the stored text alone, and then the buffer too unless the
    storage has refused it, or the text is that of the buffer. *)
Lemma step_stored s i :
  stored (snd (step s i)) = stored (snd s)
    /\ (persistedRef (snd (step s i)) = persistedRef (snd s) \/ write_fails i)
  \/ stored (snd (step s i)) = Some (stringify (state_value (persistedRef (snd (step s i))))).
Proof.
  destruct s as [r u]. unfold step. destruct i; cbn [write_fails]; try (by left; split; [|left]).
  - left. destruct (where_ r); [by auto| |by auto..]. destruct isOk; [by auto|]. unfold on_throw. case_match; by auto.
  - destruct (where_ r); [by auto..| |by auto]. cbn [snd]. unfold on_event. destruct (cancelled r); [by auto|].
    destruct (appendSessionStreamEvent _ _ _) as [next|]; [|by auto]. cbn. unfold writePersistedSessionStream.
    destruct quota; by auto.
  - left. destruct (where_ r); [by auto..| |by auto]. case_match; by auto.
  - left. destruct (where_ r); [by auto|unfold on_throw; case_match; by auto..|by auto].
  - left. destruct (where_ r); [by auto..|]. unfold connect. case_match; by auto.
Qed.

Lemma start_kept a u : stored (snd (start a u)) = stored u /\ persistedRef (snd (start a u)) = persistedRef u.
Proof. unfold start, connect. by repeat case_match. Qed.

(** What is stored is the buffer of an earlier moment, since which every change
    of the buffer was refused. *)
Lemma stored_earlier s ins :
  stored (snd s) = None -> persistedRef (snd s) = EMPTY_PERSISTED_STATE ->
  exists n, (n <= length ins)%nat /\
    (let v := snd (run s (take n ins)) in
     stored (snd (run s ins)) = Some (stringify (state_value (persistedRef v)))
     \/ stored (snd (run s ins)) = None /\ persistedRef v = EMPTY_PERSISTED_STATE)
    /\ forall k i, (n <= k)%nat -> ins !! k = Some i ->
         persistedRef (snd (run s (take (S k) ins))) = persistedRef (snd (run s (take k ins))) \/ write_fails i.
Proof.
  intros Hs Hp. induction ins as [|i ins IH] using rev_ind.
  { exists 0%nat. split; [done|]. split; [by right|done]. }
  destruct IH as (n & Hn & Hst & Hk). rewrite length_app. cbn [length].
  assert (Hrun : run s (ins ++ [i]) = step (run s ins) i) by (unfold run; by rewrite fold_left_app).
  assert (Htake : forall k, (k <= length ins)%nat -> take k (ins ++ [i]) = take k ins) by (intros; by apply take_app_le).
  assert (Hall : take (S (length ins)) (ins ++ [i]) = ins ++ [i]) by (apply take_ge; rewrite length_app; cbn; lia).
  destruct (step_stored (run s ins) i) as [[Hsame Hbuf]|Hw].
  - exists n. split; [lia|]. rewrite Htake by done. split; [by rewrite Hrun, Hsame|]. intros k j Hnk Hj.
    destruct (decide (k < length ins)%nat) as [Hlt|Hge].
    + rewrite !Htake by lia. apply (Hk k j Hnk). by rewrite lookup_app_l in Hj.
    + apply lookup_lt_Some in Hj as Hl. rewrite length_app in Hl. cbn in Hl. assert (k = length ins) as -> by lia.
      rewrite list_lookup_middle in Hj by done. injection Hj as <-. rewrite Hall, Htake, take_ge, Hrun by done. exact Hbuf.
  - exists (S (length ins)). split; [lia|]. rewrite Hall, Hrun. split; [by left|]. intros k j Hnk Hj.
    apply lookup_lt_Some in Hj. rewrite length_app in Hj. cbn in Hj. lia.
Qed.

(** C33: a page that started with an empty storage can be reloaded at any time:
    what it has stored reads back as exactly its buffer and replay cursor, as
    long as the storage takes what is written.  Where it refuses (its quota, a
    private window), it reads back as the buffer and cursor of an earlier
    moment, since which every change was refused.  The cursor and count that the
    page shows are those of its buffer. *)
Theorem session_reload a (u : ui) ins now' :
  stored u = None -> persistedRef u = EMPTY_PERSISTED_STATE -> shownId u = "" ->
  bufferedCount u = 0%nat -> Forall input_ok ins ->
  let after n := snd (run (start a u) (take n ins)) in
  let u' := snd (run (start a u) ins) in
  (exists n, (n <= length ins)%nat
     /\ readPersistedSessionStream (stored u') now' = persistedRef (after n)
     /\ forall k i, (n <= k)%nat -> ins !! k = Some i -> persistedRef (after (S k)) = persistedRef (after k) \/ write_fails i)
  /\ (Forall (fun i => ~ write_fails i) ins -> readPersistedSessionStream (stored u') now' = persistedRef u') /\
  shownId u' = lastEventId (persistedRef u') /\
  bufferedCount u' = length (events (persistedRef u')) /\
  (length (events (persistedRef u')) <= 200)%nat.
Proof.
  intros Hst Hp Hid Hc Hins after u'.
  assert (Hs : coherent (snd (start a u))).
  { assert (Hu : coherent u).
    { unfold coherent. rewrite Hp, Hid, Hc. split; [|by auto].
      split; [unfold SESSION_STREAM_MAX_EVENTS; simpl; lia|]. by repeat split. }
    unfold start. case_match; [done|]. by apply connect_coherent. }
  destruct (run_coherent _ _ Hins Hs) as (Hok & H1 & H2). fold u' in Hok, H1, H2.
  destruct (start_kept a u) as [Hst0 Hp0]. rewrite Hst in Hst0. rewrite Hp in Hp0.
  destruct (stored_earlier _ ins Hst0 Hp0) as (n & Hn & Hst' & Hk). fold u' in Hst'.
  assert (Hread : readPersistedSessionStream (stored u') now' = persistedRef (after n)).
  { destruct Hst' as [E|[E E']]; rewrite E; [|symmetry; exact E']. apply persisted_back.
    apply (run_coherent _ (take n ins)); [by apply Forall_take|done]. }
  split; [by exists n|]. split; [|split; [done|]; split; [done|by destruct Hok]].
  intros Hf. rewrite Hread. assert (Hm : forall m, (n <= m <= length ins)%nat -> persistedRef (after m) = persistedRef (after n)).
  { induction m as [|m IH]; intros Hm; [by replace n with 0%nat by lia|].
    destruct (decide (n = S m)) as [->|]; [done|]. transitivity (persistedRef (after m)); [|apply IH; lia].
    destruct (lookup_lt_is_Some_2 ins m) as [i Hi]; [lia|]. destruct (Hk m i) as [E|E]; [lia|done|exact E|].
    rewrite Forall_lookup in Hf. by destruct (Hf m i Hi). }
  rewrite <-(Hm (length ins)) by lia. unfold after. by rewrite take_ge.
Qed.
End persist.

(** ** Replay *)

Section replay.
Context {J : Json}.
Context (L : list SseEvent).

Definition key_of (ev : SseEvent) : string := trim (default "" (id ev)).

(** The server's log: every event has an id of its own. *)
Definition log_ok : Prop := NoDup (map key_of L) /\ Forall (fun ev => key_of ev <> "") L.

(** The part of a buffered event that comes from the server. *)
Definition content (e : PersistedEvent) : option string * string * string := (p_id e, p_event e, p_data e).
Definition log_content (ev : SseEvent) : option string * string * string :=
  (Some (key_of ev), str_or (event ev) "message", data ev).

(** The position at which a connection with replay cursor [cur] may start:
    the beginning without a cursor, otherwise after the event named or up to
    199 events earlier. *)
Definition starts_at (cur : string) (p : nat) : Prop :=
  (cur = "" /\ p = 0%nat) \/
  exists i ev, L !! i = Some ev /\ key_of ev = cur /\ (S i - SESSION_STREAM_MAX_EVENTS <= p <= S i)%nat.

(** The server answers from its log; [o] is the position of the next event of
    the open connection. *)
Inductive served : option nat -> reader * ui -> list input -> Prop :=
  | served_nil o s : served o s []
  | served_open o s cur p code ins :
      where_ (fst s) = Connecting cur -> starts_at cur p ->
      served (Some p) (step s (Response true code)) ins -> served o s (Response true code :: ins)
  | served_event s p ev now quota ins :
      L !! p = Some ev -> served (Some (S p)) (step s (StreamEvent ev now quota)) ins ->
      served (Some p) s (StreamEvent ev now quota :: ins)
  | served_drop o s i ins :
      match i with StreamEnd | StreamThrow _ _ | Wake | Response false _ => True | _ => False end ->
      served None (step s i) ins -> served o s (i :: ins)
  | served_cleanup o s ins : served o (step s Cleanup) ins -> served o s (Cleanup :: ins).

(** The first [c] events of the log have been taken in. *)
Definition taken (c : nat) (u : ui) : Prop :=
  (c <= length L)%nat /\
  map content (events (persistedRef u)) = last_n SESSION_STREAM_MAX_EVENTS (map log_content (take c L)) /\
  lastEventId (persistedRef u) = match last (take c L) with Some ev => key_of ev | None => "" end.

Definition replay_inv (o : option nat) (s : reader * ui) : Prop :=
  exists c, taken c (snd s) /\
    (forall cur, where_ (fst s) = Connecting cur -> cur = lastEventId (persistedRef (snd s))) /\
    (forall q, o = Some q -> cancelled (fst s) = true \/
       where_ (fst s) = Reading /\ (c - SESSION_STREAM_MAX_EVENTS <= q <= c)%nat).

Context (HL : log_ok).

Lemma last_take_S c ev : L !! c = Some ev -> last (take (S c) L) = Some ev.
Proof. intros H. rewrite (take_S_r _ _ _ H), last_snoc. done. Qed.

Lemma key_inj i j ev ev' :
  L !! i = Some ev -> L !! j = Some ev' -> key_of ev = key_of ev' -> i = j.
Proof.
  intros Hi Hj E. destruct HL as [Hnd _]. apply (NoDup_lookup _ i j (key_of ev) Hnd).
  - change (map key_of) with (fmap (M := list) key_of). by rewrite list_lookup_fmap, Hi.
  - change (map key_of) with (fmap (M := list) key_of). by rewrite list_lookup_fmap, Hj, E.
Qed.

(** The replay position of a cursor lies in the buffer, or just after it. *)
Lemma starts_at_taken c u p :
  taken c u -> starts_at (lastEventId (persistedRef u)) p ->
  (c - SESSION_STREAM_MAX_EVENTS <= p <= c)%nat.
Proof.
  intros (Hc & _ & Hid) Hp. rewrite Hid in Hp. destruct HL as [_ Hne].
  destruct c as [|c].
  - simpl in Hp. destruct Hp as [[_ ->]|(i & ev & Hi & He & _)]; [lia|].
    rewrite Forall_forall in Hne. by destruct (Hne ev (list_elem_of_lookup_2 _ _ _ Hi)).
  - destruct (lookup_lt_is_Some_2 L c) as [ev Hev]; [lia|].
    rewrite (last_take_S _ _ Hev) in Hp.
    destruct Hp as [[E _]|(i & ev' & Hi & He & Hp)].
    + rewrite Forall_forall in Hne. by destruct (Hne ev (list_elem_of_lookup_2 _ _ _ Hev)).
    + by rewrite (key_inj _ _ _ _ Hev Hi) by done.
Qed.

(** The buffer knows exactly the ids of the last events taken in. *)
Lemma buffered_id c u q ev :
  taken c u -> L !! q = Some ev -> (c - SESSION_STREAM_MAX_EVENTS <= q)%nat ->
  existsb (fun e => bool_decide (p_id e = Some (key_of ev))) (events (persistedRef u)) = bool_decide (q < c)%nat.
Proof.
  intros (Hc & Hb & _) Hq Hlo.
  assert (Hin : forall e, e ∈ events (persistedRef u) ->
    exists j ev', L !! j = Some ev' /\ (j < c)%nat /\ p_id e = Some (key_of ev')).
  { intros e He. apply (list_elem_of_fmap_2 content) in He.
    change (fmap content) with (map content) in He. rewrite Hb in He.
    apply in_last_n, list_elem_of_In, in_map_iff in He as (ev' & E & Hev').
    apply list_elem_of_In, elem_of_take in Hev' as (j & Hj & Hlt).
    exists j, ev'. split_and!; [done|done|]. by injection E. }
  case_bool_decide as Hlt.
  - apply existsb_elem_of.
    assert (Hx : log_content ev ∈ map content (events (persistedRef u))).
    { rewrite Hb. unfold last_n. rewrite length_map, length_take, Nat.min_l by lia.
      change (map log_content) with (fmap (M := list) log_content). rewrite <- fmap_drop.
      apply list_elem_of_fmap_2. apply (list_elem_of_lookup_2 _ (q - (c - SESSION_STREAM_MAX_EVENTS))).
      rewrite lookup_drop, lookup_take. rewrite decide_True by lia. rewrite <- Hq. f_equal. lia. }
    apply list_elem_of_In, in_map_iff in Hx as (e & E & He). exists e.
    split; [by apply list_elem_of_In|]. apply bool_decide_eq_true. by injection E.
  - apply existsb_false. intros e He. apply bool_decide_eq_false. intros E.
    destruct (Hin e He) as (j & ev' & Hj & Hjc & E'). rewrite E in E'. injection E' as E'.
    assert (q = j) by (by eapply key_inj). lia.
Qed.

Lemma event_taken c q ev now u :
  taken c u -> L !! q = Some ev -> (c - SESSION_STREAM_MAX_EVENTS <= q <= c)%nat ->
  match appendSessionStreamEvent now (persistedRef u) ev with
  | None => (q < c)%nat
  | Some next => q = c /\ taken (S c) (show_state next u)
  end.
Proof.
  intros Ht Hq Hlo. pose proof (buffered_id c u q ev Ht Hq ltac:(lia)) as Hb.
  unfold appendSessionStreamEvent. fold (key_of ev).
  assert (Hk : truthy_str (key_of ev) = true).
  { apply truthy_str_true. destruct HL as [_ Hne]. rewrite Forall_forall in Hne.
    apply Hne. by eapply list_elem_of_lookup_2. }
  rewrite Hk. cbn [andb]. rewrite Hb. case_bool_decide; [done|].
  assert (q = c) as -> by lia. split; [done|]. destruct Ht as (Hc & Hcont & Hid).
  unfold taken. cbn [persistedRef show_state events lastEventId]. split_and!.
  - apply lookup_lt_Some in Hq. lia.
  - rewrite (take_S_r _ _ _ Hq), map_last_n, !map_app, Hcont. apply last_n_app_absorb.
  - rewrite (last_take_S _ _ Hq). unfold str_or. by rewrite Hk.
Qed.

Lemma taken_content c u v :
  persistedRef v = persistedRef u -> taken c u -> taken c v.
Proof. unfold taken. by intros ->. Qed.

Lemma throw_inv msg ab r u p : replay_inv p (r, u) -> replay_inv None (on_throw msg ab r u).
Proof.
  intros (c & Ht & _ & _). unfold on_throw, retry. case_match; exists c; by split_and!.
Qed.

Lemma connect_inv r u p : replay_inv p (r, u) -> replay_inv None (connect r u).
Proof.
  intros (c & Ht & _ & _). unfold connect. case_match; exists c; split_and!; try done.
  simpl. by intros cur [= <-].
Qed.

Lemma drop_inv o s i :
  match i with StreamEnd | StreamThrow _ _ | Wake | Response false _ => True | _ => False end ->
  replay_inv o s -> replay_inv None (step s i).
Proof.
  intros Hi H. destruct s as [r u].
  assert (Hweak : replay_inv None (r, u)) by (destruct H as (c & ? & ? & _); by exists c).
  destruct i as [[]| | | | |]; try done; unfold step; destruct (where_ r) eqn:Ew; try done.
  - by eapply throw_inv.
  - case_match; destruct H as (c & Ht & _ & _); exists c; by split_and!.
  - by eapply throw_inv.
  - by eapply throw_inv.
  - by eapply connect_inv.
Qed.

Lemma event_inv p ev now quota s :
  L !! p = Some ev -> replay_inv (Some p) s -> replay_inv (Some (S p)) (step s (StreamEvent ev now quota)).
Proof.
  intros Hp (c & Ht & Hcur & Hpos). destruct s as [r u]. unfold step. simpl in *.
  destruct (Hpos p eq_refl) as [Hcan|[Hw Hin]].
  { exists c. destruct (where_ r) eqn:Ew; simpl; rewrite ?Ew; unfold on_event; rewrite ?Hcan;
      (split_and!; [done|done|intros; by left]). }
  rewrite Hw. unfold on_event. destruct (cancelled r) eqn:Ec.
  { exists c. simpl. split_and!; [done|rewrite Hw; done|intros; by left]. }
  pose proof (event_taken c p ev now u Ht Hp Hin) as Hev.
  destruct (appendSessionStreamEvent now (persistedRef u) ev) as [next|].
  - destruct Hev as [-> Ht']. exists (S c). simpl. split_and!; [by eapply taken_content; [|exact Ht']|by rewrite Hw|].
    intros q [= <-]. right. split; [done|lia].
  - exists c. simpl. split_and!; [done|by rewrite Hw|]. intros q [= <-]. right. split; [done|lia].
Qed.

Lemma open_inv o s cur p code :
  where_ (fst s) = Connecting cur -> starts_at cur p -> replay_inv o s ->
  replay_inv (Some p) (step s (Response true code)).
Proof.
  destruct s as [r u]. simpl. intros Hw Hp (c & Ht & Hcur & _). rewrite Hw. exists c. simpl.
  split_and!; [done|done|]. intros q [= <-]. right. split; [done|].
  apply (starts_at_taken c u); [done|]. pose proof (Hcur cur Hw) as E. simpl in E. by subst cur.
Qed.

Lemma served_inv o s ins : served o s ins -> replay_inv o s -> exists o', replay_inv o' (run s ins).
Proof.
  induction 1 as [o s|o s cur p code ins Hw Hp _ IH|s p ev now quota ins Hp _ IH|o s i ins Hi _ IH|o s ins _ IH];
    intros H; cbn [run fold_left].
  - by exists o.
  - apply IH. by eapply open_inv.
  - apply IH. by apply event_inv.
  - apply IH. by eapply drop_inv.
  - apply IH. destruct s as [r u]. destruct H as (c & Ht & Hcur & Hpos). exists c.
    split_and!; [done|done|]. intros; by left.
Qed.
End replay.

(** C32: however often the stream drops and reconnects, and even when the
    server repeats up to 199 events before the replay cursor, the buffer holds
    exactly the last 200 of the log's first events, once each and in order,
    and the next replay cursor is the id of the last one. *)
Theorem session_stream_exactly_once {J : Json} (L : list SseEvent) (a : Args) (u : ui) ins :
  log_ok L -> persistedRef u = EMPTY_PERSISTED_STATE -> served L None (start a u) ins ->
  exists c, taken L c (snd (run (start a u) ins)).
Proof.
  intros HL Hu Hs. destruct (served_inv L HL None (start a u) ins Hs) as (o & c & Hc & _).
  - assert (Ht : forall v, persistedRef v = EMPTY_PERSISTED_STATE -> taken L 0 v).
    { intros v Hv. unfold taken. rewrite Hv. split_and!; [lia|done|done]. }
    exists 0%nat. unfold start, connect. case_match; simpl; split_and!; try done; try by apply Ht.
    by intros cur [= <-].
  - by exists c.
Qed.

(** ** Backoff *)

Section backoff.
Context {J : Json}.

Definition backoff_inv (s : reader * ui) : Prop :=
  0 <= reconnectAttempt (fst s) /\
  forall d, where_ (fst s) = Sleeping d -> 1 <= reconnectAttempt (fst s) /\ d = delay (reconnectAttempt (fst s)).

(** [s'] is a correct successor of a state with attempt count [n]. *)
Definition backoff_step (n : Z) (s : reader * ui) : Prop :=
  backoff_inv s /\ n <= reconnectAttempt (fst s).

Lemma stay_backoff r u c w :
  0 <= reconnectAttempt r -> (forall d, w <> Sleeping d) ->
  backoff_step (reconnectAttempt r) (mkReader c (reconnectAttempt r) w, u).
Proof. intros H Hw. split; [split; [done|]|simpl; lia]. simpl. intros d ->. by destruct (Hw d). Qed.

Lemma retry_backoff r u : 0 <= reconnectAttempt r -> backoff_step (reconnectAttempt r) (retry r u).
Proof.
  intros H. unfold retry. split; [split|]; simpl; [lia| |lia]. intros d [= <-]. split; [lia|done].
Qed.

Lemma throw_backoff msg ab r u :
  0 <= reconnectAttempt r -> backoff_step (reconnectAttempt r) (on_throw msg ab r u).
Proof. intros H. unfold on_throw. case_match; [by apply stay_backoff|by apply retry_backoff]. Qed.

Lemma connect_backoff r u : 0 <= reconnectAttempt r -> backoff_step (reconnectAttempt r) (connect r u).
Proof. intros H. unfold connect. case_match; by apply stay_backoff. Qed.

Lemma step_backoff s i : backoff_inv s -> backoff_step (reconnectAttempt (fst s)) (step s i).
Proof.
  destruct s as [r u]. intros Hs. pose proof Hs as [H0 _]. simpl in H0. cbn [fst].
  assert (Hsame : forall v, backoff_step (reconnectAttempt r) (r, v)) by (split; [exact Hs|simpl; lia]).
  unfold step. destruct i, (where_ r) eqn:Ew; try apply Hsame;
    try (by apply throw_backoff); try (by apply connect_backoff).
  - destruct isOk; [by apply stay_backoff|by apply throw_backoff].
  - case_match; [by apply stay_backoff|by apply retry_backoff].
  - by apply stay_backoff.
  - by apply stay_backoff.
  - by apply stay_backoff.
  - split; [split; [done|]|simpl; lia]. simpl. intros d [= <-]. apply Hs. simpl. by rewrite Ew.
Qed.

(** The delay before a new connection is one second more for each earlier
    drop, at least one and at most five seconds; the number of drops is never
    reset, so that after five drops every later delay is five seconds, however
    long the connections in between have worked. *)
Theorem session_backoff a u ins1 ins2 :
  let s1 := run (start a u) ins1 in
  let s2 := run s1 ins2 in
  reconnectAttempt (fst s1) <= reconnectAttempt (fst s2) /\
  forall d, where_ (fst s2) = Sleeping d ->
    1000 <= d <= 5000 /\ d = Z.min 5000 (1000 * reconnectAttempt (fst s2)) /\
    (5 <= reconnectAttempt (fst s1) -> d = 5000).
Proof.
  intros s1 s2.
  assert (Hrun : forall ins s, backoff_inv s ->
    backoff_inv (run s ins) /\ reconnectAttempt (fst s) <= reconnectAttempt (fst (run s ins))).
  { induction ins as [|i ins IH]; intros s Hs; [split; [done|unfold run; simpl; lia]|]. cbn [run fold_left].
    destruct (step_backoff s i Hs) as [Hs' Hle]. destruct (IH _ Hs') as [H1 H2].
    split; [done|]. unfold run in H2. lia. }
  assert (Hstart : backoff_inv (start a u)).
  { unfold start, connect. case_match; by split. }
  destruct (Hrun ins1 _ Hstart) as [H1 _]. destruct (Hrun ins2 _ H1) as [[_ H2] Hle].
  split; [done|]. intros d Hd. destruct (H2 d Hd) as [Hp ->]. unfold delay.
  fold s1 in Hp, Hle |- *. fold s2 in Hp, Hle |- *. lia.
Qed.
End backoff.

(** ** A concrete stream *)

Definition sample_args : Args := mkArgs false "broker" "s1" true.
Definition fresh_ui : ui := mkUi disabled "" None None 0 None [] EMPTY_PERSISTED_STATE None.

Definition dq (s : string) : string := String dquote (s ++s String dquote "").
Definition sample_event (n : string) : SseEvent :=
  mkSseEvent "message" ("{" ++s dq "type" ++s ":" ++s dq n ++s "}") (Some n).
Definition sample_log : list SseEvent := map sample_event ["e1"; "e2"; "e3"].

(** The first connection breaks after two events, the second repeats the
    second one. *)
Definition sample_inputs : list input :=
  [Response true 200; StreamEvent (sample_event "e1") (int 10) false; StreamEvent (sample_event "e2") (int 11) true;
   StreamThrow "TypeError: network" false; Wake; Response true 200;
   StreamEvent (sample_event "e2") (int 12) false; StreamEvent (sample_event "e3") (int 13) false].

Definition final_ui : ui := snd (@run text_json (@start sample_args fresh_ui) sample_inputs).

Lemma session_stream_exactly_once_witness :
  log_ok sample_log /\ map p_id (events (persistedRef final_ui)) = [Some "e1"; Some "e2"; Some "e3"] /\
  exists c, taken sample_log c final_ui.
Proof.
  assert (HL : log_ok sample_log) by (split; by_compute).
  split; [exact HL|]. split; [by vm_compute|].
  apply (@session_stream_exactly_once text_json sample_log sample_args fresh_ui sample_inputs HL eq_refl).
  apply (served_open _ _ _ "" 0 200); [done|by left|].
  apply served_event; [done|]. apply served_event; [done|]. apply served_drop; [done|].
  apply served_drop; [done|].
  apply (served_open _ _ _ "e2" 1 200); [by vm_compute| |].
  { right. exists 1%nat, (sample_event "e2"). split; [done|]. split; [by vm_compute|].
    unfold SESSION_STREAM_MAX_EVENTS. lia. }
  apply served_event; [done|]. apply served_event; [done|]. apply served_nil.
Defined.

(** The storage has refused the second event, and then takes the third. *)
Lemma session_reload_witness :
  Forall input_ok sample_inputs /\
  exists n, (n <= 8)%nat /\ @readPersistedSessionStream text_json (stored final_ui) (int 99)
    = persistedRef (snd (@run text_json (@start sample_args fresh_ui) (take n sample_inputs))).
Proof.
  assert (Hn : forall n, num_ok (int n) = true -> gtb (int n) (int 0) = true -> clock_ok (int n)) by done.
  assert (H : Forall input_ok sample_inputs).
  { repeat (apply List.Forall_cons; [try exact I; try (split; [done|apply Hn; by vm_compute])|]).
    apply List.Forall_nil. }
  split; [exact H|].
  destruct (@session_reload text_json text_json_laws sample_args fresh_ui sample_inputs (int 99)
    eq_refl eq_refl eq_refl eq_refl H) as [(n & Hl & Hr & _) _].
  exists n. split; [exact Hl|exact Hr].
Defined.
