(* ===== verification/RunWatch.v ===== *)
(** The run-watch table as the page keeps it, src/ui/src/hooks/useRunWatchState.ts:
    a JSON text in the browser's storage, read and written through the codec,
    pushed to the server with a throttle, merged with the server's copy, and
    used to resume watching a run after a reload. *)
From S2P Require Import Prelude JsNumber JsString JsValue JsOrder Shapes JsonUtils JsonText JobStore Caches JobStreaming.

Definition RUN_WATCH_PREFS_KIND : string := "run_watch".
Definition RUN_WATCH_PREFS_VERSION : Z := 1.
Definition RUN_WATCH_PERSIST_MIN_INTERVAL_MS : Z := 5000.

(** ** Reading the stored table *)

(** The fields that are copied again onto the spread record, if they have
    their type; copying a record's own property onto it changes nothing. *)
Definition copy_field (k : string) (keep : value -> bool) (r entry : obj value) : obj value :=
  if keep (prop k r) then set k (prop k r) entry else entry.

Definition parse_entry (entryRecord : obj value) : obj value :=
  copy_field "updated_unix_ms" is_finite_number entryRecord
    (copy_field "started_unix_ms" is_finite_number entryRecord
       (copy_field "cursor" is_finite_number entryRecord
          (copy_field "job_id" is_string entryRecord entryRecord))).

Definition parse_step (next : RunWatchByScope) (p : string * value) : RunWatchByScope :=
  let entryRecord := safeObject (snd p) in
  if (length (keys entryRecord) =? 0)%nat then next
  else set (fst p) (VObject (parse_entry entryRecord)) next.

Definition parseRunWatchByScope (v : value) : RunWatchByScope :=
  fold_left parse_step (safeObject v) [].

(** ** State *)

Inductive ServerStatus := idle | loading | ready | error.

#[export] Instance ServerStatus_eq_dec : EqDecision ServerStatus.
Proof. solve_decision. Defined.

(** The arguments of the hook; times are whole milliseconds. *)
Record Args := mkArgs {
  runWatchCanUse : bool; watchKey : string; watchSession : string }.

Record state := mkState {
  jobsJson : string;                       (* the stored text *)
  jobsRef : string;                        (* jobsBySessionJsonRef: the text as of the last render *)
  serverStatus : ServerStatus;
  timer : option Z;                        (* the throttle's timer: when it fires *)
  toSend : option RunWatchByScope;         (* runWatchPersistRef.pending *)
  lastSentAt : Z;
  pushes : list RunWatchByScope;           (* pushes in flight, oldest first *)
  scheduled : option RunWatchByScope;      (* history: the table scheduled last *)
  sent : list RunWatchByScope              (* history: the tables pushed, newest first *)
}.

(** [shown] is the server status of the render whose callback runs, which may
    be an earlier one than the current status. *)
Inductive input :=
  | Write (shown : ServerStatus) (f : RunWatchByScope -> RunWatchByScope) (now : Z)
  | Render                                                     (* the ref follows the state *)
  | TimerFires
  | PushSettles (i : nat) (isOk : bool) (now : Z)
  | LoadStarts
  | LoadSettles (shown : ServerStatus) (prefs : option value) (now : Z)   (* None: a failure *)
  | Unmount.

Section watch.
Context {J : Json} (a : Args).

Definition runWatchMode (s : state) : string :=
  if negb (runWatchCanUse a) then "local"
  else match serverStatus s with
       | error => "local"
       | loading => "server:loading"
       | ready | idle => "server"
       end.

(** [loadJson] gives a record or [null]. *)
Definition table_of (text : string) : RunWatchByScope :=
  parseRunWatchByScope (match loadJson text with Some o => VObject o | None => VNull end).

Definition set_text (text : string) (s : state) : state :=
  mkState text (jobsRef s) (serverStatus s) (timer s) (toSend s) (lastSentAt s) (pushes s) (scheduled s) (sent s).

Definition set_server (st : ServerStatus) (s : state) : state :=
  mkState (jobsJson s) (jobsRef s) st (timer s) (toSend s) (lastSentAt s) (pushes s) (scheduled s) (sent s).

(** [parseJobsBySession]: reads the ref, prunes, stores the pruned table. *)
Definition parseJobsBySession (now : Z) (s : state) : RunWatchByScope * state :=
  let '(next, changed) :=
    pruneJobsBySession (int now) (table_of (jobsRef s)) JOB_STORE_MAX JOB_STORE_TTL_MS in
  (next, if changed then set_text (stringify (VObject next)) s else s).

Definition scheduleRunWatchPersist (shown : ServerStatus) (next : RunWatchByScope) (now : Z)
    (s : state) : state :=
  if negb (runWatchCanUse a) then s
  else if bool_decide (shown = error) then s
  else
    let t := match timer s with
             | Some t => t
             | None => now + Z.max (RUN_WATCH_PERSIST_MIN_INTERVAL_MS - (now - lastSentAt s)) 0
             end in
    mkState (jobsJson s) (jobsRef s) (serverStatus s) (Some t) (Some next) (lastSentAt s) (pushes s)
      (Some next) (sent s).

(** [writeJobsBySession]: the updater runs on the stored text. *)
Definition writeJobs (shown : ServerStatus) (f : RunWatchByScope -> RunWatchByScope) (now : Z)
    (s : state) : state :=
  let next := f (table_of (jobsJson s)) in
  set_text (stringify (VObject next)) (scheduleRunWatchPersist shown next now s).

(** The timer's callback; the push leaves when there is a table to send. *)
Definition fire (s : state) : state :=
  let s' := mkState (jobsJson s) (jobsRef s) (serverStatus s) None None (lastSentAt s) (pushes s)
              (scheduled s) (sent s) in
  match toSend s with
  | None => s'
  | Some next =>
      if runWatchCanUse a then
        mkState (jobsJson s) (jobsRef s) (serverStatus s) None None (lastSentAt s) (pushes s ++ [next])
          (scheduled s) (next :: sent s)
      else s'
  end.

(** The body that is pushed. *)
Definition push_payload (clientId : string) (next : RunWatchByScope) : value :=
  VObject [("client_id", VString clientId); ("client_kind", VString RUN_WATCH_PREFS_KIND);
    ("prefs", VObject [("run_watch", VObject [("version", VNumber (int RUN_WATCH_PREFS_VERSION));
                                              ("by_scope", VObject next)])])].

Definition push_settled (i : nat) (isOk : bool) (now : Z) (s : state) : state :=
  match pushes s !! i with
  | None => s
  | Some _ =>
      mkState (jobsJson s) (jobsRef s) (if isOk then ready else error) (timer s) (toSend s)
        (if isOk then now else lastSentAt s) (delete i (pushes s)) (scheduled s) (sent s)
  end.

(** The rest of [loadServerRunWatch] after the answer. *)
Definition load_settled (shown : ServerStatus) (prefs : option value) (now : Z) (s : state) : state :=
  match prefs with
  | None => set_server error s
  | Some prefs =>
      let remoteMap := fst (pruneJobsBySession (int now) (extractRunWatchByScope prefs)
                              JOB_STORE_MAX JOB_STORE_TTL_MS) in
      let '(localMap, s) := parseJobsBySession now s in
      let merged := mergeRunWatchByScope localMap remoteMap in
      let s := if runWatchMapsEqual merged localMap then s else set_text (stringify (VObject merged)) s in
      let s := if runWatchMapsEqual merged remoteMap then s else scheduleRunWatchPersist shown merged now s in
      set_server ready s
  end.

Definition step (s : state) (i : input) : state :=
  match i with
  | Write shown f now => writeJobs shown f now s
  | Render => mkState (jobsJson s) (jobsJson s) (serverStatus s) (timer s) (toSend s) (lastSentAt s)
                (pushes s) (scheduled s) (sent s)
  | TimerFires => match timer s with Some _ => fire s | None => s end
  | PushSettles i isOk now => push_settled i isOk now s
  | LoadStarts => if runWatchCanUse a then set_server loading s else s
  | LoadSettles shown prefs now => load_settled shown prefs now s
  | Unmount => mkState (jobsJson s) (jobsRef s) (serverStatus s) None (toSend s) (lastSentAt s)
                 (pushes s) (scheduled s) (sent s)
  end.

Definition run (s : state) (ins : list input) : state := fold_left step ins s.

(** The hook as mounted on a stored text. *)
Definition init (text : string) : state := mkState text text idle None None 0 [] None [].

(** ** Resuming a run *)

(** What the resuming effect found: the job and the cursor to resume from. *)
Record Resume := mkResume { r_job : string; r_cursor : number }.

(** [typeof c === "number" && finite && c >= 0 ? Math.floor(c) : 0]. *)
Definition resume_cursor (v : value) : number :=
  match as_finite v with
  | Some c => if geb c (int 0) then math_floor c else int 0
  | None => int 0
  end.

(** The move of an entry kept under the bare session id. *)
Definition migrate (sid : string) (prev : RunWatchByScope) : RunWatchByScope :=
  if truthy (of_option (get (watchKey a) prev)) then prev
  else remove sid (set (watchKey a) (of_option (get sid prev)) prev).

Definition forget (prev : RunWatchByScope) : RunWatchByScope := remove (watchKey a) prev.

(** The effect up to its request; [None]: it returns early. *)
Definition resume_start (shown : ServerStatus) (u : ui) (now : Z) (s : state) : state * option Resume :=
  if truthy_str (default "" (activeJobId u)) then (s, None)
  else
    let sid := trim (watchSession a) in
    if negb (truthy_str sid) then (s, None)
    else
      let '(jobs, s) := parseJobsBySession now s in
      let here := of_option (get (watchKey a) jobs) in
      let legacy := of_option (get sid jobs) in
      let rec := here |||| legacy in
      let jobId := default "" (as_string (vprop "job_id" rec)) in
      if negb (truthy_str jobId) then (s, None)
      else
        (if negb (truthy here) && truthy legacy then writeJobs shown (migrate sid) now s else s,
         Some (mkResume jobId (resume_cursor (vprop "cursor" rec)))).

(** The answer of the job endpoint; [cancelled] is the effect's cleanup. *)
Definition resume_settled (shown : ServerStatus) (r : Resume) (job : option JobResp) (cancelled : bool) (now : Z)
    (u : ui) (s : state) : ui * state :=
  match job with
  | None => (u, s)
  | Some job =>
      if cancelled then (u, s)
      else if negb (ok job) then (u, writeJobs shown forget now s)
      else
        let status := default "" (j_status job) in
        if bool_decide (status = "queued") || bool_decide (status = "running") then
          (setActiveJobId (Some (r_job r))
             (setLiveEvents []
                (setJobUpdatedMs (j_updated job)
                   (setJobStatus (Some status) (setJobError None (setCursor (r_cursor r) u))))), s)
        else (u, writeJobs shown forget now s)
  end.

(** ** Following the cursor *)

(** The interval's callback on the table. *)
Definition track (jobId : string) (cursor now : number) (prev : RunWatchByScope) : RunWatchByScope :=
  match get (watchKey a) prev with
  | Some (VObject current) =>
      if negb (bool_decide (prop "job_id" current = VString jobId)) then prev
      else if strict_eq (prop "cursor" current) (VNumber cursor) then prev
      else set (watchKey a)
             (VObject (set "updated_unix_ms" (VNumber now) (set "cursor" (VNumber cursor) current))) prev
  | _ => prev
  end.

Definition tick (shown : ServerStatus) (u : ui) (now : Z) (s : state) : state :=
  match activeJobId u with
  | Some jobId =>
      if truthy_str jobId && truthy_str (trim (watchSession a))
      then writeJobs shown (track jobId (JobStreaming.cursor u) (int now)) now s else s
  | None => s
  end.
End watch.

(** ** The stored text as a table *)

Definition nonempty_entry (v : value) : bool := match v with VObject (_ :: _) => true | _ => false end.

Definition clean (t : RunWatchByScope) : RunWatchByScope := List.filter (fun p => nonempty_entry (snd p)) t.

(** A table that reading returns as it is. *)
Definition stored_ok (t : RunWatchByScope) : Prop := json_ok (VObject t) = true /\ clean t = t.

Lemma copy_field_same k keep r : keep VUndefined = false -> copy_field k keep r r = r.
Proof.
  intros Hu. unfold copy_field, prop. destruct (get k r) as [v|] eqn:E; simpl; [|by rewrite Hu].
  case_match; [by apply set_same|done].
Qed.

Lemma parse_entry_same r : parse_entry r = r.
Proof. unfold parse_entry. by rewrite !copy_field_same. Qed.

Lemma parse_step_eq o p :
  parse_step o p = if nonempty_entry (snd p) then set (fst p) (snd p) o else o.
Proof.
  destruct p as [k v]. unfold parse_step. cbn [fst snd]. rewrite parse_entry_same.
  by destruct v as [| | | | | |[|q l]].
Qed.

Lemma parse_of_entries o : parseRunWatchByScope (VObject o) = of_entries (clean o).
Proof.
  unfold parseRunWatchByScope, of_entries. change (safeObject (VObject o)) with o.
  generalize (@nil (string * value)). induction o as [|p o IH]; intros acc; simpl; [done|].
  rewrite parse_step_eq. unfold clean in *. cbn [List.filter].
  by destruct (nonempty_entry (snd p)); rewrite IH.
Qed.

Lemma clean_clean t : clean (clean t) = clean t.
Proof. apply filter_bool_id. by intros p [_ H]%elem_of_filter_bool. Qed.

Lemma stored_clean t : json_ok (VObject t) = true -> stored_ok (clean t).
Proof. intros Ht. split; [by apply json_ok_filter|apply clean_clean]. Qed.

Lemma stored_filter p t : stored_ok t -> stored_ok (List.filter p t).
Proof.
  intros [H1 H2]. split; [by apply json_ok_filter|]. apply filter_bool_id.
  intros q [Hq _]%elem_of_filter_bool. rewrite <- H2 in Hq. by apply elem_of_filter_bool in Hq as [_ ?].
Qed.

Lemma stored_entry t p : stored_ok t -> p ∈ t -> nonempty_entry (snd p) = true.
Proof. intros [_ <-] Hp. by apply elem_of_filter_bool in Hp as [_ ?]. Qed.

#[export] Hint Resolve stored_clean stored_filter : js.

Lemma stored_of_entries t : stored_ok t -> of_entries t = t.
Proof. intros [(H1 & H2 & _)%json_ok_object_iff _]. by apply of_entries_ordered. Qed.

Lemma stored_prune now t n ttl : stored_ok t -> stored_ok (fst (pruneJobsBySession now t n ttl)).
Proof.
  intros Ht. rewrite prune_next. cbv zeta.
  rewrite (stored_of_entries (live_entries now ttl t)) by (by apply stored_filter).
  case_match; [unfold newest|]; by repeat apply stored_filter.
Qed.

Lemma json_ok_merge l r :
  json_ok (VObject l) = true -> json_ok (VObject r) = true -> json_ok (VObject (mergeRunWatchByScope l r)) = true.
Proof.
  intros Hl (_ & _ & Hr)%json_ok_object_iff. unfold mergeRunWatchByScope. revert l Hl.
  induction Hr as [|[k v] r Hv Hr IH]; intros l Hl; simpl; [done|]. apply IH.
  repeat case_match; auto with js.
Qed.

Lemma json_ok_prune now t n ttl :
  json_ok (VObject t) = true -> json_ok (VObject (fst (pruneJobsBySession now t n ttl))) = true.
Proof.
  intros Ht. rewrite prune_next. cbv zeta.
  replace (of_entries (live_entries now ttl t)) with (live_entries now ttl t).
  { case_match; [unfold newest|]; by repeat apply json_ok_filter. }
  pose proof (json_ok_filter (live_entry now ttl) t Ht) as (H1 & H2 & _)%json_ok_object_iff.
  symmetry. by apply of_entries_ordered.
Qed.

Lemma json_ok_vprop k v : json_ok v = true -> truthy (vprop k v) = true -> json_ok (vprop k v) = true.
Proof.
  destruct v; simpl; try done. unfold prop. destruct (get k o) eqn:E; simpl; [|done].
  intros. by eapply json_ok_get.
Qed.

Lemma json_ok_extract prefs : json_ok prefs = true -> json_ok (VObject (extractRunWatchByScope prefs)) = true.
Proof.
  intros H. unfold extractRunWatchByScope.
  destruct (is_objectish prefs); [|done].
  pose proof (json_ok_vprop "run_watch" prefs H) as H1.
  destruct (vprop "run_watch" prefs) as [| | | | |l|o] eqn:E1; try done.
  specialize (H1 eq_refl). pose proof (json_ok_vprop "by_scope" (VObject o) H1) as H2.
  cbn [is_objectish]. destruct (vprop "by_scope" (VObject o)); try done. by apply H2.
Qed.

Lemma stored_set k v t :
  json_ok v = true -> nonempty_entry v = true -> stored_ok t -> stored_ok (set k v t).
Proof.
  intros Hv Hne Ht. split; [apply json_ok_set; [done|apply Ht]|]. apply filter_bool_id.
  intros p [-> | Hp]%elem_of_set; [done|by eapply stored_entry|].
  by destruct Ht as [(? & _)%json_ok_object_iff _].
Qed.

Section table.
Context {J : Json} {L : JsonLaws J}.

Lemma table_of_stringify t : json_ok (VObject t) = true -> table_of (stringify (VObject t)) = clean t.
Proof.
  intros Ht. unfold table_of, loadJson. rewrite safeJsonParse_stringify by done.
  change (parseRunWatchByScope (VObject t) = clean t). rewrite parse_of_entries.
  by apply stored_of_entries, stored_clean.
Qed.

Lemma table_of_stored t : stored_ok t -> table_of (stringify (VObject t)) = t.
Proof. intros [H1 H2]. by rewrite table_of_stringify. Qed.
End table.

(** ** The abstract table *)

(** What the hook promises its callers: a table that writers update in place,
    with the copy the page last rendered, and a merge with the server's copy
    that starts from the rendered one. *)
Definition abs_step (p : RunWatchByScope * RunWatchByScope) (i : input) : RunWatchByScope * RunWatchByScope :=
  let '(table, rendered) := p in
  match i with
  | Write _ f _ => (clean (f table), rendered)
  | Render => (table, table)
  | LoadSettles _ (Some prefs) now =>
      let '(local, changed) := pruneJobsBySession (int now) rendered JOB_STORE_MAX JOB_STORE_TTL_MS in
      let remote := fst (pruneJobsBySession (int now) (extractRunWatchByScope prefs)
                           JOB_STORE_MAX JOB_STORE_TTL_MS) in
      let merged := mergeRunWatchByScope local remote in
      (if runWatchMapsEqual merged local then (if changed then local else table) else clean merged, rendered)
  | _ => p
  end.

(** The writers keep tables representable; the server sends JSON. *)
Definition input_ok (i : input) : Prop :=
  match i with
  | Write _ f _ => forall t, stored_ok t -> json_ok (VObject (f t)) = true
  | LoadSettles _ (Some prefs) _ => json_ok prefs = true
  | _ => True
  end.

Section refine.
Context {J : Json} {L : JsonLaws J} (a : Args).

Definition abs (s : state) : RunWatchByScope * RunWatchByScope := (table_of (jobsJson s), table_of (jobsRef s)).

Definition abs_ok (p : RunWatchByScope * RunWatchByScope) : Prop := stored_ok (fst p) /\ stored_ok (snd p).

Lemma schedule_text shown next now s :
  jobsJson (scheduleRunWatchPersist a shown next now s) = jobsJson s
  /\ jobsRef (scheduleRunWatchPersist a shown next now s) = jobsRef s.
Proof. unfold scheduleRunWatchPersist. by repeat case_match. Qed.

Lemma abs_load shown prefs now s :
  abs_ok (abs s) -> json_ok prefs = true ->
  let s' := load_settled a shown (Some prefs) now s in
  abs s' = abs_step (abs s) (LoadSettles shown (Some prefs) now) /\ abs_ok (abs s').
Proof.
  intros [Ht Hr] Hp. cbn [fst snd abs] in *. unfold load_settled, parseJobsBySession, abs, abs_step.
  pose proof (stored_prune (int now) _ JOB_STORE_MAX JOB_STORE_TTL_MS Hr) as Hl.
  destruct (pruneJobsBySession (int now) (table_of (jobsRef s)) JOB_STORE_MAX JOB_STORE_TTL_MS)
    as [local changed]. cbn [fst] in Hl.
  pose proof (json_ok_prune (int now) _ JOB_STORE_MAX JOB_STORE_TTL_MS (json_ok_extract _ Hp)) as Hrem.
  set (remote := fst _) in *. pose proof (json_ok_merge local remote (proj1 Hl) Hrem) as Hm.
  set (merged := mergeRunWatchByScope local remote) in *. cbn zeta. unfold abs_ok.
  destruct (runWatchMapsEqual merged local), changed, (runWatchMapsEqual merged remote);
    cbn [set_server jobsJson jobsRef];
    rewrite ?(proj1 (schedule_text _ _ _ _)), ?(proj2 (schedule_text _ _ _ _));
    cbn [set_text jobsJson jobsRef fst snd];
    rewrite ?table_of_stringify by (done || apply Hl); rewrite ?(proj2 Hl);
    auto with js.
Qed.

Lemma abs_sim s i : abs_ok (abs s) -> input_ok i ->
  abs (step a s i) = abs_step (abs s) i /\ abs_ok (abs (step a s i)).
Proof.
  intros Hs Hi. destruct i as [shown f now| | |j isOk now| |shown [prefs|] now|]; cbn [step].
  - unfold writeJobs, abs, abs_step, set_text. cbn [jobsJson jobsRef].
    rewrite (proj2 (schedule_text _ _ _ _)). destruct Hs as [Ht Hr].
    pose proof (Hi _ Ht) as Hf. cbn [abs fst] in Hf. rewrite table_of_stringify by done.
    split; [done|]. split; [by apply stored_clean|done].
  - split; [done|]. by split; apply Hs.
  - unfold fire. by repeat case_match.
  - unfold push_settled. by case_match.
  - by case_match.
  - by apply abs_load.
  - done.
  - done.
Qed.
End refine.

(** C34: the stored table is a refinement of a table in memory: whatever the
    interleaving of writers, renders, timers, pushes and server loads, what
    the next read of the storage gives is what the abstract table holds, so
    every write acts on the result of the one before it, and a load replaces
    the table by the merge of the rendered table and the server's. *)
Theorem run_watch_refines_table {J : Json} {L : JsonLaws J} (a : Args) (text : string) (ins : list input)
    (Htext : stored_ok (table_of text)) (Hins : Forall input_ok ins) :
  abs (run a (init text) ins) = fold_left abs_step ins (table_of text, table_of text)
  /\ abs_ok (abs (run a (init text) ins)).
Proof.
  change (table_of text, table_of text) with (abs (init text)).
  assert (Hs : abs_ok (abs (init text))) by done. revert Hs. unfold run. generalize (init text).
  induction Hins as [|i ins Hi Hins IH]; intros s Hs; [done|]. cbn [fold_left].
  destruct (abs_sim a s i Hs Hi) as [<- Hs']. by apply IH.
Qed.

(** ** The throttle *)

(** Nothing scheduled is forgotten: the last table is waiting for the timer or
    is the last one pushed. *)
Definition throttle_ok (s : state) : Prop :=
  match timer s with
  | Some _ => toSend s = scheduled s /\ is_Some (scheduled s)
  | None => toSend s = None /\ scheduled s = head (sent s)
  end.

Section throttle.
Context {J : Json} (a : Args) (Hcan : runWatchCanUse a = true).

Lemma throttle_schedule shown next now s : throttle_ok s -> throttle_ok (scheduleRunWatchPersist a shown next now s).
Proof.
  intros Hs. unfold scheduleRunWatchPersist. rewrite Hcan. cbn. case_bool_decide; [done|].
  unfold throttle_ok. cbn. eauto.
Qed.

Lemma throttle_text text s : throttle_ok s -> throttle_ok (set_text text s).
Proof. done. Qed.

Lemma throttle_step s i : i <> Unmount -> throttle_ok s -> throttle_ok (step a s i).
Proof.
  intros Hi Hs. destruct i as [shown f now| | |j isOk now| |shown [prefs|] now|]; cbn [step]; try done.
  - by apply throttle_text, throttle_schedule.
  - unfold throttle_ok in Hs. destruct (timer s) eqn:E; [|by unfold throttle_ok; rewrite E].
    unfold fire. rewrite Hcan. destruct Hs as [-> [next ->]]. unfold throttle_ok. by rewrite ?E.
  - unfold push_settled. by case_match.
  - by rewrite Hcan.
  - unfold load_settled, parseJobsBySession. destruct (pruneJobsBySession _ (table_of (jobsRef s)) _ _).
    destruct b; cbn zeta; repeat case_match; try done; by apply throttle_schedule.
Qed.
End throttle.

(** While the page is mounted the throttle loses no table: the table
    scheduled last is the one waiting for the timer, or it is the one pushed
    last; a write arms the timer for at most five seconds, unless it is armed
    already, and when the timer fires the table of the last write leaves. *)
Theorem scheduled_table_delivered {J : Json} (a : Args) (text : string) (ins : list input)
    (Hcan : runWatchCanUse a = true) (Hins : Forall (fun i => i <> Unmount) ins) :
  let s := run a (init text) ins in
  throttle_ok s
  /\ forall shown f now, shown <> error -> lastSentAt s <= now ->
       let s' := step a s (Write shown f now) in
       head (sent (step a s' TimerFires)) = Some (f (table_of (jobsJson s)))
       /\ exists t, timer s' = Some t
            /\ (timer s = Some t \/ now <= t <= now + RUN_WATCH_PERSIST_MIN_INTERVAL_MS
                                    /\ lastSentAt s + RUN_WATCH_PERSIST_MIN_INTERVAL_MS <= t).
Proof.
  cbn zeta. assert (Hs : throttle_ok (init text)) by done. split.
  - revert Hs. unfold run. generalize (init text). induction Hins as [|i ins Hi Hins IH]; [done|].
    intros s Hs. cbn [fold_left]. by apply IH, throttle_step.
  - generalize (run a (init text) ins). intros s shown f now Hne Hnow.
    cbn [step]. unfold writeJobs, scheduleRunWatchPersist. rewrite Hcan, (bool_decide_false _ Hne).
    cbn [negb set_text timer]. unfold fire. cbn [set_text toSend]. rewrite Hcan. split; [done|].
    eexists. split; [done|]. unfold RUN_WATCH_PERSIST_MIN_INTERVAL_MS.
    destruct (timer s); [by left|right; lia].
Qed.

Definition watch_args : Args := mkArgs true "scope::s1" "s1".

Definition job_entry (job : string) (cursor : Z) : value :=
  VObject [("job_id", VString job); ("cursor", VNumber (int cursor))].

Lemma scheduled_table_delivered_witness :
  let s := run (J := text_json) watch_args (init "{}")
             [Write idle (set "a" (job_entry "j1" 3)) 10000; TimerFires; PushSettles 0 true 10200;
              Write ready (set "b" (job_entry "j2" 4)) 11000] in
  throttle_ok s /\ timer s = Some 15200.
Proof.
  split; [|by vm_compute].
  refine (proj1 (scheduled_table_delivered (J := text_json) watch_args "{}" _ _ _)); [done|].
  by repeat constructor.
Defined.

(** The throttle does not see a push in flight: two tables written while
    the first push has not settled are both in flight at once, with no delay
    between them, whatever the time since the last success. *)
Theorem throttle_ignores_push_in_flight {J : Json} (a : Args) (s : state) (f g : RunWatchByScope -> RunWatchByScope)
    (now : Z) (Hcan : runWatchCanUse a = true) (Ht : timer s = None)
    (Hlast : lastSentAt s + RUN_WATCH_PERSIST_MIN_INTERVAL_MS <= now) :
  let s1 := step a s (Write ready f now) in
  let s2 := step a s1 TimerFires in
  let s3 := step a s2 (Write ready g now) in
  timer s1 = Some now /\ timer s3 = Some now
  /\ pushes (step a s3 TimerFires) = pushes s ++ [f (table_of (jobsJson s)); g (table_of (jobsJson s2))].
Proof.
  cbn zeta. cbn [step]. unfold writeJobs, scheduleRunWatchPersist, fire. rewrite Hcan.
  rewrite bool_decide_false by done. rewrite Ht. cbn. rewrite <- app_assoc.
  unfold RUN_WATCH_PERSIST_MIN_INTERVAL_MS in *.
  replace (now + Z.max (5000 - (now - lastSentAt s)) 0) with now by lia. done.
Qed.

Lemma throttle_ignores_push_in_flight_witness :
  length (pushes (step (J := text_json) watch_args (step watch_args (step watch_args
    (step watch_args (init "{}") (Write ready (set "a" (job_entry "j1" 3)) 10000)) TimerFires)
    (Write ready (set "b" (job_entry "j2" 4)) 10000)) TimerFires)) = 2%nat.
Proof.
  pose proof (throttle_ignores_push_in_flight (J := text_json) watch_args (init "{}")
    (set "a" (job_entry "j1" 3)) (set "b" (job_entry "j2" 4)) 10000 eq_refl eq_refl) as H.
  destruct H as (_ & _ & ->); [by vm_compute|]. done.
Defined.

Lemma run_watch_refines_table_witness :
  let ins := [Write idle (set "a" (job_entry "j1" 3)) 10000; Render;
              LoadSettles idle (Some (VObject [("run_watch", VObject [("by_scope",
                VObject [("b", job_entry "j2" 4)])])])) 10000] in
  fst (abs (J := text_json) (run watch_args (init "{}") ins))
  = [("a", job_entry "j1" 3); ("b", job_entry "j2" 4)].
Proof.
  cbn zeta.
  match goal with |- context [run _ _ ?l] => set (ins := l) end.
  assert (Hins : Forall input_ok ins).
  { apply List.Forall_cons; [|apply List.Forall_cons; [done|apply List.Forall_cons; [by vm_compute|done]]].
    intros t [Ht _]. apply json_ok_set; [by vm_compute|done]. }
  assert (Htext : stored_ok (table_of (J := text_json) "{}")) by by_compute.
  rewrite (proj1 (run_watch_refines_table (J := text_json) watch_args "{}" ins Htext Hins)).
  by vm_compute.
Defined.

(** ** Reloading the page *)

Lemma as_finite_int n : as_finite (VNumber (int n)) = Some (int n).
Proof. done. Qed.

Lemma resume_cursor_int n : 0 <= n -> resume_cursor (VNumber (int n)) = int n.
Proof.
  intros Hn. unfold resume_cursor. rewrite as_finite_int. unfold geb. rewrite leb_int, floor_int.
  by rewrite (proj2 (Z.leb_le 0 n) Hn).
Qed.

(** An entry written at [t] is live for the time to live. *)
Lemma fresh_entry entry t now ttl :
  0 < t -> 0 < ttl -> Z.abs (now - t) < 2 ^ 53 -> now - t <= ttl ->
  get "updated_unix_ms" entry = Some (VNumber (int t)) ->
  expired (int now) ttl (prune_ts (VObject entry)) = false.
Proof.
  intros Ht Httl Habs Hfresh Hg.
  assert (prune_ts (VObject entry) = int t) as ->.
  { unfold prune_ts, number_field, vprop, prop. by rewrite Hg. }
  unfold expired, gtb. rewrite (sub_int now t Habs), !ltb_int.
  replace (ttl <? now - t) with false by (symmetry; apply Z.ltb_ge; lia). by rewrite !andb_false_r.
Qed.

(** A live entry of a table that fits is kept. *)
Lemma get_prune_live k v now t :
  wf t -> Z.of_nat (length t) <= JOB_STORE_MAX -> get k t = Some v -> is_entry v = true ->
  expired now JOB_STORE_TTL_MS (prune_ts v) = false ->
  get k (fst (pruneJobsBySession now t JOB_STORE_MAX JOB_STORE_TTL_MS)) = Some v.
Proof.
  intros Hwf Hlen Hg He Hx.
  pose proof (live_length now t JOB_STORE_TTL_MS Hwf) as Hl.
  destruct (next_cases now t JOB_STORE_MAX JOB_STORE_TTL_MS ltac:(done)) as [[-> _]|[_ ?]]; [|lia].
  rewrite get_live, Hg by done. unfold live_entry. cbn [snd]. by rewrite He, Hx.
Qed.

Section reload.
Context {J : Json} {L : JsonLaws J} (a : Args).

(** The resuming effect finds the entry kept under the scope key. *)
Lemma resume_here shown u now s entry jobId :
  truthy_str (default "" (activeJobId u)) = false -> truthy_str (trim (watchSession a)) = true ->
  get (watchKey a) (fst (parseJobsBySession now s)) = Some (VObject entry) ->
  prop "job_id" entry = VString jobId -> jobId <> "" ->
  snd (resume_start a shown u now s) = Some (mkResume jobId (resume_cursor (prop "cursor" entry))).
Proof.
  intros Hu Hsid Hg Hjob Hne. unfold resume_start. rewrite Hu, Hsid. cbn [negb].
  destruct (parseJobsBySession now s) as [jobs s1]. cbn [fst] in Hg. rewrite Hg.
  change (of_option (Some (VObject entry)) |||| of_option (get (trim (watchSession a)) jobs)) with (VObject entry).
  cbn [vprop]. rewrite Hjob. cbn [as_string]. change (default "" (Some jobId)) with jobId.
  apply truthy_str_true in Hne. rewrite Hne. done.
Qed.

Lemma resume_running shown r job now u s status :
  ok job = true -> j_status job = Some status -> status = "queued" \/ status = "running" ->
  let u' := fst (resume_settled a shown r (Some job) false now u s) in
  activeJobId u' = Some (r_job r) /\ cursor u' = r_cursor r /\ liveEvents u' = [].
Proof.
  intros Hok Hst Hs. unfold resume_settled. rewrite Hok, Hst. cbn [negb].
  change (default "" (Some status)) with status.
  by destruct Hs as [-> | ->].
Qed.

Lemma at_log_resumed (log : list value) u c :
  (c <= length log)%nat -> cursor u = pos c -> liveEvents u = [] -> at_log log u.
Proof.
  intros Hc Hu Hl. exists c, c. split; [lia|]. split; [done|]. rewrite Hl. unfold segment.
  by rewrite drop_ge by (rewrite length_take; lia).
Qed.
End reload.

(** A tick at cursor [c] stores the entry with that cursor and the time. *)
Section tick.
Context {J : Json} {L : JsonLaws J} (a : Args) (jobId : string) (c : number) (now : Z) (entry : obj value)
  (u : ui) (s : state) (shown : ServerStatus).
Context (Hsid : truthy_str (trim (watchSession a)) = true) (Hjob : jobId <> "")
  (Hs : stored_ok (table_of (jobsJson s)))
  (Hget : get (watchKey a) (table_of (jobsJson s)) = Some (VObject entry))
  (Hentry : prop "job_id" entry = VString jobId) (Hold : strict_eq (prop "cursor" entry) (VNumber c) = false)
  (Hu : activeJobId u = Some jobId) (Hcur : cursor u = c)
  (Hnum : num_ok c = true) (Hnow : num_ok (int now) = true).

Definition tracked_entry : obj value :=
  set "updated_unix_ms" (VNumber (int now)) (set "cursor" (VNumber c) entry).

Definition tracked_table : RunWatchByScope := set (watchKey a) (VObject tracked_entry) (table_of (jobsJson s)).

Lemma tick_text : jobsJson (tick a shown u now s) = stringify (VObject tracked_table).
Proof.
  unfold tick. rewrite Hu, Hsid, (proj2 (truthy_str_true jobId) Hjob). cbn [andb].
  unfold writeJobs, track. cbn [set_text jobsJson]. rewrite Hget, Hentry, Hcur, bool_decide_true by done.
  cbn [negb]. by rewrite Hold.
Qed.

Lemma tracked_stored : stored_ok tracked_table.
Proof.
  assert (He : json_ok (VObject tracked_entry) = true).
  { apply json_ok_set; [done|]. apply json_ok_set; [done|]. exact (json_ok_get _ _ _ (proj1 Hs) Hget). }
  apply stored_set; [done| |done].
  pose proof (get_set_eq "updated_unix_ms" (VNumber (int now)) (set "cursor" (VNumber c) entry)) as Hg.
  unfold tracked_entry. by destruct (set "updated_unix_ms" _ _).
Qed.

Lemma tracked_length : length tracked_table = length (table_of (jobsJson s)).
Proof.
  unfold tracked_table, set. rewrite (proj2 (has_true _ _)) by eauto.
  by rewrite <- (length_keys (replace _ _ _)), keys_replace, length_keys.
Qed.

(** After a reload at [now'] the entry is still there. *)
Lemma tracked_reload now' :
  Z.of_nat (length (table_of (jobsJson s))) <= JOB_STORE_MAX -> 0 < now ->
  now <= now' <= now + JOB_STORE_TTL_MS ->
  get (watchKey a) (fst (parseJobsBySession now' (init (jobsJson (tick a shown u now s)))))
  = Some (VObject tracked_entry).
Proof.
  intros Hsize Hpos Hlater. rewrite tick_text. unfold parseJobsBySession. cbn [init jobsRef].
  rewrite table_of_stringify, (proj2 tracked_stored) by apply tracked_stored.
  pose proof tracked_stored as [(Hwf & _)%json_ok_object_iff _].
  pose proof (get_prune_live (watchKey a) (VObject tracked_entry) (int now') tracked_table Hwf) as Hg.
  rewrite tracked_length in Hg. destruct (pruneJobsBySession _ _ _ _). cbn [fst] in *.
  apply Hg; [done|apply get_set_eq|done|]. unfold JOB_STORE_TTL_MS in *.
  apply (fresh_entry tracked_entry now); [done|done|lia|lia|apply get_set_eq].
Qed.
End tick.

(** C35: closing the page loses at most the events shown, not the place: after
    a tick at cursor [c] of the job's log, a page that is loaded again within
    a week finds the job in its storage, and when the daemon says that it is
    queued or running, watches it from cursor [c], in a state from which the
    job watcher follows the log. *)
Theorem reload_resumes_log {J : Json} {L : JsonLaws J} (a : Args) (log : list value) (jobId : string)
    (c : nat) (now now' : Z) (entry : obj value) (u u' : ui) (s : state) (shown : ServerStatus)
    (Hsid : truthy_str (trim (watchSession a)) = true) (Hjob : jobId <> "")
    (Hs : stored_ok (table_of (jobsJson s))) (Hsize : Z.of_nat (length (table_of (jobsJson s))) <= JOB_STORE_MAX)
    (Hget : get (watchKey a) (table_of (jobsJson s)) = Some (VObject entry))
    (Hentry : prop "job_id" entry = VString jobId) (Hold : strict_eq (prop "cursor" entry) (VNumber (pos c)) = false)
    (Hu : activeJobId u = Some jobId) (Hcur : cursor u = pos c) (Hc : (c <= length log)%nat)
    (Hnum : num_ok (pos c) = true) (Hnow : num_ok (int now) = true) (Hpos : 0 < now)
    (Hu' : activeJobId u' = None) (Hlater : now <= now' <= now + JOB_STORE_TTL_MS) :
  exists r, snd (resume_start a shown u' now' (init (jobsJson (tick a shown u now s)))) = Some r
    /\ r = mkResume jobId (pos c)
    /\ forall job status s', ok job = true -> j_status job = Some status ->
         status = "queued" \/ status = "running" ->
         let u'' := fst (resume_settled a shown r (Some job) false now' u' s') in
         activeJobId u'' = Some jobId /\ cursor u'' = pos c /\ at_log log u''.
Proof.
  exists (mkResume jobId (pos c)). split; [|split; [done|]].
  - erewrite (resume_here a _ _ _ _ (tracked_entry (pos c) now entry) jobId); [|by rewrite Hu'|done| | |done].
    + unfold tracked_entry, prop. rewrite get_set_ne, get_set_eq by done. change (of_option (Some (VNumber (pos c)))) with (VNumber (pos c)).
      unfold pos. by rewrite resume_cursor_int by lia.
    + by eapply tracked_reload.
    + unfold tracked_entry, prop. by rewrite !get_set_ne by done.
  - intros job status s' Hok Hst Hss.
    destruct (resume_running a shown (mkResume jobId (pos c)) job now' u' s' status Hok Hst Hss) as (H1 & H2 & H3).
    split; [done|]. split; [done|]. by eapply at_log_resumed.
Qed.

Definition watching_entry : obj value := [("job_id", VString "j1"); ("cursor", VNumber (int 3))].

Definition watching_ui : ui := setCursor (pos 5) (setActiveJobId (Some "j1") idle_ui).

Definition watching_text : string := stringify (Json := text_json) (VObject [("scope::s1", VObject watching_entry)]).

Lemma reload_resumes_log_witness : exists r,
  snd (resume_start (J := text_json) watch_args ready (setActiveJobId None idle_ui) 61000
        (init (jobsJson (tick watch_args ready watching_ui 1000 (init watching_text))))) = Some r
  /\ r = mkResume "j1" (pos 5).
Proof.
  assert (Hs : stored_ok (table_of (J := text_json) (jobsJson (init watching_text)))) by by_compute.
  assert (Hg : get (watchKey watch_args) (table_of (J := text_json) (jobsJson (init watching_text)))
               = Some (VObject watching_entry)) by by_compute.
  assert (Hlen : Z.of_nat (length (table_of (J := text_json) (jobsJson (init watching_text)))) <= JOB_STORE_MAX) by by_compute.
  assert (Hn1 : num_ok (pos 5) = true) by (by vm_compute).
  assert (Hn2 : num_ok (int 1000) = true) by (by vm_compute).
  destruct (reload_resumes_log (J := text_json) watch_args (replicate 6 VNull) "j1" 5 1000 61000 watching_entry
    watching_ui (setActiveJobId None idle_ui) (init watching_text) ready eq_refl ltac:(done) Hs Hlen Hg eq_refl ltac:(by vm_compute)
    eq_refl eq_refl ltac:(simpl; lia) Hn1 Hn2 ltac:(lia) eq_refl ltac:(unfold JOB_STORE_TTL_MS; lia)) as (r & H1 & H2 & _).
  exists r. split; [exact H1|exact H2].
Defined.

(** A table that pruning leaves alone is not written back. *)
Lemma parse_unchanged {J : Json} now s :
  stored_ok (table_of (jobsRef s)) -> fst (parseJobsBySession now s) = table_of (jobsRef s) ->
  parseJobsBySession now s = (table_of (jobsRef s), s).
Proof.
  intros [(Hwf & _)%json_ok_object_iff _]. unfold parseJobsBySession.
  pose proof (changed_iff (int now) (table_of (jobsRef s)) JOB_STORE_MAX JOB_STORE_TTL_MS Hwf ltac:(done)) as Hc.
  destruct (pruneJobsBySession _ _ _ _) as [next changed]. cbn [fst snd] in *. intros ->.
  by rewrite (proj2 Hc).
Qed.

(** An entry kept under the bare session id by an older version is moved:
    the effect resumes the run from it, and in the storage the entry is then
    under the scope key and gone from the session id, every other scope
    unchanged; the move acts on the stored table, and leaves it alone when the
    scope key has an entry there already. *)
Theorem legacy_entry_moved {J : Json} {L : JsonLaws J} (a : Args) (shown : ServerStatus) (u : ui) (now : Z)
    (s : state) (entry : obj value) (jobId : string)
    (Hu : truthy_str (default "" (activeJobId u)) = false)
    (Hsid : truthy_str (trim (watchSession a)) = true) (Hdiff : watchKey a <> trim (watchSession a))
    (Hs : abs_ok (abs s)) (Hfresh : fst (parseJobsBySession now s) = table_of (jobsRef s))
    (Hhere : get (watchKey a) (table_of (jobsRef s)) = None)
    (Hlegacy : get (trim (watchSession a)) (table_of (jobsRef s)) = Some (VObject entry))
    (Hrendered : table_of (jobsJson s) = table_of (jobsRef s))
    (Hentry : prop "job_id" entry = VString jobId) (Hjob : jobId <> "") :
  exists s', resume_start a shown u now s = (s', Some (mkResume jobId (resume_cursor (prop "cursor" entry))))
    /\ get (watchKey a) (table_of (jobsJson s')) = Some (VObject entry)
    /\ get (trim (watchSession a)) (table_of (jobsJson s')) = None
    /\ (forall k, k <> watchKey a -> k <> trim (watchSession a) ->
          get k (table_of (jobsJson s')) = get k (table_of (jobsJson s)))
    /\ migrate a (trim (watchSession a)) (table_of (jobsJson s')) = table_of (jobsJson s').
Proof.
  set (sid := trim (watchSession a)) in *. destruct Hs as [Ht Hr]. cbn [abs fst snd] in Ht, Hr.
  set (t := table_of (jobsJson s)) in *. set (t' := migrate a sid t).
  assert (Ht' : t' = remove sid (set (watchKey a) (VObject entry) t)).
  { unfold t', migrate. rewrite Hrendered, Hhere, Hlegacy. done. }
  exists (writeJobs a shown (migrate a sid) now s).
  assert (Htab : table_of (jobsJson (writeJobs a shown (migrate a sid) now s)) = t').
  { unfold writeJobs. cbn [set_text jobsJson]. fold t t'. rewrite Ht'. apply table_of_stored.
    rewrite <- Hrendered in Hlegacy. apply stored_filter, stored_set; [|by eapply (stored_entry t (sid, _)), get_in|done].
    exact (json_ok_get _ _ _ (proj1 Ht) Hlegacy). }
  assert (Hparse : parseJobsBySession now s = (table_of (jobsRef s), s)) by (by apply parse_unchanged; [apply Hr|]).
  split_and!; rewrite ?Htab, ?Ht'.
  - unfold resume_start. rewrite Hu. fold sid. rewrite Hsid, Hparse. cbn [negb]. rewrite Hhere, Hlegacy.
    change (of_option None |||| of_option (Some (VObject entry))) with (VObject entry). cbn [vprop].
    rewrite Hentry. cbn [as_string]. change (default "" (Some jobId)) with jobId.
    by rewrite (proj2 (truthy_str_true jobId) Hjob).
  - rewrite get_remove, bool_decide_false, get_set_eq by done. done.
  - by rewrite get_remove, bool_decide_true.
  - intros k H1 H2. by rewrite get_remove, bool_decide_false, get_set_ne.
  - unfold migrate at 1. rewrite get_remove, bool_decide_false, get_set_eq by done. done.
Qed.

Definition legacy_text : string := stringify (Json := text_json) (VObject [("s1", VObject watching_entry)]).

Lemma legacy_entry_moved_witness : exists s',
  resume_start (J := text_json) watch_args ready (setActiveJobId None idle_ui) 1000 (init legacy_text)
  = (s', Some (mkResume "j1" (int 3)))
  /\ get "scope::s1" (table_of (J := text_json) (jobsJson s')) = Some (VObject watching_entry).
Proof.
  assert (Hs : stored_ok (table_of (J := text_json) legacy_text)) by by_compute.
  assert (Hp : fst (parseJobsBySession (J := text_json) 1000 (init legacy_text)) = table_of (jobsRef (init legacy_text)))
    by by_compute.
  assert (Hh : get (watchKey watch_args) (table_of (J := text_json) (jobsRef (init legacy_text))) = None) by by_compute.
  assert (Hl : get (trim (watchSession watch_args)) (table_of (J := text_json) (jobsRef (init legacy_text)))
               = Some (VObject watching_entry)) by by_compute.
  destruct (legacy_entry_moved (J := text_json) watch_args ready (setActiveJobId None idle_ui) 1000 (init legacy_text)
    watching_entry "j1" eq_refl eq_refl ltac:(done) (conj Hs Hs) Hp Hh Hl eq_refl eq_refl ltac:(done))
    as (s' & H1 & H2 & _).
  exists s'. split; [exact H1|exact H2].
Defined.
