(* ===== verification/WorkflowPanel.v ===== *)
(** The workflow panel (src/ui/src/components/workflow/workflowPanelUtils.ts):
    rows of the daemon's answers, the levels in which the tasks of a workflow
    are shown, and the checks of a schedule before it is sent. *)
From S2P Require Import Prelude JsNumber JsString JsValue JsOrder Shapes JsonUtils JsonText WorkflowGraph.

(** ** Rows *)

Record WorkflowTask := mkTask {
  task_key : string; t_status : option string; depends_on : list string;
  t_allow_error : option bool; t_attempt : option number; t_max_attempts : option number;
  t_error : option string; ready_unix_ms : option number; started_unix_ms : option number;
  finished_unix_ms : option number }.

Definition STATUS_OPTIONS : list string := ["running"; "queued"; "active"; "done"; "error"; "cancelled"; "all"].
Definition SCHEDULE_STATUS_OPTIONS : list string := ["active"; "paused"; "error"; "all"].
Definition SCHEDULE_RUN_STATUS_OPTIONS : list string := ["all"; "queued"; "running"; "done"; "error"].

(** The expressions of the presets. *)
Definition SCHEDULE_PRESETS : list (string * string) :=
  [("Every 15 min", "*/15 * * * *"); ("Hourly", "0 * * * *"); ("Daily 09:00", "0 9 * * *");
   ("Weekdays 09:00", "0 9 * * 1-5"); ("Weekly Mon 09:00", "0 9 * * 1"); ("Monthly 1st 09:00", "0 9 1 * *")].

Definition SCHEDULE_SAMPLE_SPEC : value :=
  VObject [
    ("tasks", VArray [VObject [
       ("task_id", VString "TASK_1");
       ("request", VObject [
          ("prompt", VString "Summarize the top 3 operational alerts from the last 24h.");
          ("no_session", VBool true)])]]);
    ("defaults", VObject [("model", VString "gpt-4o-mini"); ("max_steps", VNumber (int 6))])].

Definition toStringArray (v : value) : list string := omap as_string (default [] (as_array v)).

Definition normalizeTask (raw : value) : option WorkflowTask :=
  match raw with
  | VObject r =>
      let taskId := default "" (as_string (prop "task_id" r)) in
      if truthy_str taskId then
        Some (mkTask taskId (as_string (prop "status" r)) (toStringArray (prop "depends_on" r))
          (as_bool (prop "allow_error" r)) (as_number (prop "attempt" r)) (as_number (prop "max_attempts" r))
          (as_string (prop "error" r)) (as_number (prop "ready_unix_ms" r))
          (as_number (prop "started_unix_ms" r)) (as_number (prop "finished_unix_ms" r)))
      else None
  | _ => None
  end.

Definition summary_fields : schema :=
  [("status", is_string); ("priority", is_number); ("deadline_unix_ms", is_number);
   ("idempotency_key", is_string); ("trace_id", is_string); ("session_id", is_string);
   ("cancel_requested", is_boolean); ("error", is_string); ("created_unix_ms", is_number);
   ("updated_unix_ms", is_number)].

Definition normalizeWorkflowSummary (raw : value) : option (obj value) :=
  match raw with VObject r => row ["workflow_id"] summary_fields r | _ => None end.

Definition normalizeBudgetSnapshot (raw : value) : option (obj value) :=
  match raw with VObject r => Some r | _ => None end.

Definition schedule_fields : schema :=
  [("status", is_string); ("cron", is_string); ("timezone", is_string);
   ("created_unix_ms", is_number); ("updated_unix_ms", is_number); ("last_tick_unix_ms", is_number);
   ("next_tick_unix_ms", is_number); ("last_error", is_string); ("metadata", is_record)].

Definition normalizeSchedule (raw : value) : option (obj value) :=
  match raw with VObject r => row ["schedule_id"] schedule_fields r | _ => None end.

Definition schedule_run_fields : schema :=
  [("tick_unix_ms", is_number); ("created_unix_ms", is_number); ("status", is_string); ("error", is_string)].

Definition normalizeScheduleRun (raw : value) : option (obj value) :=
  match raw with VObject r => row ["schedule_id"; "workflow_id"] schedule_run_fields r | _ => None end.

Definition statusBadge (status : option string) : string :=
  let s := to_lower (default "" status) in
  if bool_decide (s = "done") then "bg-emerald-500/15 text-emerald-200 border-emerald-500/30"
  else if bool_decide (s = "running") then "bg-sky-500/15 text-sky-200 border-sky-500/30"
  else if bool_decide (s = "queued") then "bg-amber-500/15 text-amber-200 border-amber-500/30"
  else if bool_decide (s = "error") then "bg-rose-500/15 text-rose-200 border-rose-500/30"
  else if bool_decide (s = "cancelled") then "bg-slate-500/20 text-slate-200 border-slate-500/30"
  else "bg-white/10 text-white/70 border-white/10".

Definition canCancelStatus (status : option string) : bool :=
  let s := to_lower (default "" status) in bool_decide (s = "running") || bool_decide (s = "queued").

(** [resp.k] if it is an array, of a response that may be missing. *)
Definition resp_array (k : string) (resp : value) : option (list value) :=
  if truthy resp then as_array (vprop k resp) else None.

Definition extractWorkflows (resp : value) : list (obj value) :=
  match resp_array "workflows" resp with
  | Some l => if truthy (vprop "ok" resp) then omap normalizeWorkflowSummary l else []
  | None => []
  end.

Definition extractTasks (resp : value) : list WorkflowTask :=
  omap normalizeTask (default [] (resp_array "tasks" resp)).

Definition extractWorkflowSummary (resp : value) : option (obj value) :=
  normalizeWorkflowSummary (vprop "workflow" resp).

Definition extractSchedules (resp : value) : list (obj value) :=
  omap normalizeSchedule (default [] (resp_array "schedules" resp)).

Definition extractScheduleRuns (resp : value) : list (obj value) :=
  omap normalizeScheduleRun (default [] (resp_array "runs" resp)).

Definition extractWorkflowLimits (resp : value) : option (obj value) :=
  normalizeBudgetSnapshot (vprop "workflow_limits" resp).
Definition extractWorkflowUsage (resp : value) : option (obj value) :=
  normalizeBudgetSnapshot (vprop "workflow_usage" resp).
Definition extractWorkflowRemaining (resp : value) : option (obj value) :=
  normalizeBudgetSnapshot (vprop "workflow_remaining" resp).

(** [String(task.status || "unknown").toLowerCase()]. *)
Definition status_key (t : WorkflowTask) : string := to_lower (str_or (default "" (t_status t)) "unknown").

Definition countByStatus (ts : list WorkflowTask) : obj Z :=
  fold_left (fun counts t => set (status_key t) (default 0 (get (status_key t) counts) + 1) counts) ts [].

(** ** Levels *)

(** [levels], [visiting] and [hasCycle], which the closure mutates. *)
Abbreviation panel_state := (gmap string Z * gset string * bool)%type.

Definition task_ids (ts : list WorkflowTask) : list string := map task_key ts.

Definition depsMap (ts : list WorkflowTask) : deps_map :=
  let ids : gset string := list_to_set (task_ids ts) in
  fold_left (fun m t => <[task_key t := List.filter (fun d => bool_decide (d ∈ ids)) (depends_on t)]> m) ts ∅.

(** The set of unknown dependencies, in insertion order. *)
Definition missing_deps (ts : list WorkflowTask) : list string :=
  let ids : gset string := list_to_set (task_ids ts) in
  unique (List.filter (fun d => negb (bool_decide (d ∈ ids))) (concat (map depends_on ts))).

Definition str_gt (a b : string) : bool := String.ltb b a.

Fixpoint max_dep (go : string -> panel_state -> option (Z * panel_state))
    (deps : list string) (maxDep : Z) (st : panel_state) : option (Z * panel_state) :=
  match deps with
  | [] => Some (maxDep, st)
  | dep :: deps => '(l, st) ← go dep st; max_dep go deps (Z.max maxDep l) st
  end.

(** [None] only for want of fuel; one more than the number of tasks is enough
    (panel_levels_total). *)
Fixpoint panelLevel (fuel : nat) (m : deps_map) (id : string) (st : panel_state) : option (Z * panel_state) :=
  match fuel with
  | O => None
  | S f =>
      let '(levels, visiting, hasCycle) := st in
      match levels !! id with
      | Some l => Some (l, st)
      | None =>
          if bool_decide (id ∈ visiting) then Some (0, (levels, visiting, true))
          else
            '(maxDep, st) ← max_dep (panelLevel f m) (default [] (m !! id)) (-1)
                              (levels, {[id]} ∪ visiting, hasCycle);
            let '(levels, visiting, hasCycle) := (st : panel_state) in
            let level := maxDep + 1 in
            Some (level, (<[id := level]> levels, visiting ∖ {[id]}, hasCycle))
      end
  end.

Fixpoint panel_levels (fuel : nat) (m : deps_map) (ids : list string) (st : panel_state) : option panel_state :=
  match ids with
  | [] => Some st
  | id :: ids => '(_, st) ← panelLevel fuel m id st; panel_levels fuel m ids st
  end.

Record Levels := mkLevels { levels : list (list WorkflowTask); hasCycle : bool; missingDeps : list string }.

Section locale.
Context {L : Locale}.

Definition task_gt (a b : WorkflowTask) : bool := 0 <? localeCompare (task_key a) (task_key b).

Definition level_rows (level : WorkflowTask -> Z) (ts : list WorkflowTask) : list (list WorkflowTask) :=
  let buckets := fold_left (bucket_step level) ts ∅ in
  let maxLevel := foldr Z.max 0 (map fst (map_to_list buckets)) in
  map (fun i => sort_by task_gt (default [] (buckets !! i))) (seqZ 0 (maxLevel + 1)).

Definition buildLevels_opt (ts : list WorkflowTask) : option Levels :=
  '(lv, _, c) ← panel_levels (S (length ts)) (depsMap ts) (task_ids ts) (∅, ∅, false);
  Some (mkLevels (level_rows (fun t => default 0 (lv !! task_key t)) ts) c
          (sort_by str_gt (missing_deps ts))).

(** The computation always answers (buildLevels_total). *)
Definition buildLevels (ts : list WorkflowTask) : Levels := default (mkLevels [] false []) (buildLevels_opt ts).
End locale.

(** ** Schedules *)

Definition quote : string := String "034" "".

Definition all_digits (s : string) : bool :=
  truthy_str s && bool_decide (filter_str is_digit s = s).

(** [token.match(/^\*\/(\d+)$/)]. *)
Definition step_match (token : string) : option string :=
  match token with
  | String "*" (String "/" ds) => if all_digits ds then Some ds else None
  | _ => None
  end.

(** [token.match(/^(\d+)-(\d+)$/)]. *)
Definition range_match (token : string) : option (string * string) :=
  match split_on (is_char "-") token with
  | [a; b] => if all_digits a && all_digits b then Some (a, b) else None
  | _ => None
  end.

Definition parseAtom (token : string) (lo hi : Z) (label : string) : option string :=
  if bool_decide (token = "*") then None
  else match step_match token with
  | Some ds =>
      let step := str_to_number ds in
      if negb (is_finite step) || leb step (int 0) then Some (label ++s " step must be > 0") else None
  | None =>
      match range_match token with
      | Some (a, b) =>
          let start := str_to_number a in
          let stop := str_to_number b in
          if negb (is_finite start) || negb (is_finite stop) then Some (label ++s " range must be numeric")
          else if gtb start stop then Some (label ++s " range start must be <= end")
          else if ltb start (int lo) || gtb stop (int hi)
          then Some (label ++s " range must be within " ++s pretty lo ++s "-" ++s pretty hi)
          else None
      | None =>
          let single := str_to_number token in
          if negb (is_finite single)
          then Some (label ++s " entry " ++s quote ++s token ++s quote ++s " is invalid")
          else if ltb single (int lo) || gtb single (int hi)
          then Some (label ++s " entry must be within " ++s pretty lo ++s "-" ++s pretty hi)
          else None
      end
  end.

Definition cron_ranges : list (Z * Z * string) :=
  [(0, 59, "minute"); (0, 23, "hour"); (1, 31, "day of month"); (1, 12, "month"); (0, 7, "weekday")].

Definition part_issues (p : (Z * Z * string) * string) : list string :=
  let '((lo, hi, label), part) := p in
  omap (fun token => parseAtom token lo hi label) (split_on (is_char ",") part).

Definition validateCronExpr (expr : string) : list string :=
  let trimmed := trim expr in
  if negb (truthy_str trimmed) then ["cron is required"]
  else
    let parts := split_runs is_ws false trimmed in
    if negb (length parts =? 5)%nat then ["cron must have 5 fields (min hour day month weekday)"]
    else concat (map part_issues (zip cron_ranges parts)).

(** [v !== undefined]. *)
Definition defined (v : value) : bool := negb (bool_decide (v = VUndefined)).

Definition task_issues (idx : nat) (task : value) : list string :=
  let at_ := "task[" ++s pretty (Z.of_nat idx) ++s "]" in
  match task with
  | VObject t =>
      (if is_string (prop "task_id" t) && truthy (prop "task_id" t) then [] else [at_ ++s ".task_id is required"])
      ++ (if defined (prop "depends_on" t) && negb (is_array (prop "depends_on" t))
          then [at_ ++s ".depends_on must be an array when provided"] else [])
      ++ (let hasRequest := is_record (prop "request" t) in
          let hasKind := truthy_str (trim (default "" (as_string (prop "kind" t)))) in
          if negb hasRequest && negb hasKind then [at_ ++s " must define request or kind"] else [])
  | _ => [at_ ++s " must be an object"]
  end.

Definition validateScheduleSpec (spec : value) : list string :=
  match spec with
  | VObject s =>
      (match prop "tasks" s with
       | VArray ((_ :: _) as tasks) => concat (imap task_issues tasks)
       | _ => ["spec.tasks must be a non-empty array"]
       end)
      ++ (if defined (prop "defaults" s) && negb (is_record (prop "defaults" s))
          then ["spec.defaults must be an object when provided"] else [])
  | _ => ["spec must be a JSON object"]
  end.

Definition coerceScheduleSpec (spec : value) : option value :=
  match validateScheduleSpec spec with [] => Some spec | _ => None end.

(** The rows of the panel are of the declared types: whatever the daemon
    sends, a workflow, schedule or schedule-run row that is shown has its
    identifiers trimmed and non-empty, every declared field of its type or
    [undefined], and every other property as sent; well-typed fields are never
    lost, and normalizing a normalized row changes nothing. *)
Theorem panel_rows_typed :
  row_ok ["workflow_id"] summary_fields normalizeWorkflowSummary
  /\ row_ok ["schedule_id"] schedule_fields normalizeSchedule
  /\ row_ok ["schedule_id"; "workflow_id"] schedule_run_fields normalizeScheduleRun.
Proof. split_and!; (apply row_row_ok; [by_compute|done]). Qed.

(** ** The levels agree with the composer's layout *)

(** Forgetting the cycle flag. *)
Definition erase (r : Z * panel_state) : Z * level_state := (r.1, r.2.1).

Lemma max_dep_erase go go' deps mx lv vs c :
  (forall d st, erase <$> go d st = go' d st.1) ->
  erase <$> max_dep go deps mx (lv, vs, c) = max_level go' deps mx (lv, vs).
Proof.
  intros Hgo. revert mx lv vs c. induction deps as [|d deps IH]; intros mx lv vs c; [done|]. simpl.
  pose proof (Hgo d (lv, vs, c)) as Hd. cbn [fst] in Hd. rewrite <- Hd.
  destruct (go d (lv, vs, c)) as [[l [[lv' vs'] c']]|]; [|done]. simpl. apply IH.
Qed.

Lemma panelLevel_erase fuel m id st : erase <$> panelLevel fuel m id st = computeLevel fuel m id st.1.
Proof.
  revert id st. induction fuel as [|f IH]; intros id [[lv vs] c]; [done|]. cbn [panelLevel computeLevel fst].
  destruct (lv !! id) as [l|]; [done|]. case_bool_decide; [done|].
  rewrite <- (max_dep_erase _ _ _ _ _ _ c (IH)).
  by destruct (max_dep _ _ _ _) as [[l [[lv' vs'] c']]|].
Qed.

Lemma panel_levels_erase fuel m ids st : fst <$> panel_levels fuel m ids st = all_levels fuel m ids st.1.
Proof.
  revert st. induction ids as [|id ids IH]; intros st; [done|]. cbn [panel_levels all_levels].
  rewrite <- panelLevel_erase. destruct (panelLevel fuel m id st) as [[l st']|]; [|done]. simpl. apply IH.
Qed.

(** ** The cycle flag *)

Section cycle.
Context (m : deps_map).

Abbreviation R := (fun d id => d ∈ default [] (m !! id)).

(** [needs x y]: [x] depends on [y], through one dependency or more. *)
Definition needs : string -> string -> Prop := tc (fun x y => R y x).

(** Every finished task is above its dependencies. *)
Definition finished (lv : gmap string Z) : Prop :=
  forall id l, lv !! id = Some l -> 0 <= l /\ forall d, R d id -> exists k, lv !! d = Some k /\ k < l.

(** A call leaves the pending tasks as they were and never lowers the flag. *)
Definition keeps (go : string -> panel_state -> option (Z * panel_state)) : Prop :=
  forall id lv vs c l lv' vs' c', go id (lv, vs, c) = Some (l, (lv', vs', c')) ->
    vs' = vs /\ (c = true -> c' = true).

Lemma max_dep_keeps go ds mx lv vs c r lv' vs' c' :
  keeps go -> max_dep go ds mx (lv, vs, c) = Some (r, (lv', vs', c')) -> vs' = vs /\ (c = true -> c' = true).
Proof.
  intros Hgo. revert mx lv c. induction ds as [|d ds IH]; intros mx lv c; simpl; [by intros [= <- <- <- <-]|].
  intros H. apply bind_Some in H as ([l [[lv1 vs1] c1]] & Hd & H).
  apply Hgo in Hd as [-> Hc]. apply IH in H as [-> Hc']. auto.
Qed.

Lemma panelLevel_keeps fuel : keeps (panelLevel fuel m).
Proof.
  induction fuel as [|f IH]; intros id lv vs c l lv' vs' c'; cbn [panelLevel]; [done|].
  destruct (lv !! id); [by intros [= <- <- <- <-]|].
  destruct (bool_decide_reflect (id ∈ vs)) as [|Hv]; [by intros [= <- <- <- <-]|].
  intros H. apply bind_Some in H as ([mx [[lv1 vs1] c1]] & Hd & [= <- <- <- <-]).
  apply max_dep_keeps in Hd as [-> Hc]; [|done]. split; [set_solver|done].
Qed.

(** A call made with the chain [vs] of pending tasks raises the flag only for a
    cycle, and when the flag stays down it leaves finished levels. *)
Definition sound (go : string -> panel_state -> option (Z * panel_state)) (id : string) (vs : gset string) : Prop :=
  forall lv c l lv' vs' c', go id (lv, vs, c) = Some (l, (lv', vs', c')) ->
    (c' = true -> c = true \/ exists x, needs x x) /\
    (c' = false -> finished lv ->
       finished lv' /\ lv ⊆ lv' /\ lv' !! id = Some l /\ 0 <= l /\ forall v, v ∈ vs -> lv' !! v = lv !! v).

Lemma max_dep_sound go ds mx vs lv c r lv' vs' c' :
  keeps go -> (forall d, d ∈ ds -> sound go d vs) ->
  max_dep go ds mx (lv, vs, c) = Some (r, (lv', vs', c')) ->
  (c' = true -> c = true \/ exists x, needs x x) /\
  (c' = false -> finished lv ->
     finished lv' /\ lv ⊆ lv' /\ mx <= r
     /\ (forall d, d ∈ ds -> exists k, lv' !! d = Some k /\ k <= r)
     /\ forall v, v ∈ vs -> lv' !! v = lv !! v).
Proof.
  intros Hk. revert mx lv c. induction ds as [|d ds IH]; intros mx lv c Hs; simpl.
  { intros [= <- <- <- <-]. split; [by left|]. intros _ Hf. split_and!; try done.
    intros d Hd. by apply not_elem_of_nil in Hd. }
  intros H. apply bind_Some in H as ([l [[lv1 vs1] c1]] & Hd & H).
  destruct (Hk _ _ _ _ _ _ _ _ Hd) as [-> _].
  pose proof (max_dep_keeps _ _ _ _ _ _ _ _ _ _ Hk H) as [_ Hmono].
  apply (Hs d (list_elem_of_here _ _)) in Hd as [Hcyc Hfin].
  apply IH in H as [Hcyc' Hfin']; [|intros; apply Hs; by right]. split.
  - intros Hc'. destruct (Hcyc' Hc') as [Hc1|]; [by apply Hcyc|by right].
  - intros Hc' Hf. destruct c1; [by rewrite Hmono in Hc'|].
    destruct (Hfin eq_refl Hf) as (Hf1 & Hsub & Hl & _ & Hkeep).
    destruct (Hfin' Hc' Hf1) as (Hf2 & Hsub' & Hmx & Hall & Hkeep').
    split_and!; [done|by etransitivity|lia| |].
    + intros d' [->|Hd']%elem_of_cons; [|by apply Hall]. exists l.
      split; [by eapply lookup_weaken|lia].
    + intros v Hv. by rewrite Hkeep', Hkeep.
Qed.

Lemma panelLevel_sound fuel id vs :
  (forall v, v ∈ vs -> needs v id) -> sound (panelLevel fuel m) id vs.
Proof.
  revert id vs. induction fuel as [|f IH]; intros id vs Hvs lv c l lv' vs' c'; cbn [panelLevel]; [done|].
  destruct (lv !! id) as [l0|] eqn:El.
  { intros [= <- <- <- <-]. split; [by left|]. intros _ Hf. destruct (Hf _ _ El). split_and!; done. }
  destruct (bool_decide_reflect (id ∈ vs)) as [Hv|Hv].
  { intros [= <- <- <- <-]. split; [right; eauto|done]. }
  intros H. apply bind_Some in H as ([mx [[lv1 vs1] c1]] & Hd & [= <- <- <- <-]).
  pose proof (panelLevel_keeps f) as Hk. destruct (max_dep_keeps _ _ _ _ _ _ _ _ _ _ Hk Hd) as [-> _].
  apply max_dep_sound in Hd as [Hcyc Hfin]; [|done|].
  - split; [done|]. intros Hc Hf. destruct (Hfin Hc Hf) as (Hf1 & Hsub & Hmx & Hall & Hkeep).
    assert (Hid : lv1 !! id = None) by (rewrite Hkeep by set_solver; done).
    split_and!; [|by apply insert_subseteq_r|by rewrite lookup_insert_eq|lia|].
    + intros x j. destruct (decide (x = id)) as [->|Hx].
      * rewrite lookup_insert_eq. intros [= <-]. split; [lia|]. intros d Hd.
        destruct (Hall d Hd) as (k & Hdk & Hle). exists k.
        rewrite lookup_insert_ne by congruence. split; [done|lia].
      * rewrite lookup_insert_ne by done. intros Hj. destruct (Hf1 _ _ Hj) as [Hj0 Hds]. split; [done|].
        intros d Hd. destruct (Hds d Hd) as (k & Hdk & Hlt). exists k.
        rewrite lookup_insert_ne by congruence. done.
    + intros v Hv'. rewrite lookup_insert_ne by set_solver. apply Hkeep. set_solver.
  - intros d Hd'. apply IH. intros v [->%elem_of_singleton|Hin]%elem_of_union; [by apply tc_once|].
    eapply tc_r; [by apply Hvs|done].
Qed.

Lemma panel_levels_sound fuel ids lv c lv' vs' c' :
  panel_levels fuel m ids (lv, ∅, c) = Some (lv', vs', c') ->
  (c' = true -> c = true \/ exists x, needs x x) /\ (c = true -> c' = true) /\
  (c' = false -> finished lv -> finished lv' /\ lv ⊆ lv' /\ forall id, id ∈ ids -> is_Some (lv' !! id)).
Proof.
  revert lv c. induction ids as [|id ids IH]; intros lv c; simpl.
  { intros [= <- _ <-]. split_and!; [by left|done|]. intros _ Hf. split_and!; try done.
    intros id Hid. by apply not_elem_of_nil in Hid. }
  intros H. apply bind_Some in H as ([l [[lv1 vs1] c1]] & Hd & H).
  destruct (panelLevel_keeps fuel _ _ _ _ _ _ _ _ Hd) as [-> Hmono].
  apply panelLevel_sound in Hd as [Hcyc Hfin]; [|set_solver].
  apply IH in H as (Hcyc' & Hmono' & Hfin'). split_and!; [|auto|].
  - intros Hc'. destruct (Hcyc' Hc') as [Hc1|]; [by apply Hcyc|by right].
  - intros Hc' Hf. destruct c1; [by rewrite Hmono' in Hc'|].
    destruct (Hfin eq_refl Hf) as (Hf1 & Hsub & Hl & _). destruct (Hfin' Hc' Hf1) as (Hf2 & Hsub' & Hall).
    split_and!; [done|by etransitivity|]. intros x [->|Hx]%elem_of_cons; [|by apply Hall].
    exists l. by eapply lookup_weaken.
Qed.

(** Finished levels leave no room for a cycle among the tasks that have one. *)
Lemma finished_needs lv x y :
  finished lv -> needs x y -> forall l, lv !! x = Some l -> exists k, lv !! y = Some k /\ k < l.
Proof.
  intros Hf. induction 1 as [x y Hxy|x y z Hxy _ IH]; intros l Hl.
  - by apply (proj2 (Hf x l Hl)).
  - destruct (proj2 (Hf x l Hl) y Hxy) as (k & Hk & Hlt). destruct (IH k Hk) as (j & Hj & ?). exists j. split; [done|lia].
Qed.
End cycle.

(** ** The rows *)

(** Levels are not negative, cycles or not. *)
Definition nonneg (lv : gmap string Z) : Prop := forall i k, lv !! i = Some k -> 0 <= k.

Definition lifts (go : string -> panel_state -> option (Z * panel_state)) : Prop :=
  forall id st l st', go id st = Some (l, st') -> nonneg st.1.1 -> 0 <= l /\ nonneg st'.1.1.

Lemma max_dep_nonneg go ds mx st r st' :
  lifts go -> max_dep go ds mx st = Some (r, st') -> nonneg st.1.1 -> mx <= r /\ nonneg st'.1.1.
Proof.
  intros Hgo. revert mx st. induction ds as [|d ds IH]; intros mx st; simpl; [by intros [= <- <-]|].
  intros H Hn. apply bind_Some in H as ([l st1] & Hd & H).
  destruct (Hgo _ _ _ _ Hd Hn) as [Hl Hn1]. destruct (IH _ _ H Hn1). split; [lia|done].
Qed.

Lemma panelLevel_nonneg fuel m : lifts (panelLevel fuel m).
Proof.
  induction fuel as [|f IH]; intros id [[lv vs] c] l st'; cbn [panelLevel fst snd]; [done|].
  destruct (lv !! id) as [k|] eqn:E; [intros [= <- <-] Hn; split; [by eapply Hn|done]|].
  case_bool_decide; [by intros [= <- <-]|].
  intros H' Hn. apply bind_Some in H' as ([mx [[lv1 vs1] c1]] & Hd & [= <- <-]).
  destruct (max_dep_nonneg _ _ _ _ _ _ IH Hd Hn) as [Hmx Hn1]. split; [lia|].
  intros i k. cbn [fst snd]. destruct (decide (i = id)) as [->|].
  - rewrite lookup_insert_eq. intros [= <-]. lia.
  - rewrite lookup_insert_ne by done. apply Hn1.
Qed.

Lemma panel_levels_nonneg fuel m ids st st' :
  panel_levels fuel m ids st = Some st' -> nonneg st.1.1 -> nonneg st'.1.1.
Proof.
  revert st. induction ids as [|id ids IH]; intros st; simpl; [by intros [= <-]|].
  intros H Hn. apply bind_Some in H as ([l st1] & Hd & H).
  destruct (panelLevel_nonneg _ _ _ _ _ _ Hd Hn). by eapply IH.
Qed.

(** A dependency between two tasks of the workflow. *)
Definition task_dep (ts : list WorkflowTask) (d id : string) : Prop :=
  exists t, t ∈ ts /\ task_key t = id /\ d ∈ depends_on t /\ d ∈ task_ids ts.

Lemma fold_insert_lookup {B} (f : WorkflowTask -> B) ts (m0 : gmap string B) id :
  NoDup (task_ids ts) ->
  fold_left (fun m t => <[task_key t := f t]> m) ts m0 !! id =
    match List.find (fun t => bool_decide (task_key t = id)) ts with
    | Some t => Some (f t)
    | None => m0 !! id
    end.
Proof.
  revert m0. induction ts as [|t ts IH]; intros m0; [done|].
  intros [Ht Hnd]%NoDup_cons. cbn [fold_left List.find]. rewrite IH by done.
  destruct (bool_decide_reflect (task_key t = id)) as [<-|Hne].
  - destruct (List.find _ ts) as [t'|] eqn:E; [|by rewrite lookup_insert_eq].
    apply find_some in E as [Hin Heq%bool_decide_eq_true]. destruct Ht. rewrite <- Heq.
    by apply list_elem_of_In, in_map.
  - destruct (List.find _ ts); [done|]. by rewrite lookup_insert_ne.
Qed.

Lemma depsMap_spec ts d id :
  NoDup (task_ids ts) -> d ∈ default [] (depsMap ts !! id) <-> task_dep ts d id.
Proof.
  intros Hnd. unfold depsMap. rewrite fold_insert_lookup, lookup_empty by done.
  unfold task_dep. destruct (List.find _ ts) as [t|] eqn:E.
  - apply find_some in E as [Hin%list_elem_of_In Heq%bool_decide_eq_true].
    change (default [] (Some ?l)) with l. rewrite elem_of_filter_bool, bool_decide_eq_true, elem_of_list_to_set.
    split; [intros []; eauto|]. intros (t' & Hin' & Heq' & Hd & Hid).
    assert (t' = t) as ->; [|done]. apply (NoDup_map_eq task_key ts); [done..|congruence].
  - split; [by intros ?%not_elem_of_nil|]. intros (t & Hin%list_elem_of_In & Heq & _).
    apply (find_none _ _ E) in Hin. by rewrite bool_decide_true in Hin.
Qed.

Lemma needs_tc ts x y :
  NoDup (task_ids ts) -> needs (depsMap ts) x y <-> tc (fun x y => task_dep ts y x) x y.
Proof.
  intros Hnd. unfold needs. split; (induction 1; [apply tc_once|eapply tc_l; [|done]]); by apply depsMap_spec.
Qed.

Lemma buildLevels_total ts : exists lv c,
  panel_levels (S (length ts)) (depsMap ts) (task_ids ts) (∅, ∅, false) = Some (lv, ∅, c)
  /\ all_levels (S (length ts)) (depsMap ts) (task_ids ts) (∅, ∅) = Some (lv, ∅).
Proof.
  destruct (all_levels_total (depsMap ts) (list_to_set (task_ids ts))) with
    (fuel := S (length ts)) (ids := task_ids ts) (lv := ∅ : gmap string Z) as [lv Hlv].
  - intros id d. unfold depsMap. intros Hd.
    assert (Hall : forall (us : list WorkflowTask) (m : deps_map),
      (forall i, i ∈ default [] (m !! id) -> i ∈ (list_to_set (task_ids ts) : gset string)) ->
      forall i, i ∈ default [] (fold_left (fun m t => <[task_key t := List.filter
        (fun d => bool_decide (d ∈ (list_to_set (task_ids ts) : gset string))) (depends_on t)]> m) us m !! id) ->
      i ∈ (list_to_set (task_ids ts) : gset string)).
    { induction us as [|u us IH]; intros m Hm; [done|]. cbn [fold_left]. apply IH. intros i.
      destruct (decide (task_key u = id)) as [->|]; [|by rewrite lookup_insert_ne by done; apply Hm].
      rewrite lookup_insert_eq. change (default [] (Some ?l)) with l.
      rewrite elem_of_filter_bool, bool_decide_eq_true. by intros []. }
    apply (Hall ts ∅); [|exact Hd]. intros i. rewrite lookup_empty. by intros ?%not_elem_of_nil.
  - set_solver.
  - pose proof (size_list_to_set_le (task_ids ts)) as H. unfold task_ids in *. rewrite length_map in H. lia.
  - pose proof (panel_levels_erase (S (length ts)) (depsMap ts) (task_ids ts) (∅, ∅, false)) as He.
    cbn [fst] in He. rewrite Hlv in He. destruct (panel_levels _ _ _ _) as [[[lv' vs'] c]|]; [|done].
    injection He as -> ->. eauto.
Qed.

Section rows.
Context {L : Locale} (level : WorkflowTask -> Z) (ts : list WorkflowTask).
Context (Hlevel : forall t, t ∈ ts -> 0 <= level t).

Let buckets := fold_left (bucket_step level) ts (∅ : gmap Z (list WorkflowTask)).
Let maxLevel := foldr Z.max 0 (map fst (map_to_list buckets)).

Lemma max_level_bound t : t ∈ ts -> 0 <= level t <= maxLevel.
Proof.
  intros Ht. split; [by apply Hlevel|].
  assert (Hin : level t ∈ map fst (map_to_list buckets)).
  { pose proof (bucket_lookup level ts (level t)) as Hb. fold buckets in Hb.
    assert (Hf : t ∈ List.filter (fun n => bool_decide (level n = level t)) ts)
      by (apply elem_of_filter_bool; by rewrite bool_decide_true).
    destruct (List.filter _ ts) as [|u us]; [by apply not_elem_of_nil in Hf|].
    change (map fst) with (fmap (M := list) (@fst Z (list WorkflowTask))).
    apply list_elem_of_fmap. eexists (level t, _). split; [done|]. by apply elem_of_map_to_list. }
  unfold maxLevel. revert Hin. generalize (map fst (map_to_list buckets)).
  induction l as [|x l IH]; [by intros ?%not_elem_of_nil|]. intros [<-|Hin]%elem_of_cons; simpl; [lia|].
  specialize (IH Hin). lia.
Qed.

Lemma level_rows_perm : concat (level_rows level ts) ≡ₚ ts.
Proof.
  unfold level_rows. fold buckets maxLevel. transitivity (concat (map (fun k =>
    List.filter (fun t => bool_decide (level t = k)) ts) (seqZ 0 (maxLevel + 1)))).
  - induction (seqZ 0 (maxLevel + 1)) as [|k ks IH]; [done|]. cbn [map concat].
    rewrite IH, sort_by_perm. unfold buckets. by rewrite bucket_row.
  - apply concat_classes_perm; [apply NoDup_seqZ|]. intros t Ht. apply elem_of_seqZ.
    pose proof (max_level_bound t Ht). lia.
Qed.

Lemma level_rows_lookup i row t :
  level_rows level ts !! i = Some row -> t ∈ row -> t ∈ ts /\ level t = Z.of_nat i.
Proof.
  unfold level_rows. fold buckets maxLevel.
  change (map (fun i => sort_by task_gt (default [] (buckets !! i)))) with
    (fmap (M := list) (fun i => sort_by task_gt (default [] (buckets !! i)))).
  rewrite list_lookup_fmap. intros (k & Hk & ->)%fmap_Some.
  apply lookup_seqZ in Hk as [-> _]. rewrite elem_of_sort_by. unfold buckets.
  rewrite bucket_row, elem_of_filter_bool, bool_decide_eq_true. by intros [].
Qed.
End rows.

Lemma tc_dep_key ts x y : tc (fun x y => task_dep ts y x) x y -> x ∈ task_ids ts.
Proof.
  intros H. assert (exists z, task_dep ts z x) as (z & t & Ht & <- & _).
  { destruct H as [x y H|x y z H _]; by exists y. }
  by apply list_elem_of_In, in_map, list_elem_of_In.
Qed.

(** Without a cycle the computed level is the length of the longest chain. *)
Lemma acyclic_rows {L : Locale} ts lv :
  NoDup (task_ids ts) -> finished (depsMap ts) lv -> (forall id, id ∈ task_ids ts -> is_Some (lv !! id)) ->
  all_levels (S (length ts)) (depsMap ts) (task_ids ts) (∅, ∅) = Some (lv, ∅) ->
  (forall t, t ∈ ts -> 0 <= default 0 (lv !! task_key t)) ->
  forall i row t, level_rows (fun t => default 0 (lv !! task_key t)) ts !! i = Some row -> t ∈ row ->
    longest (task_dep ts) (task_key t) (Z.of_nat i).
Proof.
  intros Hnd Hf Hall Ha Hlevel i row t Hrow Ht.
  apply (level_rows_lookup _ _ i row t) in Hrow as [Hin Hi]; [|done].
  set (rank := fun id => Z.to_nat (default 0 (lv !! id))).
  apply (all_levels_longest (depsMap ts)) with (rank := rank) in Ha as (Hok & _ & _); [| |done].
  - destruct (Hall (task_key t)) as [l Hl]; [by apply list_elem_of_In, in_map, list_elem_of_In|].
    rewrite Hl in Hi. change (l = Z.of_nat i) in Hi. subst l. destruct (Hok _ _ Hl) as (n & Hn & Hc & Hm).
    assert (Hch : forall j id, chain (fun d id => d ∈ default [] (depsMap ts !! id)) j id
                               <-> chain (task_dep ts) j id).
    { intros j id. split; (induction 1; [constructor|]); (econstructor; [|done]); by apply depsMap_spec. }
    exists n. split; [done|]. rewrite <- Hch. split; [done|]. intros k Hk. by apply Hm, Hch.
  - intros id d Hd. assert (Hid : id ∈ task_ids ts).
    { apply depsMap_spec in Hd as (u & Hu & <- & _); [|done]. by apply list_elem_of_In, in_map, list_elem_of_In. }
    destruct (Hall id Hid) as [l Hl]. destruct (Hf id l Hl) as [Hl0 Hds]. destruct (Hds d Hd) as (k & Hk & Hlt).
    destruct (Hf d k Hk) as [Hk0 _]. unfold rank. rewrite Hl, Hk. change (Z.to_nat k < Z.to_nat l)%nat. lia.
Qed.

(** C36: the panel's levels: the cycle flag is raised exactly when the tasks
    depend on each other in a cycle; without one, a task stands in the row
    given by the longest chain of dependencies that leads to it; with or
    without, every task stands in exactly one row; and the unknown
    dependencies are listed once each. *)
Theorem buildLevels_spec {L : Locale} (ts : list WorkflowTask) (Hnd : NoDup (task_ids ts)) :
  let r := buildLevels ts in
  (hasCycle r = true <-> exists id, tc (fun x y => task_dep ts y x) id id)
  /\ (hasCycle r = false -> forall i row t, levels r !! i = Some row -> t ∈ row ->
        longest (task_dep ts) (task_key t) (Z.of_nat i))
  /\ concat (levels r) ≡ₚ ts
  /\ NoDup (missingDeps r)
  /\ (forall d, d ∈ missingDeps r <-> d ∉ task_ids ts /\ exists t, t ∈ ts /\ d ∈ depends_on t).
Proof.
  destruct (buildLevels_total ts) as (lv & c & Hp & Ha).
  set (level := fun t => default 0 (lv !! task_key t)).
  assert (E : buildLevels ts = mkLevels (level_rows level ts) c (sort_by str_gt (missing_deps ts)))
    by (unfold buildLevels, buildLevels_opt; by rewrite Hp).
  rewrite E. cbn [levels hasCycle missingDeps]. clear E. unfold missing_deps.
  pose proof (panel_levels_sound (depsMap ts) _ _ _ _ _ _ _ Hp) as (Hcyc & _ & Hfin).
  pose proof (panel_levels_nonneg _ _ _ _ _ Hp ltac:(done)) as Hnn. cbn [fst] in Hnn.
  assert (Hlevel : forall t, t ∈ ts -> 0 <= level t).
  { intros t _. unfold level. destruct (lv !! task_key t) eqn:E; [by eapply Hnn|done]. }
  split_and!.
  - split; [intros Hc; destruct (Hcyc Hc) as [|[x Hx]]; [done|]; exists x; by apply needs_tc|].
    intros [x Hx]. destruct c; [done|]. exfalso. destruct (Hfin eq_refl ltac:(done)) as (Hf & _ & Hall).
    destruct (Hall x (tc_dep_key _ _ _ Hx)) as [l Hl]. apply (needs_tc ts x x Hnd) in Hx.
    destruct (finished_needs _ lv x x Hf Hx l Hl) as (k & Hk & Hlt). simplify_eq. lia.
  - intros ->. destruct (Hfin eq_refl ltac:(done)) as (Hf & _ & Hall). by apply acyclic_rows.
  - by apply level_rows_perm.
  - rewrite sort_by_perm. apply NoDup_unique.
  - intros d. rewrite sort_by_perm, elem_of_unique, elem_of_filter_bool, negb_true_iff, bool_decide_eq_false.
    rewrite elem_of_list_to_set, list_elem_of_In, in_concat. split.
    + intros [(l & (t & <- & Ht)%in_map_iff & Hd) Hn]. split; [done|]. exists t. by rewrite !list_elem_of_In.
    + intros [Hn (t & Ht & Hd)]. split; [|done]. exists (depends_on t).
      split; [apply in_map|]; by apply list_elem_of_In.
Qed.

Definition demo_task (k : string) (deps : list string) : WorkflowTask :=
  mkTask k None deps None None None None None None None.

Definition demo_tasks : list WorkflowTask :=
  [demo_task "a" []; demo_task "b" ["a"; "gone"]; demo_task "c" ["b"; "a"]].

Lemma buildLevels_spec_witness :
  hasCycle (buildLevels (L := code_unit_order) demo_tasks) = false
  /\ longest (task_dep demo_tasks) "c" 2 /\ "gone" ∈ missingDeps (buildLevels (L := code_unit_order) demo_tasks).
Proof.
  assert (Hnd : NoDup (task_ids demo_tasks)) by by_compute.
  assert (Hc : hasCycle (buildLevels (L := code_unit_order) demo_tasks) = false) by (by vm_compute).
  destruct (buildLevels_spec (L := code_unit_order) demo_tasks Hnd) as (_ & Hlong & _ & _ & Hmiss).
  split_and!; [exact Hc| |].
  - apply (Hlong Hc 2%nat [demo_task "c" ["b"; "a"]] (demo_task "c" ["b"; "a"])); [by vm_compute|by left].
  - apply Hmiss. split; [by by_compute|]. exists (demo_task "b" ["a"; "gone"]).
    split; [by right; left|by right; left].
Defined.

(** ** Schedules *)

(** Decimal digits, at least one. *)
Fixpoint digits_only (s : string) : Prop :=
  match s with "" => True | String c s => (48 <= Strings.Ascii.N_of_ascii c <= 57)%N /\ digits_only s end.
Definition decimal (s : string) : Prop := s <> "" /\ digits_only s.

Definition between (lo : Z) (x : number) (hi : Z) : Prop := is_finite x = true /\ leb (int lo) x = true /\ leb x (int hi) = true.

(** The entries of a field that are accepted, by what [Number] makes of them. *)
Inductive cron_entry (lo hi : Z) : string -> Prop :=
  | entry_any : cron_entry lo hi "*"
  | entry_step ds :
      decimal ds -> is_finite (str_to_number ds) = true -> gtb (str_to_number ds) (int 0) = true ->
      cron_entry lo hi ("*/" ++s ds)
  | entry_range a b :
      decimal a -> decimal b -> between lo (str_to_number a) hi -> between lo (str_to_number b) hi ->
      leb (str_to_number a) (str_to_number b) = true ->
      cron_entry lo hi (a ++s "-" ++s b)
  | entry_number token : between lo (str_to_number token) hi -> cron_entry lo hi token.

Lemma finite_gtb x y : is_finite x = true -> is_finite y = true -> gtb x y = negb (leb x y).
Proof. unfold gtb. intros Hx Hy. apply ltb_negb_leb; by destruct x, y. Qed.

Lemma digit_code c : is_digit c = true <-> (48 <= Strings.Ascii.N_of_ascii c <= 57)%N.
Proof. unfold is_digit, code. rewrite andb_true_iff, !N.leb_le. done. Qed.

Lemma all_digits_decimal s : all_digits s = true <-> decimal s.
Proof.
  unfold all_digits, decimal. rewrite andb_true_iff, truthy_str_true, bool_decide_eq_true.
  enough (filter_str is_digit s = s <-> digits_only s) by tauto.
  induction s as [|c s IH]; [done|]. cbn [filter_str digits_only]. rewrite <-digit_code. destruct (is_digit c).
  - rewrite <-IH. split; [by intros [=]|by intros [_ ->]].
  - split; [|by intros [??]]. intros E. apply (f_equal String.length) in E. pose proof (filter_str_length is_digit s). cbn in E. lia.
Qed.

(** *** What [Number] makes of a step and of a range *)

Lemma digit_no_ws c : is_digit c = true -> is_ws c = false.
Proof. by destruct c as [[] [] [] [] [] [] [] []]. Qed.

Lemma digits_trim s rest : digits_only s -> trim_end rest = rest -> trim_end (s ++s rest) = s ++s rest.
Proof.
  intros Hs Hr. induction s as [|c s IH]; [done|]. destruct Hs as [Hc%digit_code Hs]. cbn [String.append].
  apply trim_end_cons; [by apply digit_no_ws|by apply IH].
Qed.

Lemma trim_first c s : is_ws c = false -> trim_end s = s -> trim (String c s) = String c s.
Proof. intros Hc Hs. unfold trim, trim_start. cbn [trim_start_by]. rewrite Hc. by apply trim_end_cons. Qed.

(** A text that does not begin as one in another base. *)
Lemma str_to_number_plain t :
  trim t = t -> t <> "" -> (forall c r, t = String "0" (String c r) -> is_digit c = true \/ c = "-"%char) ->
  str_to_number t = match signed_prefix t with Some (x, "") => x | _ => NaN end.
Proof.
  intros Ht Hne H. unfold str_to_number. rewrite Ht. destruct t as [|c t]; [done|].
  destruct c as [[] [] [] [] [] [] [] []]; try reflexivity. destruct t as [|c' r]; [reflexivity|].
  specialize (H c' r eq_refl). destruct c' as [[] [] [] [] [] [] [] []]; try reflexivity; by destruct H.
Qed.

Lemma step_not_number ds : digits_only ds -> str_to_number ("*/" ++s ds) = NaN.
Proof.
  intros Hds. pose proof (digits_trim ds "" Hds eq_refl) as Ht. rewrite append_nil_r in Ht.
  rewrite str_to_number_plain; [reflexivity| |done|by intros c r [=]].
  apply trim_first; [done|]. by apply trim_end_cons.
Qed.

Lemma digits_until m n s rest : digits_only s ->
  exists m', digits m n (s ++s String "-" rest) = (m', (n + String.length s)%nat, String "-" rest).
Proof.
  intros Hs. revert m n. induction s as [|c s IH]; intros m n; cbn [String.append digits String.length].
  - exists m. by rewrite Nat.add_0_r.
  - destruct Hs as [Hc%digit_code Hs]. rewrite Hc. destruct (IH Hs (10 * m + (Z.of_N (code c) - 48)) (S n)) as [m' Hm'].
    exists m'. rewrite Hm'. by rewrite Nat.add_succ_r.
Qed.

Lemma range_not_number a b : decimal a -> digits_only b -> str_to_number (a ++s "-" ++s b) = NaN.
Proof.
  intros [Hne Ha] Hb. pose proof (digits_trim b "" Hb eq_refl) as Htb. rewrite append_nil_r in Htb.
  assert (Htr : trim_end ("-" ++s b) = "-" ++s b) by (by apply trim_end_cons).
  pose proof (digits_trim a _ Ha Htr) as Ht. pose proof (digits_until 0 0 a b Ha) as [m Hm].
  destruct a as [|c a]; [done|]. destruct Ha as [Hc%digit_code Ha]. cbn [String.append] in *.
  rewrite str_to_number_plain; [|unfold trim, trim_start; cbn [trim_start_by]; rewrite (digit_no_ws c Hc); exact Ht|done|].
  - assert (Hs : signed_prefix (String c (a ++s "-" ++s b)) = unsigned_prefix (String c (a ++s "-" ++s b))).
    { clear - Hc. by destruct c as [[] [] [] [] [] [] [] []]. }
    assert (Hi : starts_with "Infinity" (String c (a ++s "-" ++s b)) = false).
    { clear - Hc. by destruct c as [[] [] [] [] [] [] [] []]. }
    cbn [String.append] in Hs, Hi. rewrite Hs. unfold unsigned_prefix. rewrite Hi, Hm. reflexivity.
  - intros c' r [= -> E]. destruct a as [|c1 a]; cbn [String.append] in E; injection E as <- _; [by right|left].
    destruct Ha as [Hc1 _]. by apply digit_code.
Qed.

(** *** The three shapes of an entry, read by the code in this order *)

Lemma step_match_some token ds : step_match token = Some ds <-> token = "*/" ++s ds /\ decimal ds.
Proof.
  rewrite <-all_digits_decimal. split.
  - unfold step_match. destruct token as [|c [|c' t]]; try done.
    all: destruct c as [[] [] [] [] [] [] [] []]; try done.
    destruct c' as [[] [] [] [] [] [] [] []]; try done.
    destruct (all_digits t) eqn:E; [|done]. by intros [= <-].
  - intros [-> H]. cbn. by rewrite H.
Qed.

Lemma split_digits a : digits_only a -> forall rest, split_on (is_char "-") (a ++s "-" ++s rest) = a :: split_on (is_char "-") rest.
Proof.
  intros Ha rest. induction a as [|c a IH]; [done|]. destruct Ha as [Hc%digit_code Ha]. cbn [String.append split_on].
  assert (is_char "-" c = false) as -> by (clear - Hc; by destruct c as [[] [] [] [] [] [] [] []]).
  cbn [String.append] in IH. by rewrite (IH Ha).
Qed.

Lemma split_no_dash b : digits_only b -> split_on (is_char "-") b = [b].
Proof.
  induction b as [|c b IH]; [done|]. intros [Hc%digit_code Hb]. cbn [split_on].
  assert (is_char "-" c = false) as -> by (clear - Hc; by destruct c as [[] [] [] [] [] [] [] []]). by rewrite (IH Hb).
Qed.

Lemma split_two_join token a b : split_on (is_char "-") token = [a; b] -> token = a ++s "-" ++s b.
Proof.
  revert a. induction token as [|c t IH]; intros a; cbn [split_on]; [done|]. destruct (is_char "-" c) eqn:Hc.
  - intros [= <- E]. apply bool_decide_eq_true in Hc as ->. cbn. f_equal.
    clear IH. revert b E. induction t as [|d t IH]; intros b; cbn [split_on]; [by intros [=]|]. destruct (is_char "-" d).
    + intros [= _ E]. destruct t as [|c' t]; [done|]. cbn [split_on] in E. by destruct (is_char "-" c'), (split_on (is_char "-") t).
    + destruct (split_on (is_char "-") t) as [|h l] eqn:Es; [by destruct t as [|c' t]; [|cbn [split_on] in Es; destruct (is_char "-" c'), (split_on (is_char "-") t)]|].
      intros [= <- ->]. f_equal. by apply IH.
  - destruct (split_on (is_char "-") t) as [|h l] eqn:Es; [by intros [=]|]. intros [= <- ->]. cbn [String.append]. f_equal. by apply IH.
Qed.

Lemma range_match_some token a b : range_match token = Some (a, b) <-> token = a ++s "-" ++s b /\ decimal a /\ decimal b.
Proof.
  rewrite <-!all_digits_decimal. split.
  - unfold range_match. destruct (split_on (is_char "-") token) as [|a' [|b' [|]]] eqn:Es; try done.
    destruct (all_digits a') eqn:Ha, (all_digits b') eqn:Hb; try done. intros [= <- <-].
    split; [by apply split_two_join|done].
  - intros (-> & Ha & Hb). unfold range_match. pose proof (proj1 (all_digits_decimal a) Ha) as [_ Ha'].
    pose proof (proj1 (all_digits_decimal b) Hb) as [_ Hb']. by rewrite split_digits, split_no_dash, Ha, Hb by done.
Qed.

Lemma outside_range x lo hi : is_finite x = true ->
  ltb x (int lo) || gtb x (int hi) = negb (leb (int lo) x && leb x (int hi)).
Proof.
  intros Hx. rewrite negb_andb, (finite_gtb x) by done. f_equal. exact (finite_gtb (int lo) x eq_refl Hx).
Qed.

Lemma parse_step token ds lo hi label :
  token <> "*" -> step_match token = Some ds ->
  parseAtom token lo hi label = None
  <-> is_finite (str_to_number ds) = true /\ gtb (str_to_number ds) (int 0) = true.
Proof.
  intros H1 H2. unfold parseAtom. rewrite bool_decide_false, H2 by done.
  destruct (is_finite (str_to_number ds)) eqn:Hf; [|naive_solver].
 
  rewrite finite_gtb by done. destruct (leb _ (int 0)); naive_solver.
Qed.

Lemma parse_range token a b lo hi label :
  token <> "*" -> step_match token = None -> range_match token = Some (a, b) ->
  parseAtom token lo hi label = None
  <-> is_finite (str_to_number a) = true /\ is_finite (str_to_number b) = true
      /\ leb (int lo) (str_to_number a) = true /\ leb (str_to_number a) (str_to_number b) = true
      /\ leb (str_to_number b) (int hi) = true.
Proof.
  intros H1 H2 H3. unfold parseAtom. rewrite bool_decide_false, H2, H3 by done.
  destruct (is_finite (str_to_number a)) eqn:Ha; [|naive_solver].
  destruct (is_finite (str_to_number b)) eqn:Hb; [|naive_solver].
  cbn [negb orb]. rewrite (finite_gtb (str_to_number a)), (finite_gtb (str_to_number b)) by done.
  replace (ltb (str_to_number a) (int lo)) with (negb (leb (int lo) (str_to_number a)))
    by (symmetry; exact (finite_gtb (int lo) _ eq_refl Ha)).
  destruct (leb (str_to_number a) (str_to_number b)), (leb (int lo) _), (leb _ (int hi)); naive_solver.
Qed.

Lemma parse_number token lo hi label :
  token <> "*" -> step_match token = None -> range_match token = None ->
  parseAtom token lo hi label = None
  <-> is_finite (str_to_number token) = true /\ leb (int lo) (str_to_number token) = true
      /\ leb (str_to_number token) (int hi) = true.
Proof.
  intros H1 H2 H3. unfold parseAtom. rewrite bool_decide_false, H2, H3 by done.
  destruct (is_finite (str_to_number token)) eqn:Hf; [|naive_solver].
  cbn [negb]. rewrite outside_range by done.
  destruct (leb (int lo) _), (leb _ (int hi)); naive_solver.
Qed.

Lemma leb_chain x y z : is_finite x = true -> is_finite y = true -> is_finite z = true ->
  leb x y = true -> leb y z = true -> leb x z = true.
Proof. destruct x, y, z; try done. cbn. rewrite !Z.leb_le. lia. Qed.

Lemma parseAtom_spec token lo hi label : parseAtom token lo hi label = None <-> cron_entry lo hi token.
Proof.
  destruct (decide (token = "*")) as [->|Hany]; [by split; [constructor|]|].
  destruct (step_match token) as [ds|] eqn:Es.
  { rewrite (parse_step _ ds) by done. pose proof (proj1 (step_match_some _ _) Es) as [-> Hds]. split.
    - intros []. by apply entry_step.
    - intros H. inversion H as [|ds' Hd Hf Hg Heq|a b [Hne Ha] Hb _ _ _ Heq|tk [Hf _]]; subst.
      + done.
      + destruct a as [|c a]; [done|]. injection Heq as -> _. destruct Ha as [Hc _]. vm_compute in Hc. by destruct Hc.
      + by rewrite step_not_number in Hf by apply Hds. }
  destruct (range_match token) as [[a b]|] eqn:Er.
  { rewrite (parse_range _ a b) by done. pose proof (proj1 (range_match_some _ _ _) Er) as (-> & Ha & Hb). split.
    - intros (H1 & H2 & H3 & H4 & H5). apply entry_range; [done|done| | |done]; (split; [done|]).
      + split; [done|]. by apply (leb_chain _ (str_to_number b)).
      + split; [|done]. by apply (leb_chain _ (str_to_number a)).
    - intros H. inversion H as [Hq|ds' Hd _ _ Heq|a' b' Ha' Hb' (H1 & H2 & H3) (H4 & H5 & H6) H7 Heq|tk [Hf _]]; subst.
      + done.
      + destruct Ha as [Hne Ha]. destruct a as [|c a]; [done|]. injection Heq as <- _. destruct Ha as [Hc _]. vm_compute in Hc. by destruct Hc.
      + assert (E : range_match (a ++s "-" ++s b) = Some (a', b')) by (by apply range_match_some).
        rewrite E in Er. by injection Er as <- <-.
      + by rewrite range_not_number in Hf by (done || apply Hb). }
  rewrite parse_number by done. split; [intros (? & ? & ?); by apply entry_number|].
  intros H. inversion H as [Hq|ds' Hd _ _ Heq|a' b' Ha' Hb' _ _ _ Heq|tk Hf]; subst.
  - done.
  - by rewrite (proj2 (step_match_some _ ds')) in Es.
  - by rewrite (proj2 (range_match_some _ a' b')) in Er.
  - done.
Qed.

(** The comma-separated entries of a field with bounds. *)
Definition cron_field (lo hi : Z) (part : string) : Prop := Forall (cron_entry lo hi) (split_on (is_char ",") part).

Lemma omap_nil {A B} (f : A -> option B) l : omap f l = [] <-> Forall (fun x => f x = None) l.
Proof.
  induction l as [|x l IH]; [split; [constructor|done]|]. rewrite Forall_cons, <- IH. cbn.
  destruct (f x); naive_solver.
Qed.

Lemma part_issues_nil lo hi label part : part_issues (lo, hi, label, part) = [] <-> cron_field lo hi part.
Proof.
  unfold part_issues, cron_field. rewrite omap_nil.
  split; intros H; (eapply Forall_impl; [exact H|]); intros token; apply parseAtom_spec.
Qed.

Lemma concat_nil_iff {A B} (f : A -> list B) l : concat (map f l) = [] <-> Forall (fun x => f x = []) l.
Proof.
  induction l as [|x l IH]; [split; [constructor|done]|]. rewrite Forall_cons, <- IH. simpl.
  split; [by intros [-> ->]%app_eq_nil|by intros [-> ->]].
Qed.

(** C37: a cron expression passes the form exactly when it has five fields
    between white space (minute, hour, day, month and weekday) and every
    comma-separated entry of a field is [*], a step of decimal digits above zero,
    a range of decimal numbers in order, or a number, within 0-59, 0-23, 1-31,
    1-12 and 0-7.  Blank text and another number of fields are refused with their
    own message.  The bounds themselves pass and what is next to them is refused,
    with the field and its bounds named; the presets pass; but a number need not
    be an integer and an empty entry counts as zero. *)
Theorem validateCronExpr_spec :
  (forall expr, validateCronExpr expr = [] <-> exists mi ho dm mo wd,
     split_runs is_ws false (trim expr) = [mi; ho; dm; mo; wd]
     /\ cron_field 0 59 mi /\ cron_field 0 23 ho /\ cron_field 1 31 dm /\ cron_field 1 12 mo /\ cron_field 0 7 wd)
  /\ (forall expr, trim expr = "" -> validateCronExpr expr = ["cron is required"])
  /\ (forall expr, trim expr <> "" -> length (split_runs is_ws false (trim expr)) <> 5%nat ->
       validateCronExpr expr = ["cron must have 5 fields (min hour day month weekday)"])
  /\ Forall (fun expr => validateCronExpr expr = [])
       (["0 0 1 1 0"; "59 23 31 12 7"; "0-59 0-23 1-31 1-12 0-7"; "*/1 */99 * * *"; "1.5 ,0x3 * * *"] ++ map snd SCHEDULE_PRESETS)
  /\ Forall (fun p => validateCronExpr (fst p) = [snd p])
       [("60 * * * *", "minute entry must be within 0-59"); ("* 24 * * *", "hour entry must be within 0-23");
        ("* * 0 * *", "day of month entry must be within 1-31"); ("* * 32 * *", "day of month entry must be within 1-31");
        ("* * * 0 *", "month entry must be within 1-12"); ("* * * 13 *", "month entry must be within 1-12");
        ("* * * * 8", "weekday entry must be within 0-7"); ("* 0-24 * * *", "hour range must be within 0-23");
        ("5-4 * * * *", "minute range start must be <= end"); ("*/0 * * * *", "minute step must be > 0")].
Proof.
  split; [|split_and!].
  2:{ intros expr H. unfold validateCronExpr. by rewrite H. }
  2:{ intros expr H%truthy_str_true Hl. unfold validateCronExpr. rewrite H. cbn [negb]. by rewrite (proj2 (Nat.eqb_neq _ _) Hl). }
  2, 3: by repeat (constructor; [by vm_compute|]).
  intros expr. unfold validateCronExpr.
  destruct (truthy_str (trim expr)) eqn:Et; cbn [negb].
  2:{ split; [done|]. apply truthy_str_false in Et. rewrite Et. by intros (? & ? & ? & ? & ? & ? & _). }
  destruct (length (split_runs is_ws false (trim expr)) =? 5)%nat eqn:El; cbn [negb].
  - apply Nat.eqb_eq in El.
    destruct (split_runs is_ws false (trim expr)) as [|mi [|ho [|dm [|mo [|wd [|]]]]]] eqn:Es; try done.
    rewrite concat_nil_iff. cbn [cron_ranges zip zip_with].
    rewrite !Forall_cons, !part_issues_nil. split.
    + intros (? & ? & ? & ? & ? & _). by exists mi, ho, dm, mo, wd.
    + by intros (? & ? & ? & ? & ? & [= <- <- <- <- <-] & ? & ? & ? & ? & ?).
  - split; [done|]. intros (? & ? & ? & ? & ? & E & _). by rewrite E in El.
Qed.

(** ** Exported workflows are accepted as schedules *)

(** A task that passes. *)
Definition spec_task (task : value) : Prop := exists t, task = VObject t
  /\ (exists id, prop "task_id" t = VString id /\ id <> "")
  /\ (prop "depends_on" t = VUndefined \/ exists l, prop "depends_on" t = VArray l)
  /\ ((exists r, prop "request" t = VObject r) \/ exists k, prop "kind" t = VString k /\ trim k <> "").

Lemma task_issues_nil i task : task_issues i task = [] <-> spec_task task.
Proof.
  unfold spec_task, task_issues. destruct task as [| | | | | |t]; try naive_solver.
  set (at_ := "task[" ++s _). rewrite !app_nil.
  assert (H1 : (if is_string (prop "task_id" t) && truthy (prop "task_id" t) then []
                else [at_ ++s ".task_id is required"]) = [] <-> exists id, prop "task_id" t = VString id /\ id <> "").
  { destruct (prop "task_id" t); simpl; try naive_solver.
    destruct (truthy_str s) eqn:E; [apply truthy_str_true in E|apply truthy_str_false in E]; naive_solver. }
  assert (H2 : (if defined (prop "depends_on" t) && negb (is_array (prop "depends_on" t))
                then [at_ ++s ".depends_on must be an array when provided"] else []) = []
               <-> prop "depends_on" t = VUndefined \/ exists l, prop "depends_on" t = VArray l).
  { unfold defined. destruct (prop "depends_on" t); simpl; naive_solver. }
  assert (H3 : negb (is_record (prop "request" t)) &&
                 negb (truthy_str (trim (default "" (as_string (prop "kind" t))))) = false
               <-> (exists r, prop "request" t = VObject r)
                   \/ exists k, prop "kind" t = VString k /\ trim k <> "").
  { rewrite andb_false_iff, !negb_false_iff. apply ZifyClasses.or_morph.
    - destruct (prop "request" t); simpl; naive_solver.
    - rewrite truthy_str_true. destruct (prop "kind" t); simpl; naive_solver. }
  rewrite H1, H2. cbv zeta. split.
  - intros (Ha & Hb & Hc). exists t. split; [done|]. split; [done|]. split; [done|].
    apply H3. revert Hc. by destruct (negb _ && negb _).
  - intros (t' & [= <-] & Ha & Hb & Hc%H3). split; [done|]. split; [done|]. by rewrite Hc.
Qed.

Lemma concat_imap_nil {A B} (f : nat -> A -> list B) (P : A -> Prop) l :
  (forall i x, f i x = [] <-> P x) -> concat (imap f l) = [] <-> Forall P l.
Proof.
  revert f. induction l as [|x l IH]; intros f Hf; [split; [constructor|done]|].
  rewrite imap_cons, Forall_cons, <- (Hf 0%nat x), <- (IH (f ∘ S)) by (intros; apply Hf).
  simpl. split; [by intros [-> ->]%app_eq_nil|by intros [-> ->]].
Qed.

Lemma validateScheduleSpec_nil spec : validateScheduleSpec spec = [] <-> exists s, spec = VObject s
  /\ (exists tasks, prop "tasks" s = VArray tasks /\ tasks <> [] /\ Forall spec_task tasks)
  /\ (prop "defaults" s = VUndefined \/ exists d, prop "defaults" s = VObject d).
Proof.
  destruct spec as [| | | | | |s]; try (split; [done|naive_solver]).
  unfold validateScheduleSpec. rewrite app_nil.
  assert (H1 : match prop "tasks" s with
               | VArray ((_ :: _) as tasks) => concat (imap task_issues tasks)
               | _ => ["spec.tasks must be a non-empty array"]
               end = [] <-> exists tasks, prop "tasks" s = VArray tasks /\ tasks <> [] /\ Forall spec_task tasks).
  { destruct (prop "tasks" s) as [| | | | |[|t ts]|]; try naive_solver.
    rewrite (concat_imap_nil _ spec_task) by apply task_issues_nil. naive_solver. }
  assert (H2 : (if defined (prop "defaults" s) && negb (is_record (prop "defaults" s))
                then ["spec.defaults must be an object when provided"] else []) = []
               <-> prop "defaults" s = VUndefined \/ exists d, prop "defaults" s = VObject d).
  { unfold defined. destruct (prop "defaults" s); simpl; naive_solver. }
  rewrite H1, H2. naive_solver.
Qed.

(** A task built for a node with an identifier. *)
Lemma task_value_spec m o n : node_id n <> "" -> spec_task (task_value m o n).
Proof.
  intros Hid. pose proof (task_value_deps_prop m o n) as Hd. unfold spec_task.
  unfold task_value, build_task, buildAgentParallelTask in *.
  destruct (node_kind n); [|destruct (node_target_list n o)]; (eexists; split; [done|]);
    (split; [by exists (node_id n)|]); (split; [cbn [fst vprop] in Hd; rewrite Hd; destruct (default [] _); eauto|]).
  - left. exists [("prompt", VString (str_or (node_prompt n) DEFAULT_PROMPT)); ("no_session", VBool true)].
    unfold dep_entry. by destruct (default [] _).
  - right. by exists "agentd_parallel".
Qed.

Lemma exported_spec {L : Locale} g o wf w :
  buildWorkflowFromGraph g o = Ok (wf, w) -> validateScheduleSpec (VObject wf) = [].
Proof.
  intros (w0 & ids & cl & Ec & Hne & -> & _)%build_ok.
  pose proof (clean_nodes_inv (nodes g)) as Hinv. rewrite Ec in Hinv. destruct Hinv as (_ & _ & Hg).
  apply validateScheduleSpec_nil. eexists. split; [done|]. split.
  - eexists. rewrite prop_cons. split; [done|]. split.
    + intros E%map_eq_nil. apply Hne. apply length_zero_iff_nil. rewrite <- (length_sort_by id_gt), E. done.
    + apply Forall_map, Forall_forall. intros n Hn%elem_of_sort_by.
      apply task_value_spec. rewrite Forall_forall in Hg. by destruct (Hg n Hn).
  - rewrite prop_cons. unfold workflow_tail.
    destruct (isNonEmptyObject _), (allowInlineKeys o && _); eauto.
Qed.

(** What the composer exports the schedule form accepts: when a graph is
    exported, the document passes the checks of a schedule, whose issues are
    empty exactly for an object with a non-empty array of tasks, each with an
    identifier, dependencies that are an array if present, and a request or a
    kind, and with defaults that are an object if present. *)
Theorem exported_spec_accepted {L : Locale} :
  (forall spec, validateScheduleSpec spec = [] <-> exists s, spec = VObject s
     /\ (exists tasks, prop "tasks" s = VArray tasks /\ tasks <> [] /\ Forall spec_task tasks)
     /\ (prop "defaults" s = VUndefined \/ exists d, prop "defaults" s = VObject d))
  /\ (forall g o wf w, buildWorkflowFromGraph g o = Ok (wf, w) ->
        coerceScheduleSpec (VObject wf) = Some (VObject wf))
  /\ validateScheduleSpec SCHEDULE_SAMPLE_SPEC = [].
Proof.
  split_and!; [apply validateScheduleSpec_nil| |by vm_compute]. intros g o wf w H.
  unfold coerceScheduleSpec. by rewrite (exported_spec g o wf w H).
Qed.
