(* ===== verification/RuntimeConfig.v ===== *)
(** The page's start-up settings (src/ui/src/runtime_config.ts): the page's
    configuration object, the build's environment and the built-in defaults,
    in this order of precedence. *)
From S2P Require Import Prelude JsNumber JsString JsValue JsOrder Shapes JsonUtils.

(** ** Coercions *)

Definition coerceBool (v : value) : option bool :=
  match v with
  | VBool b => Some b
  | VString t =>
      let s := to_lower (trim t) in
      if negb (truthy_str s) then None
      else if bool_decide (s ∈ ["1"; "true"; "yes"; "on"]) then Some true
      else if bool_decide (s ∈ ["0"; "false"; "no"; "off"]) then Some false
      else None
  | _ => None
  end.

Definition coerceString (v : value) : option string :=
  match v with
  | VString t => let s := trim t in if truthy_str s then Some s else None
  | VNumber x => if is_finite x then Some (num_to_string x) else None
  | _ => None
  end.

Definition nonempty_list (l : list string) : option (list string) :=
  match l with [] => None | _ => Some l end.

Definition coerceStringList (v : value) : option (list string) :=
  match v with
  | VArray l => nonempty_list (List.filter truthy_str (map str_trim l))
  | VString s => nonempty_list (trimmed_nonempty (split_runs is_comma_nl false s))
  | _ => None
  end.

Definition coerceEnum (allowed : list string) (v : value) : option string :=
  match v with
  | VString t =>
      let s := trim t in
      if negb (truthy_str s) then None else if bool_decide (s ∈ allowed) then Some s else None
  | _ => None
  end.

(** ** Settings *)

Definition ConnectionMode : list string := ["direct"; "broker"].
Definition ToolMode : list string := ["host"; "basic"; "none"].
Definition HostPolicy : list string := ["full"; "readonly"].
Definition ServerPrefsMode : list string := ["off"; "auto"; "on"].

(** The declared type of the settings. *)
Definition AgentUIDefaults : list (string * ts_type) :=
  [("clientId", TString); ("connectionMode", TUnion ConnectionMode); ("daemonBaseUrl", TString);
   ("brokerBaseUrl", TString); ("brokerAgentId", TString); ("brokerDeploymentId", TString);
   ("brokerCookieAuth", TBoolean); ("brokerAuthToken", TString); ("daemonAuthToken", TString);
   ("tools", TUnion ToolMode); ("yolo", TBoolean); ("hostPolicy", TUnion HostPolicy);
   ("automationProfile", TString); ("verbose", TBoolean); ("model", TString); ("baseUrl", TString);
   ("apiKey", TString); ("proxyUrl", TString); ("timeoutMs", TString); ("streamAssistant", TBoolean);
   ("trace", TBoolean); ("useAsync", TBoolean); ("memoryContextMode", TString);
   ("memoryIncludeStructured", TBoolean); ("memoryIncludeCore", TBoolean); ("memoryIncludeDaily", TBoolean);
   ("memoryIncludeSession", TBoolean); ("memoryDailyDays", TString); ("memoryTotalCap", TString);
   ("memorySearchQuery", TString); ("memorySearchOrder", TString); ("memorySearchUseIndex", TBoolean);
   ("memorySearchCaseSensitive", TBoolean); ("memorySearchFallbackToFiles", TBoolean);
   ("memorySearchMaxResults", TString); ("memorySearchMaxSnippetChars", TString);
   ("memorySearchContextLines", TString); ("allowClientRpcs", TBoolean); ("allowClientEffects", TBoolean);
   ("allowUnsafePageEval", TBoolean); ("brokerPanelOpen", TBoolean); ("workflowAgentTargets", TStrings);
   ("workflowBearerEnv", TString); ("serverPrefsMode", TUnion ServerPrefsMode)].

Definition DEFAULTS : obj value :=
  [("clientId", VString "webui"); ("connectionMode", VString "direct");
   ("daemonBaseUrl", VString "http://127.0.0.1:8123"); ("brokerBaseUrl", VString "https://127.0.0.1:8443");
   ("brokerAgentId", VString "agent1"); ("brokerDeploymentId", VString "");
   ("brokerCookieAuth", VBool false); ("brokerAuthToken", VString ""); ("daemonAuthToken", VString "");
   ("tools", VString "host"); ("yolo", VBool true); ("hostPolicy", VString "full");
   ("automationProfile", VString ""); ("verbose", VBool true); ("model", VString "deepseek-chat");
   ("baseUrl", VString "https://api.deepseek.com"); ("apiKey", VString "");
   ("proxyUrl", VString "http://localhost:8120"); ("timeoutMs", VString "60000");
   ("streamAssistant", VBool false); ("trace", VBool true); ("useAsync", VBool true);
   ("memoryContextMode", VString "files"); ("memoryIncludeStructured", VBool true);
   ("memoryIncludeCore", VBool true); ("memoryIncludeDaily", VBool true);
   ("memoryIncludeSession", VBool true); ("memoryDailyDays", VString "2");
   ("memoryTotalCap", VString "12000"); ("memorySearchQuery", VString "");
   ("memorySearchOrder", VString "ranked"); ("memorySearchUseIndex", VBool true);
   ("memorySearchCaseSensitive", VBool false); ("memorySearchFallbackToFiles", VBool true);
   ("memorySearchMaxResults", VString "12"); ("memorySearchMaxSnippetChars", VString "800");
   ("memorySearchContextLines", VString "2"); ("allowClientRpcs", VBool true);
   ("allowClientEffects", VBool true); ("allowUnsafePageEval", VBool true);
   ("brokerPanelOpen", VBool false); ("workflowAgentTargets", VArray []);
   ("workflowBearerEnv", VString ""); ("serverPrefsMode", VString "auto")].

Inductive coercion := CString | CBool | CEnum (allowed : list string) | CList.

#[export] Instance coercion_eq_dec : EqDecision coercion.
Proof. solve_decision. Defined.

Definition coerce (c : coercion) (v : value) : option value :=
  match c with
  | CString => VString <$> coerceString v
  | CBool => VBool <$> coerceBool v
  | CEnum allowed => VString <$> coerceEnum allowed v
  | CList => (fun l => VArray (map VString l)) <$> coerceStringList v
  end.

Definition tool_modes : list string := ["host"; "basic"; "none"].

(** The assignments of [getUiDefaults], in order: the setting, its coercion
    and the environment variable it falls back to, if any. *)
Definition settings : list (string * coercion * option string) :=
  [("clientId", CString, Some "VITE_AGENTUI_CLIENT_ID");
   ("connectionMode", CEnum ["direct"; "broker"], Some "VITE_AGENTUI_CONNECTION_MODE");
   ("daemonBaseUrl", CString, Some "VITE_AGENTD_BASE_URL");
   ("brokerBaseUrl", CString, Some "VITE_BROKER_BASE_URL");
   ("brokerAgentId", CString, Some "VITE_AGENTUI_BROKER_AGENT_ID");
   ("brokerDeploymentId", CString, Some "VITE_AGENTUI_BROKER_DEPLOYMENT_ID");
   ("brokerCookieAuth", CBool, Some "VITE_AGENTUI_BROKER_COOKIE_AUTH");
   ("brokerAuthToken", CString, Some "VITE_AGENTUI_BROKER_AUTH_TOKEN");
   ("daemonAuthToken", CString, Some "VITE_AGENTUI_DAEMON_AUTH_TOKEN");
   ("tools", CEnum tool_modes, Some "VITE_AGENTUI_TOOLS");
   ("yolo", CBool, Some "VITE_AGENTUI_YOLO");
   ("hostPolicy", CEnum ["full"; "readonly"], Some "VITE_AGENTUI_HOST_POLICY");
   ("automationProfile", CEnum ["full"; "guided"; "strict"; "custom"], Some "VITE_AGENTUI_AUTOMATION_PROFILE");
   ("verbose", CBool, Some "VITE_AGENTUI_VERBOSE");
   ("model", CString, Some "VITE_AGENTUI_MODEL");
   ("baseUrl", CString, Some "VITE_AGENTUI_BASE_URL");
   ("apiKey", CString, Some "VITE_AGENTUI_API_KEY");
   ("proxyUrl", CString, Some "VITE_AGENTUI_PROXY_URL");
   ("timeoutMs", CString, Some "VITE_AGENTUI_TIMEOUT_MS");
   ("streamAssistant", CBool, Some "VITE_AGENTUI_STREAM_ASSISTANT");
   ("trace", CBool, Some "VITE_AGENTUI_TRACE");
   ("useAsync", CBool, Some "VITE_AGENTUI_USE_ASYNC");
   ("memoryContextMode", CEnum ["files"; "search"; "index"; "salience"], Some "VITE_AGENTUI_MEMORY_CONTEXT_MODE");
   ("memoryIncludeStructured", CBool, Some "VITE_AGENTUI_MEMORY_INCLUDE_STRUCTURED");
   ("memoryIncludeCore", CBool, Some "VITE_AGENTUI_MEMORY_INCLUDE_CORE");
   ("memoryIncludeDaily", CBool, Some "VITE_AGENTUI_MEMORY_INCLUDE_DAILY");
   ("memoryIncludeSession", CBool, Some "VITE_AGENTUI_MEMORY_INCLUDE_SESSION");
   ("memoryDailyDays", CString, Some "VITE_AGENTUI_MEMORY_DAILY_DAYS");
   ("memoryTotalCap", CString, Some "VITE_AGENTUI_MEMORY_TOTAL_CAP");
   ("memorySearchQuery", CString, Some "VITE_AGENTUI_MEMORY_SEARCH_QUERY");
   ("memorySearchOrder", CEnum ["ranked"; "newest"; "oldest"], Some "VITE_AGENTUI_MEMORY_SEARCH_ORDER");
   ("memorySearchUseIndex", CBool, Some "VITE_AGENTUI_MEMORY_SEARCH_USE_INDEX");
   ("memorySearchCaseSensitive", CBool, Some "VITE_AGENTUI_MEMORY_SEARCH_CASE_SENSITIVE");
   ("memorySearchFallbackToFiles", CBool, Some "VITE_AGENTUI_MEMORY_SEARCH_FALLBACK");
   ("memorySearchMaxResults", CString, Some "VITE_AGENTUI_MEMORY_SEARCH_MAX_RESULTS");
   ("memorySearchMaxSnippetChars", CString, Some "VITE_AGENTUI_MEMORY_SEARCH_MAX_SNIPPET_CHARS");
   ("memorySearchContextLines", CString, Some "VITE_AGENTUI_MEMORY_SEARCH_CONTEXT_LINES");
   ("allowClientRpcs", CBool, Some "VITE_AGENTUI_ALLOW_CLIENT_RPCS");
   ("allowClientEffects", CBool, Some "VITE_AGENTUI_ALLOW_CLIENT_EFFECTS");
   ("allowUnsafePageEval", CBool, Some "VITE_AGENTUI_ALLOW_UNSAFE_PAGE_EVAL");
   ("brokerPanelOpen", CBool, Some "VITE_AGENTUI_BROKER_PANEL_OPEN");
   ("workflowAgentTargets", CList, None);
   ("workflowBearerEnv", CString, None);
   ("serverPrefsMode", CEnum ["off"; "auto"; "on"], Some "VITE_AGENTUI_SERVER_PREFS_MODE")].

Section config.
(** [import.meta.env] and [window.__AGENT_UI_CONFIG__]. *)
Context (metaEnv config : value).

Definition env : obj value := safeObject metaEnv.

Definition envString (key : string) : option string :=
  t ← as_string (prop key env);
  let s := trim t in if truthy_str s then Some s else None.

Definition readRuntimeConfig : value := config |||| VObject [].

(** The two coercions joined by [??]; [None] leaves the default. *)
Definition configured (f : string * coercion * option string) : option value :=
  let '(k, c, e) := f in
  match coerce c (vprop k readRuntimeConfig) with
  | Some v => Some v
  | None => match e with Some e => s ← envString e; coerce c (VString s) | None => None end
  end.

(** [out.k = ... ?? out.k]. *)
Definition apply_setting (out : obj value) (f : string * coercion * option string) : obj value :=
  set f.1.1 (default (prop f.1.1 out) (configured f)) out.

Definition getUiDefaults : obj value := fold_left apply_setting settings DEFAULTS.
End config.

(** ** The settings are of the declared types *)

(** The declared type of a setting, [AgentUIDefaults]; an enumerated setting
    may also be empty where its default is. *)
Definition declared (c : coercion) (v : value) : Prop :=
  match c with
  | CString => exists s, v = VString s
  | CBool => exists b, v = VBool b
  | CEnum allowed => exists s, v = VString s /\ (s ∈ allowed \/ s = "")
  | CList => exists l, v = VArray (map VString l) /\ Forall (fun s => trim s = s /\ s <> "") l
  end.

Lemma nonempty_list_some l l' : nonempty_list l = Some l' -> l' = l.
Proof. by destruct l; intros [= <-]. Qed.

Lemma coerce_declared c v w : coerce c v = Some w -> declared c w.
Proof.
  destruct c; cbn [coerce declared]; intros (x & Hx & ->)%fmap_Some; [by eauto|by eauto| |].
  - exists x. split; [done|]. left. unfold coerceEnum in Hx. destruct v; try done.
    destruct (truthy_str _); [|done]. simpl in Hx. case_bool_decide; [|done]. by injection Hx as <-.
  - exists x. split; [done|]. apply Forall_forall. unfold coerceStringList in Hx. intros y Hy.
    destruct v; try done; apply nonempty_list_some in Hx as ->.
    + by apply trimmed_nonempty_spec in Hy.
    + apply elem_of_filter_bool in Hy as [Hy Ht%truthy_str_true]. split; [|done].
      apply list_elem_of_In, in_map_iff in Hy as (z & <- & _). apply trim_idem.
Qed.

(** A test for the defaults. *)
Definition plainly_declared (c : coercion) (v : value) : bool :=
  match c, v with
  | CString, VString _ | CBool, VBool _ | CList, VArray [] => true
  | CEnum allowed, VString s => bool_decide (s ∈ allowed) || bool_decide (s = "")
  | _, _ => false
  end.

Lemma plainly_declared_ok c v : plainly_declared c v = true -> declared c v.
Proof.
  destruct c, v; simpl; try done; try (by eauto).
  - rewrite orb_true_iff, !bool_decide_eq_true. eauto.
  - destruct l; [|done]. intros _. exists []. split; [done|constructor].
Qed.

Lemma DEFAULTS_declared f : f ∈ settings -> declared f.1.2 (prop f.1.1 DEFAULTS).
Proof.
  assert (H : forallb (fun f => plainly_declared f.1.2 (prop f.1.1 DEFAULTS)) settings = true) by (by vm_compute).
  rewrite forallb_forall in H. intros Hf%list_elem_of_In. by apply plainly_declared_ok, H.
Qed.

Lemma settings_keys : map (fun f => f.1.1) settings = keys DEFAULTS.
Proof. done. Qed.

Section spec.
Context (metaEnv config : value).

Lemma apply_settings (l : list (string * coercion * option string)) o :
  NoDup (map (fun f => f.1.1) l) -> (forall f, f ∈ l -> f.1.1 ∈ keys o) ->
  let out := fold_left (apply_setting metaEnv config) l o in
  keys out = keys o
  /\ (forall k, k ∉ map (fun f => f.1.1) l -> prop k out = prop k o)
  /\ (forall f, f ∈ l -> prop f.1.1 out = default (prop f.1.1 o) (configured metaEnv config f)).
Proof.
  cbn zeta. revert o. induction l as [|f l IH]; intros o.
  { intros _ _. split_and!; [done|done|]. intros f Hf. by apply not_elem_of_nil in Hf. }
  cbn [map fold_left]. intros [Hf Hl]%NoDup_cons Hin.
  assert (Hk : keys (apply_setting metaEnv config o f) = keys o).
  { unfold apply_setting, set. rewrite (proj2 (has_true _ _)); [apply keys_replace|].
    apply in_keys, Hin. by left. }
  destruct (IH (apply_setting metaEnv config o f)) as (H1 & H2 & H3); [done| |].
  { intros g Hg. rewrite Hk. apply Hin. by right. }
  assert (Hother : forall k, k <> f.1.1 -> prop k (apply_setting metaEnv config o f) = prop k o).
  { intros k Hne. unfold apply_setting, prop. by rewrite get_set_ne. }
  split_and!.
  - congruence.
  - intros k [Hne Hkl]%not_elem_of_cons. rewrite H2 by done. by apply Hother.
  - intros g [->|Hg]%elem_of_cons.
    + rewrite H2 by done. unfold apply_setting at 1. unfold prop at 1. by rewrite get_set_eq.
    + rewrite H3 by done. rewrite Hother; [done|]. intros Heq. apply Hf. rewrite <- Heq.
      by apply (list_elem_of_fmap_2 (fun f : string * coercion * option string => f.1.1)).
Qed.

End spec.

Lemma settings_apply metaEnv config :
  let out := getUiDefaults metaEnv config in
  keys out = keys DEFAULTS
  /\ forall f, f ∈ settings -> prop f.1.1 out = default (prop f.1.1 DEFAULTS) (configured metaEnv config f).
Proof.
  destruct (apply_settings metaEnv config settings DEFAULTS) as (H1 & _ & H3); [| |by split].
  - rewrite settings_keys. by by_compute.
  - intros g Hg. rewrite <- settings_keys.
    by apply (list_elem_of_fmap_2 (fun f : string * coercion * option string => f.1.1)).
Qed.

Lemma getUiDefaults_declared metaEnv config k c e :
  (k, c, e) ∈ settings -> declared c (prop k (getUiDefaults metaEnv config)).
Proof.
  intros Hin. pose proof (proj2 (settings_apply metaEnv config) _ Hin) as Hk. cbn [fst snd] in Hk. rewrite Hk. clear Hk.
  destruct (configured metaEnv config (k, c, e)) as [v|] eqn:E; [|exact (DEFAULTS_declared _ Hin)].
  change (declared c v). unfold configured in E.
  destruct (coerce c (vprop k _)) eqn:Ec; [injection E as <-; by eapply coerce_declared|].
  destruct e; [|done]. apply bind_Some in E as (s' & _ & E). by eapply coerce_declared.
Qed.

(** A coercion that only gives values of a type. *)
Definition coerces_to (c : coercion) (t : ts_type) : bool :=
  match c, t with
  | CString, TString | CEnum _, TString | CBool, TBoolean | CList, TStrings => true
  | CEnum a, TUnion b => forallb (fun s => bool_decide (s ∈ b)) a
  | _, _ => false
  end.

Lemma coerce_typed c t v w : coerces_to c t = true -> coerce c v = Some w -> has_type t w = true.
Proof.
  intros Hc Hw. pose proof (coerce_declared c v w Hw) as Hd. destruct c, t; try done; simpl in Hd.
  - by destruct Hd as [s ->].
  - by destruct Hd as [b ->].
  - by destruct Hd as (s & -> & _).
  - simpl in Hw. apply fmap_Some in Hw as (s & Hs & ->). simpl. unfold coerceEnum in Hs. destruct v; try done.
    destruct (truthy_str _); [|done]. simpl in Hs.
    destruct (bool_decide_reflect (trim s0 ∈ allowed)) as [Hin|]; [|done]. injection Hs as <-.
    apply bool_decide_eq_true. simpl in Hc. rewrite forallb_forall in Hc.
    eapply bool_decide_eq_true, Hc. by apply list_elem_of_In.
  - destruct Hd as (l & -> & _). clear. simpl. induction l as [|x l IH]; [done|exact IH].
Qed.

(** Every field of the type is set by one of the assignments, from a default
    of that type. *)
Lemma settings_cover :
  Forall (fun f : string * ts_type => has_type f.2 (prop f.1 DEFAULTS) = true
    /\ Exists (fun g => g.1.1 = f.1 /\ coerces_to g.1.2 f.2 = true) settings) AgentUIDefaults.
Proof. by_compute. Qed.

Lemma getUiDefaults_fields metaEnv config : Forall (field_typed (getUiDefaults metaEnv config)) AgentUIDefaults.
Proof.
  eapply Forall_impl; [apply settings_cover|]. intros [k t] [Hd Hs]. cbn [fst snd] in Hd, Hs.
  apply Exists_exists in Hs as ([[k' c] e] & Hin & Hk & Hc). cbn [fst snd] in Hk, Hc. subst k'.
  unfold field_typed. cbn [fst snd].
  pose proof (proj2 (settings_apply metaEnv config) _ Hin) as E. cbn [fst snd] in E. rewrite E. clear E.
  destruct (configured metaEnv config (k, c, e)) as [v|] eqn:E; [|exact Hd].
  change (has_type t v = true). unfold configured in E.
  destruct (coerce c (vprop k _)) eqn:Ec; [injection E as <-; by eapply coerce_typed|].
  destruct e; [|done]. apply bind_Some in E as (s' & _ & E). by eapply coerce_typed.
Qed.

(** Whatever the page and the build provide, the settings are a complete
    record of the declared types: exactly the keys of the built-in defaults,
    booleans, enumerations and lists well formed; and a setting is the page's
    value when that is usable, else the environment's, else the default. *)
Theorem getUiDefaults_typed (metaEnv config : value) :
  let out := getUiDefaults metaEnv config in
  keys out = map fst AgentUIDefaults /\ Forall (field_typed out) AgentUIDefaults
  /\ forall k c e, (k, c, e) ∈ settings ->
       declared c (prop k out)
       /\ (forall v, coerce c (vprop k (readRuntimeConfig config)) = Some v -> prop k out = v)
       /\ (forall name s v, coerce c (vprop k (readRuntimeConfig config)) = None -> e = Some name ->
             envString metaEnv name = Some s -> coerce c (VString s) = Some v -> prop k out = v)
       /\ (configured metaEnv config (k, c, e) = None -> prop k out = prop k DEFAULTS).
Proof.
  cbn zeta. split; [exact (proj1 (settings_apply metaEnv config))|]. split; [apply getUiDefaults_fields|].
  intros k c e Hin. split; [by eapply getUiDefaults_declared|].
  pose proof (proj2 (settings_apply metaEnv config) _ Hin) as Hk. cbn [fst snd] in Hk. rewrite Hk. clear Hk. split_and!.
  - intros v Hv. unfold configured. by rewrite Hv.
  - intros name s v Hn -> Hs Hv. unfold configured. rewrite Hn, Hs. cbn [mbind option_bind]. by rewrite Hv.
  - by intros ->.
Qed.
