(* ===== verification/ConnectionProfiles.v ===== *)
(** Connection profiles (src/ui/src/hooks/uiSettingsProfiles.ts) and the hook
    that keeps them (useUiConnectionProfileState.ts): profiles in the browser's
    local storage without their secrets, the secrets in the session storage,
    the active profile put together from both, and the merge with the copy
    kept by the server (useConnectionServerPrefs.ts).

    Stored profiles are whatever JSON the storage holds, so a profile is an
    object here, and [normalizeProfile] is what gives it its type. *)
From S2P Require Import Prelude JsNumber JsString JsValue JsOrder Shapes JsonUtils JsonText Caches RuntimeConfig.

(** [Object.entries] and the spread of a value. *)
Definition entries_of (v : value) : obj value :=
  match v with
  | VObject o => o
  | VArray l => imap (fun i x => (pretty (Z.of_nat i), x)) l
  | VString s => imap (fun i c => (pretty (Z.of_nat i), VString (String c ""))) (String.list_ascii_of_string s)
  | _ => []
  end.

(** [new URL(s)], its host name and port; [None] where it throws. *)
Class UrlApi := parseUrl : string -> option (string * string).

(** [window.location.protocol]. *)
Class PageLocation := protocol : string.

Definition CONNECTION_PROFILE_SECRETS_KEY : string := "agentui.connectionProfileSecrets".
Definition LEGACY_SECRET_KEYS : list string := ["agentui.brokerAuthToken"; "agentui.daemonAuthToken"; "agentui.apiKey"].

(** ** Declared types *)

Definition RunProfileOverrides : list (string * ts_type) :=
  [("tools", TOptional (TUnion ToolMode)); ("yolo", TOptional TBoolean);
   ("hostPolicy", TOptional (TUnion HostPolicy)); ("automationProfile", TOptional TString);
   ("verbose", TOptional TBoolean); ("model", TOptional TString); ("summaryModel", TOptional TString);
   ("summaryMaxChars", TOptional TString); ("baseUrl", TOptional TString); ("apiKey", TOptional TString);
   ("proxyUrl", TOptional TString); ("timeoutMs", TOptional TString); ("maxCaptureBytes", TOptional TString);
   ("streamAssistant", TOptional TBoolean); ("trace", TOptional TBoolean); ("useAsync", TOptional TBoolean);
   ("maxSteps", TOptional TString); ("maxRepeatedToolCalls", TOptional TString);
   ("maxToolCallsTotal", TOptional TString); ("maxToolCallsPerTool", TOptional TString);
   ("toolCallLimits", TOptional TString); ("maxChars", TOptional TString); ("keepLast", TOptional TString);
   ("memoryContextMode", TOptional TString); ("memoryIncludeStructured", TOptional TBoolean);
   ("memoryIncludeCore", TOptional TBoolean); ("memoryIncludeDaily", TOptional TBoolean);
   ("memoryIncludeSession", TOptional TBoolean); ("memoryDailyDays", TOptional TString);
   ("memoryTotalCap", TOptional TString); ("memorySearchQuery", TOptional TString);
   ("memorySearchOrder", TOptional TString); ("memorySearchUseIndex", TOptional TBoolean);
   ("memorySearchCaseSensitive", TOptional TBoolean); ("memorySearchFallbackToFiles", TOptional TBoolean);
   ("memorySearchMaxResults", TOptional TString); ("memorySearchMaxSnippetChars", TOptional TString);
   ("memorySearchContextLines", TOptional TString)].

Definition ConnectionProfile : list (string * ts_type) :=
  [("id", TString); ("name", TString); ("mode", TUnion ConnectionMode); ("base", TString);
   ("brokerBase", TString); ("brokerAgentId", TString); ("brokerDeploymentId", TString);
   ("brokerCookieAuth", TBoolean); ("brokerAuthToken", TString); ("daemonAuthToken", TString);
   ("runOverridesEnabled", TOptional TBoolean); ("runOverrides", TOptional TObject)].

Definition ServerConnectionProfile : list (string * ts_type) :=
  [("id", TString); ("name", TString); ("mode", TUnion ConnectionMode); ("base", TString);
   ("brokerBase", TString); ("brokerAgentId", TString); ("brokerDeploymentId", TString);
   ("brokerCookieAuth", TBoolean)].

(** ** Base addresses *)

(** [/^https?:\/\//i.test(b)]. *)
Definition has_scheme (b : string) : bool :=
  starts_with "http://" (to_lower b) || starts_with "https://" (to_lower b).

Definition head_str (l : list string) : string := default "" (head l).

(** The host of an address without a scheme. *)
Definition host_of (b : string) : string :=
  let hostPart := head_str (split_on (is_char "/") b) in
  match index_of "]" hostPart with
  | Some n => if starts_with "[" hostPart then sdrop 1 (stake n hostPart)
              else head_str (split_on (is_char ":") hostPart)
  | None => head_str (split_on (is_char ":") hostPart)
  end.

Definition is_loopback (host : string) : bool :=
  let hostLower := to_lower host in
  bool_decide (hostLower = "localhost") || bool_decide (hostLower = "::1") || starts_with "127." hostLower.

Section url.
Context {P : PageLocation} {U : UrlApi}.

Definition normalizeHttpBase (raw fallback defaultScheme : string) : string :=
  let b := trim raw in
  if negb (truthy_str b) then fallback
  else if has_scheme b then strip_slashes b
  else
    let proto := to_lower protocol in
    let scheme :=
      if is_loopback (host_of b) then
        if bool_decide (proto = "http:") then "http"
        else if bool_decide (proto = "https:") then "https" else defaultScheme
      else defaultScheme in
    strip_slashes (scheme ++s "://" ++s b).

Definition hostLabel (raw fallback scheme : string) : string :=
  let norm := normalizeHttpBase raw fallback scheme in
  match parseUrl norm with
  | Some (hostname, port) => if truthy_str port then hostname ++s ":" ++s port else hostname
  | None => norm
  end.

Definition profileNameDefault (p : obj value) : string :=
  if bool_decide (prop "mode" p = VString "broker") then
    let agent := str_trim (prop "brokerAgentId" p) in
    let dep := str_trim (prop "brokerDeploymentId" p) in
    if truthy_str agent then
      (if truthy_str dep then "broker:" ++s agent ++s "@" ++s dep else "broker:" ++s agent)
    else "broker:" ++s hostLabel (str_or_empty (prop "brokerBase" p)) "https://127.0.0.1:8443" "https"
  else "daemon:" ++s hostLabel (str_or_empty (prop "base" p)) "http://127.0.0.1:8123" "http".
End url.

(** ** Run overrides *)

Definition readString (v : value) : option string :=
  match v with
  | VString s => Some s
  | VNumber x => if is_finite x then Some (num_to_string x) else None
  | _ => None
  end.

(** How a field of the overrides is read. *)
Inductive rule := RString | RBool | REnum (allowed : list string) | RProfile | RMemoryMode.

Definition read_rule (r : rule) (v : value) : option value :=
  match r with
  | RString => VString <$> readString v
  | RBool => VBool <$> as_bool v
  | REnum allowed => if one_of allowed v then Some v else None
  | RProfile =>
      s ← readString v;
      let trimmed := trim s in
      if bool_decide (trimmed ∈ [""; "full"; "guided"; "strict"; "custom"]) then Some (VString trimmed) else None
  | RMemoryMode =>
      s ← readString v;
      if bool_decide (s ∈ ["files"; "search"; "index"; "salience"]) then Some (VString s) else None
  end.

(** The fields, in the order in which the code reads them. *)
Definition override_rules : list (string * rule) :=
  [("tools", REnum ["host"; "basic"; "none"]); ("yolo", RBool); ("hostPolicy", REnum ["full"; "readonly"]);
   ("automationProfile", RProfile); ("verbose", RBool); ("model", RString); ("summaryModel", RString);
   ("summaryMaxChars", RString); ("baseUrl", RString); ("apiKey", RString); ("proxyUrl", RString);
   ("timeoutMs", RString); ("maxCaptureBytes", RString); ("streamAssistant", RBool); ("trace", RBool);
   ("useAsync", RBool); ("maxSteps", RString); ("maxRepeatedToolCalls", RString);
   ("maxToolCallsTotal", RString); ("maxToolCallsPerTool", RString); ("toolCallLimits", RString);
   ("maxChars", RString); ("keepLast", RString); ("memoryContextMode", RMemoryMode);
   ("memoryIncludeStructured", RBool); ("memoryIncludeCore", RBool); ("memoryIncludeDaily", RBool);
   ("memoryIncludeSession", RBool); ("memoryDailyDays", RString); ("memoryTotalCap", RString);
   ("memorySearchQuery", RString); ("memorySearchOrder", RString); ("memorySearchUseIndex", RBool);
   ("memorySearchCaseSensitive", RBool); ("memorySearchFallbackToFiles", RBool);
   ("memorySearchMaxResults", RString); ("memorySearchMaxSnippetChars", RString);
   ("memorySearchContextLines", RString)].

(** [Object.keys(out).length > 0 ? out : undefined]. *)
Definition nonempty_obj (o : obj value) : option (obj value) := match o with [] => None | _ => Some o end.

(** The keys are distinct and no array indices, so that the assignments append
    the fields in the order of the rules. *)
Definition read_overrides (v : value) : obj value :=
  omap (fun f => pair (fst f) <$> read_rule (snd f) (vprop (fst f) v)) override_rules.

Definition normalizeRunOverrides (raw : value) : option (obj value) :=
  if is_objectish raw then nonempty_obj (read_overrides raw) else None.

Definition stripSecretRunOverrides (raw : value) : option (obj value) :=
  if truthy raw then nonempty_obj (remove "apiKey" (entries_of raw)) else None.

Definition overrides_value (o : option (obj value)) : value := of_option (VObject <$> o).

(** ** Secrets *)

(** [typeof v === "string" && v.trim()]. *)
Definition nonblank (v : value) : option string :=
  s ← as_string v; if truthy_str (trim s) then Some s else None.

Definition secret_field (k : string) (v : value) : obj value :=
  match nonblank v with Some s => [(k, VString s)] | None => [] end.

Definition extractProfileSecrets (p : obj value) : obj value :=
  secret_field "brokerAuthToken" (prop "brokerAuthToken" p)
  ++ secret_field "daemonAuthToken" (prop "daemonAuthToken" p)
  ++ secret_field "runOverridesApiKey" (prop "apiKey" (default [] (normalizeRunOverrides (prop "runOverrides" p)))).

Definition sanitizeProfileForPersistence (p : obj value) : obj value :=
  spread p [("brokerAuthToken", VString ""); ("daemonAuthToken", VString "");
            ("runOverrides", overrides_value (stripSecretRunOverrides (prop "runOverrides" p)))].

(** [if (typeof v === "string") out.k = v]. *)
Definition set_string (k : string) (v : value) (out : obj value) : obj value :=
  if is_string v then set k v out else out.

Definition mergeProfileSecrets (profile : obj value) (secret : value) : obj value :=
  if negb (truthy secret) then profile
  else
    let out := set_string "brokerAuthToken" (vprop "brokerAuthToken" secret) profile in
    let out := set_string "daemonAuthToken" (vprop "daemonAuthToken" secret) out in
    let key := vprop "runOverridesApiKey" secret in
    if is_string key then
      set "runOverrides" (VObject (set "apiKey" key (entries_of (prop "runOverrides" out |||| VObject [])))) out
    else out.

Definition secret_keys : list string := ["brokerAuthToken"; "daemonAuthToken"; "runOverridesApiKey"].

Definition secretsEqual (a b : value) : bool :=
  forallb (fun k => bool_decide ((vprop k a |||| VString "") = (vprop k b |||| VString ""))) secret_keys.

(** One entry of the secret map; [None] is the [continue] or an empty entry. *)
Definition normalize_secret (p : string * value) : option (string * value) :=
  let '(key, v) := p in
  if negb (truthy_str (trim key)) || negb (is_objectish v) then None
  else
    let next := concat (map (fun k => secret_field k (vprop k v)) secret_keys) in
    pair key <$> (VObject <$> nonempty_obj next).

Definition normalizeSecretMap (raw : value) : obj value :=
  if is_objectish raw then of_entries (omap normalize_secret (entries_of raw)) else [].

(** ** Profiles *)

Definition pick_or (t : value -> bool) (v d : value) : value := if t v then v else d.

Section profiles.
Context {P : PageLocation} {U : UrlApi} (defaults : obj value).

(** [fresh] is the identifier [generateProfileId] gives, if it is asked. *)
Definition normalizeProfile (p : obj value) (fresh : string) : obj value :=
  let mode := if bool_decide (prop "mode" p = VString "broker") then "broker" else "direct" in
  let id := match nonblank (prop "id" p) with Some s => s | None => fresh end in
  let name := trim (default "" (as_string (prop "name" p))) in
  let out :=
    [("id", VString id); ("name", VString name); ("mode", VString mode);
     ("base", pick_or is_string (prop "base" p) (prop "daemonBaseUrl" defaults));
     ("brokerBase", pick_or is_string (prop "brokerBase" p) (prop "brokerBaseUrl" defaults));
     ("brokerAgentId", pick_or is_string (prop "brokerAgentId" p) (prop "brokerAgentId" defaults));
     ("brokerDeploymentId", pick_or is_string (prop "brokerDeploymentId" p) (prop "brokerDeploymentId" defaults));
     ("brokerCookieAuth", pick_or is_boolean (prop "brokerCookieAuth" p) (prop "brokerCookieAuth" defaults));
     ("brokerAuthToken", pick_or is_string (prop "brokerAuthToken" p) (VString ""));
     ("daemonAuthToken", pick_or is_string (prop "daemonAuthToken" p) (VString ""));
     ("runOverridesEnabled", pick_or is_boolean (prop "runOverridesEnabled" p) (VBool false));
     ("runOverrides", overrides_value (normalizeRunOverrides (prop "runOverrides" p)))] in
  if truthy_str name then out else set "name" (VString (profileNameDefault out)) out.

Definition server_keys : list string :=
  ["id"; "name"; "mode"; "base"; "brokerBase"; "brokerAgentId"; "brokerDeploymentId"; "brokerCookieAuth"].

Definition toServerProfile (p : obj value) : obj value := map (fun k => (k, prop k p)) server_keys.

Definition buildServerPrefs (profiles : list (obj value)) (activeId : string) : value :=
  VObject [("connection", VObject [("active_profile_id", VString activeId);
                                   ("profiles", VArray (map (fun p => VObject (toServerProfile p)) profiles))])].

Definition first_id (l : list (obj value)) : string :=
  match l with p :: _ => str_or_empty (prop "id" p) | [] => "" end.

(** [new Map(localProfiles.map((p) => [p.id, p])).get(id)]: the last one. *)
Definition local_by_id (localProfiles : list (obj value)) (id : value) : option (obj value) :=
  List.find (fun l => bool_decide (prop "id" l = id)) (rev localProfiles).

Definition local_prop (k : string) (local : option (obj value)) : value :=
  match local with Some l => prop k l | None => VUndefined end.

(** One incoming profile; [None]: reading [id] of [null] throws. *)
Definition merge_incoming (localProfiles : list (obj value)) (fresh : string) (p : value) : option (obj value) :=
  if nullish p then None
  else
    let local := local_by_id localProfiles (vprop "id" p) in
    Some (normalizeProfile (spread (entries_of p)
      [("brokerAuthToken", local_prop "brokerAuthToken" local);
       ("daemonAuthToken", local_prop "daemonAuthToken" local);
       ("runOverridesEnabled", local_prop "runOverridesEnabled" local);
       ("runOverrides", local_prop "runOverrides" local)]) fresh).

Definition mergeServerPrefs (prefs : value) (localProfiles : list (obj value)) (fresh : nat -> string) :
    option (list (obj value) * string) :=
  match as_array (vprop "profiles" (vprop "connection" prefs)) with
  | None | Some [] => Some (localProfiles, first_id localProfiles)
  | Some incoming =>
      merged ← mapM (fun ip => merge_incoming localProfiles (fresh (fst ip)) (snd ip)) (imap pair incoming);
      let desired := default "" (as_string (vprop "active_profile_id" (vprop "connection" prefs))) in
      let found := existsb (fun p => bool_decide (prop "id" p = VString desired)) merged in
      Some (merged, if found then desired else first_id merged)
  end.

(** ** The hook *)

(** The stored profiles, the stored secrets and the stored active id. *)
Record store := mkStore { profiles : list (obj value); secrets : value; activeId : string }.

Section stored.
Context {J : Json}.

(** A storage is a partial function from keys to texts. *)
Definition safeParse (raw : string) : option value := if truthy_str raw then parse raw else None.

Definition read_text (fallback : option string) (raw : string) : option string :=
  match safeParse raw with
  | Some (VString s) => Some s
  | Some (VBool b) => Some (if b then "true" else "false")
  | parsed =>
      match parsed with
      | Some (VNumber x) =>
          if is_finite x then Some (num_to_string x)
          else if truthy_str (trim raw) then Some (trim raw) else fallback
      | _ => if truthy_str (trim raw) then Some (trim raw) else fallback
      end
  end.

Definition readLegacyString (localStorage : string -> option string) (key fallback : string) : string :=
  match localStorage key with
  | None => fallback
  | Some raw => default fallback (read_text (Some fallback) raw)
  end.

Definition readStorageString (storage : string -> option string) (key : string) : option string :=
  raw ← storage key; read_text None raw.

Definition readLegacySecretString (localStorage sessionStorage : string -> option string)
    (key fallback : string) : string :=
  match readStorageString sessionStorage key with
  | Some s => s
  | None => readLegacyString localStorage key fallback
  end.

Definition readLegacyMode (localStorage : string -> option string) (key fallback : string) : string :=
  if bool_decide (readLegacyString localStorage key fallback = "broker") then "broker" else "direct".

(** [storage.removeItem(key)]. *)
Definition without (key : string) (storage : string -> option string) : string -> option string :=
  fun k => if bool_decide (k = key) then None else storage k.

(** The clean-up at the start: for every key first the local and then the session
    storage; a removal that throws, as [local_throws] and [session_throws] say,
    ends the turn of its key. *)
Definition remove_legacy_secrets (local_throws session_throws : string -> bool)
    (storages : (string -> option string) * (string -> option string)) : (string -> option string) * (string -> option string) :=
  fold_left (fun '(l, ss) key =>
      if local_throws key then (l, ss)
      else if session_throws key then (without key l, ss) else (without key l, without key ss))
    LEGACY_SECRET_KEYS storages.

Definition str_default (k : string) : string := default "" (as_string (prop k defaults)).

Definition buildLegacyProfile (localStorage sessionStorage : string -> option string) (fresh : string) : obj value :=
  let text k d := VString (readLegacyString localStorage k (str_default d)) in
  let secret k d := VString (readLegacySecretString localStorage sessionStorage k (str_default d)) in
  normalizeProfile
    [("mode", VString (readLegacyMode localStorage "agentui.connectionMode" (str_default "connectionMode")));
     ("base", text "agentui.base" "daemonBaseUrl");
     ("brokerBase", text "agentui.brokerBase" "brokerBaseUrl");
     ("brokerAgentId", text "agentui.brokerAgentId" "brokerAgentId");
     ("brokerDeploymentId", text "agentui.brokerDeploymentId" "brokerDeploymentId");
     ("brokerCookieAuth", prop "brokerCookieAuth" defaults);
     ("brokerAuthToken", secret "agentui.brokerAuthToken" "brokerAuthToken");
     ("daemonAuthToken", secret "agentui.daemonAuthToken" "daemonAuthToken")] fresh.

Definition id_of (p : obj value) : string := v_to_string (prop "id" p).

(** [{ ...normalizeSecretMap(prev), [id]: secret }] when there is a secret. *)
Definition add_secret (id : string) (secret : obj value) (secrets : value) : value :=
  match secret with
  | [] => secrets
  | _ => VObject (set id (VObject secret) (normalizeSecretMap secrets))
  end.

Definition null_or (o : option (obj value)) : value := match o with Some o => VObject o | None => VNull end.

(** Whether the normalizing effect sees a difference. *)
Definition profile_changed (profile persisted : obj value) : bool :=
  let differs k v := negb (bool_decide (prop k persisted = v)) in
  differs "id" (prop "id" profile) || differs "name" (prop "name" profile)
  || differs "mode" (prop "mode" profile) || differs "base" (prop "base" profile)
  || differs "brokerBase" (prop "brokerBase" profile) || differs "brokerAgentId" (prop "brokerAgentId" profile)
  || differs "brokerDeploymentId" (prop "brokerDeploymentId" profile)
  || differs "brokerCookieAuth" (pick_or is_boolean (prop "brokerCookieAuth" profile) (prop "brokerCookieAuth" defaults))
  || differs "brokerAuthToken" (prop "brokerAuthToken" profile |||| VString "")
  || differs "daemonAuthToken" (prop "daemonAuthToken" profile |||| VString "")
  || differs "runOverridesEnabled" (pick_or is_boolean (prop "runOverridesEnabled" profile) (VBool false))
  || negb (bool_decide (stringify (null_or (stripSecretRunOverrides (prop "runOverrides" profile)))
                        = stringify (prop "runOverrides" persisted ??? VNull))).

(** The loop's accumulator: [changed], [secretsChanged], [nextSecrets] and the
    normalized profiles so far. *)
Definition effect_step (st : bool * bool * obj value * list (obj value)) (ip : string * obj value) :=
  let '(changed, secretsChanged, nextSecrets, done) := st in
  let '(fresh, profile) := ip in
  let np := normalizeProfile profile fresh in
  let extracted := extractProfileSecrets profile in
  let id := id_of np in
  let merged := spread (entries_of (of_option (get id nextSecrets) |||| VObject [])) extracted in
  let '(nextSecrets, secretsChanged) :=
    match extracted with
    | [] => (nextSecrets, secretsChanged)
    | _ => if secretsEqual (of_option (get id nextSecrets)) (VObject merged) then (nextSecrets, secretsChanged)
           else (set id (VObject merged) nextSecrets, true)
    end in
  let persisted := sanitizeProfileForPersistence np in
  (changed || profile_changed profile persisted, secretsChanged, nextSecrets, app done [persisted]).

(** The normalizing effect. *)
Definition normalize_effect (localStorage sessionStorage : string -> option string) (fresh : nat -> string)
    (s : store) : store :=
  match profiles s with
  | [] =>
      let legacy := buildLegacyProfile localStorage sessionStorage (fresh 0%nat) in
      mkStore [sanitizeProfileForPersistence legacy]
        (add_secret (id_of legacy) (extractProfileSecrets legacy) (secrets s)) (id_of legacy)
  | ps =>
      let '(changed, secretsChanged, nextSecrets, normalized) :=
        fold_left effect_step (imap (fun i p => (fresh i, p)) ps)
          (false, false, normalizeSecretMap (secrets s), []) in
      mkStore (if changed then normalized else ps)
        (if secretsChanged then VObject nextSecrets else secrets s)
        (if existsb (fun p => bool_decide (prop "id" p = VString (activeId s))) normalized then activeId s
         else first_id normalized)
  end.

Definition fallbackProfile : obj value :=
  normalizeProfile
    [("id", VString "fallback"); ("name", VString "default"); ("mode", prop "connectionMode" defaults);
     ("base", prop "daemonBaseUrl" defaults); ("brokerBase", prop "brokerBaseUrl" defaults);
     ("brokerAgentId", prop "brokerAgentId" defaults); ("brokerDeploymentId", prop "brokerDeploymentId" defaults);
     ("brokerCookieAuth", prop "brokerCookieAuth" defaults); ("brokerAuthToken", prop "brokerAuthToken" defaults);
     ("daemonAuthToken", prop "daemonAuthToken" defaults)] "".

Definition has_id (id : value) (p : obj value) : bool := bool_decide (prop "id" p = id).

Definition base_profile (s : store) : option (obj value) :=
  match profiles s with
  | [] => None
  | p :: _ => Some (default p (List.find (has_id (VString (activeId s))) (profiles s)))
  end.

(** A stored profile with its secrets. *)
Definition with_secrets (s : store) (p : obj value) : obj value :=
  mergeProfileSecrets p (vprop (id_of p) (secrets s)).

Definition activeProfile (s : store) : obj value :=
  match base_profile s with None => fallbackProfile | Some base => with_secrets s base end.

(** [findIndex]. *)
Definition find_index {A} (p : A -> bool) (l : list A) : option nat := fst <$> list_find (fun x => p x = true) l.

(** The index the updater writes at. *)
Definition resolved_index (s : store) (current : obj value) : nat :=
  match find_index (has_id (prop "id" current)) (profiles s) with
  | Some i => i
  | None => default 0%nat (find_index (has_id (VString (activeId s))) (profiles s))
  end.

Definition same_text (a b : obj value) : bool :=
  bool_decide (stringify (VObject (defined_props a)) = stringify (VObject (defined_props b))).

Definition updateActiveProfile (update : obj value -> obj value) (fresh : string) (s : store) : store :=
  let current := activeProfile s in
  let next := normalizeProfile (update current) fresh in
  let secret := extractProfileSecrets next in
  let sanitized := sanitizeProfileForPersistence next in
  let i := resolved_index s current in
  let ps :=
    match profiles s !! i with
    | None => profiles s
    | Some prev => if same_text sanitized prev then profiles s else <[i := sanitized]> (profiles s)
    end in
  let nextId := id_of next in
  let secrets' :=
    if truthy_str nextId then
      let m := normalizeSecretMap (secrets s) in
      let m := if bool_decide (nextId = id_of current) then m else remove (id_of current) m in
      VObject (match secret with [] => remove nextId m | _ => set nextId (VObject secret) m end)
    else secrets s in
  mkStore ps secrets' (if bool_decide (prop "id" next = prop "id" current) then activeId s else nextId).

(** A profile added at the end, and made active. *)
Definition append_profile (id : string) (profile : obj value) (s : store) : store :=
  mkStore (profiles s ++ [sanitizeProfileForPersistence profile])
    (add_secret id (extractProfileSecrets profile) (secrets s)) id.

Definition addProfile (mode : option string) (id : string) (s : store) : store :=
  let mode := match mode with
              | Some m => if truthy_str m then VString m else prop "connectionMode" defaults
              | None => prop "connectionMode" defaults
              end in
  append_profile id
    (normalizeProfile
       [("id", VString id); ("mode", mode); ("base", prop "daemonBaseUrl" defaults);
        ("brokerBase", prop "brokerBaseUrl" defaults); ("brokerAgentId", prop "brokerAgentId" defaults);
        ("brokerDeploymentId", prop "brokerDeploymentId" defaults);
        ("brokerCookieAuth", prop "brokerCookieAuth" defaults);
        ("brokerAuthToken", prop "brokerAuthToken" defaults);
        ("daemonAuthToken", prop "daemonAuthToken" defaults)] id) s.

Definition duplicateProfile (id : string) (s : store) : store :=
  let active := activeProfile s in
  append_profile id
    (normalizeProfile (spread active [("id", VString id); ("name", VString (v_to_string (prop "name" active) ++s " copy"))]) id) s.

Definition deleteProfile (id : string) (s : store) : store :=
  let next := List.filter (fun p => negb (has_id (VString id) p)) (profiles s) in
  let kept := (length (profiles s) <=? 1)%nat || (length next =? 0)%nat in
  let nextActive := if negb kept && bool_decide (id = activeId s) then first_id next else "" in
  mkStore (if kept then profiles s else next)
    (VObject (remove id (normalizeSecretMap (secrets s))))
    (if truthy_str nextActive then nextActive else activeId s).

(** [next] is the value or the updater the caller gave. *)
Definition setProfileName (next : string -> string) (fresh : string) (s : store) : store :=
  updateActiveProfile (fun prev =>
    let trimmed := trim (next (v_to_string (prop "name" prev))) in
    let nextName := if truthy_str trimmed then trimmed else profileNameDefault prev in
    if bool_decide (VString nextName = prop "name" prev) then prev else set "name" (VString nextName) prev) fresh s.

(** [pullServerPrefs] of useConnectionServerPrefs.ts, after an answer with
    preferences; an exception leaves the profiles as they are. *)
Definition pulled (prefs : value) (fresh : nat -> string) (s : store) : store :=
  if negb (is_objectish prefs) then s
  else match mergeServerPrefs prefs (map (with_secrets s) (profiles s)) fresh with
       | None => s
       | Some (ps, a) => mkStore ps (secrets s) (if truthy_str a then a else activeId s)
       end.

Inductive action :=
  | Normalize (localStorage sessionStorage : string -> option string) (fresh : nat -> string)
  | Update (update : obj value -> obj value) (fresh : string)
  | Add (mode : option string) (id : string)
  | Duplicate (id : string)
  | Delete (id : string)
  | Rename (next : string -> string) (fresh : string)
  | Pull (prefs : value) (fresh : nat -> string).

Definition step (s : store) (i : action) : store :=
  match i with
  | Normalize l ss fresh => normalize_effect l ss fresh s
  | Update f fresh => updateActiveProfile f fresh s
  | Add mode id => addProfile mode id s
  | Duplicate id => duplicateProfile id s
  | Delete id => deleteProfile id s
  | Rename next fresh => setProfileName next fresh s
  | Pull prefs fresh => pulled prefs fresh s
  end.
End stored.
End profiles.

(** ** Overrides are typed and stable *)

Definition rule_type (r : rule) : value -> bool :=
  match r with
  | RString => is_string
  | RBool => is_boolean
  | REnum allowed => one_of allowed
  | RProfile => one_of [""; "full"; "guided"; "strict"; "custom"]
  | RMemoryMode => one_of ["files"; "search"; "index"; "salience"]
  end.

Lemma read_rule_typed r v w : read_rule r v = Some w -> rule_type r w = true /\ read_rule r w = Some w.
Proof.
  destruct r; cbn [read_rule rule_type].
  - intros (s & _ & ->)%fmap_Some. done.
  - intros (b & _ & ->)%fmap_Some. done.
  - destruct (one_of allowed v) eqn:E; [|done]. intros [= <-]. by rewrite E.
  - intros (s & _ & H)%bind_Some. case_bool_decide as Hin; [|done]. injection H as <-.
    split; [by apply bool_decide_eq_true|]. cbn. by rewrite trim_idem, bool_decide_true.
  - intros (s & _ & H)%bind_Some. case_bool_decide as Hin; [|done]. injection H as <-.
    split; [by apply bool_decide_eq_true|]. cbn. by rewrite bool_decide_true.
Qed.

Lemma read_rule_undefined r : read_rule r VUndefined = None.
Proof. by destruct r. Qed.

(** An object filled in the order of a list of distinct keys. *)
Lemma get_omap {A} (g : string * A -> option value) (l : list (string * A)) k a :
  NoDup (map fst l) -> (k, a) ∈ l -> get k (omap (fun f => pair (fst f) <$> g f) l) = g (k, a).
Proof.
  induction l as [|[j b] l IH]; [intros _ H; by apply not_elem_of_nil in H|].
  cbn [map fst]. intros [Hj Hl]%NoDup_cons Hin. cbn [omap list_omap]. cbn [fst].
  apply elem_of_cons in Hin as [[= -> ->]|Hin].
  - destruct (g (j, b)) as [v|] eqn:E; simpl; [by rewrite bool_decide_true|].
    apply get_none. intros Hk. apply Hj. unfold keys in Hk.
    apply list_elem_of_In, in_map_iff in Hk as ([k' v] & <- & Hv%list_elem_of_In).
    apply list_elem_of_omap in Hv as ([k2 a2] & Hin & (w & _ & [= -> _])%fmap_Some).
    by apply (list_elem_of_fmap_2 fst) in Hin.
  - assert (k <> j) by (intros ->; destruct Hj; by apply (list_elem_of_fmap_2 fst) in Hin).
    destruct (g (j, b)) as [v|]; simpl; [rewrite bool_decide_false by done|]; by apply IH.
Qed.

Lemma elem_omap {A} (g : string * A -> option value) (l : list (string * A)) k w :
  (k, w) ∈ omap (fun f => pair (fst f) <$> g f) l -> exists a, (k, a) ∈ l /\ g (k, a) = Some w.
Proof.
  intros ([j a] & Hin & (x & Hx & [= -> ->])%fmap_Some)%list_elem_of_omap. by exists a.
Qed.

Lemma wf_omap {A} (g : string * A -> option value) (l : list (string * A)) :
  NoDup (map fst l) -> wf (omap (fun f => pair (fst f) <$> g f) l).
Proof.
  unfold wf, keys. induction l as [|[k a] l IH]; [constructor|]. cbn [map fst].
  intros [Hk Hl]%NoDup_cons. cbn [omap list_omap fst].
  destruct (g (k, a)); simpl; [|by apply IH]. constructor; [|by apply IH].
  intros Hin. apply Hk. apply list_elem_of_In, in_map_iff in Hin as ([k' w] & <- & Hw%list_elem_of_In).
  apply elem_omap in Hw as (a' & Hin & _). by apply (list_elem_of_fmap_2 fst) in Hin.
Qed.

Lemma rules_keys : NoDup (map fst override_rules).
Proof. by by_compute. Qed.

Lemma get_read_overrides k r v :
  (k, r) ∈ override_rules -> get k (read_overrides v) = read_rule r (vprop k v).
Proof. intros H. unfold read_overrides. by rewrite (get_omap _ _ k r) by (done || apply rules_keys). Qed.

Lemma read_overrides_idem v : read_overrides (VObject (read_overrides v)) = read_overrides v.
Proof.
  unfold read_overrides at 1. unfold read_overrides at 2.
  assert (H : forall f, f ∈ override_rules ->
    read_rule (snd f) (vprop (fst f) (VObject (read_overrides v))) = read_rule (snd f) (vprop (fst f) v)).
  { intros [k r] Hin. cbn [fst snd vprop]. unfold prop. rewrite (get_read_overrides k r) by done.
    destruct (read_rule r (vprop k v)) as [w|] eqn:E; [|apply read_rule_undefined].
    by apply read_rule_typed in E as []. }
  revert H. generalize (read_overrides v). induction override_rules as [|f l IH]; intros o H; [done|].
  cbn [omap list_omap]. rewrite (H f) by left. rewrite IH; [done|]. intros g Hg. apply H. by right.
Qed.

Lemma normalizeRunOverrides_idem v :
  normalizeRunOverrides (overrides_value (normalizeRunOverrides v)) = normalizeRunOverrides v.
Proof.
  unfold normalizeRunOverrides at 2 3. destruct (is_objectish v); [|done].
  destruct (read_overrides v) as [|p o] eqn:E; [done|]. cbn [nonempty_obj]. rewrite <- E.
  unfold normalizeRunOverrides. change (overrides_value (Some (read_overrides v))) with (VObject (read_overrides v)).
  cbn [is_objectish]. rewrite read_overrides_idem. by rewrite E.
Qed.

Definition overrides_typed (v : value) : Prop :=
  v = VUndefined \/ exists r, v = VObject r /\ r <> [] /\ wf r /\ Forall (field_typed r) RunProfileOverrides
    /\ forall k w, (k, w) ∈ r -> exists ru, (k, ru) ∈ override_rules /\ rule_type ru w = true.

(** The fields read are those of the type, in its order. *)
Definition rule_ts (r : rule) : ts_type :=
  TOptional match r with RBool => TBoolean | REnum allowed => TUnion allowed | _ => TString end.

Lemma rules_cover : RunProfileOverrides = map (fun f => (fst f, rule_ts (snd f))) override_rules.
Proof. reflexivity. Qed.

Lemma rule_type_ts r w : rule_type r w = true -> has_type (rule_ts r) w = true.
Proof.
  intros H. apply orb_true_iff. right. by destruct r, w.
Qed.

Lemma read_overrides_fields v : Forall (field_typed (read_overrides v)) RunProfileOverrides.
Proof.
  rewrite rules_cover. apply Forall_forall. intros f (r & -> & Hr)%list_elem_of_fmap.
  destruct r as [k r]. unfold field_typed, prop. cbn [fst snd].
  rewrite (get_read_overrides k r v Hr).
  destruct (read_rule r (vprop k v)) as [w|] eqn:E; [|done]. apply rule_type_ts. by apply read_rule_typed in E as [].
Qed.

Lemma wf_read_overrides v : wf (read_overrides v).
Proof. unfold read_overrides. apply wf_omap, rules_keys. Qed.

Lemma elem_read_overrides k w v :
  (k, w) ∈ read_overrides v -> exists r, (k, r) ∈ override_rules /\ rule_type r w = true.
Proof.
  unfold read_overrides. intros (r & Hin & Hr)%elem_omap. exists r. split; [done|].
  by apply read_rule_typed in Hr as [].
Qed.

Lemma nonempty_obj_some o r : nonempty_obj o = Some r -> r = o /\ r <> [].
Proof. by destruct o; intros [= <-]. Qed.

Lemma normalizeRunOverrides_typed v : overrides_typed (overrides_value (normalizeRunOverrides v)).
Proof.
  unfold normalizeRunOverrides. destruct (is_objectish v); [|by left].
  destruct (nonempty_obj (read_overrides v)) as [r|] eqn:E; [|by left].
  apply nonempty_obj_some in E as [-> Hne]. right. exists (read_overrides v).
  split_and!; [done|done|apply wf_read_overrides|apply read_overrides_fields|]. intros k w. apply elem_read_overrides.
Qed.

(** ** Profiles are typed and stable *)

Definition profile_keys : list string := map fst ConnectionProfile.

(** The type [ConnectionProfile], and more: an identifier that is not blank, a
    name, a flag, and well-typed overrides. *)
Definition profile_typed (o : obj value) : Prop :=
  keys o = profile_keys /\ Forall (field_typed o) ConnectionProfile
  /\ (exists id, prop "id" o = VString id /\ trim id <> "")
  /\ (exists n, prop "name" o = VString n /\ n <> "")
  /\ is_boolean (prop "runOverridesEnabled" o) = true
  /\ overrides_typed (prop "runOverrides" o).

(** What the normalizer needs of the defaults, and [getUiDefaults] gives. *)
Definition defaults_ok (d : obj value) : Prop :=
  Forall (fun k => is_string (prop k d) = true)
    ["daemonBaseUrl"; "brokerBaseUrl"; "brokerAgentId"; "brokerDeploymentId"]
  /\ is_boolean (prop "brokerCookieAuth" d) = true.

Lemma getUiDefaults_ok metaEnv config : defaults_ok (getUiDefaults metaEnv config).
Proof.
  pose proof (getUiDefaults_declared metaEnv config) as H.
  generalize dependent (getUiDefaults metaEnv config). intros d H.
  assert (Hs : forall k e, (k, CString, e) ∈ settings -> is_string (prop k d) = true).
  { intros k e Hin. apply H in Hin as [s Hs]. by rewrite Hs. }
  split; [|].
  - repeat apply List.Forall_cons; [| | | |constructor].
    + apply (Hs _ (Some "VITE_AGENTD_BASE_URL")). by_compute.
    + apply (Hs _ (Some "VITE_BROKER_BASE_URL")). by_compute.
    + apply (Hs _ (Some "VITE_AGENTUI_BROKER_AGENT_ID")). by_compute.
    + apply (Hs _ (Some "VITE_AGENTUI_BROKER_DEPLOYMENT_ID")). by_compute.
  - destruct (H "brokerCookieAuth" CBool (Some "VITE_AGENTUI_BROKER_COOKIE_AUTH")) as [b ->]; [by_compute|done].
Qed.

Section typed.
Context {P : PageLocation} {U : UrlApi}.

(** The literal with a given name. *)
Definition profile_literal (d p : obj value) (fresh name : string) : obj value :=
  [("id", VString (default fresh (nonblank (prop "id" p)))); ("name", VString name);
   ("mode", VString (if bool_decide (prop "mode" p = VString "broker") then "broker" else "direct"));
   ("base", pick_or is_string (prop "base" p) (prop "daemonBaseUrl" d));
   ("brokerBase", pick_or is_string (prop "brokerBase" p) (prop "brokerBaseUrl" d));
   ("brokerAgentId", pick_or is_string (prop "brokerAgentId" p) (prop "brokerAgentId" d));
   ("brokerDeploymentId", pick_or is_string (prop "brokerDeploymentId" p) (prop "brokerDeploymentId" d));
   ("brokerCookieAuth", pick_or is_boolean (prop "brokerCookieAuth" p) (prop "brokerCookieAuth" d));
   ("brokerAuthToken", pick_or is_string (prop "brokerAuthToken" p) (VString ""));
   ("daemonAuthToken", pick_or is_string (prop "daemonAuthToken" p) (VString ""));
   ("runOverridesEnabled", pick_or is_boolean (prop "runOverridesEnabled" p) (VBool false));
   ("runOverrides", overrides_value (normalizeRunOverrides (prop "runOverrides" p)))].

Lemma profileNameDefault_nonempty p : profileNameDefault p <> "".
Proof. unfold profileNameDefault. by repeat case_match. Qed.

Definition own_name (p : obj value) : string := trim (default "" (as_string (prop "name" p))).

Lemma normalizeProfile_literal d p fresh : exists name,
  normalizeProfile d p fresh = profile_literal d p fresh name /\ name <> ""
  /\ (truthy_str (own_name p) = true -> name = own_name p).
Proof.
  unfold normalizeProfile, own_name. set (n := trim _). cbn zeta.
  set (out := (_ :: _)). change out with (profile_literal d p fresh n).
  destruct (truthy_str n) eqn:E.
  - exists n. split_and!; [done|by apply truthy_str_true|done].
  - exists (profileNameDefault (profile_literal d p fresh n)). split; [|by split; [apply profileNameDefault_nonempty|]].
    reflexivity.
Qed.
Lemma pick_or_typed t v d : t d = true -> t (pick_or t v d) = true.
Proof. unfold pick_or. intros. by destruct (t v) eqn:E. Qed.

Lemma pick_or_id t v d : t v = true -> pick_or t v d = v.
Proof. unfold pick_or. by intros ->. Qed.

Lemma nonblank_string s : trim s <> "" -> nonblank (VString s) = Some s.
Proof. intros H%truthy_str_true. unfold nonblank. cbn. by rewrite H. Qed.

Lemma nonblank_some v s : nonblank v = Some s -> v = VString s /\ trim s <> "".
Proof.
  unfold nonblank. destruct v; try done. cbn. destruct (truthy_str (trim s0)) eqn:E; [|done].
  intros [= ->]. split; [done|]. by apply truthy_str_true.
Qed.

Lemma profile_id_ok (p : obj value) fresh : trim fresh <> "" -> trim (default fresh (nonblank (prop "id" p))) <> "".
Proof. destruct (nonblank (prop "id" p)) as [s|] eqn:E; [|done]. by apply nonblank_some in E as [_ ?]. Qed.

Lemma literal_typed d p fresh name :
  defaults_ok d -> trim fresh <> "" -> name <> "" -> profile_typed (profile_literal d p fresh name).
Proof.
  intros [Hd Hb] Hf Hn.
  apply List.Forall_cons_iff in Hd as [Hd1 Hd]. apply List.Forall_cons_iff in Hd as [Hd2 Hd].
  apply List.Forall_cons_iff in Hd as [Hd3 Hd]. apply List.Forall_cons_iff in Hd as [Hd4 _].
  split; [done|]. split; [|split; [eexists; split; [reflexivity|by apply profile_id_ok]|]].
  - repeat (apply List.Forall_cons; [first [done|by apply pick_or_typed|idtac]|]); [| | |constructor].
    + unfold field_typed. cbn [fst snd].
      change (prop "mode" _) with (VString (if bool_decide (prop "mode" p = VString "broker") then "broker" else "direct")).
      by case_bool_decide.
    + apply orb_true_iff. right. by apply pick_or_typed.
    + unfold field_typed. cbn [fst snd]. change (prop "runOverrides" _) with
        (overrides_value (normalizeRunOverrides (prop "runOverrides" p))). by destruct (normalizeRunOverrides _).
  - split; [eexists; split; [reflexivity|done]|]. split; [by apply pick_or_typed|apply normalizeRunOverrides_typed].
Qed.

Lemma pick_or_idem t v d d' : t d = true -> pick_or t (pick_or t v d) d' = pick_or t v d.
Proof. intros H. by apply pick_or_id, pick_or_typed. Qed.

Lemma cons_prop (k : string) (v v' : value) (l l' : obj value) : v = v' -> l = l' -> (k, v) :: l = (k, v') :: l'.
Proof. congruence. Qed.

(** The literal of a literal, whatever the defaults then. *)
Lemma literal_idem d p fresh name d' fresh' :
  defaults_ok d -> trim fresh <> "" ->
  profile_literal d' (profile_literal d p fresh name) fresh' name = profile_literal d p fresh name.
Proof.
  intros [Hd Hb] Hf.
  apply List.Forall_cons_iff in Hd as [Hd1 Hd]. apply List.Forall_cons_iff in Hd as [Hd2 Hd].
  apply List.Forall_cons_iff in Hd as [Hd3 Hd]. apply List.Forall_cons_iff in Hd as [Hd4 _].
  unfold profile_literal at 1.
  assert (E1 : nonblank (prop "id" (profile_literal d p fresh name)) = Some (default fresh (nonblank (prop "id" p))))
    by (apply nonblank_string, profile_id_ok, Hf).
  assert (E2 : bool_decide (prop "mode" (profile_literal d p fresh name) = VString "broker")
               = bool_decide (prop "mode" p = VString "broker")).
  { change (prop "mode" (profile_literal d p fresh name)) with
      (VString (if bool_decide (prop "mode" p = VString "broker") then "broker" else "direct")).
    destruct (bool_decide_reflect (prop "mode" p = VString "broker")); [done|by apply bool_decide_eq_false]. }
  rewrite E1, E2.
  change (prop "runOverrides" (profile_literal d p fresh name)) with
    (overrides_value (normalizeRunOverrides (prop "runOverrides" p))).
  rewrite normalizeRunOverrides_idem. unfold profile_literal.
  repeat (apply cons_prop; [
    first [reflexivity
          |exact (pick_or_idem is_string _ _ _ Hd1)|exact (pick_or_idem is_string _ _ _ Hd2)
          |exact (pick_or_idem is_string _ _ _ Hd3)|exact (pick_or_idem is_string _ _ _ Hd4)
          |exact (pick_or_idem is_boolean _ _ _ Hb)|exact (pick_or_idem is_string _ (VString "") _ eq_refl)
          |exact (pick_or_idem is_boolean _ (VBool false) _ eq_refl)]|]).
  reflexivity.
Qed.
End typed.

(** A connection profile has its declared type whatever was stored: the
    twelve fields, an identifier that is not blank, a name, a mode, strings
    and booleans, and overrides of which every field has its type; and a
    profile that was normalized is not changed by normalizing it again, even
    with other defaults, so the effect that normalizes the stored profiles
    comes to rest. *)
Theorem normalizeProfile_typed {P : PageLocation} {U : UrlApi} (metaEnv config : value) (p : obj value)
    (fresh : string) (Hfresh : trim fresh <> "") :
  let o := normalizeProfile (getUiDefaults metaEnv config) p fresh in
  profile_typed o
  /\ forall d' fresh' n, prop "name" o = VString n -> trim n = n -> normalizeProfile d' o fresh' = o.
Proof.
  cbn zeta. pose proof (getUiDefaults_ok metaEnv config) as Hd.
  generalize dependent (getUiDefaults metaEnv config). intros d Hd.
  destruct (normalizeProfile_literal d p fresh) as (name & -> & Hn & _).
  split; [by apply literal_typed|]. intros d' fresh' n Hname Htrim.
  assert (n = name) as -> by (injection Hname as ->; done).
  destruct (normalizeProfile_literal d' (profile_literal d p fresh name) fresh') as (name' & -> & _ & Hown).
  assert (own_name (profile_literal d p fresh name) = name) as Ho by exact Htrim.
  rewrite Ho in Hown. rewrite Hown by (by apply truthy_str_true). by apply literal_idem.
Qed.

Definition demo_location : PageLocation := "https:".
Definition demo_url : UrlApi := fun s => if starts_with "http" s then Some ("host", "") else None.

Lemma normalizeProfile_typed_witness :
  profile_typed (normalizeProfile (P := demo_location) (U := demo_url)
    (getUiDefaults VUndefined VUndefined) [("name", VString " a "); ("brokerBase", VNull)] "profile-1").
Proof.
  assert (H : trim "profile-1" <> "") by by_compute.
  exact (proj1 (normalizeProfile_typed (P := demo_location) (U := demo_url) VUndefined VUndefined
    [("name", VString " a "); ("brokerBase", VNull)] "profile-1" H)).
Defined.

(** ** Secrets and the local storage *)

(** No secret in a stored profile. *)
Definition no_secret (p : obj value) : Prop :=
  prop "brokerAuthToken" p = VString "" /\ prop "daemonAuthToken" p = VString ""
  /\ vprop "apiKey" (prop "runOverrides" p) = VUndefined.

Lemma sanitize_keys p : wf [("brokerAuthToken", VString ""); ("daemonAuthToken", VString "");
  ("runOverrides", overrides_value (stripSecretRunOverrides (prop "runOverrides" p)))].
Proof. unfold wf. cbn [keys map fst]. by_compute. Qed.

Lemma strip_no_key v : vprop "apiKey" (overrides_value (stripSecretRunOverrides v)) = VUndefined.
Proof.
  unfold stripSecretRunOverrides. destruct (truthy v); [|done].
  destruct (nonempty_obj (remove "apiKey" (entries_of v))) as [r|] eqn:E; [|done].
  apply nonempty_obj_some in E as [-> _]. change (prop "apiKey" (remove "apiKey" (entries_of v)) = VUndefined).
  unfold prop. by rewrite get_remove, bool_decide_true.
Qed.

Lemma sanitize_no_secret p : no_secret (sanitizeProfileForPersistence p).
Proof.
  unfold no_secret, sanitizeProfileForPersistence. pose proof (sanitize_keys p) as Hwf.
  rewrite !prop_spread by done. split; [done|]. split; [done|]. apply strip_no_key.
Qed.

Section secrets.
Context {P : PageLocation} {U : UrlApi} {J : Json} (d : obj value).

Lemma Forall_insert_sanitized (l : list (obj value)) i p :
  Forall no_secret l -> Forall no_secret (<[i := sanitizeProfileForPersistence p]> l).
Proof. intros H. apply Forall_insert; [done|apply sanitize_no_secret]. Qed.

Lemma update_no_secret f fresh s :
  Forall no_secret (profiles s) -> Forall no_secret (profiles (updateActiveProfile d f fresh s)).
Proof.
  intros H. unfold updateActiveProfile. cbn [profiles]. destruct (profiles s !! _); [|done].
  destruct (same_text _ _); [done|]. by apply Forall_insert_sanitized.
Qed.

Lemma append_no_secret id p s :
  Forall no_secret (profiles s) -> Forall no_secret (profiles (append_profile id p s)).
Proof. intros H. apply Forall_app. split; [done|]. repeat constructor; apply sanitize_no_secret. Qed.

(** The profiles the normalizing effect computes are sanitized. *)
Lemma effect_fold ps st :
  let '(_, _, _, done0) := st in
  let '(_, _, _, done1) := fold_left (effect_step d) ps st in
  Forall no_secret done0 -> Forall no_secret done1.
Proof.
  revert st. induction ps as [|[fresh p] ps IH]; intros [[[c sc] ns] done0]; cbn [fold_left]; [auto|].
  specialize (IH (effect_step d (c, sc, ns, done0) (fresh, p))). revert IH.
  unfold effect_step at 1. cbn zeta. destruct (match extractProfileSecrets p with [] => _ | _ => _ end) as [ns' sc'].
  destruct (fold_left _ ps _) as [[[c' sc2] ns2] done1]. intros IH H. apply IH. apply Forall_app.
  split; [done|]. repeat constructor; apply sanitize_no_secret.
Qed.

Lemma effect_no_secret l ss fresh s :
  Forall no_secret (profiles s) -> Forall no_secret (profiles (normalize_effect d l ss fresh s)).
Proof.
  intros H. unfold normalize_effect. destruct (profiles s) as [|p ps] eqn:E.
  { repeat constructor; apply sanitize_no_secret. }
  pose proof (effect_fold (imap (fun i p => (fresh i, p)) (p :: ps))
    (false, false, normalizeSecretMap (secrets s), [])) as Hf.
  destruct (fold_left _ _ _) as [[[c sc] ns] done1]. cbn [profiles]. destruct c; [|done]. by apply Hf.
Qed.

Lemma delete_no_secret id s :
  Forall no_secret (profiles s) -> Forall no_secret (profiles (deleteProfile id s)).
Proof. intros H. unfold deleteProfile. cbn [profiles]. case_match; [done|]. by apply Forall_filter. Qed.

(** A page that has not pulled preferences keeps its secrets out. *)
Lemma step_no_secret s i :
  (forall prefs fresh, i <> Pull prefs fresh) ->
  Forall no_secret (profiles s) -> Forall no_secret (profiles (step d s i)).
Proof.
  intros Hi H. destruct i; cbn [step].
  - by apply effect_no_secret.
  - by apply update_no_secret.
  - by apply append_no_secret.
  - by apply append_no_secret.
  - by apply delete_no_secret.
  - by apply update_no_secret.
  - by destruct (Hi prefs fresh).
Qed.

(** A difference in any profile makes the effect write all of them. *)
Lemma effect_changed ps st :
  let '(c0, _, _, _) := st in
  let '(c1, _, _, _) := fold_left (effect_step d) ps st in
  c1 = false -> c0 = false /\ Forall (fun ip =>
    profile_changed d (snd ip) (sanitizeProfileForPersistence (normalizeProfile d (snd ip) (fst ip))) = false) ps.
Proof.
  revert st. induction ps as [|[fresh p] ps IH]; intros [[[c sc] ns] done0]; cbn [fold_left]; [auto|].
  specialize (IH (effect_step d (c, sc, ns, done0) (fresh, p))). revert IH.
  unfold effect_step at 1. cbn zeta. destruct (match extractProfileSecrets p with [] => _ | _ => _ end) as [ns' sc'].
  destruct (fold_left _ ps _) as [[[c' sc2] ns2] done1]. intros IH H.
  destruct (IH H) as [[Hc Hch]%orb_false_iff Hps]. split; [done|]. by constructor.
Qed.

(** After the effect no token is left, whatever was stored. *)
Lemma effect_tokens l ss fresh s p :
  p ∈ profiles (normalize_effect d l ss fresh s) ->
  truthy (prop "brokerAuthToken" p) = false /\ truthy (prop "daemonAuthToken" p) = false.
Proof.
  assert (Hno : forall q, no_secret q ->
    truthy (prop "brokerAuthToken" q) = false /\ truthy (prop "daemonAuthToken" q) = false)
    by (intros q (-> & -> & _); done).
  unfold normalize_effect. destruct (profiles s) as [|p0 ps] eqn:E.
  { intros ->%list_elem_of_singleton. apply Hno, sanitize_no_secret. }
  set (ips := imap (fun i p => (fresh i, p)) (p0 :: ps)).
  pose proof (effect_fold ips (false, false, normalizeSecretMap (secrets s), [])) as Hf.
  pose proof (effect_changed ips (false, false, normalizeSecretMap (secrets s), [])) as Hc.
  destruct (fold_left _ ips _) as [[[c sc] ns] done1]. cbn [profiles]. destruct c; intros Hp.
  { apply Hno. specialize (Hf ltac:(constructor)). rewrite Forall_forall in Hf. by apply Hf. }
  destruct (Hc eq_refl) as [_ Hall]. rewrite Forall_forall in Hall.
  apply list_elem_of_lookup in Hp as [i Hi].
  specialize (Hall (fresh i, p)). unfold profile_changed in Hall. cbn [fst snd] in Hall.
  assert (Hin : (fresh i, p) ∈ ips).
  { apply list_elem_of_lookup. exists i. unfold ips. rewrite list_lookup_imap, Hi. done. }
  specialize (Hall Hin).
  repeat match goal with H : _ || _ = false |- _ => apply orb_false_iff in H as [? ?] end.
  pose proof (sanitize_no_secret (normalizeProfile d p (fresh i))) as (Hn1 & Hn2 & _).
  rewrite Hn1 in *. rewrite Hn2 in *.
  assert (Htr : forall v, negb (bool_decide (VString "" = (v |||| VString ""))) = false -> truthy v = false).
  { intros v Hv%negb_false_iff%bool_decide_eq_true. unfold v_or in Hv. destruct (truthy v) eqn:Et; [|done].
    by subst v. }
  split; by apply Htr.
Qed.
End secrets.

(** ** The API key of a pulled profile *)

Definition demo_defaults : obj value := getUiDefaults VUndefined VUndefined.

(** One profile with overrides, its API key in the session storage. *)
Definition key_store : store :=
  mkStore [normalizeProfile (P := demo_location) (U := demo_url) demo_defaults
             [("id", VString "p1"); ("name", VString "work"); ("runOverrides", VObject [("model", VString "m")])] "p1"]
    (VObject [("p1", VObject [("runOverridesApiKey", VString "sk-secret")])]) "p1".

(** The stored profile, and with more overrides. *)
Definition key_profile (more : obj value) : obj value :=
  [("id", VString "p1"); ("name", VString "work"); ("mode", VString "direct");
   ("base", VString "http://127.0.0.1:8123"); ("brokerBase", VString "https://127.0.0.1:8443");
   ("brokerAgentId", VString "agent1"); ("brokerDeploymentId", VString ""); ("brokerCookieAuth", VBool false);
   ("brokerAuthToken", VString ""); ("daemonAuthToken", VString ""); ("runOverridesEnabled", VBool false);
   ("runOverrides", VObject (("model", VString "m") :: more))].

(** What the server sends for it. *)
Definition key_prefs : value := buildServerPrefs (profiles key_store) "p1".

Definition pull_and_normalize : store :=
  step (P := demo_location) (U := demo_url) (J := text_json) demo_defaults
    (step (P := demo_location) (U := demo_url) (J := text_json) demo_defaults key_store
       (Pull key_prefs (fun _ => "fresh")))
    (Normalize (fun _ => None) (fun _ => None) (fun _ => "fresh")).

(** A pull leaves an API key behind: it writes the profiles with their
    secrets, and the effect that should strip them compares the overrides
    after stripping the key from both sides, so, when there is no token to
    give the difference away, it writes nothing and the key stays in the local
    storage from then on. *)
Lemma pulled_key_stays :
  Forall no_secret (profiles key_store)
  /\ Exists (fun p => vprop "apiKey" (prop "runOverrides" p) = VString "sk-secret") (profiles pull_and_normalize)
  /\ step (P := demo_location) (U := demo_url) (J := text_json) demo_defaults pull_and_normalize
       (Normalize (fun _ => None) (fun _ => None) (fun _ => "fresh")) = pull_and_normalize.
Proof.
  assert (H1 : profiles key_store = [key_profile []]) by by_compute.
  assert (H2 : pull_and_normalize = mkStore [key_profile [("apiKey", VString "sk-secret")]]
                 (secrets key_store) "p1") by (by vm_compute).
  rewrite H1, H2. clear H1 H2. split_and!; [|by apply List.Exists_cons_hd|by vm_compute].
  apply List.Forall_cons; [done|constructor].
Qed.

Lemma legacy_secrets_removed lt st l ss k :
  let s' := remove_legacy_secrets lt st (l, ss) in
  if bool_decide (k ∈ ["agentui.brokerAuthToken"; "agentui.daemonAuthToken"; "agentui.apiKey"])
  then fst s' k = (if lt k then l k else None) /\ snd s' k = (if lt k || st k then ss k else None)
  else fst s' k = l k /\ snd s' k = ss k.
Proof.
  cbv zeta. unfold remove_legacy_secrets, LEGACY_SECRET_KEYS. cbn [fold_left].
  destruct (decide (k = "agentui.brokerAuthToken")) as [->|H1]; [|destruct (decide (k = "agentui.daemonAuthToken")) as [->|H2];
    [|destruct (decide (k = "agentui.apiKey")) as [->|H3]]].
  4: rewrite bool_decide_false by set_solver.
  1, 2, 3: rewrite bool_decide_true by set_solver.
  all: destruct (lt "agentui.brokerAuthToken"), (st "agentui.brokerAuthToken"), (lt "agentui.daemonAuthToken"), (st "agentui.daemonAuthToken"),
    (lt "agentui.apiKey"), (st "agentui.apiKey"); cbn [fst snd orb]; unfold without; by rewrite ?bool_decide_false by done.
Qed.

(** C38: secrets stay out of the local storage and off the wire: no action of
    the hook, the pull aside, puts a token or an API key into a stored
    profile; after the normalizing effect no stored profile has a token,
    whatever was stored; what is sent to the server is the active identifier and,
    of each profile, its identifier, name, mode, both addresses, agent,
    deployment and whether a cookie is used, and nothing else; and the clean-up
    at the start removes exactly the three former secrets from both storages,
    so that their readers find none, unless a storage refuses: a refusal of the
    local one leaves that key in both.  But a pull can leave an API key behind
    that the effect does not see. *)
Theorem secrets_stay_out {P : PageLocation} {U : UrlApi} {J : Json} (d : obj value) :
  (forall s i, (forall prefs fresh, i <> Pull prefs fresh) ->
     Forall no_secret (profiles s) -> Forall no_secret (profiles (step d s i)))
  /\ (forall s l ss fresh p, p ∈ profiles (step d s (Normalize l ss fresh)) ->
        truthy (prop "brokerAuthToken" p) = false /\ truthy (prop "daemonAuthToken" p) = false)
  /\ (forall ps active, buildServerPrefs ps active
        = VObject [("connection", VObject
            [("active_profile_id", VString active);
             ("profiles", VArray (map (fun p => VObject
                [("id", prop "id" p); ("name", prop "name" p); ("mode", prop "mode" p); ("base", prop "base" p);
                 ("brokerBase", prop "brokerBase" p); ("brokerAgentId", prop "brokerAgentId" p);
                 ("brokerDeploymentId", prop "brokerDeploymentId" p); ("brokerCookieAuth", prop "brokerCookieAuth" p)]) ps))])])
  /\ (forall local_throws session_throws l ss k,
        let s' := remove_legacy_secrets local_throws session_throws (l, ss) in
        if bool_decide (k ∈ ["agentui.brokerAuthToken"; "agentui.daemonAuthToken"; "agentui.apiKey"])
        then fst s' k = (if local_throws k then l k else None)
             /\ snd s' k = (if local_throws k || session_throws k then ss k else None)
             /\ (local_throws k = false -> session_throws k = false -> forall f, readLegacySecretString (fst s') (snd s') k f = f)
        else fst s' k = l k /\ snd s' k = ss k)
  /\ Forall no_secret (profiles key_store)
  /\ Exists (fun p => vprop "apiKey" (prop "runOverrides" p) = VString "sk-secret") (profiles pull_and_normalize)
  /\ step (P := demo_location) (U := demo_url) (J := text_json) demo_defaults pull_and_normalize
       (Normalize (fun _ => None) (fun _ => None) (fun _ => "fresh")) = pull_and_normalize.
Proof.
  split_and!; [intros s i; apply step_no_secret|intros s l ss fresh p; apply effect_tokens|done| |exact (proj1 pulled_key_stays)|
    exact (proj1 (proj2 pulled_key_stays))|exact (proj2 (proj2 pulled_key_stays))].
  intros lt st l ss k. pose proof (legacy_secrets_removed lt st l ss k) as H. cbv zeta in H |- *.
  destruct (bool_decide _); [|exact H]. destruct H as [H1 H2]. split; [exact H1|]. split; [exact H2|]. intros Hl Hs f.
  rewrite Hl in H1. rewrite Hl, Hs in H2. unfold readLegacySecretString, readStorageString, readLegacyString. by rewrite H2, H1.
Qed.

(** ** Deleting *)

(** Deleting a profile removes the profiles with that identifier, keeps the
    others in order, forgets the identifier's secrets and moves on to the
    first profile left when the active one went; but the only profile is kept,
    although its secrets are forgotten all the same. *)
Theorem deleteProfile_spec {P : PageLocation} {U : UrlApi} {J : Json} (d : obj value) (s : store) (id : string) :
  let s' := step d s (Delete id) in
  let next := List.filter (fun p => negb (has_id (VString id) p)) (profiles s) in
  vprop id (secrets s') = VUndefined
  /\ (forall id', id' <> id -> vprop id' (secrets s') = prop id' (normalizeSecretMap (secrets s)))
  /\ ((length (profiles s) <= 1)%nat \/ next = [] -> profiles s' = profiles s /\ activeId s' = activeId s)
  /\ ((1 < length (profiles s))%nat -> next <> [] ->
        profiles s' = next
        /\ activeId s' = (if bool_decide (id = activeId s) then str_or (first_id next) (activeId s) else activeId s)).
Proof.
  cbn zeta. cbn [step]. unfold deleteProfile. cbn [profiles secrets activeId vprop].
  set (next := List.filter _ _). split_and!.
  - unfold prop. by rewrite get_remove, bool_decide_true.
  - intros id' Hne. unfold prop. by rewrite get_remove, bool_decide_false.
  - intros H. assert ((length (profiles s) <=? 1)%nat || (length next =? 0)%nat = true) as ->.
    { apply orb_true_iff. destruct H as [H| ->]; [left; by apply Nat.leb_le|by right]. }
    done.
  - intros H1 H2. assert ((length (profiles s) <=? 1)%nat || (length next =? 0)%nat = false) as ->.
    { apply orb_false_iff. split; [apply Nat.leb_gt; lia|]. apply Nat.eqb_neq. by destruct next. }
    split; [done|]. cbn [negb andb]. case_bool_decide; [|done]. unfold str_or. done.
Qed.

(** ** What is set is what is used *)

Lemma prop_set_string k k' v o :
  prop k (set_string k' v o) = if bool_decide (k = k') && is_string v then v else prop k o.
Proof.
  unfold set_string, prop. destruct (is_string v); [|by rewrite andb_false_r].
  rewrite get_set, andb_true_r. by case_bool_decide.
Qed.

(** The merge, property by property. *)
Lemma prop_merge_secrets k p (sec : obj value) :
  k <> "runOverrides" ->
  prop k (mergeProfileSecrets p (VObject sec)) =
    if bool_decide (k = "brokerAuthToken") && is_string (prop k sec)
       || bool_decide (k = "daemonAuthToken") && is_string (prop k sec) then prop k sec else prop k p.
Proof.
  intros Hk. unfold mergeProfileSecrets. cbn [truthy negb vprop].
  assert (Hout : forall v o, prop k (if is_string v then set "runOverrides" (VObject (set "apiKey" v
    (entries_of (prop "runOverrides" o |||| VObject [])))) o else o) = prop k o).
  { intros v o. destruct (is_string v); [|done]. unfold prop at 1. by rewrite get_set_ne. }
  rewrite Hout, !prop_set_string.
  destruct (bool_decide_reflect (k = "daemonAuthToken")) as [->|H1]; [by destruct (is_string _)|].
  destruct (bool_decide_reflect (k = "brokerAuthToken")) as [->|H2]; [|done].
  cbn [andb]. by destruct (is_string (prop "brokerAuthToken" sec)).
Qed.

Lemma overrides_merge_secrets p (sec : obj value) :
  prop "runOverrides" (mergeProfileSecrets p (VObject sec)) =
    if is_string (prop "runOverridesApiKey" sec)
    then VObject (set "apiKey" (prop "runOverridesApiKey" sec) (entries_of (prop "runOverrides" p |||| VObject [])))
    else prop "runOverrides" p.
Proof.
  unfold mergeProfileSecrets. cbn [truthy negb vprop].
  assert (E : prop "runOverrides" (set_string "daemonAuthToken" (prop "daemonAuthToken" sec)
    (set_string "brokerAuthToken" (prop "brokerAuthToken" sec) p)) = prop "runOverrides" p)
    by (by rewrite !prop_set_string).
  destruct (is_string (prop "runOverridesApiKey" sec)); [|by rewrite E].
  unfold prop at 1. rewrite get_set_eq. by rewrite E.
Qed.

(** Equal up to the order of the override fields. *)
Definition same_profile (a b : obj value) : Prop :=
  (forall k, k <> "runOverrides" -> prop k a = prop k b)
  /\ forall k, vprop k (prop "runOverrides" a) = vprop k (prop "runOverrides" b).

Lemma merge_same p q sec :
  (forall k, prop k p = prop k q) ->
  same_profile (mergeProfileSecrets p (VObject sec)) (mergeProfileSecrets q (VObject sec)).
Proof.
  intros H. split; [|by intros; rewrite !overrides_merge_secrets, H].
  intros k Hk. by rewrite !prop_merge_secrets, H by done.
Qed.

(** A secret is recorded when it is not blank. *)
Definition recordable (v : value) : Prop :=
  v = VUndefined \/ v = VString "" \/ exists s, v = VString s /\ trim s <> "".

Lemma secret_field_get k v rest :
  get k (secret_field k v ++ rest) = match nonblank v with Some s => Some (VString s) | None => get k rest end.
Proof.
  unfold secret_field. destruct (nonblank v); [|done]. cbn [app get]. by rewrite bool_decide_true.
Qed.

Lemma secret_field_skip k j v rest : k <> j -> get k (secret_field j v ++ rest) = get k rest.
Proof.
  intros Hne. unfold secret_field. destruct (nonblank v); [|done]. cbn [app get]. by rewrite bool_decide_false.
Qed.

Lemma extract_props p :
  get "brokerAuthToken" (extractProfileSecrets p) = VString <$> nonblank (prop "brokerAuthToken" p)
  /\ get "daemonAuthToken" (extractProfileSecrets p) = VString <$> nonblank (prop "daemonAuthToken" p)
  /\ get "runOverridesApiKey" (extractProfileSecrets p)
     = VString <$> nonblank (prop "apiKey" (default [] (normalizeRunOverrides (prop "runOverrides" p)))).
Proof.
  unfold extractProfileSecrets. split_and!.
  - rewrite secret_field_get. destruct (nonblank _); [done|]. rewrite secret_field_skip by done.
    rewrite <- (app_nil_r (secret_field "runOverridesApiKey" _)). by rewrite secret_field_skip.
  - rewrite secret_field_skip, secret_field_get by done. destruct (nonblank _); [done|].
    rewrite <- (app_nil_r (secret_field "runOverridesApiKey" _)). by rewrite secret_field_skip.
  - rewrite !secret_field_skip by done.
    rewrite <- (app_nil_r (secret_field "runOverridesApiKey" _)), secret_field_get. by destruct (nonblank _).
Qed.

(** A recordable field is what the record and the blank string give back. *)
Lemma recorded_back v : recordable v -> v <> VUndefined ->
  (if is_string (of_option (VString <$> nonblank v)) then of_option (VString <$> nonblank v) else VString "") = v.
Proof.
  intros [->|[->|(s & -> & Hs)]] Hu; [done|done|]. by rewrite nonblank_string.
Qed.

Lemma entries_nonempty x : entries_of (overrides_value (nonempty_obj x) |||| VObject []) = x.
Proof. by destruct x. Qed.

Lemma vprop_nonempty_if k (b : bool) a x :
  vprop k (if b then VObject a else overrides_value (nonempty_obj x)) = if b then prop k a else prop k x.
Proof. destruct b; [done|]. by destruct x. Qed.

(** The stored part and the recorded secrets make up the profile. *)
Lemma sanitize_extract o raw :
  prop "runOverrides" o = overrides_value (normalizeRunOverrides raw) ->
  is_string (prop "brokerAuthToken" o) = true -> is_string (prop "daemonAuthToken" o) = true ->
  recordable (prop "brokerAuthToken" o) -> recordable (prop "daemonAuthToken" o) ->
  recordable (vprop "apiKey" (prop "runOverrides" o)) -> vprop "apiKey" (prop "runOverrides" o) <> VString "" ->
  same_profile (mergeProfileSecrets (sanitizeProfileForPersistence o) (VObject (extractProfileSecrets o))) o.
Proof.
  intros Hro Hs1 Hs2 H1 H2 H3 H4. pose proof (extract_props o) as (E1 & E2 & E3).
  pose proof (sanitize_keys o) as Hwf. split.
  - intros k Hk. rewrite prop_merge_secrets by done. unfold sanitizeProfileForPersistence.
    rewrite prop_spread by done. unfold prop at 1 2 3. cbn [get].
    destruct (bool_decide_reflect (k = "brokerAuthToken")) as [->|Hb].
    { rewrite E1. cbn [andb orb]. rewrite andb_false_l, orb_false_r.
      apply recorded_back; [done|]. by destruct (prop "brokerAuthToken" o). }
    destruct (bool_decide_reflect (k = "daemonAuthToken")) as [->|Hd].
    { rewrite E2. cbn [andb orb]. apply recorded_back; [done|]. by destruct (prop "daemonAuthToken" o). }
    cbn [andb orb]. by rewrite bool_decide_false.
  - intros k. rewrite overrides_merge_secrets. unfold prop at 1 2. rewrite E3.
    unfold sanitizeProfileForPersistence. rewrite !prop_spread by done. cbn [get].
    rewrite !bool_decide_false, bool_decide_true by done.
    rewrite Hro, normalizeRunOverrides_idem in *. clear -H3 H4.
    destruct (normalizeRunOverrides raw) as [r|]; [|done].
    change (overrides_value (Some r)) with (VObject r) in *. change (default [] (Some r)) with r.
    change (stripSecretRunOverrides (VObject r)) with (nonempty_obj (remove "apiKey" r)).
    rewrite entries_nonempty, vprop_nonempty_if. cbn [vprop] in *.
    destruct H3 as [E|[E|(key & E & Hkey)]]; [| |].
    + rewrite E. cbn. unfold prop in *. rewrite get_remove. case_bool_decide as Hk; [|done].
      subst k. by rewrite E.
    + congruence.
    + rewrite E, nonblank_string by done. cbn. unfold prop in *. rewrite get_set, get_remove.
      destruct (bool_decide_reflect (k = "apiKey")) as [->|]; [by rewrite E|done].
Qed.


(** Positions in the list of profiles. *)
Lemma find_index_cons {A} (p : A -> bool) x l :
  find_index p (x :: l) = if p x then Some 0%nat else S <$> find_index p l.
Proof.
  unfold find_index. cbn [list_find]. destruct (p x) eqn:E; [by rewrite decide_True|].
  rewrite decide_False by congruence. by destruct (list_find _ l) as [[i y]|].
Qed.

Lemma find_index_ext {A} (p : A -> bool) l l' : map p l = map p l' -> find_index p l = find_index p l'.
Proof.
  revert l'. induction l as [|x l IH]; intros [|y l']; try done. cbn [map]. intros [= Hx Hl].
  rewrite !find_index_cons, Hx. by rewrite (IH l').
Qed.

Lemma map_insert_same {A} (p : A -> bool) (l : list A) i x y :
  l !! i = Some y -> p x = p y -> map p (<[i:=x]> l) = map p l.
Proof.
  intros Hl Hp. change (map p) with (fmap (M := list) p). rewrite list_fmap_insert.
  apply list_insert_id. by rewrite list_lookup_fmap, Hl, Hp.
Qed.

Lemma find_via_index {A} (p : A -> bool) l : List.find p l = i ← find_index p l; l !! i.
Proof.
  induction l as [|x l IH]; [done|]. cbn [List.find]. rewrite find_index_cons, IH.
  destruct (p x); [done|]. by destruct (find_index p l).
Qed.

Lemma find_index_lookup {A} (p : A -> bool) l i : find_index p l = Some i -> exists x, l !! i = Some x /\ p x = true.
Proof.
  revert i. induction l as [|x l IH]; intros i; [done|]. rewrite find_index_cons.
  destruct (p x) eqn:E; [intros [= <-]; by exists x|]. intros (j & Hj & ->)%fmap_Some. by apply IH.
Qed.

Section update.
Context {P : PageLocation} {U : UrlApi} {J : Json} {JL : JsonLaws J} (d : obj value) (Hd : defaults_ok d).

Definition base_index (s : store) : nat :=
  default 0%nat (find_index (has_id (VString (activeId s))) (profiles s)).

Lemma base_profile_index s : base_profile s = profiles s !! base_index s.
Proof.
  unfold base_profile, base_index. destruct (profiles s) as [|p ps] eqn:E; [done|].
  rewrite find_via_index. destruct (find_index _ (p :: ps)) as [i|] eqn:Ei; [|done].
  apply find_index_lookup in Ei as (x & Hx & _).
  change (Some (default p ((p :: ps) !! i)) = (p :: ps) !! i). by rewrite Hx.
Qed.

Lemma resolved_base s current base :
  base_profile s = Some base -> prop "id" current = prop "id" base ->
  resolved_index s current = base_index s.
Proof.
  intros Hb Hid. rewrite base_profile_index in Hb. unfold resolved_index. rewrite Hid. unfold base_index in *.
  destruct (find_index (has_id (VString (activeId s))) (profiles s)) as [i|] eqn:Ei.
  - change (default 0%nat (Some i)) with i in *. apply find_index_lookup in Ei as Hx.
    destruct Hx as (x & Hx & Hact%bool_decide_eq_true). rewrite Hb in Hx. injection Hx as <-.
    by rewrite Hact, Ei.
  - destruct (profiles s) as [|p ps]; [done|]. injection Hb as ->.
    rewrite find_index_cons. unfold has_id at 1. by rewrite bool_decide_true.
Qed.

Lemma prop_merge_id p v : prop "id" (mergeProfileSecrets p v) = prop "id" p.
Proof.
  unfold mergeProfileSecrets. destruct (negb (truthy v)); [done|].
  assert (H : forall k w o, "id" <> k -> prop "id" (set_string k w o) = prop "id" o).
  { intros k w o Hk. rewrite prop_set_string. by rewrite bool_decide_false. }
  assert (H' : forall w o, prop "id" (set "runOverrides" w o) = prop "id" o)
    by (intros w o; unfold prop; by rewrite get_set_ne).
  destruct (is_string _); rewrite ?H'; by rewrite !H by done.
Qed.

Lemma merge_undefined p : mergeProfileSecrets p (VObject []) = p.
Proof. done. Qed.

(** Equal texts of representable profiles mean equal properties. *)
Lemma same_text_props a b :
  json_ok (VObject (defined_props a)) = true -> json_ok (VObject (defined_props b)) = true ->
  wf a -> wf b -> same_text a b = true -> forall k, prop k a = prop k b.
Proof.
  intros Ha Hb Hwa Hwb Ht%bool_decide_eq_true k.
  assert (E : defined_props a = defined_props b).
  { apply (f_equal parse) in Ht. rewrite !parse_stringify in Ht by done. by injection Ht. }
  by rewrite (prop_defined k a), (prop_defined k b), E.
Qed.

(** A sanitized profile is representable. *)
Lemma rules_plain k r : (k, r) ∈ override_rules -> array_index k = None.
Proof.
  assert (H : forallb (fun f => bool_decide (array_index (fst f) = None)) override_rules = true) by (by vm_compute).
  rewrite forallb_forall in H. intros Hin%list_elem_of_In%H. by apply bool_decide_eq_true in Hin.
Qed.

Lemma rule_type_json r w : rule_type r w = true -> json_ok w = true.
Proof. by destruct r, w. Qed.

Lemma read_overrides_json v : json_ok (VObject (read_overrides v)) = true.
Proof.
  apply json_ok_object_iff. split; [apply wf_read_overrides|]. split; [apply ordered_plain|];
    apply Forall_forall; intros [k w] (r & Hin & Hr)%elem_read_overrides.
  - by eapply rules_plain.
  - by eapply rule_type_json.
Qed.

Lemma stripped_json v :
  let o := overrides_value (stripSecretRunOverrides (overrides_value (normalizeRunOverrides v))) in
  o = VUndefined \/ json_ok o = true.
Proof.
  cbn zeta. unfold normalizeRunOverrides. destruct (is_objectish v); [|by left].
  destruct (nonempty_obj (read_overrides v)) as [r|] eqn:E; [|by left].
  apply nonempty_obj_some in E as [-> _].
  change (stripSecretRunOverrides _) with (nonempty_obj (remove "apiKey" (read_overrides v))).
  destruct (nonempty_obj (remove _ _)) as [r|] eqn:E; [|by left]. apply nonempty_obj_some in E as [-> _].
  right. apply json_ok_remove, read_overrides_json.
Qed.

Lemma string_json v : is_string v = true -> v = VUndefined \/ json_ok v = true.
Proof. destruct v; try done. by right. Qed.

Lemma boolean_json v : is_boolean v = true -> v = VUndefined \/ json_ok v = true.
Proof. destruct v; try done. by right. Qed.

Lemma sanitized_json p fresh name :
  let o := sanitizeProfileForPersistence (profile_literal d p fresh name) in
  wf o /\ json_ok (VObject (defined_props o)) = true.
Proof.
  cbn zeta. pose proof Hd as [Hs Hb].
  apply List.Forall_cons_iff in Hs as [Hd1 Hs]. apply List.Forall_cons_iff in Hs as [Hd2 Hs].
  apply List.Forall_cons_iff in Hs as [Hd3 Hs]. apply List.Forall_cons_iff in Hs as [Hd4 _].
  assert (Hk : keys (sanitizeProfileForPersistence (profile_literal d p fresh name)) = profile_keys) by done.
  assert (Hw : wf (sanitizeProfileForPersistence (profile_literal d p fresh name)))
    by (unfold wf; rewrite Hk; by_compute).
  split; [done|]. apply defined_json; [done| |].
  - apply ordered_plain, (proj1 (Forall_map fst (fun k => array_index k = None) _)).
    change (Forall (fun k => array_index k = None) profile_keys). by repeat constructor.
  - repeat apply List.Forall_cons; try apply List.Forall_nil; cbn [snd]; try (by right);
      try apply stripped_json; (apply string_json + apply boolean_json); by apply pick_or_typed.
Qed.

(** The stored profile and its secret after an update that keeps the id. *)
Section updated.
Context (s : store) (base : obj value) (bid fresh name : string) (p : obj value).
Context (Hbase : base_profile s = Some base) (Hid : prop "id" base = VString bid) (Hbid : trim bid <> "")
  (Hwf : wf base) (Hjson : json_ok (VObject (defined_props base)) = true).

Let next := profile_literal d p fresh name.

Lemma updated_profile :
  exists base', profiles s !! base_index s = Some base
  /\ (if same_text (sanitizeProfileForPersistence next) base then profiles s
      else <[base_index s := sanitizeProfileForPersistence next]> (profiles s)) !! base_index s = Some base'
  /\ forall k, prop k base' = prop k (sanitizeProfileForPersistence next).
Proof.
  pose proof Hbase as Hb. rewrite base_profile_index in Hb.
  destruct (same_text _ base) eqn:E.
  - exists base. split_and!; [done|done|]. intros k. symmetry.
    destruct (sanitized_json p fresh name) as [Hw Hj]. by apply same_text_props.
  - eexists. split_and!; [done| |done]. apply list_lookup_insert_eq. by eapply lookup_lt_Some.
Qed.
End updated.
End update.


(** The active profile of a store whose base profile is known, when the
    identifiers of the list are those of another. *)
Lemma activeProfile_at {P : PageLocation} {U : UrlApi} (d : obj value) s ps secrets' base' bid :
  map (has_id (VString (activeId s))) ps = map (has_id (VString (activeId s))) (profiles s) ->
  ps !! base_index s = Some base' -> prop "id" base' = VString bid ->
  activeProfile d (mkStore ps secrets' (activeId s)) = mergeProfileSecrets base' (vprop bid secrets').
Proof.
  intros Hmap Hb Hid. unfold activeProfile. rewrite base_profile_index. unfold base_index. cbn [profiles activeId].
  rewrite (find_index_ext _ _ _ Hmap). fold (base_index s). rewrite Hb. unfold with_secrets, id_of. by rewrite Hid.
Qed.

(** The recorded secret of an identifier. *)
Lemma recorded_secret bid (m secret : obj value) p :
  mergeProfileSecrets p (vprop bid (VObject (match secret with [] => remove bid m | _ => set bid (VObject secret) m end)))
  = mergeProfileSecrets p (VObject secret).
Proof.
  cbn [vprop]. unfold prop. destruct secret as [|q l]; [|by rewrite get_set_eq].
  by rewrite get_remove, bool_decide_true.
Qed.

(** What is set is what is used: after an update that keeps the profile's
    identifier, the active profile, put together again from the two storages,
    is the normalized update, up to the order of its override fields; for
    tokens that are empty or not blank and an API key that is not blank if
    there is one (a blank secret is not recorded). *)
Theorem update_roundtrip {P : PageLocation} {U : UrlApi} {J : Json} {JL : JsonLaws J} (d : obj value)
    (s : store) (f : obj value -> obj value) (fresh bid : string) (base : obj value)
    (Hd : defaults_ok d) (Hbase : base_profile s = Some base) (Hid : prop "id" base = VString bid)
    (Hbid : trim bid <> "") (Hwf : wf base) (Hjson : json_ok (VObject (defined_props base)) = true)
    (Hkeep : prop "id" (f (activeProfile d s)) = VString bid)
    (Ht1 : recordable (prop "brokerAuthToken" (normalizeProfile d (f (activeProfile d s)) fresh)))
    (Ht2 : recordable (prop "daemonAuthToken" (normalizeProfile d (f (activeProfile d s)) fresh)))
    (Hk1 : recordable (vprop "apiKey" (prop "runOverrides" (normalizeProfile d (f (activeProfile d s)) fresh))))
    (Hk2 : vprop "apiKey" (prop "runOverrides" (normalizeProfile d (f (activeProfile d s)) fresh)) <> VString "") :
  same_profile (activeProfile d (step d s (Update f fresh))) (normalizeProfile d (f (activeProfile d s)) fresh).
Proof.
  destruct (normalizeProfile_literal d (f (activeProfile d s)) fresh) as (name & E & _).
  assert (Hcur : prop "id" (activeProfile d s) = VString bid).
  { unfold activeProfile. rewrite Hbase. unfold with_secrets. by rewrite prop_merge_id. }
  assert (Hnext : prop "id" (normalizeProfile d (f (activeProfile d s)) fresh) = VString bid).
  { rewrite E. change (prop "id" _) with (VString (default fresh (nonblank (prop "id" (f (activeProfile d s)))))).
    by rewrite Hkeep, nonblank_string. }
  destruct (updated_profile d Hd s base fresh name (f (activeProfile d s)) Hbase Hwf Hjson)
    as (base' & Hb & Hb' & Hprops).
  rewrite <- E in Hb', Hprops. set (next := normalizeProfile d (f (activeProfile d s)) fresh) in *.
  cbn [step]. unfold updateActiveProfile. fold next.
  rewrite (resolved_base s (activeProfile d s) base) by (done || congruence).
  rewrite Hb. unfold id_of. rewrite Hnext, Hcur, !bool_decide_true by done. cbn [v_to_string].
  rewrite (proj2 (truthy_str_true bid)) by (intros ->; done).
  assert (Hid' : prop "id" base' = VString bid).
  { rewrite Hprops. unfold sanitizeProfileForPersistence. by rewrite prop_spread by apply sanitize_keys. }
  rewrite (activeProfile_at d s _ _ base' bid); [|destruct (same_text _ base); [done|]|exact Hb'|exact Hid'].
  - rewrite recorded_secret. destruct (merge_same base' (sanitizeProfileForPersistence next)
      (extractProfileSecrets next) Hprops) as [Hs1 Hs2].
    assert (Hlit : prop "runOverrides" next = overrides_value (normalizeRunOverrides (prop "runOverrides" (f (activeProfile d s)))))
      by (by rewrite E).
    destruct (sanitize_extract next _ Hlit) as [He1 He2]; try done; try (rewrite E; by apply pick_or_typed).
    split; [intros k Hk; by rewrite Hs1, He1|intros k; by rewrite Hs2, He2].
  - apply map_insert_same with (y := base); [done|]. unfold has_id. rewrite Hid.
    unfold sanitizeProfileForPersistence. by rewrite prop_spread, Hnext by apply sanitize_keys.
Qed.

(** The update of the witness. *)
Definition demo_update : obj value -> obj value :=
  fun p => set "daemonAuthToken" (VString "t2") (set "mode" (VString "broker") p).

Lemma update_roundtrip_witness :
  same_profile (activeProfile (P := demo_location) (U := demo_url) demo_defaults
     (step (P := demo_location) (U := demo_url) (J := text_json) demo_defaults key_store (Update demo_update "fresh")))
    (normalizeProfile (P := demo_location) (U := demo_url) demo_defaults
       (demo_update (activeProfile (P := demo_location) (U := demo_url) demo_defaults key_store)) "fresh").
Proof.
  set (base := key_profile []). assert (Hb : base_profile key_store = Some base) by by_compute.
  assert (Hbid : trim "p1" <> "") by by_compute.
  assert (Hwf : wf base) by (unfold wf; by_compute).
  assert (Hj : json_ok (VObject (defined_props base)) = true) by by_compute.
  set (next := normalizeProfile (P := demo_location) (U := demo_url) demo_defaults
    (demo_update (activeProfile (P := demo_location) (U := demo_url) demo_defaults key_store)) "fresh").
  assert (Hn : prop "brokerAuthToken" next = VString "" /\ prop "daemonAuthToken" next = VString "t2"
    /\ vprop "apiKey" (prop "runOverrides" next) = VString "sk-secret")
    by (split_and!; vm_compute; reflexivity).
  destruct Hn as (H1 & H2 & H3).
  assert (Hd : defaults_ok demo_defaults) by apply getUiDefaults_ok.
  assert (Hid : prop "id" base = VString "p1") by by_compute.
  assert (Hkeep : prop "id" (demo_update (activeProfile (P := demo_location) (U := demo_url) demo_defaults key_store))
    = VString "p1") by by_compute.
  assert (R1 : recordable (prop "brokerAuthToken" next)) by (rewrite H1; right; by left).
  assert (R2 : recordable (prop "daemonAuthToken" next))
    by (rewrite H2; right; right; exists "t2"; split; [reflexivity|by_compute]).
  assert (R3 : recordable (vprop "apiKey" (prop "runOverrides" next)))
    by (rewrite H3; right; right; exists "sk-secret"; split; [reflexivity|by_compute]).
  assert (R4 : vprop "apiKey" (prop "runOverrides" next) <> VString "") by (rewrite H3; by_compute).
  exact (update_roundtrip (P := demo_location) (U := demo_url) (J := text_json) (JL := text_json_laws) demo_defaults
    key_store demo_update "fresh" "p1" base Hd Hb Hid Hbid Hwf Hj Hkeep R1 R2 R3 R4).
Defined.
