(* ===== verification/RunDiff.v ===== *)
(** Comparing two runs (src/ui/src/components/runDiff/runDiffUtils.ts and
    useRunDiffPanelState.ts): the bounded structural difference of two JSON
    values, the rows the comparison is made of, and the differences between
    the events, event types and artifacts of two recorded runs.

    The two sides come from two responses, so [a === b] on objects and arrays,
    an identity test, is false here. *)
From S2P Require Import Prelude JsNumber JsString JsValue JsOrder Shapes JsonUtils JsonText.

Definition MAX_DIFFS : nat := 200.

(** ** The difference of two values *)

Record JsonDiffEntry := mkDiff { diff_path : string; diff_a : value; diff_b : value }.

Definition identical (a b : value) : bool :=
  match a, b with
  | VUndefined, VUndefined | VNull, VNull => true
  | VBool x, VBool y => bool_decide (x = y)
  | VNumber x, VNumber y => num_eqb x y
  | VString x, VString y => bool_decide (x = y)
  | _, _ => false
  end.

Definition length_value {A} (l : list A) : value := VNumber (int (Z.of_nat (length l))).

(** [Object.keys] of an object or an array. *)
Definition own_keys (v : value) : list string :=
  match v with
  | VObject o => keys o
  | VArray l => imap (fun i _ => pretty (Z.of_nat i)) l
  | _ => []
  end.

(** [v[key]]. *)
Definition member (key : string) (v : value) : value :=
  match v with
  | VObject o => prop key o
  | VArray l =>
      if bool_decide (key = "length") then length_value l
      else match array_index key with Some n => default VUndefined (l !! Z.to_nat n) | None => VUndefined end
  | _ => VUndefined
  end.

(** The order of [Array.prototype.sort] on strings. *)
Definition unit_gt (x y : string) : bool := match String.compare x y with Gt => true | _ => false end.

(** [Array.from(new Set([...l, ...l'])).sort()]. *)
Definition sorted_union (l l' : list string) : list string := sort_by unit_gt (unique (l ++ l')).

Definition index_path (path : string) (i : nat) : string := path ++s "[" ++s pretty (Z.of_nat i) ++s "]".
Definition key_path (path key : string) : string := if truthy_str path then path ++s "." ++s key else key.
Definition length_path (path : string) : string := if truthy_str path then path ++s ".length" else "length".
Definition truncated_path (path : string) : string := if truthy_str path then path ++s "[truncated]" else "[truncated]".

Section diff.
Context (maxDiffs maxArrayItems : nat).

(** A loop with the early return after each step; the flag says that the loop
    returned. *)
Fixpoint until_full {A} (visit : A -> list JsonDiffEntry -> list JsonDiffEntry) (l : list A)
    (out : list JsonDiffEntry) : list JsonDiffEntry * bool :=
  match l with
  | [] => (out, false)
  | x :: l =>
      let out := visit x out in
      if (maxDiffs <=? length out)%nat then (out, true) else until_full visit l out
  end.

(** [maxDepth - depth] is the first argument, so [depth >= maxDepth] is 0. *)
Fixpoint collectJsonDiffs (levels : nat) (a b : value) (path : string) (out : list JsonDiffEntry) : list JsonDiffEntry :=
  if (maxDiffs <=? length out)%nat then out
  else if identical a b then out
  else
    match levels with
    | O => out ++ [mkDiff path a b]
    | S levels =>
        match a, b with
        | VArray la, VArray lb =>
            let out := if (length la =? length lb)%nat then out
                       else out ++ [mkDiff (length_path path) (length_value la) (length_value lb)] in
            let '(out, returned) :=
              until_full (fun x => collectJsonDiffs levels (fst (snd x)) (snd (snd x)) (index_path path (fst x)))
                (imap pair (take maxArrayItems (zip la lb))) out in
            if returned then out
            else if (maxArrayItems <? length la)%nat || (maxArrayItems <? length lb)%nat
            then out ++ [mkDiff (truncated_path path) (length_value la) (length_value lb)]
            else out
        | _, _ =>
            if is_objectish a && is_objectish b then
              fst (until_full (fun key => collectJsonDiffs levels (member key a) (member key b) (key_path path key))
                     (sorted_union (own_keys a) (own_keys b)) out)
            else out ++ [mkDiff path a b]
        end
    end.
End diff.

Definition diffJsonWithPath (a b : value) (path : string) (maxDiffs : nat) : list JsonDiffEntry :=
  collectJsonDiffs maxDiffs 50 12 a b path [].

Definition diffJson (a b : value) (maxDiffs : nat) : list JsonDiffEntry := diffJsonWithPath a b "" maxDiffs.

Example diffJson_sample :
  diffJson (VObject [("x", VArray [VNull; VBool true]); ("y", VString "s")])
           (VObject [("y", VString "t"); ("x", VArray [VNull])]) MAX_DIFFS
  = [mkDiff "x.length" (VNumber (int 2)) (VNumber (int 1)); mkDiff "y" (VString "s") (VString "t")].
Proof. reflexivity. Qed.

(** ** Rows *)

Section rows.
Context {J : Json}.

Definition parseJsonLoose (v : value) : value :=
  match v with VString s => safeJsonParse s ??? v | _ => v end.

Definition asFiniteNumber (v : value) : option number := as_finite v.
Definition asStringOrEmpty (v : value) : string := default "" (as_string v).
Definition asId (v : value) : value := if is_string v || is_number v then v else VNull.

(** [if (typeof v === "number") out.k = v], the key being new. *)
Definition number_field (k : string) (v : value) : obj value := if is_number v then [(k, v)] else [].

Definition extractUsage (resp : value) : option (obj value) :=
  let record := safeObject resp in
  let usage := safeObject (prop "usage" record) in
  let totalTokens := prop "total_tokens" usage ??? prop "total_tokens" record in
  let promptTokens := prop "prompt_tokens" usage ??? prop "prompt_tokens" record in
  let completionTokens := prop "completion_tokens" usage ??? prop "completion_tokens" record in
  let totalCost := prop "total_cost" record ??? prop "cost" record ??? prop "total_cost" usage ??? prop "cost" usage in
  match number_field "total_tokens" totalTokens ++ number_field "prompt_tokens" promptTokens
        ++ number_field "completion_tokens" completionTokens ++ number_field "total_cost" totalCost with
  | [] => None
  | out => Some out
  end.

Definition extractUsageFromRunRow (run : value) : option (obj value) :=
  let record := safeObject run in
  extractUsage (parseJsonLoose (prop "response_json" record ??? prop "response" record)).

Record NormalizedEvent := mkEvent { ev_id : value; ts_unix_ms : option number; type : string; data : value }.

Definition normalizeEvent (row : value) : NormalizedEvent :=
  let record := safeObject row in
  mkEvent (asId (prop "event_id" record ??? prop "id" record))
    (asFiniteNumber (prop "ts_unix_ms" record ??? prop "ts" record))
    (asStringOrEmpty (prop "type" record))
    (parseJsonLoose (prop "data_json" record ??? prop "data" record)).

Definition type_key (ev : NormalizedEvent) : string := str_or (type ev) "unknown".

(** [counts.set(key, (counts.get(key) ?? 0) + 1)]. *)
Definition bump (key : string) (counts : gmap string nat) : gmap string nat :=
  <[key := S (default 0%nat (counts !! key))]> counts.

Definition countByType (events : list NormalizedEvent) : gmap string nat :=
  fold_left (fun counts ev => bump (type_key ev) counts) events ∅.

(** [id] is [art_id]. *)
Record NormalizedArtifact := mkArtifact {
  art_id : value; art_path : string; kind : string; mime : string; title : string; tool_call_id : string;
  autoplay : value; repeat : value; artifact_json : value }.

Definition normalizeArtifact (row : value) : NormalizedArtifact :=
  let record := safeObject row in
  let artifactJson := parseJsonLoose (prop "artifact_json" record ??? prop "artifact" record ??? row) in
  let artifactJsonRecord := safeObject artifactJson in
  let text k := asStringOrEmpty (prop k record ??? prop k artifactJsonRecord) in
  mkArtifact (asId (prop "id" record)) (text "path") (text "kind") (text "mime") (text "title") (text "tool_call_id")
    (prop "autoplay" record ??? prop "autoplay" artifactJsonRecord)
    (prop "repeat" record ??? prop "repeat" artifactJsonRecord) artifactJson.
End rows.

(** ** The differences shown *)

Record ReplayDiffState := mkReplayDiff {
  requestDiffs : list JsonDiffEntry; responseDiffs : list JsonDiffEntry; toolDiffs : list JsonDiffEntry;
  usageA : option (obj value); usageB : option (obj value) }.

(** The two replay answers; [None] until both have a bundle. *)
Definition replayDiff (replayA replayB : value) : option ReplayDiffState :=
  let bundleA := vprop "bundle" replayA in
  let bundleB := vprop "bundle" replayB in
  if negb (truthy bundleA) || negb (truthy bundleB) then None
  else
    let diff k := diffJson (vprop k bundleA) (vprop k bundleB) MAX_DIFFS in
    Some (mkReplayDiff (diff "request") (diff "response") (diff "tool_records")
      (extractUsage (vprop "response" bundleA)) (extractUsage (vprop "response" bundleB))).

Definition sameReplayHash (replayA replayB : value) : bool :=
  let hashA := vprop "replay_sha256" replayA in
  let hashB := vprop "replay_sha256" replayB in
  if truthy hashA && truthy hashB then identical hashA hashB else false.

(** One turn of the loop over the events. *)
Definition event_diffs (x : nat * (NormalizedEvent * NormalizedEvent)) (out : list JsonDiffEntry) : list JsonDiffEntry :=
  let '(i, (a, b)) := x in
  let out := if bool_decide (type a = type b) then out
             else out ++ [mkDiff (index_path "events" i ++s ".type") (VString (type a)) (VString (type b))] in
  if (MAX_DIFFS <=? length out)%nat then out
  else out ++ diffJsonWithPath (data a) (data b) (index_path "events" i ++s ".data") (MAX_DIFFS - length out).

(** The loop's test comes before each turn, and [events.length] alone does not
    fill the list, so it is the test after the turn before. *)
Definition eventDiffs (eventsA eventsB : list NormalizedEvent) : list JsonDiffEntry :=
  let out := if (length eventsA =? length eventsB)%nat then []
             else [mkDiff "events.length" (length_value eventsA) (length_value eventsB)] in
  fst (until_full MAX_DIFFS event_diffs (imap pair (zip eventsA eventsB)) out).

Definition count (t : string) (counts : gmap string nat) : nat := default 0%nat (counts !! t).

Definition map_keys {A} (m : gmap string A) : list string := map fst (map_to_list m).

Definition typeDiffs (eventsA eventsB : list NormalizedEvent) : list (string * nat * nat) :=
  let countsA := countByType eventsA in
  let countsB := countByType eventsB in
  omap (fun t => if bool_decide (count t countsA = count t countsB) then None
                 else Some (t, count t countsA, count t countsB))
    (sorted_union (map_keys countsA) (map_keys countsB)).

Definition base_key (item : NormalizedArtifact) : string :=
  str_or (art_path item) (v_to_string (art_id item |||| VString "artifact")).

Definition artifact_key (base : string) (next : nat) : string :=
  if (1 <? next)%nat then base ++s "#" ++s pretty (Z.of_nat next) else base.

(** The state of the loop: the map and the counts. *)
Definition add_artifact (st : gmap string NormalizedArtifact * gmap string nat) (item : NormalizedArtifact) :=
  let '(m, counts) := st in
  let next := S (default 0%nat (counts !! base_key item)) in
  (<[artifact_key (base_key item) next := item]> m, bump (base_key item) counts).

Definition mapWithKeys (items : list NormalizedArtifact) : gmap string NormalizedArtifact :=
  fst (fold_left add_artifact items (∅, ∅)).

Section artifacts.
Context {I : PrettyJson}.

(** Properties that are [undefined] are not part of the text. *)
Definition artifact_value (artifact : NormalizedArtifact) : obj value :=
  defined_props
    [("path", VString (art_path artifact)); ("kind", VString (kind artifact)); ("mime", VString (mime artifact));
     ("title", VString (title artifact)); ("tool_call_id", VString (tool_call_id artifact));
     ("autoplay", autoplay artifact); ("repeat", repeat artifact); ("artifact_json", artifact_json artifact)].

Definition artifactFingerprint (artifact : NormalizedArtifact) : string :=
  stringifyJson (VObject (artifact_value artifact)).

Record ArtifactDiffs := mkArtifactDiffs {
  added : list (string * NormalizedArtifact); removed : list (string * NormalizedArtifact);
  changed : list (string * (NormalizedArtifact * NormalizedArtifact) * list JsonDiffEntry) }.

Definition visit_key (mapA mapB : gmap string NormalizedArtifact) (out : ArtifactDiffs) (key : string) : ArtifactDiffs :=
  match mapA !! key, mapB !! key with
  | Some a, None => mkArtifactDiffs (added out) (app (removed out) [(key, a)]) (changed out)
  | None, Some b => mkArtifactDiffs (app (added out) [(key, b)]) (removed out) (changed out)
  | Some a, Some b =>
      if bool_decide (artifactFingerprint a = artifactFingerprint b) then out
      else mkArtifactDiffs (added out) (removed out)
             (app (changed out) [(key, (a, b),
                diffJsonWithPath (artifact_json a) (artifact_json b) ("artifacts." ++s key) MAX_DIFFS)])
  | None, None => out
  end.

Definition artifactDiffs (artifactsA artifactsB : list NormalizedArtifact) : ArtifactDiffs :=
  let mapA := mapWithKeys artifactsA in
  let mapB := mapWithKeys artifactsB in
  fold_left (visit_key mapA mapB) (sorted_union (map_keys mapA) (map_keys mapB)) (mkArtifactDiffs [] [] []).

Record DbDiffState := mkDbDiff {
  eventsA : list NormalizedEvent; eventsB : list NormalizedEvent; event_entries : list JsonDiffEntry;
  type_entries : list (string * nat * nat); artifact_entries : ArtifactDiffs;
  usageDbA : option (obj value); usageDbB : option (obj value) }.

Definition rows_of (v : value) : list value := default [] (as_array v).

(** The two database answers, [events] and [artifacts] being arrays in them
    or absent. *)
Definition dbDiff {J : Json} (dbA dbB : value) : option DbDiffState :=
  let runA := vprop "run" dbA in
  let runB := vprop "run" dbB in
  if negb (truthy runA) || negb (truthy runB) then None
  else
    let events v := map normalizeEvent (rows_of (vprop "events" v)) in
    let artifacts v := map normalizeArtifact (rows_of (vprop "artifacts" v)) in
    Some (mkDbDiff (events dbA) (events dbB) (eventDiffs (events dbA) (events dbB))
      (typeDiffs (events dbA) (events dbB)) (artifactDiffs (artifacts dbA) (artifacts dbB))
      (extractUsageFromRunRow runA) (extractUsageFromRunRow runB)).
End artifacts.

(** ** What the bounded difference computes *)

(** Every difference, without the limit on their number. *)
Fixpoint all_diffs (maxArrayItems levels : nat) (a b : value) (path : string) : list JsonDiffEntry :=
  if identical a b then []
  else
    match levels with
    | O => [mkDiff path a b]
    | S levels =>
        match a, b with
        | VArray la, VArray lb =>
            (if (length la =? length lb)%nat then []
             else [mkDiff (length_path path) (length_value la) (length_value lb)])
            ++ concat (map (fun x => all_diffs maxArrayItems levels (fst (snd x)) (snd (snd x)) (index_path path (fst x)))
                         (imap pair (take maxArrayItems (zip la lb))))
            ++ (if (maxArrayItems <? length la)%nat || (maxArrayItems <? length lb)%nat
                then [mkDiff (truncated_path path) (length_value la) (length_value lb)] else [])
        | _, _ =>
            if is_objectish a && is_objectish b then
              concat (map (fun key => all_diffs maxArrayItems levels (member key a) (member key b) (key_path path key))
                        (sorted_union (own_keys a) (own_keys b)))
            else [mkDiff path a b]
        end
    end.

(** The first entries of a list: all of them, or at least [max] and at most
    one more. *)
Definition limited {A} (max : nat) (res full : list A) : Prop :=
  res `prefix_of` full /\ (length res <= S max)%nat /\ (res = full \/ (max <= length res)%nat).

Lemma limited_app {A} max (res full more : list A) :
  limited max res full -> (max <= length res)%nat -> limited max res (full ++ more).
Proof.
  intros (H1 & H2 & _) H. split_and!; [|done|by right]. etransitivity; [exact H1|]. by exists more.
Qed.

Lemma limited_all {A} max (full : list A) : (length full <= S max)%nat -> limited max full full.
Proof. intros H. split_and!; [done|done|by left]. Qed.

Lemma until_full_spec {A} max (visit : A -> list JsonDiffEntry -> list JsonDiffEntry)
    (full : A -> list JsonDiffEntry) (l : list A) out :
  (forall x out, x ∈ l -> (length out <= max)%nat -> limited max (visit x out) (out ++ full x)) ->
  (length out <= max)%nat ->
  let '(res, returned) := until_full max visit l out in
  limited max res (out ++ concat (map full l))
  /\ (if returned then (max <= length res)%nat
      else res = out ++ concat (map full l) /\ (length res <= max)%nat).
Proof.
  intros Hv. revert out. induction l as [|x l IH]; intros out Hout; cbn [until_full map concat].
  { rewrite app_nil_r. split; [apply limited_all; lia|done]. }
  destruct (Hv x out) as (H1 & H2 & H3); [by left|done|].
  destruct (Nat.leb_spec max (length (visit x out))) as [Hle|Hlt].
  - split; [|done]. rewrite app_assoc. by apply limited_app.
  - destruct H3 as [Hr|]; [|lia]. rewrite app_assoc, Hr. apply IH; [|rewrite <- Hr; lia].
    intros y out' Hy. apply Hv. by right.
Qed.

Lemma collect_limited max n levels a b path out :
  (length out <= max)%nat ->
  limited max (collectJsonDiffs max n levels a b path out) (out ++ all_diffs n levels a b path).
Proof.
  revert a b path out. induction levels as [|levels IH]; intros a b path out Hout;
    cbn [collectJsonDiffs all_diffs];
    (destruct (Nat.leb_spec max (length out)) as [Hm|Hm];
       [apply limited_app; [apply limited_all; lia|lia]|]);
    (destruct (identical a b); [rewrite app_nil_r; apply limited_all; lia|]).
  { apply limited_all. rewrite length_app. simpl. lia. }
  assert (Hpush : forall e, limited max (out ++ [e]) (out ++ [e])).
  { intros e. apply limited_all. rewrite length_app. simpl. lia. }
  assert (Hmembers : limited max
    (fst (until_full max (fun key => collectJsonDiffs max n levels (member key a) (member key b) (key_path path key))
       (sorted_union (own_keys a) (own_keys b)) out))
    (out ++ concat (map (fun key => all_diffs n levels (member key a) (member key b) (key_path path key))
                      (sorted_union (own_keys a) (own_keys b))))).
  { pose proof (until_full_spec max
      (fun key => collectJsonDiffs max n levels (member key a) (member key b) (key_path path key))
      (fun key => all_diffs n levels (member key a) (member key b) (key_path path key))
      (sorted_union (own_keys a) (own_keys b)) out) as H.
    destruct (until_full _ _ _ _) as [res returned]. apply H; [|lia]. intros x out' _. apply IH. }
  destruct a as [| | | | |la|oa], b as [| | | | |lb|ob]; try apply Hpush; try exact Hmembers. clear Hmembers Hpush.
  set (out1 := if (length la =? length lb)%nat then out else _).
  assert (Hout1 : (length out1 <= max)%nat).
  { unfold out1. case_match; [lia|]. rewrite length_app. simpl. lia. }
  pose proof (until_full_spec max
    (fun x => collectJsonDiffs max n levels (fst (snd x)) (snd (snd x)) (index_path path (fst x)))
    (fun x => all_diffs n levels (fst (snd x)) (snd (snd x)) (index_path path (fst x)))
    (imap pair (take n (zip la lb))) out1) as H.
  destruct (until_full _ _ _ out1) as [res returned]. destruct H as [H1 H2]; [|exact Hout1|].
  { intros x out' _. apply IH. }
  replace (out ++ (if (length la =? length lb)%nat then [] else _) ++ _ ++ _) with
    (out1 ++ concat (map (fun x => all_diffs n levels (fst (snd x)) (snd (snd x)) (index_path path (fst x)))
       (imap pair (take n (zip la lb))))
     ++ (if (n <? length la)%nat || (n <? length lb)%nat
         then [mkDiff (truncated_path path) (length_value la) (length_value lb)] else [])).
  2: { unfold out1. destruct (length la =? length lb)%nat; [done|]. by rewrite <- !app_assoc. }
  rewrite app_assoc. destruct returned; [by apply limited_app|]. destruct H2 as [<- H2].
  destruct ((n <? length la)%nat || _); [|rewrite app_nil_r; apply limited_all; lia].
  apply limited_all. rewrite length_app. simpl. lia.
Qed.

(** Two values that agree: identical scalars, arrays item by item, otherwise
    objects (or an object and an array) key by key. *)
Inductive same : value -> value -> Prop :=
  | same_identical a b : identical a b = true -> same a b
  | same_arrays la lb : Forall2 same la lb -> same (VArray la) (VArray lb)
  | same_members a b :
      is_array a && is_array b = false -> is_objectish a = true -> is_objectish b = true ->
      (forall k, k ∈ own_keys a ++ own_keys b -> same (member k a) (member k b)) -> same a b.

(** A value of at most so many levels, with arrays of at most [n] items. *)
Fixpoint small (n levels : nat) (v : value) : bool :=
  match v, levels with
  | VArray l, S levels => (length l <=? n)%nat && forallb (small n levels) l
  | VObject o, S levels => forallb (fun p => small n levels (snd p)) o
  | VArray _, O | VObject _, O => false
  | _, _ => true
  end.

Lemma small_scalar n levels v : is_objectish v = false -> small n levels v = true.
Proof. by destruct v, levels. Qed.

Lemma small_member n levels v k : small n (S levels) v = true -> small n levels (member k v) = true.
Proof.
  destruct v as [| | | | |l|o]; try (intros _; by apply small_scalar).
  - cbn [small member]. intros [_ H]%andb_split. case_bool_decide; [by apply small_scalar|].
    destruct (array_index k) as [i|]; [|by apply small_scalar].
    destruct (l !! Z.to_nat i) as [x|] eqn:E; [|by apply small_scalar].
    rewrite forallb_forall in H. apply H, list_elem_of_In. by eapply list_elem_of_lookup_2.
  - cbn [small member]. intros H. unfold prop. destruct (get k o) as [x|] eqn:E; [|by apply small_scalar].
    rewrite forallb_forall in H. apply (H (k, x)), list_elem_of_In. by apply get_in.
Qed.

Lemma elem_of_sorted_union k l l' : k ∈ sorted_union l l' <-> k ∈ l ++ l'.
Proof. unfold sorted_union. by rewrite elem_of_sort_by, elem_of_unique. Qed.

Lemma concat_map_nil {A B} (f : A -> list B) l : concat (map f l) = [] <-> forall x, x ∈ l -> f x = [].
Proof.
  induction l as [|x l IH]; simpl.
  { split; [|done]. intros _ x Hx. by apply not_elem_of_nil in Hx. }
  split.
  - intros [H1 H2]%app_nil y [->|Hy]%elem_of_cons; [done|]. by apply IH.
  - intros H. rewrite (H x) by (by left). apply IH. intros y Hy. apply H. by right.
Qed.

(** [k]: the condition does not depend on the position. *)
Lemma indexed_pairs {A B} (P : A -> B -> Prop) la lb :
  length la = length lb ->
  (forall x, x ∈ imap pair (zip la lb) -> P (fst (snd x)) (snd (snd x))) <-> Forall2 P la lb.
Proof.
  intros Hlen. split.
  - intros H. apply Forall2_lookup. intros i. destruct (la !! i) as [x|] eqn:Ex.
    + destruct (lookup_lt_is_Some_2 lb i) as [y Ey]; [rewrite <- Hlen; by eapply lookup_lt_Some|].
      rewrite Ey. constructor. apply (H (i, (x, y))). apply list_elem_of_lookup. exists i.
      rewrite list_lookup_imap, lookup_zip_with, Ex. cbn. by rewrite Ey.
    + apply lookup_ge_None in Ex. rewrite Hlen in Ex. apply lookup_ge_None in Ex. rewrite Ex. constructor.
  - intros H [i [x y]] Hin. apply elem_of_lookup_imap in Hin as (j & [x' y'] & [= -> -> ->] & Hj).
    apply lookup_zip_with_Some in Hj as (? & ? & [= -> ->] & Hx & Hy). by eapply Forall2_lookup_lr.
Qed.

Lemma elem_of_zip_index {A B} (la : list A) (lb : list B) x : x ∈ imap pair (zip la lb) -> fst (snd x) ∈ la.
Proof.
  intros (j & [x' y'] & -> & Hj)%elem_of_lookup_imap.
  apply lookup_zip_with_Some in Hj as (? & ? & [= -> ->] & Hx & _). by eapply list_elem_of_lookup_2.
Qed.

Lemma same_scalar a b : is_objectish a && is_objectish b = false -> same a b -> identical a b = true.
Proof. intros Ho H. destruct H as [a b H|la lb|a b _ Ha Hb]; [done|done|]. by rewrite Ha, Hb in Ho. Qed.

(** At the last level only scalars are compared without loss. *)
Lemma all_diffs_nil levels a b path :
  small 50 levels a = true -> all_diffs 50 levels a b path = [] <-> same a b.
Proof.
  revert a b path. induction levels as [|levels IH]; intros a b path Hs; cbn [all_diffs];
    (destruct (identical a b) eqn:E; [split; [intros _; by constructor|done]|]).
  { split; [done|]. intros H. exfalso. apply same_scalar in H; [congruence|]. by destruct a. }
  assert (Hscalar : is_objectish a && is_objectish b = false -> [mkDiff path a b] = [] <-> same a b).
  { intros Ho. split; [done|]. intros H. apply same_scalar in H; [congruence|done]. }
  assert (Hmembers : is_array a && is_array b = false -> is_objectish a = true -> is_objectish b = true ->
    concat (map (fun key => all_diffs 50 levels (member key a) (member key b) (key_path path key))
      (sorted_union (own_keys a) (own_keys b))) = [] <-> same a b).
  { intros Hab Ha Hb. rewrite concat_map_nil. split.
    - intros H. apply same_members; [done..|]. intros k Hk. apply (IH _ _ (key_path path k)).
      { by apply small_member. }
      by apply H, elem_of_sorted_union.
    - intros H k Hk%elem_of_sorted_union. apply IH; [by apply small_member|].
      destruct H as [a b H|la lb|a b _ _ _ H]; [congruence|done|by apply H]. }
  destruct a as [| | | | |la|oa], b as [| | | | |lb|ob]; try (by apply Hscalar); try (by apply Hmembers).
  clear Hscalar Hmembers. cbn [small] in Hs. apply andb_split in Hs as [Hn Hs]. apply Nat.leb_le in Hn.
  destruct (Nat.eqb_spec (length la) (length lb)) as [Hlen|Hlen].
  - rewrite take_ge by (rewrite length_zip_with; lia).
    assert ((50 <? length la)%nat || (50 <? length lb)%nat = false) as ->.
    { apply orb_false_iff. split; apply Nat.ltb_ge; lia. }
    rewrite app_nil_r, app_nil_l, concat_map_nil.
    assert (Hx' : forall x, x ∈ imap pair (zip la lb) -> small 50 levels (fst (snd x)) = true).
    { intros x Hx. rewrite forallb_forall in Hs. apply Hs, list_elem_of_In. by eapply elem_of_zip_index. }
    transitivity (Forall2 same la lb).
    + rewrite <- (indexed_pairs same la lb Hlen). split; intros H x Hx; specialize (H x Hx).
      * revert H. by apply IH, Hx'.
      * apply IH; [by apply Hx'|done].
    + split; [by constructor|]. intros H. inversion H as [? ? Hc|? ? Hf|? ? Hc]; [done|done|done].
  - split; [done|]. intros H. inversion H as [? ? Hc|? ? Hf|? ? Hc]; [done| |done].
    by apply Forall2_length in Hf.
Qed.

Lemma same_refl v : v = VUndefined \/ json_ok v = true -> same v v.
Proof.
  induction v as [| | | | |l IH|o IH] using value_ind'; intros [Hu|Hv]; try done; try (by constructor; simpl;
    rewrite ?bool_decide_true).
  - constructor. cbn [identical]. unfold num_eqb. destruct x; try done; by apply bool_decide_true.
  - apply same_arrays. cbn [json_ok] in Hv. rewrite forallb_forall in Hv. apply Forall_Forall2_diag, Forall_forall.
    intros x Hx. rewrite Forall_forall in IH. apply IH; [done|]. right. by apply Hv, list_elem_of_In.
  - apply same_members; [done..|]. intros k _. cbn [member]. unfold prop.
    destruct (get k o) as [v|] eqn:E; [|by constructor].
    rewrite Forall_forall in IH. apply (IH (k, v)); [by apply get_in|]. right. by eapply json_ok_get.
Qed.

(** An entry stands for a difference, or marks a long array. *)
Definition genuine (e : JsonDiffEntry) : Prop :=
  identical (diff_a e) (diff_b e) = false \/ exists path, diff_path e = truncated_path path.

Lemma all_diffs_genuine n levels a b path : Forall genuine (all_diffs n levels a b path).
Proof.
  revert a b path. induction levels as [|levels IH]; intros a b path; cbn [all_diffs];
    (destruct (identical a b) eqn:E; [constructor|]);
    (assert (Hab : Forall genuine [mkDiff path a b]) by (apply Forall_singleton; by left)); [exact Hab|].
  assert (Hm : Forall genuine (concat (map (fun key =>
    all_diffs n levels (member key a) (member key b) (key_path path key)) (sorted_union (own_keys a) (own_keys b))))).
  { apply Forall_concat, Forall_map, Forall_forall. intros k _. apply IH. }
  destruct a as [| | | | |la|oa], b as [| | | | |lb|ob]; try exact Hab; try exact Hm.
  apply Forall_app_2; [|apply Forall_app_2].
  - destruct (Nat.eqb_spec (length la) (length lb)) as [|Hlen]; [constructor|]. apply Forall_singleton. left. simpl.
    apply bool_decide_false. intros H. apply Hlen. apply int_inj in H. lia.
  - apply Forall_concat, Forall_map, Forall_forall. intros x _. apply IH.
  - case_match; [|constructor]. apply Forall_singleton. right. by eexists.
Qed.

Lemma limited_whole {A} max (res full : list A) : limited max res full -> (length full <= max)%nat -> res = full.
Proof.
  intros ([more ->] & _ & H) Hlen. rewrite length_app in Hlen. destruct H as [H|H]; [done|].
  destruct more; [by rewrite app_nil_r|simpl in Hlen; lia].
Qed.

Lemma limited_nil {A} max (res full : list A) : limited max res full -> (0 < max)%nat -> res = [] <-> full = [].
Proof.
  intros H Hmax. split; [|intros ->; apply (limited_whole max); [done|simpl; lia]].
  intros ->. destruct H as (_ & _ & [H|H]); [done|simpl in H; lia].
Qed.

Lemma collect_limited_nil max n levels a b path :
  limited max (collectJsonDiffs max n levels a b path []) (all_diffs n levels a b path).
Proof. exact (collect_limited max n levels a b path [] (Nat.le_0_l max)). Qed.

Lemma diff_limited a b path max : limited max (diffJsonWithPath a b path max) (all_diffs 50 12 a b path).
Proof. exact (collect_limited_nil max 50 12 a b path). Qed.

(** C39: the difference of two JSON values: it lists the first differences of
    the unlimited comparison, all of them when they fit and at most one more
    than the limit otherwise; every entry stands for a difference, a long
    array's mark aside; for a value of at most twelve levels with arrays of at
    most fifty items it is empty exactly when the two agree, in particular for
    two copies of one value.  But an array agrees with the object of its
    indices, and an array of more than fifty items differs from its copy. *)
Theorem diffJson_spec (path : string) (maxDiffs : nat) :
  (forall a b, limited maxDiffs (diffJsonWithPath a b path maxDiffs) (all_diffs 50 12 a b path)
     /\ Forall genuine (diffJsonWithPath a b path maxDiffs))
  /\ (forall a b, small 50 12 a = true -> (0 < maxDiffs)%nat ->
        diffJsonWithPath a b path maxDiffs = [] <-> same a b)
  /\ (forall a, small 50 12 a = true -> json_ok a = true -> diffJsonWithPath a a path maxDiffs = [])
  /\ diffJsonWithPath (VArray [VNull]) (VObject [("0", VNull)]) path maxDiffs = []
  /\ ((0 < maxDiffs)%nat -> let long := VArray (replicate 51 VNull) in
       diffJsonWithPath long long path maxDiffs
       = [mkDiff (truncated_path path) (VNumber (int 51)) (VNumber (int 51))]).
Proof.
  assert (Hnil : forall a b, all_diffs 50 12 a b path = [] -> diffJsonWithPath a b path maxDiffs = []).
  { intros a b H. pose proof (diff_limited a b path maxDiffs) as Hl. rewrite H in Hl.
    apply limited_whole in Hl; [exact Hl|apply Nat.le_0_l]. }
  split_and!.
  - intros a b. pose proof (diff_limited a b path maxDiffs) as Hl. split; [exact Hl|].
    destruct Hl as ([more Hm] & _). pose proof (all_diffs_genuine 50 12 a b path) as Hg.
    rewrite Hm in Hg. by apply Forall_app in Hg as [].
  - intros a b Hs Hmax. rewrite (limited_nil maxDiffs _ _ (diff_limited a b path maxDiffs) Hmax). by apply all_diffs_nil.
  - intros a Hs Hj. apply Hnil, all_diffs_nil; [done|]. apply same_refl. by right.
  - by apply Hnil.
  - intros Hmax long. apply (limited_whole maxDiffs); [|simpl; lia].
    assert (E : all_diffs 50 12 long long path = [mkDiff (truncated_path path) (VNumber (int 51)) (VNumber (int 51))])
      by reflexivity.
    pose proof (diff_limited long long path maxDiffs) as Hl. rewrite E in Hl. exact Hl.
Qed.

(** ** The events *)

(** Every difference between the events. *)
Definition event_entry (x : nat * (NormalizedEvent * NormalizedEvent)) : list JsonDiffEntry :=
  let '(i, (a, b)) := x in
  (if bool_decide (type a = type b) then []
   else [mkDiff (index_path "events" i ++s ".type") (VString (type a)) (VString (type b))])
  ++ all_diffs 50 12 (data a) (data b) (index_path "events" i ++s ".data").

Definition all_event_diffs (eventsA eventsB : list NormalizedEvent) : list JsonDiffEntry :=
  (if (length eventsA =? length eventsB)%nat then []
   else [mkDiff "events.length" (length_value eventsA) (length_value eventsB)])
  ++ concat (map event_entry (imap pair (zip eventsA eventsB))).

(** A limited list continues a list that is not full. *)
Lemma limited_after {A} max (out res full : list A) :
  (length out <= max)%nat -> limited (max - length out) res full -> limited max (out ++ res) (out ++ full).
Proof.
  intros Hout (H1 & H2 & H3). split_and!.
  - by apply prefix_app.
  - rewrite length_app. lia.
  - destruct H3 as [->|H3]; [by left|right]. rewrite length_app. lia.
Qed.

Lemma event_diffs_limited max x out :
  max = MAX_DIFFS -> (length out <= max)%nat -> limited max (event_diffs x out) (out ++ event_entry x).
Proof.
  intros Hmax Hout. destruct x as [i [a b]]. unfold event_diffs, event_entry. rewrite <- Hmax.
  set (kinds := if bool_decide (type a = type b) then [] else _). rewrite app_assoc.
  replace (if bool_decide (type a = type b) then out else _) with (out ++ kinds).
  2: { unfold kinds. case_bool_decide; [apply app_nil_r|done]. }
  assert (Hk : (length (out ++ kinds) <= S max)%nat).
  { rewrite length_app. unfold kinds. case_bool_decide; simpl; lia. }
  destruct (Nat.leb_spec max (length (out ++ kinds))) as [Hle|Hlt].
  - apply limited_app; [by apply limited_all|done].
  - apply limited_after; [lia|apply diff_limited].
Qed.

Lemma eventDiffs_limited eventsA eventsB :
  limited MAX_DIFFS (eventDiffs eventsA eventsB) (all_event_diffs eventsA eventsB).
Proof.
  unfold eventDiffs, all_event_diffs.
  set (out := if (length eventsA =? length eventsB)%nat then [] else _).
  assert (Hout : (length out <= 1)%nat) by (unfold out; case_match; simpl; lia).
  assert (Hm : (1 <= MAX_DIFFS)%nat) by (unfold MAX_DIFFS; lia).
  pose proof (until_full_spec MAX_DIFFS event_diffs event_entry (imap pair (zip eventsA eventsB)) out) as H.
  destruct (until_full _ _ _ out) as [res returned]. apply H; [|lia].
  intros x out' _. by apply event_diffs_limited.
Qed.

(** How often a key occurs. *)
Definition occurrences {A} (f : A -> string) (k : string) (l : list A) : nat :=
  length (List.filter (fun x => bool_decide (f x = k)) l).

Lemma occurrences_app {A} (f : A -> string) k l l' :
  occurrences f k (l ++ l') = (occurrences f k l + occurrences f k l')%nat.
Proof. unfold occurrences. by rewrite List.filter_app, length_app. Qed.

Lemma count_bump k j counts :
  count k (bump j counts) = if bool_decide (j = k) then S (count k counts) else count k counts.
Proof.
  unfold count, bump. case_bool_decide as H; [subst j; by rewrite lookup_insert_eq|by rewrite lookup_insert_ne].
Qed.

Lemma count_fold {A} (f : A -> string) k (l : list A) counts :
  count k (fold_left (fun counts x => bump (f x) counts) l counts) = (occurrences f k l + count k counts)%nat.
Proof.
  revert counts. induction l as [|x l IH]; intros counts; [done|]. cbn [fold_left]. rewrite IH, count_bump.
  unfold occurrences. cbn [List.filter]. case_bool_decide; simpl; lia.
Qed.

Lemma count_countByType t events : count t (countByType events) = occurrences type_key t events.
Proof. unfold countByType. rewrite (count_fold type_key). unfold count. rewrite lookup_empty. simpl. lia. Qed.

Lemma elem_of_map_keys {A} (m : gmap string A) k : k ∈ map_keys m <-> is_Some (m !! k).
Proof.
  unfold map_keys. rewrite list_elem_of_In, in_map_iff. split.
  - intros ([k' x] & <- & H%list_elem_of_In). apply elem_of_map_to_list in H. by exists x.
  - intros [x H]. exists (k, x). split; [done|]. by apply list_elem_of_In, elem_of_map_to_list.
Qed.

Lemma elem_of_typeDiffs eventsA eventsB t x y :
  (t, x, y) ∈ typeDiffs eventsA eventsB
  <-> x = occurrences type_key t eventsA /\ y = occurrences type_key t eventsB /\ x <> y.
Proof.
  unfold typeDiffs. rewrite list_elem_of_omap. split.
  - intros (k & _ & H). case_bool_decide; [done|]. injection H as <- <- <-. by rewrite <- !count_countByType.
  - intros (-> & -> & Hne). rewrite <- !count_countByType in Hne |- *. exists t.
    split; [|by rewrite bool_decide_false].
    apply elem_of_sorted_union, elem_of_app. rewrite !elem_of_map_keys. unfold count in Hne.
    destruct (countByType eventsA !! t); [left; by eexists|]. destruct (countByType eventsB !! t); [right; by eexists|done].
Qed.

(** ** The artifacts *)

Definition hash_free (s : string) : Prop := "#"%char ∉ String.list_ascii_of_string s.

Lemma hash_free_key b b' n n' :
  hash_free b -> hash_free b' -> (0 < n)%nat -> (0 < n')%nat ->
  artifact_key b n = artifact_key b' n' -> b = b' /\ n = n'.
Proof.
  intros Hb Hb' Hn Hn'. unfold artifact_key.
  assert (Hmix : forall s s' t, hash_free s -> s <> s' ++s "#" ++s t).
  { intros s s' t Hs ->. apply Hs. clear. induction s'; simpl; [left|by right]. }
  assert (Hcut : forall s s' t t', hash_free s -> hash_free s' -> s ++s "#" ++s t = s' ++s "#" ++s t' -> s = s' /\ t = t').
  { clear. induction s as [|c s IH]; intros [|c' s'] t t' Hs Hs' H; simpl in H.
    - by injection H.
    - injection H as <- _. destruct Hs'. by left.
    - injection H as -> _. destruct Hs. by left.
    - injection H as <- H. apply IH in H as [-> ->]; [done| |].
      + intros Hin. apply Hs. by right.
      + intros Hin. apply Hs'. by right. }
  destruct (Nat.ltb_spec 1 n) as [L|L], (Nat.ltb_spec 1 n') as [L'|L']; intros H.
  - apply Hcut in H as [-> H]; [|done..]. apply (inj pretty) in H. split; [done|lia].
  - by apply eq_sym, Hmix in H.
  - by apply Hmix in H.
  - split; [done|lia].
Qed.

Definition occurrence (l : list NormalizedArtifact) (i : nat) (item : NormalizedArtifact) : nat :=
  S (occurrences base_key (base_key item) (take i l)).

Lemma fold_add_artifact l :
  let '(m, counts) := fold_left add_artifact l (∅, ∅) in
  (forall k, count k counts = occurrences base_key k l)
  /\ (Forall (fun item => hash_free (base_key item)) l ->
      forall key item, m !! key = Some item
        <-> exists i, l !! i = Some item /\ key = artifact_key (base_key item) (occurrence l i item)).
Proof.
  induction l as [|x l IH] using rev_ind.
  { cbn [fold_left]. split; [done|]. intros _ key item. rewrite lookup_empty. split; [done|]. by intros (i & Hi & _). }
  rewrite fold_left_app. destruct (fold_left add_artifact l (∅, ∅)) as [m counts]. destruct IH as [Hc Hm].
  cbn [fold_left add_artifact]. split.
  { intros k. rewrite count_bump, occurrences_app, Hc. unfold occurrences. simpl. case_bool_decide; simpl; lia. }
  intros [Hl Hx]%Forall_app. rewrite Forall_singleton in Hx. specialize (Hm Hl).
  change (default 0%nat (counts !! base_key x)) with (count (base_key x) counts). rewrite Hc.
  assert (Hold : forall i item, l !! i = Some item -> occurrence (l ++ [x]) i item = occurrence l i item).
  { intros i item Hi. unfold occurrence. rewrite take_app_le; [done|]. apply lookup_lt_Some in Hi. lia. }
  assert (Hlast : occurrence (l ++ [x]) (length l) x = S (occurrences base_key (base_key x) l)).
  { unfold occurrence. by rewrite take_app_length. }
  intros key item. rewrite lookup_insert_Some, Hm. split.
  - intros [[<- <-]|[_ (i & Hi & ->)]].
    + exists (length l). rewrite Hlast. split; [by apply list_lookup_middle|done].
    + exists i. rewrite (Hold i item Hi). split; [by apply lookup_app_l_Some|done].
  - intros (i & Hi & ->). apply lookup_app_Some in Hi as [Hi|[Hi Hs]].
    + right. rewrite (Hold i item Hi). split; [|by exists i].
      intros Heq. pose proof (Forall_lookup_1 _ _ _ _ Hl Hi) as Hitem. cbn beta in Hitem.
      apply hash_free_key in Heq as [Hb Ho]; [|assumption|assumption|lia|unfold occurrence; lia].
      unfold occurrence in Ho. rewrite <- Hb in Ho. rewrite <- (take_drop i l) in Ho at 1.
      rewrite occurrences_app in Ho. rewrite (drop_S l item i Hi) in Ho.
      unfold occurrences in Ho. cbn [List.filter] in Ho. rewrite Hb, bool_decide_true in Ho by done. simpl in Ho. lia.
    + left. apply list_lookup_singleton_Some in Hs as [Hi0 <-].
      assert (i = length l) as -> by lia. by rewrite Hlast.
Qed.

(** The artifact that a list shows under a key. *)
Definition labelled (l : list NormalizedArtifact) (key : string) (item : NormalizedArtifact) : Prop :=
  exists i, l !! i = Some item /\ key = artifact_key (base_key item) (occurrence l i item).

Lemma mapWithKeys_lookup l key item :
  Forall (fun item => hash_free (base_key item)) l -> mapWithKeys l !! key = Some item <-> labelled l key item.
Proof.
  intros Hl. pose proof (fold_add_artifact l) as H. unfold mapWithKeys.
  destruct (fold_left add_artifact l _) as [m counts]. destruct H as [_ H]. by apply H.
Qed.

Definition only_in (m m' : gmap string NormalizedArtifact) (key : string) : option (string * NormalizedArtifact) :=
  match m !! key, m' !! key with Some x, None => Some (key, x) | _, _ => None end.

(** What the text of an artifact holds: everything but the identifier. *)
Definition erase_id (x : NormalizedArtifact) : NormalizedArtifact :=
  mkArtifact VNull (art_path x) (kind x) (mime x) (title x) (tool_call_id x) (autoplay x) (repeat x) (artifact_json x).

(** The identifier is no part of the text. *)
Definition artifact_fields (x : NormalizedArtifact) : obj value :=
  [("path", VString (art_path x)); ("kind", VString (kind x)); ("mime", VString (mime x));
   ("title", VString (title x)); ("tool_call_id", VString (tool_call_id x));
   ("autoplay", autoplay x); ("repeat", repeat x); ("artifact_json", artifact_json x)].

Lemma artifact_value_inj x y : artifact_value x = artifact_value y -> erase_id x = erase_id y.
Proof.
  intros H.
  assert (Hp : forall k, prop k (artifact_fields x) = prop k (artifact_fields y)).
  { intros k. assert (Hw : forall z, wf (artifact_fields z)) by (intros z; unfold wf; cbn [keys map fst]; by_compute).
    rewrite !prop_defined by apply Hw. change (defined_props (artifact_fields x)) with (artifact_value x).
    by rewrite H. }
  pose proof (Hp "path" : VString (art_path x) = VString (art_path y)).
  pose proof (Hp "kind" : VString (kind x) = VString (kind y)).
  pose proof (Hp "mime" : VString (mime x) = VString (mime y)).
  pose proof (Hp "title" : VString (title x) = VString (title y)).
  pose proof (Hp "tool_call_id" : VString (tool_call_id x) = VString (tool_call_id y)).
  pose proof (Hp "autoplay" : autoplay x = autoplay y). pose proof (Hp "repeat" : repeat x = repeat y).
  pose proof (Hp "artifact_json" : artifact_json x = artifact_json y).
  unfold erase_id. congruence.
Qed.

Section fingerprints.
Context {J : Json} {I : PrettyJson}.

(** The indented text parses back. *)
Class PrettyLaws := parse_pretty : forall v, json_ok v = true -> parse (stringifyJson v) = Some v.
Context {L : PrettyLaws}.

Definition representable (x : NormalizedArtifact) : Prop := json_ok (VObject (artifact_value x)) = true.

Lemma fingerprint_iff x y :
  representable x -> representable y -> artifactFingerprint x = artifactFingerprint y <-> erase_id x = erase_id y.
Proof.
  intros Hx Hy. unfold artifactFingerprint. split.
  - intros H%(f_equal parse). rewrite !parse_pretty in H by done. apply artifact_value_inj. congruence.
  - intros H. assert (E : forall z, artifact_value z = artifact_value (erase_id z)) by done. by rewrite (E x), (E y), H.
Qed.

Definition differing (mapA mapB : gmap string NormalizedArtifact) (key : string) :=
  match mapA !! key, mapB !! key with
  | Some a, Some b =>
      if bool_decide (artifactFingerprint a = artifactFingerprint b) then None
      else Some (key, (a, b), diffJsonWithPath (artifact_json a) (artifact_json b) ("artifacts." ++s key) MAX_DIFFS)
  | _, _ => None
  end.

Lemma fold_visit mapA mapB ks out :
  fold_left (visit_key mapA mapB) ks out =
    mkArtifactDiffs (added out ++ omap (only_in mapB mapA) ks) (removed out ++ omap (only_in mapA mapB) ks)
      (changed out ++ omap (differing mapA mapB) ks).
Proof.
  revert out. induction ks as [|key ks IH]; intros out; [by destruct out; simpl; rewrite !app_nil_r|].
  cbn [fold_left]. rewrite IH. clear IH. unfold visit_key, only_in, differing. cbn [omap list_omap].
  destruct (mapA !! key) as [a|], (mapB !! key) as [b|]; cbn [added removed changed]; try done;
    [case_bool_decide; [done|]| |]; cbn [added removed changed]; by rewrite <- app_assoc.
Qed.
End fingerprints.

(** The comparison of two recorded runs' events: the differences listed are
    the first ones of the full list (the lengths, then event by event the type
    and the data), all of them when they fit and at most one more than the
    limit otherwise; and the types listed are exactly those whose numbers of
    events differ, with the two numbers. *)
Theorem eventDiffs_spec (eventsA eventsB : list NormalizedEvent) :
  limited MAX_DIFFS (eventDiffs eventsA eventsB) (all_event_diffs eventsA eventsB)
  /\ forall t x y, (t, x, y) ∈ typeDiffs eventsA eventsB
       <-> x = occurrences type_key t eventsA /\ y = occurrences type_key t eventsB /\ x <> y.
Proof. split; [apply eventDiffs_limited|intros t x y; apply elem_of_typeDiffs]. Qed.

Definition plain_artifact (path : string) : NormalizedArtifact :=
  mkArtifact VNull path "" "" "" "" VUndefined VUndefined VNull.

Lemma omap_none {A B} (f : A -> option B) (l : list A) : (forall x, f x = None) -> omap f l = [].
Proof. intros H. induction l as [|x l IH]; [done|]. cbn [omap list_omap]. by rewrite H. Qed.

Section artifact_lists.
Context {J : Json} {I : PrettyJson} {L : PrettyLaws} (A B : list NormalizedArtifact).

Lemma equal_maps_no_diffs : mapWithKeys A = mapWithKeys B -> artifactDiffs A B = mkArtifactDiffs [] [] [].
Proof.
  intros E. unfold artifactDiffs. rewrite E, fold_visit. cbn [added removed changed app].
  f_equal; apply omap_none; intros k; unfold only_in, differing; destruct (mapWithKeys B !! k); try done.
  by rewrite bool_decide_true.
Qed.

Lemma artifactDiffs_lists :
  let keys := sorted_union (map_keys (mapWithKeys A)) (map_keys (mapWithKeys B)) in
  removed (artifactDiffs A B) = omap (only_in (mapWithKeys A) (mapWithKeys B)) keys
  /\ added (artifactDiffs A B) = omap (only_in (mapWithKeys B) (mapWithKeys A)) keys
  /\ changed (artifactDiffs A B) = omap (differing (mapWithKeys A) (mapWithKeys B)) keys.
Proof. cbn zeta. unfold artifactDiffs. by rewrite fold_visit. Qed.

Lemma key_listed key : is_Some (mapWithKeys A !! key) \/ is_Some (mapWithKeys B !! key) ->
  key ∈ sorted_union (map_keys (mapWithKeys A)) (map_keys (mapWithKeys B)).
Proof. intros H. by rewrite elem_of_sorted_union, elem_of_app, !elem_of_map_keys. Qed.
End artifact_lists.

Lemma elem_of_only_in (m m' : gmap string NormalizedArtifact) (ks : list string) key x :
  (forall k, is_Some (m !! k) -> k ∈ ks) ->
  (key, x) ∈ omap (only_in m m') ks <-> m !! key = Some x /\ m' !! key = None.
Proof.
  intros Hks. rewrite list_elem_of_omap. unfold only_in. split.
  - intros (k & _ & H). destruct (m !! k) eqn:E1, (m' !! k) eqn:E2; try done. by injection H as <- <-.
  - intros [H1 H2]. exists key. rewrite H1, H2. split; [apply Hks; by eexists|done].
Qed.

(** Absent from the map of a list. *)
Lemma not_labelled l key : Forall (fun x => hash_free (base_key x)) l ->
  mapWithKeys l !! key = None <-> forall x, ~ labelled l key x.
Proof.
  intros Hl. split.
  - intros H x Hx. apply mapWithKeys_lookup in Hx; [congruence|done].
  - intros H. apply eq_None_not_Some. intros [x Hx]. apply (H x). by apply mapWithKeys_lookup.
Qed.

(** The comparison of two recorded runs' artifacts: when no path contains a
    hash sign, every artifact has its own key, its path with the number of its
    occurrence, and it is listed as removed or added exactly when the other
    run has nothing under that key, and as changed, with the differences of
    its JSON, exactly when the other run's artifact there differs in more than
    the identifier.  With a hash sign two artifacts can have the same key, and
    then the first of them is not compared at all. *)
Theorem artifactDiffs_spec {J : Json} {I : PrettyJson} {L : PrettyLaws} (A B : list NormalizedArtifact)
    (HA : Forall (fun x => hash_free (base_key x) /\ representable x) A)
    (HB : Forall (fun x => hash_free (base_key x) /\ representable x) B) :
  let d := artifactDiffs A B in
  (forall key x, (key, x) ∈ removed d <-> labelled A key x /\ forall y, ~ labelled B key y)
  /\ (forall key y, (key, y) ∈ added d <-> labelled B key y /\ forall x, ~ labelled A key x)
  /\ (forall key x y diffs, (key, (x, y), diffs) ∈ changed d
        <-> labelled A key x /\ labelled B key y /\ erase_id x <> erase_id y
            /\ diffs = diffJsonWithPath (artifact_json x) (artifact_json y) ("artifacts." ++s key) MAX_DIFFS)
  /\ forall hidden, art_path hidden = "x" ->
       artifactDiffs [plain_artifact "x"; hidden; plain_artifact "x#2"]
                     [plain_artifact "x"; plain_artifact "x"; plain_artifact "x#2"] = mkArtifactDiffs [] [] [].
Proof.
  assert (HA' : Forall (fun x => hash_free (base_key x)) A) by (eapply Forall_impl; [exact HA|by intros x []]).
  assert (HB' : Forall (fun x => hash_free (base_key x)) B) by (eapply Forall_impl; [exact HB|by intros x []]).
  cbn zeta. destruct (artifactDiffs_lists A B) as (-> & -> & ->). split_and!.
  - intros key x. rewrite elem_of_only_in by (intros k Hk; apply key_listed; by left).
    by rewrite mapWithKeys_lookup, not_labelled.
  - intros key x. rewrite elem_of_only_in by (intros k Hk; apply key_listed; by right).
    by rewrite mapWithKeys_lookup, not_labelled.
  - intros key x y diffs. rewrite list_elem_of_omap.
    assert (Hfp : labelled A key x -> labelled B key y -> artifactFingerprint x = artifactFingerprint y <-> erase_id x = erase_id y).
    { intros (i & Hi & _) (j & Hj & _). apply fingerprint_iff.
      - by destruct (Forall_lookup_1 _ _ _ _ HA Hi). 
      - by destruct (Forall_lookup_1 _ _ _ _ HB Hj). }
    rewrite <- !mapWithKeys_lookup in Hfp |- * by done. unfold differing. split.
    + intros (k & _ & H). destruct (mapWithKeys A !! k) eqn:Ea, (mapWithKeys B !! k) eqn:Eb; try done.
      case_bool_decide as Hne; [done|]. injection H as <- <- <- <-. split_and!; [done|done| |done].
      rewrite <- Hfp; done.
    + intros (Ha & Hb & Hne & ->). exists key. rewrite Ha, Hb. split; [apply key_listed; left; by eexists|].
      rewrite bool_decide_false; [done|]. by rewrite Hfp.
  - intros hidden Hp. apply equal_maps_no_diffs. destruct hidden. cbn in Hp. subst. by vm_compute.
Qed.

#[export] Instance compact_text : PrettyJson := fun v => stringify (Json := text_json) v.

#[export] Instance compact_laws : PrettyLaws (J := text_json) (I := compact_text).
Proof. intros v Hv. by apply parse_stringify. Qed.

Definition other_kind (path : string) : NormalizedArtifact :=
  mkArtifact VNull path "image" "" "" "" VUndefined VUndefined VNull.

Lemma artifactDiffs_spec_witness :
  ("a#2", (plain_artifact "a", other_kind "a"), []) ∈
    changed (artifactDiffs (I := compact_text) [plain_artifact "a"; plain_artifact "a"]
               [plain_artifact "a"; other_kind "a"]).
Proof.
  assert (H : forall x, x ∈ [plain_artifact "a"; other_kind "a"] ->
    hash_free (base_key x) /\ representable x).
  { intros x Hx. unfold hash_free, representable. split.
    - set_unfold in Hx. destruct Hx as [->|[->|[]]]; by_compute.
    - set_unfold in Hx. destruct Hx as [->|[->|[]]]; by_compute. }
  apply (artifactDiffs_spec (J := text_json) (I := compact_text) (L := compact_laws)
    [plain_artifact "a"; plain_artifact "a"] [plain_artifact "a"; other_kind "a"]).
  - apply Forall_forall. intros x Hx. apply H. set_solver.
  - apply Forall_forall. intros x Hx. apply H. set_solver.
  - split_and!; [by exists 1%nat|by exists 1%nat|done|reflexivity].
Defined.
