(* ===== verification/TeamRun.v ===== *)
(** Team runs of the broker panel: the readers of team data
    (src/ui/src/components/broker/teamRunUtils.ts, teamRunStatusUtils.ts,
    brokerObjectUtils.ts) and the two functions that choose runtime members
    among the broker's agents.

    Agents, members and drafts come from answers and forms, so they are values
    here, read with the code's own guards; the drafts that are built are
    records. *)
From S2P Require Import Prelude JsNumber JsString JsValue JsOrder Shapes JsonUtils.

(** ** Lists and records *)

Definition parseCsvList (raw : string) : list string :=
  if negb (truthy_str raw) then [] else trimmed_nonempty (split_on (is_char ",") raw).

Definition parseLineList (raw : string) : list string := trimmed_nonempty (split_runs is_comma_nl false raw).

Definition asUnknownRecord (v : value) : option (obj value) :=
  match v with VObject o => if isUnknownRecord v then Some o else None | _ => None end.

Definition asStringList (v : value) : list string :=
  match v with VArray l => List.filter truthy_str (map (fun item => trim (v_to_string item)) l) | _ => [] end.

Definition asFiniteNumber (v : value) : option number :=
  match v with
  | VNumber x => if is_finite x then Some x else None
  | VString s =>
      if truthy_str (trim s) then
        let parsed := str_to_number s in if is_finite parsed then Some parsed else None
      else None
  | _ => None
  end.

Section text.
Context {J : Json}.

Inductive record_error := BadJson | NotARecord (fieldName : string).

Definition parseUnknownRecordJson (raw fieldName : string) : result record_error (obj value) :=
  match parse raw with
  | None => Throw BadJson
  | Some parsed => match asUnknownRecord parsed with Some o => Ok o | None => Throw (NotARecord fieldName) end
  end.
End text.

(** [" · "]. *)
Definition dot_sep : string := String " " (String "183" (String " " "")).

Definition summary_keys : list string :=
  ["total"; "queued"; "running"; "done"; "error"; "cancelled"; "interrupted"; "unknown"; "ok"; "failed"; "dispatch_errors"].

Definition fmtSummary (summary : value) : string :=
  if negb (is_objectish summary) then ""
  else join dot_sep (omap (fun key => (fun x => key ++s " " ++s num_to_string x) <$> as_number (vprop key summary))
                       summary_keys).

(** ** Role plans *)

(** [String(v ?? "").trim().toLowerCase()]. *)
Definition lower_trim (v : value) : string := to_lower (trim (v_to_string (v ??? VString ""))).

Definition instruction_text (v : value) : string :=
  trim match v with
       | VString s => s
       | VObject o => default "" (as_string (prop "instruction" o))
       | _ => ""
       end.

Definition instruction_entry (out : obj string) (p : string * value) : obj string :=
  let role := to_lower (trim (fst p)) in
  if negb (truthy_str role) then out
  else let instr := instruction_text (snd p) in
       if truthy_str instr then set role instr out else out.

Definition normalizeRoleInstructionMap (raw : value) : obj string :=
  match raw with VObject o => fold_left instruction_entry o [] | _ => [] end.

Definition normalizeRolePromptMode (raw : value) : string :=
  match raw with
  | VString s => let mode := to_lower (trim s) in if bool_decide (mode ∈ ["append"; "replace"]) then mode else "prepend"
  | _ => "prepend"
  end.

Definition normalizeSharedMemoryMode (raw : value) : string :=
  match raw with
  | VString s =>
      let mode := to_lower (trim s) in
      if bool_decide (mode ∈ ["read_only"; "readonly"]) then "read_only"
      else if bool_decide (mode ∈ ["read_write"; "readwrite"]) then "read_write" else "read_write"
  | _ => "read_write"
  end.

Record RoleGraphEdge := mkRoleEdge { from_role : string; to_role : string; reason : option string }.

Definition nonempty_str (s : string) : option string := if truthy_str s then Some s else None.

Definition role_edge (item : value) : option RoleGraphEdge :=
  match item with
  | VObject o =>
      let from := lower_trim (prop "from_role" o ??? prop "from" o) in
      let to := lower_trim (prop "to_role" o ??? prop "to" o) in
      if negb (truthy_str from) || negb (truthy_str to) then None
      else let why := if truthy (prop "reason" o) then trim (v_to_string (prop "reason" o)) else "" in
           Some (mkRoleEdge from to (nonempty_str why))
  | _ => None
  end.

Definition normalizeRoleGraphEdges (raw : value) : list RoleGraphEdge :=
  omap role_edge match raw with
                 | VArray l => l
                 | VObject o => default [] (as_array (prop "edges" o))
                 | _ => []
                 end.

(** ** Hand-off events *)

Definition HANDOFF_STATES : list string := ["proposed"; "accepted"; "declined"; "cancelled"].

(** [typeof v === "string" && v.trim() ? v.trim().toLowerCase() : d]. *)
Definition lower_or (d : string) (v : value) : string :=
  match v with VString s => if truthy_str (trim s) then to_lower (trim s) else d | _ => d end.

Definition trimmed_field (v : value) : value := match v with VString s => VString (trim s) | _ => VUndefined end.

(** The object literal, with the kind and the state chosen. *)
Definition handoff_fields (o : obj value) (kind state : string) : obj value :=
  let text k := (k, trimmed_field (prop k o)) in
  [text "handoff_id"; ("kind", VString kind); ("state", VString state);
   text "from_role"; text "to_role"; text "reason"; text "message"; text "source_deployment_id";
   text "source_session_id"; text "target_deployment_id"; text "target_session_id";
   ("ts_unix_ms", pick is_number (prop "ts_unix_ms" o)); ("event_index", pick is_number (prop "event_index" o));
   ("data", pick is_record (prop "data" o))].

Definition handoff_kind (o : obj value) : string :=
  let kindRaw := lower_or "role" (prop "kind" o) in
  if bool_decide (kindRaw = "cross_deployment") then "cross_deployment" else "role".

Definition handoff_state (o : obj value) : string :=
  let stateRaw := lower_or "proposed" (prop "state" o) in
  if bool_decide (stateRaw ∈ HANDOFF_STATES) then stateRaw else "proposed".

Definition normalizeHandoffEventRecord (raw : value) : obj value :=
  match raw with
  | VObject o =>
      let state := handoff_state o in
      handoff_fields o (handoff_kind o) (if bool_decide (state ∈ HANDOFF_STATES) then state else "proposed")
  | _ => []
  end.

(** ** Runtime members *)

(** [String(v?.agent_id || "").trim()], and the role. *)
Definition agent_id_of (v : value) : string := str_trim (vprop "agent_id" v).
Definition role_of (v : value) : string := str_trim (vprop "role" v).

Definition isConnectedAgent (agent : value) : bool * string :=
  let deployments := default [] (as_array (vprop "deployments" agent)) in
  let connected := bool_decide (vprop "connected" agent = VBool true) || (0 <? length deployments)%nat in
  let deploymentId :=
    match deployments with
    | d :: _ => if truthy (vprop "deployment_id" d) then v_to_string (vprop "deployment_id" d) else ""
    | [] => ""
    end in
  (connected, deploymentId).

Record RuntimeMemberDraft := mkDraft { agent_id : string; role : string; deployment_id : option string }.

(** The draft as the list of existing members holds it. *)
Definition draft_value (d : RuntimeMemberDraft) : value :=
  VObject (("agent_id", VString (agent_id d)) :: ("role", VString (role d))
           :: match deployment_id d with Some id => [("deployment_id", VString id)] | None => [] end).

Record Outcome := mkOutcome { additions : list RuntimeMemberDraft; warning : option string; error : option string }.

Definition failed (message : string) : Outcome := mkOutcome [] None (Some message).

(** [const aid = ...; if (aid) seenAgentIds.add(aid)]. *)
Definition seen_ids (l : list value) : list string := List.filter truthy_str (map agent_id_of l).
Definition seen_roles (l : list value) : list string := List.filter truthy_str (map (fun v => to_lower (role_of v)) l).

Definition entry_for (role : string) (agent : value) : RuntimeMemberDraft :=
  mkDraft (agent_id_of agent) role (nonempty_str (snd (isConnectedAgent agent))).

Definition add_agent (role : string) (st : list RuntimeMemberDraft * list string) (agent : value) :=
  let '(adds, seen) := st in
  let aid := agent_id_of agent in
  if negb (truthy_str aid) || bool_decide (aid ∈ seen) then st
  else if negb (fst (isConnectedAgent agent)) then st
  else (adds ++ [entry_for role agent], aid :: seen).

Definition buildRuntimeAgentAdditions (runtimeAgentOptions existingRuntime membersList : list value) (role : string)
    : Outcome :=
  match runtimeAgentOptions with
  | [] => failed "load agents before adding connected agents"
  | _ =>
      match fst (fold_left (add_agent role) runtimeAgentOptions ([], seen_ids (membersList ++ existingRuntime))) with
      | [] => failed "no connected agents to add (already in team/runtime)"
      | adds => mkOutcome adds None None
      end
  end.

(** [roleOrder], with [roleMap]'s keys. *)
Definition role_step (st : list string * list string) (role : string) :=
  let '(order, seen) := st in
  let raw := trim role in
  if negb (truthy_str raw) || bool_decide (to_lower raw ∈ seen) then st
  else (order ++ [raw], to_lower raw :: seen).

Definition roleOrder (roles : list string) : list string := fst (fold_left role_step roles ([], [])).

Fixpoint allocate (missingRoles : list string) (availableAgents : list value) : list RuntimeMemberDraft :=
  match missingRoles, availableAgents with
  | role :: missingRoles, agent :: availableAgents =>
      if truthy_str (agent_id_of agent) then entry_for role agent :: allocate missingRoles availableAgents
      else allocate missingRoles availableAgents
  | _, _ => []
  end.

Definition missing_roles (existingRuntime membersList : list value) (roles : list string) : list string :=
  List.filter (fun role => negb (bool_decide (to_lower role ∈ seen_roles (membersList ++ existingRuntime))))
    (roleOrder roles).

Definition available_agents (runtimeAgentOptions existingRuntime membersList : list value) : list value :=
  List.filter (fun agent =>
      truthy_str (agent_id_of agent)
      && negb (bool_decide (agent_id_of agent ∈ seen_ids (membersList ++ existingRuntime)))
      && fst (isConnectedAgent agent)) runtimeAgentOptions.

Definition nat_text (n : nat) : string := pretty (Z.of_nat n).

Definition buildRoleAllocatedRuntimeMembers (runtimeAgentOptions existingRuntime membersList : list value)
    (roles : list string) : Outcome :=
  match runtimeAgentOptions with
  | [] => failed "load agents before allocating by role"
  | _ =>
      let missing := missing_roles existingRuntime membersList roles in
      let available := available_agents runtimeAgentOptions existingRuntime membersList in
      if bool_decide (roleOrder roles = []) then failed "no role plan roles available"
      else if bool_decide (missing = []) then failed "all role plan roles are already assigned"
      else if (length available =? 0)%nat then failed "no connected agents available for role allocation"
      else
        match allocate missing available with
        | [] => failed "no connected agents available for role allocation"
        | adds =>
            mkOutcome adds
              (if (length adds <? length missing)%nat
               then Some ("allocated " ++s nat_text (length adds) ++s "/" ++s nat_text (length missing)
                          ++s " roles (insufficient connected agents)")
               else None) None
        end
  end.

(** ** The choice of agents *)

Lemma elem_of_truthy_map {A} (f : A -> string) (l : list A) s :
  s ∈ List.filter truthy_str (map f l) <-> s <> "" /\ exists x, x ∈ l /\ f x = s.
Proof.
  rewrite elem_of_filter_bool, truthy_str_true, list_elem_of_In, in_map_iff. split.
  - intros [(x & <- & Hx%list_elem_of_In) Hs]. eauto.
  - intros (Hs & x & Hx & <-). split; [|done]. exists x. split; [done|by apply list_elem_of_In].
Qed.

Definition connected_option (options : list value) (agent : value) : Prop :=
  agent ∈ options /\ agent_id_of agent <> "" /\ fst (isConnectedAgent agent) = true.

Lemma fold_add_agent r options seen0 :
  let '(adds, seen) := fold_left (add_agent r) options ([], seen0) in
  (forall s, s ∈ seen <-> s ∈ map agent_id adds \/ s ∈ seen0)
  /\ NoDup (map agent_id adds)
  /\ (forall d, d ∈ adds -> agent_id d ∉ seen0
        /\ exists agent, connected_option options agent /\ d = entry_for r agent)
  /\ (forall agent, connected_option options agent -> agent_id_of agent ∈ map agent_id adds \/ agent_id_of agent ∈ seen0).
Proof.
  induction options as [|x options IH] using rev_ind.
  { cbn [fold_left map]. split_and!; [set_solver|constructor| |].
    - intros d Hd. by apply not_elem_of_nil in Hd.
    - intros agent (Ha & _). by apply not_elem_of_nil in Ha. }
  rewrite fold_left_app. destruct (fold_left (add_agent r) options ([], seen0)) as [adds seen].
  destruct IH as (Hseen & Hnd & Hadds & Hall). cbn [fold_left add_agent].
  assert (Hw : forall agent, connected_option options agent -> connected_option (options ++ [x]) agent).
  { intros agent (Ha & H). split; [apply elem_of_app; by left|done]. }
  assert (Hcase : forall agent, connected_option (options ++ [x]) agent ->
    connected_option options agent \/ agent = x /\ agent_id_of x <> "" /\ fst (isConnectedAgent x) = true).
  { intros agent ([Ha| ->%list_elem_of_singleton]%elem_of_app & H); [left; by split|by right]. }
  assert (Hskip : (agent_id_of x <> "" -> fst (isConnectedAgent x) = true -> agent_id_of x ∈ seen) ->
    (forall d, d ∈ adds -> agent_id d ∉ seen0
       /\ exists agent, connected_option (options ++ [x]) agent /\ d = entry_for r agent)
    /\ forall agent, connected_option (options ++ [x]) agent ->
         agent_id_of agent ∈ map agent_id adds \/ agent_id_of agent ∈ seen0).
  { intros Hx. split.
    - intros d Hd. destruct (Hadds d Hd) as (H1 & agent & H2 & ->). eauto.
    - intros agent [Ha|(-> & H1 & H2)]%Hcase; [by apply Hall|]. by apply Hseen, Hx. }
  destruct (truthy_str (agent_id_of x)) eqn:Et; cbn [negb orb].
  2: { split_and!; try done; apply Hskip; intros H _; apply truthy_str_true in H; congruence. }
  case_bool_decide as Hin; [split_and!; try done; by apply Hskip|].
  destruct (fst (isConnectedAgent x)) eqn:Ec; cbn [negb]; [|split_and!; try done; by apply Hskip].
  clear Hskip. apply truthy_str_true in Et. rewrite Hseen in Hin. rewrite map_app. cbn [map].
  change (agent_id (entry_for r x)) with (agent_id_of x). split_and!.
  - intros s. rewrite elem_of_cons, Hseen, elem_of_app, list_elem_of_singleton. tauto.
  - apply NoDup_app. split_and!; [done|set_solver|apply NoDup_singleton].
  - intros d [Hd| ->%list_elem_of_singleton]%elem_of_app.
    + destruct (Hadds d Hd) as (H1 & agent & H2 & ->). eauto.
    + split; [tauto|]. exists x. split; [|done]. split; [apply elem_of_app; right; by left|done].
  - intros agent [Ha|(-> & _)]%Hcase; rewrite elem_of_app; [destruct (Hall agent Ha); tauto|].
    left. right. by left.
Qed.

(** ** Roles *)

Lemma fold_role_step roles :
  let '(order, seen) := fold_left role_step roles ([], []) in
  (forall s, s ∈ seen <-> s ∈ map to_lower order)
  /\ NoDup (map to_lower order)
  /\ Forall (fun r => r <> "" /\ exists role, role ∈ roles /\ r = trim role) order
  /\ (forall role, role ∈ roles -> trim role <> "" -> to_lower (trim role) ∈ map to_lower order).
Proof.
  induction roles as [|x roles IH] using rev_ind.
  { cbn [fold_left map]. split_and!; [done|constructor|constructor|]. intros r Hr. by apply not_elem_of_nil in Hr. }
  rewrite fold_left_app. destruct (fold_left role_step roles ([], [])) as [order seen].
  destruct IH as (Hseen & Hnd & Hf & Hall). cbn [fold_left role_step].
  assert (Hw : Forall (fun r => r <> "" /\ exists role, role ∈ roles ++ [x] /\ r = trim role) order).
  { eapply Forall_impl; [exact Hf|]. intros r (H1 & role & H2 & ->). split; [done|]. exists role. set_solver. }
  assert (Hskip : (trim x <> "" -> to_lower (trim x) ∈ seen) ->
    forall role, role ∈ roles ++ [x] -> trim role <> "" -> to_lower (trim role) ∈ map to_lower order).
  { intros Hx role [Hr| ->%list_elem_of_singleton]%elem_of_app Ht; [by apply Hall|by apply Hseen, Hx]. }
  destruct (truthy_str (trim x)) eqn:Et; cbn [negb orb].
  2: { split_and!; try done. apply Hskip. intros H%truthy_str_true. congruence. }
  case_bool_decide as Hin; [split_and!; try done; by apply Hskip|]. clear Hskip.
  apply truthy_str_true in Et. rewrite Hseen in Hin. rewrite map_app. cbn [map]. split_and!.
  - intros s. rewrite elem_of_cons, Hseen, elem_of_app, list_elem_of_singleton. tauto.
  - apply NoDup_app. split_and!; [done|set_solver|apply NoDup_singleton].
  - apply Forall_app. split; [done|]. apply Forall_singleton. split; [done|]. exists x. set_solver.
  - intros r [Hr| ->%list_elem_of_singleton]%elem_of_app Ht; rewrite elem_of_app; [left; by apply Hall|right; by left].
Qed.

Lemma roleOrder_spec roles :
  NoDup (map to_lower (roleOrder roles))
  /\ Forall (fun r => r <> "" /\ exists role, role ∈ roles /\ r = trim role) (roleOrder roles)
  /\ (forall role, role ∈ roles -> trim role <> "" -> to_lower (trim role) ∈ map to_lower (roleOrder roles)).
Proof.
  pose proof (fold_role_step roles) as H. unfold roleOrder.
  destruct (fold_left role_step roles _) as [order seen]. by destruct H as [_ H].
Qed.

Lemma allocate_zip missing agents :
  Forall (fun a => agent_id_of a <> "") agents -> allocate missing agents = zip_with entry_for missing agents.
Proof.
  intros Ha. revert missing. induction Ha as [|a agents Ha Hf IH]; intros [|r missing]; try done.
  cbn [allocate zip_with]. rewrite (proj2 (truthy_str_true _) Ha). by rewrite IH.
Qed.

Section allocation.
Context (options existing members : list value).

Let available := available_agents options existing members.

Lemma elem_of_available agent :
  agent ∈ available <-> connected_option options agent /\ agent_id_of agent ∉ seen_ids (members ++ existing).
Proof.
  unfold available, available_agents. rewrite elem_of_filter_bool, !andb_true_iff, truthy_str_true, negb_true_iff,
    bool_decide_eq_false. unfold connected_option. tauto.
Qed.

Lemma agent_additions role :
  let out := buildRuntimeAgentAdditions options existing members role in
  additions out = fst (fold_left (add_agent role) options ([], seen_ids (members ++ existing)))
  /\ (additions out = [] <-> error out <> None) /\ warning out = None.
Proof.
  cbn zeta. unfold buildRuntimeAgentAdditions. destruct options as [|x l]; [done|].
  set (f := fst _). by destruct f.
Qed.

Lemma role_additions roles :
  let out := buildRoleAllocatedRuntimeMembers options existing members roles in
  let missing := missing_roles existing members roles in
  additions out = zip_with entry_for missing available
  /\ (additions out = [] <-> error out <> None)
  /\ (warning out <> None <-> (0 < length (additions out) < length missing)%nat).
Proof.
  cbn zeta. set (missing := missing_roles existing members roles).
  assert (Hz : allocate missing available = zip_with entry_for missing available).
  { apply allocate_zip, Forall_forall. intros a [[_ [Ha _]] _]%elem_of_available. done. }
  assert (Hfail : forall m, zip_with entry_for missing available = [] ->
    additions (failed m) = zip_with entry_for missing available
    /\ (additions (failed m) = [] <-> error (failed m) <> None)
    /\ (warning (failed m) <> None <-> (0 < length (additions (failed m)) < length missing)%nat)).
  { intros m ->. split_and!; [done|done|]. cbn. split; [done|lia]. }
  unfold buildRoleAllocatedRuntimeMembers. fold missing available. destruct options as [|x l] eqn:Eo.
  { apply Hfail. assert (available = []) as -> by done. by destruct missing. }
  case_bool_decide as H1.
  { apply Hfail. assert (missing = []) as -> by (unfold missing, missing_roles; by rewrite H1). done. }
  case_bool_decide as H2; [apply Hfail; by rewrite H2|].
  destruct (Nat.eqb_spec (length available) 0) as [H3|H3].
  { apply Hfail. destruct available; [by destruct missing|done]. }
  rewrite Hz. destruct missing as [|r missing'] eqn:Em; [done|]. destruct available as [|a available'] eqn:Ea; [done|].
  cbn [zip_with]. set (adds := entry_for r a :: _). cbn [additions warning error]. split_and!; [done|done|].
  destruct (Nat.ltb_spec (length adds) (length (r :: missing'))); simpl in *; split; try done; lia.
Qed.
End allocation.

Lemma agent_id_draft d : agent_id_of (draft_value d) = trim (agent_id d).
Proof. exact (str_trim_string (agent_id d)). Qed.

Lemma role_draft d : role_of (draft_value d) = trim (role d).
Proof. exact (str_trim_string (role d)). Qed.

Lemma seen_ids_drafts members existing drafts :
  Forall (fun d => trim (agent_id d) = agent_id d) drafts ->
  forall s, s ∈ seen_ids (members ++ existing ++ map draft_value drafts)
    <-> s ∈ seen_ids (members ++ existing) \/ s <> "" /\ s ∈ map agent_id drafts.
Proof.
  intros Hd s. unfold seen_ids. rewrite app_assoc, map_app, List.filter_app, elem_of_app.
  apply or_iff_compat_l. rewrite map_map, elem_of_truthy_map. apply and_iff_compat_l.
  rewrite list_elem_of_fmap. split; intros (d & H1 & H2).
  - exists d. rewrite Forall_forall in Hd. split; [|done]. rewrite <- H2, agent_id_draft. exact (Hd d H1).
  - exists d. rewrite Forall_forall in Hd. split; [done|]. rewrite H1, agent_id_draft. exact (Hd d H2).
Qed.

Lemma seen_roles_drafts members existing drafts :
  Forall (fun d => trim (role d) = role d) drafts ->
  forall s, s ∈ seen_roles (members ++ existing ++ map draft_value drafts)
    <-> s ∈ seen_roles (members ++ existing) \/ s <> "" /\ s ∈ map (fun d => to_lower (role d)) drafts.
Proof.
  intros Hd s. unfold seen_roles. rewrite app_assoc, map_app, List.filter_app, elem_of_app.
  apply or_iff_compat_l. rewrite map_map, elem_of_truthy_map. apply and_iff_compat_l.
  assert (Hr : forall d, d ∈ drafts -> role_of (draft_value d) = role d).
  { intros d Hin. rewrite Forall_forall in Hd. rewrite role_draft. exact (Hd d Hin). }
  rewrite (list_elem_of_fmap (fun d => to_lower (role d))). split; intros (d & H1 & H2).
  - exists d. split; [|done]. rewrite <- H2. by rewrite Hr.
  - exists d. split; [done|]. by rewrite Hr.
Qed.

Lemma entry_trimmed r agent : trim (agent_id (entry_for r agent)) = agent_id (entry_for r agent).
Proof. apply trim_idem. Qed.

(** Adding the connected agents: every agent added is a connected option
    that is neither in the team nor among the runtime members, no agent is
    added twice, every connected option is then present, and adding again
    adds nothing; an error is reported exactly when nothing is added. *)
Theorem connected_agents_added (options existing members : list value) (r : string) :
  let out := buildRuntimeAgentAdditions options existing members r in
  let seen := seen_ids (members ++ existing) in
  NoDup (map agent_id (additions out))
  /\ Forall (fun d => agent_id d ∉ seen /\ exists agent, connected_option options agent /\ d = entry_for r agent)
       (additions out)
  /\ (forall agent, connected_option options agent ->
        agent_id_of agent ∈ map agent_id (additions out) \/ agent_id_of agent ∈ seen)
  /\ (additions out = [] <-> error out <> None)
  /\ additions (buildRuntimeAgentAdditions options (existing ++ map draft_value (additions out)) members r) = [].
Proof.
  cbn zeta. destruct (agent_additions options existing members r) as (Hadds & Herr & _).
  set (out := buildRuntimeAgentAdditions options existing members r) in *.
  pose proof (fold_add_agent r options (seen_ids (members ++ existing))) as H. rewrite Hadds in Herr.
  rewrite Hadds. destruct (fold_left (add_agent r) options _) as [adds seen]. destruct H as (_ & Hnd & Hf & Hall).
  cbn [fst] in *. split_and!; [done|by apply Forall_forall|done|done|].
  rewrite (proj1 (agent_additions options _ members r)).
  pose proof (fold_add_agent r options (seen_ids (members ++ existing ++ map draft_value adds))) as H.
  destruct (fold_left (add_agent r) options _) as [adds' seen']. destruct H as (_ & _ & Hf' & _). cbn [fst].
  destruct adds' as [|d adds']; [done|]. destruct (Hf' d) as (Hd & agent & Ha & ->); [by left|]. destruct Hd.
  apply seen_ids_drafts.
  { apply Forall_forall. intros e He. destruct (Hf e He) as (_ & a & _ & ->). apply entry_trimmed. }
  destruct (Hall agent Ha) as [H|H]; [right|by left]. split; [by destruct Ha as (_ & Ha & _)|done].
Qed.

Lemma missing_roles_spec existing members roles :
  (forall r, r ∈ missing_roles existing members roles
     <-> r ∈ roleOrder roles /\ to_lower r ∉ seen_roles (members ++ existing))
  /\ NoDup (map to_lower (missing_roles existing members roles)).
Proof.
  split.
  - intros r. unfold missing_roles. by rewrite elem_of_filter_bool, negb_true_iff, bool_decide_eq_false.
  - eapply sublist_NoDup; [apply (roleOrder_spec roles)|]. apply (fmap_sublist to_lower), sublist_filter.
Qed.

Lemma filter_drop {A B} `{EqDecision B} (f : A -> B) (l : list A) n :
  NoDup (map f l) -> List.filter (fun x => negb (bool_decide (f x ∈ map f (take n l)))) l = drop n l.
Proof.
  revert n. induction l as [|x l IH]; intros n Hnd; [by destruct n|].
  cbn [map] in Hnd. apply NoDup_cons in Hnd as [Hx Hnd]. destruct n as [|n].
  - cbn [take map drop]. apply forallb_filter_id, forallb_forall. intros y _. by rewrite bool_decide_false by apply not_elem_of_nil.
  - cbn [take map drop List.filter]. rewrite bool_decide_true by (by left). cbn [negb].
    rewrite <- (IH n Hnd). apply List.filter_ext_in. intros y Hy%(in_map f)%list_elem_of_In. f_equal.
    apply bool_decide_ext. rewrite elem_of_cons. split; [intros [Heq|]; [congruence|done]|by right].
Qed.

(** Assigned roles leave the others missing. *)
Lemma missing_after existing members roles (drafts : list RuntimeMemberDraft) n :
  map role drafts = take n (missing_roles existing members roles) ->
  missing_roles (existing ++ map draft_value drafts) members roles = drop n (missing_roles existing members roles).
Proof.
  intros Hd. destruct (missing_roles_spec existing members roles) as [Hin Hnd].
  rewrite <- (filter_drop to_lower _ n Hnd), <- Hd. unfold missing_roles at 1 2. rewrite filter_filter.
  destruct (roleOrder_spec roles) as (_ & Hf & _). rewrite Forall_forall in Hf.
  assert (Htrim : Forall (fun d => trim (role d) = role d) drafts).
  { apply Forall_forall. intros d Hdin.
    assert (Hm : role d ∈ take n (missing_roles existing members roles)).
    { rewrite <- Hd. apply (list_elem_of_fmap_2 role). done. }
    apply elem_of_take in Hm as (i & Hm & _). apply list_elem_of_lookup_2, Hin in Hm as [Hm _].
    destruct (Hf _ Hm) as (_ & r & _ & ->). apply trim_idem. }
  apply List.filter_ext_in. intros r Hr%list_elem_of_In. rewrite <- negb_orb. f_equal.
  rewrite <- bool_decide_or. apply bool_decide_ext. rewrite seen_roles_drafts by done. apply or_iff_compat_l.
  rewrite map_map. split; [by intros [_ ?]|]. split; [|done]. destruct (Hf r Hr) as [Hne _]. by destruct r.
Qed.

Lemma zip_entry_roles missing agents :
  map role (zip_with entry_for missing agents) = take (length (zip_with entry_for missing agents)) missing.
Proof.
  revert agents. induction missing as [|r missing IH]; intros [|a agents]; [done..|].
  cbn [zip_with map length take]. by rewrite IH.
Qed.

Lemma zip_entry_ids missing agents :
  map agent_id (zip_with entry_for missing agents)
  = take (length (zip_with entry_for missing agents)) (map agent_id_of agents).
Proof.
  revert agents. induction missing as [|r missing IH]; intros [|a agents]; [done..|].
  cbn [zip_with map length take]. by rewrite IH.
Qed.

(** An agent that is connected, listed twice. *)
Definition twin_agent : value := VObject [("agent_id", VString "a1"); ("connected", VBool true)].

(** Allocating the roles: the roles of the plan are taken once each, up to
    letter case, in the plan's order; those nobody has are given to the
    connected agents outside the team, in order, one each, until either runs
    out; the warning says that agents ran out, the error that nothing was
    given; and allocating again goes on with exactly the roles left.  No agent
    is given two roles when every agent is listed once, but one that is listed
    twice is. *)
Theorem roles_allocated (options existing members : list value) (roles : list string) :
  let out := buildRoleAllocatedRuntimeMembers options existing members roles in
  let missing := missing_roles existing members roles in
  let available := available_agents options existing members in
  additions out = zip_with entry_for missing available
  /\ NoDup (map to_lower missing)
  /\ (forall r, r ∈ missing <-> r ∈ roleOrder roles /\ to_lower r ∉ seen_roles (members ++ existing))
  /\ (forall r, r ∈ roles -> trim r <> "" -> to_lower (trim r) ∈ map to_lower (roleOrder roles))
  /\ (forall agent, agent ∈ available
        <-> connected_option options agent /\ agent_id_of agent ∉ seen_ids (members ++ existing))
  /\ (additions out = [] <-> error out <> None)
  /\ (warning out <> None <-> (0 < length (additions out) < length missing)%nat)
  /\ missing_roles (existing ++ map draft_value (additions out)) members roles = drop (length (additions out)) missing
  /\ (NoDup (map agent_id_of options) -> NoDup (map agent_id (additions out)))
  /\ additions (buildRoleAllocatedRuntimeMembers [twin_agent; twin_agent] [] [] ["lead"; "coder"])
     = [mkDraft "a1" "lead" None; mkDraft "a1" "coder" None].
Proof.
  cbn zeta. destruct (role_additions options existing members roles) as (Hadds & Herr & Hwarn).
  destruct (missing_roles_spec existing members roles) as [Hmiss Hnd].
  destruct (roleOrder_spec roles) as (_ & _ & Hroles).
  split_and!; [exact Hadds|exact Hnd|exact Hmiss|exact Hroles|apply elem_of_available|exact Herr|exact Hwarn| |
               |reflexivity].
  - apply missing_after. rewrite Hadds. apply zip_entry_roles.
  - intros Hids. rewrite Hadds, zip_entry_ids.
    eapply sublist_NoDup; [exact Hids|]. etransitivity; [apply sublist_take|].
    apply (fmap_sublist agent_id_of), sublist_filter.
Qed.

(** ** The readers are stable *)

Lemma is_ws_lower c : is_ws (lower_char c) = is_ws c.
Proof. by destruct c as [[] [] [] [] [] [] [] []]. Qed.

Lemma lower_char_idem c : lower_char (lower_char c) = lower_char c.
Proof. by destruct c as [[] [] [] [] [] [] [] []]. Qed.

Lemma to_lower_idem s : to_lower (to_lower s) = to_lower s.
Proof. unfold to_lower. induction s as [|c s IH]; [done|]. cbn [map_str]. by rewrite lower_char_idem, IH. Qed.

Lemma trim_to_lower s : trim (to_lower s) = to_lower (trim s).
Proof.
  assert (Hs : forall s, trim_start (to_lower s) = to_lower (trim_start s)).
  { clear. unfold trim_start, to_lower. induction s as [|c s IH]; [done|].
    cbn [map_str trim_start_by]. rewrite is_ws_lower. by destruct (is_ws c). }
  assert (He : forall s, trim_end (to_lower s) = to_lower (trim_end s)).
  { clear. unfold trim_end, to_lower. induction s as [|c s IH]; [done|].
    cbn [map_str trim_end_by]. rewrite IH, is_ws_lower.
    destruct (trim_end_by is_ws s); cbn [map_str]; [by destruct (is_ws c)|done]. }
  unfold trim. by rewrite Hs, He.
Qed.

(** A text that the readers leave alone. *)
Definition plain (s : string) : Prop := s <> "" /\ trim s = s.
Definition plain_lower (s : string) : Prop := plain s /\ to_lower s = s.

Lemma plain_trim s : truthy_str (trim s) = true -> plain (trim s).
Proof. intros H%truthy_str_true. split; [done|apply trim_idem]. Qed.

Lemma plain_lower_trim s : truthy_str (to_lower (trim s)) = true -> plain_lower (to_lower (trim s)).
Proof.
  intros H%truthy_str_true. split; [split; [done|]|apply to_lower_idem]. by rewrite trim_to_lower, trim_idem.
Qed.

Lemma plain_truthy s : plain s -> truthy_str s = true.
Proof. intros [H _]. by apply truthy_str_true. Qed.

Definition handoff_kinds : list string := ["role"; "cross_deployment"].

Lemma trimmed_field_idem v : trimmed_field (trimmed_field v) = trimmed_field v.
Proof. destruct v; try done. cbn [trimmed_field]. by rewrite trim_idem. Qed.

Definition handoff_texts : list string :=
  ["handoff_id"; "from_role"; "to_role"; "reason"; "message"; "source_deployment_id"; "source_session_id";
   "target_deployment_id"; "target_session_id"].

Lemma handoff_fields_ext o o' k s :
  Forall (fun j => trimmed_field (prop j o) = trimmed_field (prop j o')) handoff_texts ->
  pick is_number (prop "ts_unix_ms" o) = pick is_number (prop "ts_unix_ms" o') ->
  pick is_number (prop "event_index" o) = pick is_number (prop "event_index" o') ->
  pick is_record (prop "data" o) = pick is_record (prop "data" o') ->
  handoff_fields o k s = handoff_fields o' k s.
Proof.
  intros Hall H1 H2 H3. unfold handoff_fields. rewrite H1, H2, H3. unfold handoff_texts in Hall.
  repeat (apply List.Forall_cons_iff in Hall as [? Hall]). congruence.
Qed.

Lemma handoff_fields_idem o k s : handoff_fields (handoff_fields o k s) k s = handoff_fields o k s.
Proof.
  apply handoff_fields_ext; [|exact (pick_idem _ _)..].
  repeat (apply List.Forall_cons; [exact (trimmed_field_idem _)|]). constructor.
Qed.

Lemma handoff_state_in o : handoff_state o ∈ HANDOFF_STATES.
Proof. unfold handoff_state. case_bool_decide; [done|by left]. Qed.

Lemma handoff_idem o :
  let r := normalizeHandoffEventRecord (VObject o) in
  one_of handoff_kinds (prop "kind" r) = true /\ one_of HANDOFF_STATES (prop "state" r) = true
  /\ normalizeHandoffEventRecord (VObject r) = r.
Proof.
  cbn zeta. unfold normalizeHandoffEventRecord. rewrite (bool_decide_true _ (handoff_state_in o)).
  set (kind := handoff_kind o). set (state := handoff_state o).
  assert (Hk : kind ∈ handoff_kinds) by (unfold kind, handoff_kind; case_bool_decide; set_solver).
  pose proof (handoff_state_in o) as Hs. fold state in Hs.
  split_and!; [by apply bool_decide_eq_true|by apply bool_decide_eq_true|].
  assert (handoff_kind (handoff_fields o kind state) = kind) as ->.
  { unfold handoff_kind. change (prop "kind" (handoff_fields o kind state)) with (VString kind).
    unfold handoff_kinds in Hk. set_unfold in Hk. by destruct Hk as [->|[->|[]]]. }
  assert (handoff_state (handoff_fields o kind state) = state) as ->.
  { unfold handoff_state. change (prop "state" (handoff_fields o kind state)) with (VString state).
    unfold HANDOFF_STATES in Hs. set_unfold in Hs. by destruct Hs as [->|[->|[->|[->|[]]]]]. }
  rewrite (bool_decide_true _ Hs). apply handoff_fields_idem.
Qed.

Definition instruction_ok (p : string * string) : Prop := plain_lower (fst p) /\ plain (snd p).

(** The map as the value it is stored as. *)
Definition instructions_value (m : obj string) : value := VObject (map (fun p => (fst p, VString (snd p))) m).

Lemma instruction_map_ok raw :
  let m := normalizeRoleInstructionMap raw in wf m /\ ordered m /\ Forall instruction_ok m.
Proof.
  cbn zeta. destruct raw as [| | | | | |o]; try (split_and!; [apply NoDup_nil_2|constructor|constructor]).
  cbn [normalizeRoleInstructionMap].
  assert (H : forall m : obj string, wf m /\ ordered m /\ Forall instruction_ok m ->
    let m' := fold_left instruction_entry o m in wf m' /\ ordered m' /\ Forall instruction_ok m').
  2: { apply H. split_and!; [apply NoDup_nil_2|constructor|constructor]. }
  induction o as [|p o IH]; intros m Hm; [done|]. cbn [fold_left]. apply IH. unfold instruction_entry.
  destruct (truthy_str (to_lower (trim (fst p)))) eqn:Er; [|done]. cbn [negb].
  destruct (truthy_str (instruction_text (snd p))) eqn:Ei; [|done]. destruct Hm as (H1 & H2 & H3).
  split_and!; [by apply wf_set|by apply ordered_set|]. apply Forall_forall. intros q Hq.
  apply elem_of_set in Hq as [->|Hq]; [| |done].
  - split; [by apply plain_lower_trim|by apply plain_trim].
  - rewrite Forall_forall in H3. by apply H3.
Qed.

Lemma instruction_map_back raw :
  let m := normalizeRoleInstructionMap raw in normalizeRoleInstructionMap (instructions_value m) = m.
Proof.
  cbn zeta. destruct (instruction_map_ok raw) as (Hwf & Hord & Hok).
  generalize dependent (normalizeRoleInstructionMap raw). intros m Hwf Hord Hok.
  rewrite <- (of_entries_ordered m) at 2 by done. unfold instructions_value, of_entries.
  cbn [normalizeRoleInstructionMap]. clear Hwf Hord. generalize (@nil (string * string)).
  induction Hok as [|[k v] m [[[Hk1 Hk2] Hk3] Hv] Hok IH]; intros out; [done|]. cbn [map fold_left fst snd] in *.
  rewrite IH. f_equal. unfold instruction_entry. cbn [fst snd]. change (instruction_text (VString v)) with (trim v). destruct Hv as [Hv1 Hv2].
  rewrite Hk2, Hk3, Hv2, (proj2 (truthy_str_true k)), (proj2 (truthy_str_true v)) by done. done.
Qed.

Definition edge_ok (e : RoleGraphEdge) : Prop :=
  plain_lower (from_role e) /\ plain_lower (to_role e) /\ (forall s, reason e = Some s -> plain s).

Definition edge_value (e : RoleGraphEdge) : value :=
  VObject [("from_role", VString (from_role e)); ("to_role", VString (to_role e));
           ("reason", of_option (VString <$> reason e))].

Lemma role_edge_ok item e : role_edge item = Some e -> edge_ok e.
Proof.
  destruct item as [| | | | | |o]; try done. cbn [role_edge]. unfold lower_trim.
  destruct (truthy_str (to_lower (trim (v_to_string ((prop "from_role" o ??? prop "from" o) ??? VString ""))))) eqn:E1;
    [|done]. cbn [negb orb].
  destruct (truthy_str (to_lower (trim (v_to_string ((prop "to_role" o ??? prop "to" o) ??? VString ""))))) eqn:E2;
    [|done]. cbn [negb]. intros [= <-]. split_and!; [by apply plain_lower_trim|by apply plain_lower_trim|].
  cbn [reason]. unfold nonempty_str. destruct (truthy (prop "reason" o)); [|done].
  intros s Hs. destruct (truthy_str (trim _)) eqn:E; [|done]. injection Hs as <-. by apply plain_trim.
Qed.

Lemma role_edge_back e : edge_ok e -> role_edge (edge_value e) = Some e.
Proof.
  intros ([[Hf1 Hf2] Hf3] & [[Ht1 Ht2] Ht3] & Hr). destruct e as [from to why]. cbn [from_role to_role reason] in *.
  unfold edge_value, role_edge. cbn [from_role to_role reason].
  change (prop "from_role" _ ??? _) with (VString from). change (prop "to_role" _ ??? _) with (VString to).
  change (prop "reason" _) with (of_option (VString <$> why)).
  change (lower_trim (VString from)) with (to_lower (trim from)). change (lower_trim (VString to)) with (to_lower (trim to)).
  rewrite Hf2, Hf3, Ht2, Ht3, (proj2 (truthy_str_true from)), (proj2 (truthy_str_true to)) by done. cbn [negb orb].
  destruct why as [s|]; [|done]. destruct (Hr s eq_refl) as [Hs1 Hs2].
  change (of_option (VString <$> Some s)) with (VString s). cbn [truthy v_to_string]. unfold nonempty_str.
  by rewrite (proj2 (truthy_str_true s) Hs1), Hs2, (proj2 (truthy_str_true s) Hs1).
Qed.

(** What the readers of team data give is well formed, and reading it again
    gives it back: hand-off records, with a kind and a state of the known
    ones; role instructions, with lower-case roles and texts that are not
    blank, in the order in which an object keeps them; role graph edges; and
    the two modes. *)
Theorem team_readers_stable :
  (forall o, let r := normalizeHandoffEventRecord (VObject o) in
     one_of handoff_kinds (prop "kind" r) = true /\ one_of HANDOFF_STATES (prop "state" r) = true
     /\ normalizeHandoffEventRecord (VObject r) = r)
  /\ (forall raw, let m := normalizeRoleInstructionMap raw in
        wf m /\ Forall instruction_ok m /\ normalizeRoleInstructionMap (instructions_value m) = m)
  /\ (forall raw, let es := normalizeRoleGraphEdges raw in
        Forall edge_ok es /\ normalizeRoleGraphEdges (VArray (map edge_value es)) = es)
  /\ (forall v, let mode := normalizeRolePromptMode v in
        mode ∈ ["append"; "replace"; "prepend"] /\ normalizeRolePromptMode (VString mode) = mode)
  /\ (forall v, let mode := normalizeSharedMemoryMode v in
        mode ∈ ["read_only"; "read_write"] /\ normalizeSharedMemoryMode (VString mode) = mode).
Proof.
  split_and!.
  - apply handoff_idem.
  - intros raw. cbn zeta. destruct (instruction_map_ok raw) as (H1 & _ & H3).
    split_and!; [done|done|apply instruction_map_back].
  - intros raw. cbn zeta. assert (Hok : Forall edge_ok (normalizeRoleGraphEdges raw)).
    { apply Forall_forall. intros e He. unfold normalizeRoleGraphEdges in He.
      apply list_elem_of_omap in He as (item & _ & He). by eapply role_edge_ok. }
    split; [done|]. generalize dependent (normalizeRoleGraphEdges raw). intros es Hok. unfold normalizeRoleGraphEdges.
    induction Hok as [|e es He Hok IH]; [done|]. cbn [map omap list_omap]. rewrite role_edge_back by done. by f_equal.
  - intros v. cbn zeta. assert (Hm : normalizeRolePromptMode v ∈ ["append"; "replace"; "prepend"]).
    { unfold normalizeRolePromptMode. destruct v; try (case_bool_decide); set_solver. }
    split; [done|]. set_unfold in Hm. by destruct Hm as [->|[->|[->|[]]]].
  - intros v. cbn zeta. assert (Hm : normalizeSharedMemoryMode v ∈ ["read_only"; "read_write"]).
    { unfold normalizeSharedMemoryMode. destruct v; repeat case_bool_decide; set_solver. }
    split; [done|]. set_unfold in Hm. by destruct Hm as [->|[->|[]]].
Qed.
