(* ===== verification/History.v ===== *)
(** The rows of a session's history (src/ui/src/history/historyPanelData.ts):
    readers of what the daemon stored, from any JSON, and the list of messages
    and tool records that the conversation view shows. *)
From S2P Require Import Prelude JsNumber JsString JsValue JsOrder Shapes JsonUtils.

(** ** Readers of one field; [VUndefined] for a value that does not fit *)

Definition asTrimmedString (v : value) : value :=
  match v with VString s => if truthy_str (trim s) then VString (trim s) else VUndefined | _ => VUndefined end.

Definition asText : value -> value := pick is_string.

Definition asFiniteNumber (v : value) : value :=
  match v with
  | VNumber x => if is_finite x then v else VUndefined
  | VString s =>
      if truthy_str (trim s) then
        let parsed := str_to_number s in if is_finite parsed then VNumber parsed else VUndefined
      else VUndefined
  | _ => VUndefined
  end.

(** [value !== 0] for a number. *)
Definition asOptionalBoolean (v : value) : value :=
  match v with
  | VBool _ => v
  | VNumber x => VBool (negb (num_eqb x (int 0)))
  | VString s =>
      let lowered := to_lower (trim s) in
      if negb (truthy_str lowered) then VUndefined
      else if bool_decide (lowered ∈ ["true"; "1"]) then VBool true
      else if bool_decide (lowered ∈ ["false"; "0"]) then VBool false
      else VUndefined
  | _ => VUndefined
  end.

Definition onlyTrue (v : value) : value := if bool_decide (v = VBool true) then VBool true else VUndefined.
Definition isTrue (v : value) : value := VBool (bool_decide (v = VBool true)).
Definition orZero (v : value) : value := asFiniteNumber v ??? VNumber (int 0).
Definition asIs (v : value) : value := v.

(** ** Rows: an object literal with a reader per field *)

Abbreviation columns := (list (string * (value -> value))).

Definition read_row (cols : columns) (o : obj value) : obj value := map (fun c => (fst c, snd c (prop (fst c) o))) cols.

Definition to_row (cols : columns) (v : value) : option (obj value) :=
  match v with VObject o => Some (read_row cols o) | _ => None end.

(** [Array.isArray(value) ? value.map(f).filter(row !== null) : []]. *)
Definition read_rows (f : value -> option (obj value)) (v : value) : list (obj value) :=
  match v with VArray l => omap f l | _ => [] end.

(** A row, or a list of rows, as the value of a field. *)
Definition row_field (f : value -> option (obj value)) (v : value) : value := of_option (VObject <$> f v).
Definition rows_field (f : value -> option (obj value)) (v : value) : value := VArray (map VObject (read_rows f v)).

(** The type is required. *)
Definition toAgentEvent (v : value) : option (obj value) :=
  match v with
  | VObject o =>
      let type := asTrimmedString (prop "type" o) in
      if truthy type then Some [("type", type); ("trace_id", asTrimmedString (prop "trace_id" o)); ("data", prop "data" o)]
      else None
  | _ => None
  end.

Definition normalizeAgentEvents : value -> list (obj value) := read_rows toAgentEvent.

Definition history_columns : columns :=
  [("ts_unix_ms", orZero); ("prompt", asTrimmedString); ("assistant_text", asText);
   ("events", rows_field toAgentEvent); ("ok", asOptionalBoolean); ("job_id", asTrimmedString);
   ("job_status", asTrimmedString); ("live", onlyTrue); ("trace_id", asTrimmedString); ("tools", asTrimmedString);
   ("yolo", pick is_boolean); ("host_policy", asTrimmedString); ("effective_automation_profile", asTrimmedString);
   ("automation_profile", asTrimmedString); ("model", asTrimmedString); ("base_url", asTrimmedString)].

Definition toHistoryEntry : value -> option (obj value) := to_row history_columns.
Definition normalizeHistoryEntries : value -> list (obj value) := read_rows toHistoryEntry.

Definition message_columns : columns :=
  [("role", asTrimmedString); ("content", asText); ("created_unix_ms", asFiniteNumber);
   ("content_truncated", asOptionalBoolean); ("mm_json", asText); ("mm_bytes", asFiniteNumber)].

Definition toDbMessageRow : value -> option (obj value) := to_row message_columns.
Definition normalizeDbMessageRows : value -> list (obj value) := read_rows toDbMessageRow.

Definition run_columns : columns :=
  [("run_id", asFiniteNumber); ("id", asFiniteNumber); ("ts_unix_ms", asFiniteNumber); ("ok", asOptionalBoolean);
   ("error", asText)].

Definition toDbRunSummaryRow : value -> option (obj value) := to_row run_columns.
Definition normalizeDbRunSummaryRows : value -> list (obj value) := read_rows toDbRunSummaryRow.

Definition getDbRunNumericId (row : obj value) : option number :=
  match as_finite (prop "run_id" row) with Some x => Some x | None => as_finite (prop "id" row) end.

Definition tool_columns : columns :=
  [("tool_name", asTrimmedString); ("arguments_json", asText); ("result_text", asText);
   ("result_for_prompt_text", asText); ("result_truncated_for_prompt", asOptionalBoolean);
   ("ts_unix_ms", asFiniteNumber); ("created_unix_ms", asFiniteNumber); ("updated_unix_ms", asFiniteNumber)].

Definition toDbToolRecordRow : value -> option (obj value) := to_row tool_columns.

Definition detail_columns : columns :=
  [("ok", isTrue); ("run", row_field toDbRunSummaryRow); ("tool_records", rows_field toDbToolRecordRow)].

Definition normalizeDbRunDetailRow : value -> option (obj value) := to_row detail_columns.

Section json.
Context {J : Json}.

Definition parseUnknownRecordJson (v : value) : value :=
  match v with
  | VString s =>
      if truthy_str (trim s) then
        match parse (trim s) with Some (VObject o) => VObject o | _ => VUndefined end
      else VUndefined
  | _ => VUndefined
  end.

(** A record given as such, or as text. *)
Definition record_or_text (v text : value) : value := if is_record v then v else parseUnknownRecordJson text.

Definition action_columns : columns :=
  [("id", asFiniteNumber); ("run_id", asFiniteNumber); ("ts_unix_ms", asFiniteNumber);
   ("tool_call_id", asTrimmedString); ("type", asTrimmedString); ("title", asTrimmedString); ("message", asText);
   ("path", asTrimmedString); ("mime", asTrimmedString); ("repeat", asFiniteNumber); ("autoplay", asOptionalBoolean)].

(** The columns, and a record that may be given as text under a second key. *)
Definition record_row (cols : columns) (k text : string) (v : value) : option (obj value) :=
  match v with
  | VObject o =>
      Some (read_row cols o ++ [(k, record_or_text (prop k o) (prop text o)); (text, asText (prop text o))])
  | _ => None
  end.

Definition toDbUiActionRow : value -> option (obj value) := record_row action_columns "action" "action_json".

Definition normalizeDbUiActionRows : value -> list (obj value) := read_rows toDbUiActionRow.

Definition client_columns : columns :=
  [("id", asFiniteNumber); ("ts_unix_ms", asFiniteNumber); ("type", asTrimmedString)].

Definition toDbClientEventRow : value -> option (obj value) := record_row client_columns "data" "data_json".

Definition normalizeDbClientEventRows : value -> list (obj value) := read_rows toDbClientEventRow.

Definition toSessionArtifactRow (v : value) : option (obj value) :=
  match v with
  | VObject row =>
      let nestedData := safeObject (prop "data" row) in
      let artifact := prop "artifact" nestedData ??? prop "artifact" row ??? VObject row in
      let artifactRecord := safeObject artifact in
      Some [("artifact", artifact); ("path", asTrimmedString (prop "path" artifactRecord));
            ("resolved_path", asTrimmedString (prop "resolved_path" artifactRecord));
            ("tool_call_id", asTrimmedString (prop "tool_call_id" nestedData)
                             ??? asTrimmedString (prop "tool_call_id" row)
                             ??? asTrimmedString (prop "tool_call_id" artifactRecord));
            ("kind", asTrimmedString (prop "kind" artifactRecord) ??? asTrimmedString (prop "kind" row));
            ("title", asTrimmedString (prop "title" artifactRecord) ??? asTrimmedString (prop "title" row))]
  | _ => None
  end.

Definition normalizeSessionArtifactRows : value -> list (obj value) := read_rows toSessionArtifactRow.

(** [cmd] and [argv]; [None] is [null]. *)
Definition parseToolArgumentsJson (raw : string) : option (value * option (list string)) :=
  if negb (truthy_str (trim raw)) then None
  else match parse (trim raw) with
       | Some (VObject parsed) =>
           let argv := match prop "argv" parsed with
                       | VArray l => List.filter truthy_str (map (fun v => default "" (as_string v)) l)
                       | _ => []
                       end in
           Some (asTrimmedString (prop "cmd" parsed), match argv with [] => None | _ => Some argv end)
       | _ => None
       end.
End json.

(** ** The scene *)

Definition toSceneEntity (v : value) (fallbackId : string) : option (obj value) :=
  match v with
  | VObject o =>
      let id := asTrimmedString (prop "id" o) ??? asTrimmedString (VString fallbackId) in
      let kind := asTrimmedString (prop "kind" o) in
      if negb (truthy id) || negb (truthy kind) then None
      else Some [("id", id); ("kind", kind); ("title", asTrimmedString (prop "title" o));
                 ("props", pick is_record (prop "props" o)); ("created_ms", asFiniteNumber (prop "created_ms" o));
                 ("updated_ms", asFiniteNumber (prop "updated_ms" o))]
  | _ => None
  end.

Definition scene_entry (next : obj (obj value)) (p : string * value) : obj (obj value) :=
  match toSceneEntity (snd p) (fst p) with
  | Some entity => set (v_to_string (prop "id" entity)) entity next
  | None => next
  end.

Definition normalizeSceneEntityStore (v : value) : obj (obj value) :=
  match v with VObject o => fold_left scene_entry o [] | _ => [] end.

Definition normalizeSessionSceneSnapshot (v : value) : option (value * obj (obj value)) :=
  match v with
  | VObject o =>
      if bool_decide (prop "ok" o = VBool true)
      then Some (asFiniteNumber (prop "updated_unix_ms" o), normalizeSceneEntityStore (prop "scene" o)) else None
  | _ => None
  end.

(** ** The conversation *)

Inductive Entry :=
  | Message (message : obj value)
  | ToolRecord (run : obj value) (runId : option number) (details : obj value) (toolRecord : value).

Record Item := mkItem { item_ts : number; entry : Entry }.

(** [typeof row.k === "number" ? row.k : 0]. *)
Definition row_ts (k : string) (row : obj value) : number := default (int 0) (as_number (prop k row)).

Definition message_item (message : obj value) : option Item :=
  let ts := row_ts "created_unix_ms" message in
  if num_truthy ts then Some (mkItem ts (Message message)) else None.

(** Rows are typed, so the last operand is reached without a number before. *)
Definition tool_ts (ts : number) (idx : nat) (toolRecord : value) : number :=
  default NaN (as_number
    (vprop "ts_unix_ms" toolRecord |||| vprop "created_unix_ms" toolRecord |||| vprop "updated_unix_ms" toolRecord
     |||| VNumber (add (add ts (int (Z.of_nat idx))) (int 1)))).

Definition run_details (dbRunDetailsById : obj (obj value)) (run : obj value) : option (obj value) :=
  id ← getDbRunNumericId run; get (num_to_string id) dbRunDetailsById.

Definition run_items (dbRunDetailsById : obj (obj value)) (run : obj value) : list Item :=
  let ts := row_ts "ts_unix_ms" run in
  if negb (num_truthy ts) then []
  else match run_details dbRunDetailsById run with
       | None => []
       | Some details =>
           imap (fun idx toolRecord => mkItem (tool_ts ts idx toolRecord)
                   (ToolRecord run (getDbRunNumericId run) details toolRecord))
             (default [] (as_array (prop "tool_records" details)))
       end.

(** The items before they are sorted. *)
Definition unsorted_items (dbMessages dbRuns : list (obj value)) (dbRunDetailsById : obj (obj value)) : list Item :=
  omap message_item dbMessages ++ concat (map (run_items dbRunDetailsById) dbRuns).

(** [a.ts - b.ts], positive. *)
Definition item_gt (x y : Item) : bool := gtb (sub (item_ts x) (item_ts y)) (int 0).

Definition buildPersistedConversationItems (dbMessages dbRuns : list (obj value))
    (dbRunDetailsById : obj (obj value)) : list Item :=
  sort_by item_gt (unsorted_items dbMessages dbRuns dbRunDetailsById).

(** [row.k || 0], for the best row so far. *)
Definition best_ts (k : string) (row : obj value) : number :=
  default NaN (as_number (prop k row |||| VNumber (int 0))).

Definition later (k : string) (best : option (obj value)) (row : obj value) : option (obj value) :=
  match best with
  | None => Some row
  | Some b => if geb (row_ts k row) (best_ts k b) then Some row else best
  end.

Definition is_assistant (message : obj value) : bool := bool_decide (prop "role" message = VString "assistant").

Definition findLastAssistantMessage (messages : list (obj value)) : option (obj value) :=
  fold_left (fun last message => if is_assistant message then later "created_unix_ms" last message else last) messages None.

Definition findLastRun (runs : list (obj value)) : option (obj value) := fold_left (later "ts_unix_ms") runs None.

(** ** The declared types *)

Definition AgentEvent : list (string * ts_type) :=
  [("type", TString); ("trace_id", TOptional TString); ("data", TUnknown)].

Definition HistoryEntry : list (string * ts_type) :=
  [("ts_unix_ms", TNumber); ("prompt", TOptional TString); ("assistant_text", TOptional TString);
   ("events", TArray); ("ok", TOptional TBoolean); ("job_id", TOptional TString); ("job_status", TOptional TString);
   ("live", TOptional TBoolean); ("trace_id", TOptional TString); ("tools", TOptional TString);
   ("yolo", TOptional TBoolean); ("host_policy", TOptional TString);
   ("effective_automation_profile", TOptional TString); ("automation_profile", TOptional TString);
   ("model", TOptional TString); ("base_url", TOptional TString)].

Definition DbMessageRow : list (string * ts_type) :=
  [("role", TOptional TString); ("content", TOptional TString); ("created_unix_ms", TOptional TNumber);
   ("content_truncated", TOptional TBoolean); ("mm_json", TOptional TString); ("mm_bytes", TOptional TNumber)].

Definition DbRunSummaryRow : list (string * ts_type) :=
  [("run_id", TOptional TNumber); ("id", TOptional TNumber); ("ts_unix_ms", TOptional TNumber);
   ("ok", TOptional TBoolean); ("error", TOptional TString)].

Definition DbToolRecordRow : list (string * ts_type) :=
  [("tool_name", TOptional TString); ("arguments_json", TOptional TString); ("result_text", TOptional TString);
   ("result_for_prompt_text", TOptional TString); ("result_truncated_for_prompt", TOptional TBoolean);
   ("ts_unix_ms", TOptional TNumber); ("created_unix_ms", TOptional TNumber); ("updated_unix_ms", TOptional TNumber)].

Definition DbRunDetailRow : list (string * ts_type) :=
  [("ok", TBoolean); ("run", TOptional TObject); ("tool_records", TArray)].

Definition DbUiActionRow : list (string * ts_type) :=
  [("id", TOptional TNumber); ("run_id", TOptional TNumber); ("ts_unix_ms", TOptional TNumber);
   ("tool_call_id", TOptional TString); ("type", TOptional TString); ("title", TOptional TString);
   ("message", TOptional TString); ("path", TOptional TString); ("mime", TOptional TString);
   ("repeat", TOptional TNumber); ("autoplay", TOptional TBoolean); ("action", TOptional TObject);
   ("action_json", TOptional TString)].

Definition DbClientEventRow : list (string * ts_type) :=
  [("id", TOptional TNumber); ("ts_unix_ms", TOptional TNumber); ("type", TOptional TString);
   ("data", TOptional TObject); ("data_json", TOptional TString)].

(** ** Rows have their types and are read back *)

(** A reader that gives a type and leaves its own values alone. *)
Definition column_ok (r : value -> value) (t : ts_type) : Prop := forall v, has_type t (r v) = true /\ r (r v) = r v.

(** A normalizer of rows of a type. *)
Definition reads_as (T : list (string * ts_type)) (f : value -> option (obj value)) : Prop :=
  forall v o, f v = Some o -> keys o = map fst T /\ Forall (field_typed o) T /\ f (VObject o) = Some o.

Create HintDb history.

Lemma trimmed_ok : column_ok asTrimmedString (TOptional TString).
Proof.
  intros v. destruct v; try (by split). cbn [asTrimmedString]. destruct (truthy_str (trim s)) eqn:E; [|by split].
  split; [done|]. cbn [asTrimmedString]. by rewrite trim_idem, E.
Qed.

Lemma text_ok : column_ok asText (TOptional TString).
Proof. intros v. by destruct v. Qed.

Lemma number_ok : column_ok asFiniteNumber (TOptional TNumber).
Proof.
  assert (H : forall x, has_type (TOptional TNumber) (if is_finite x then VNumber x else VUndefined) = true
    /\ asFiniteNumber (if is_finite x then VNumber x else VUndefined) = if is_finite x then VNumber x else VUndefined).
  { intros x. destruct (is_finite x) eqn:E; [|by split]. split; [done|]. cbn [asFiniteNumber]. by rewrite E. }
  intros v. destruct v; try (by split); cbn [asFiniteNumber]; [apply H|].
  destruct (truthy_str (trim s)); [apply H|by split].
Qed.

Lemma flag_ok : column_ok asOptionalBoolean (TOptional TBoolean).
Proof.
  intros v. destruct v; try (by split). cbn [asOptionalBoolean].
  destruct (truthy_str (to_lower (trim s))); [|by split]. cbn [negb]. repeat case_bool_decide; by split.
Qed.

Lemma only_true_ok : column_ok onlyTrue (TOptional TBoolean).
Proof.
  intros v. unfold onlyTrue. destruct (bool_decide_reflect (v = VBool true)); [|by split].
  split; [done|]. by rewrite bool_decide_true.
Qed.

Lemma is_true_ok : column_ok isTrue TBoolean.
Proof. intros v. unfold isTrue. split; [done|]. by destruct (bool_decide (v = VBool true)). Qed.

Lemma or_zero_ok : column_ok orZero TNumber.
Proof.
  intros v. unfold orZero. destruct (number_ok v) as [Ht Hi].
  destruct (asFiniteNumber v) eqn:E; try done. cbn [coalesce nullish]. split; [done|]. by rewrite Hi.
Qed.

Lemma boolean_ok : column_ok (pick is_boolean) (TOptional TBoolean).
Proof. intros v. by destruct v. Qed.

#[export] Hint Resolve trimmed_ok text_ok number_ok flag_ok only_true_ok is_true_ok or_zero_ok boolean_ok : history.

Lemma read_rows_back T f v : reads_as T f -> read_rows f (VArray (map VObject (read_rows f v))) = read_rows f v.
Proof.
  intros Hf. destruct v as [| | | | |l|]; try done. cbn [read_rows].
  induction l as [|v l IH]; [done|]. cbn [omap list_omap]. destruct (f v) as [o|] eqn:E; [|exact IH].
  cbn [map]. cbn [omap list_omap]. destruct (Hf v o E) as (_ & _ & ->). by f_equal.
Qed.

Lemma rows_field_ok T f : reads_as T f -> column_ok (rows_field f) TArray.
Proof. intros Hf v. split; [done|]. unfold rows_field. by rewrite (read_rows_back T f v Hf). Qed.

Lemma row_field_ok T f : reads_as T f -> f VUndefined = None -> column_ok (row_field f) (TOptional TObject).
Proof.
  intros Hf Hu v. unfold row_field. destruct (f v) as [o|] eqn:E.
  - split; [done|]. change (of_option (VObject <$> Some o)) with (VObject o). by destruct (Hf v o E) as (_ & _ & ->).
  - split; [done|]. change (of_option (VObject <$> None)) with VUndefined. by rewrite Hu.
Qed.

(** Columns and types side by side. *)
Definition columns_ok (cols : columns) (T : list (string * ts_type)) : Prop :=
  Forall2 (fun c f => fst c = fst f /\ column_ok (snd c) (snd f)) cols T.

Lemma columns_keys cols T : columns_ok cols T -> map fst cols = map fst T.
Proof. induction 1 as [|c f cols T [Hc _] _ IH]; [done|]. cbn [map]. by rewrite Hc, IH. Qed.

Lemma keys_read_row cols o : keys (read_row cols o) = map fst cols.
Proof. unfold keys, read_row. by rewrite map_map. Qed.

Lemma get_read_row cols o k r : NoDup (map fst cols) -> (k, r) ∈ cols -> get k (read_row cols o) = Some (r (prop k o)).
Proof.
  intros Hnd Hin. apply wf_get; [unfold wf; by rewrite keys_read_row|].
  by apply (list_elem_of_fmap_2 (fun c : string * (value -> value) => (fst c, snd c (prop (fst c) o)))) in Hin.
Qed.

Lemma read_row_ext cols o o' : (forall k r, (k, r) ∈ cols -> r (prop k o) = r (prop k o')) -> read_row cols o = read_row cols o'.
Proof.
  intros H. apply map_ext_in. intros [k r] Hin%list_elem_of_In. cbn [fst snd]. by rewrite (H k r).
Qed.

Lemma column_in cols T k r : columns_ok cols T -> (k, r) ∈ cols -> exists t, column_ok r t.
Proof.
  intros H Hin. apply list_elem_of_lookup in Hin as [i Hi].
  destruct (Forall2_lookup_l _ _ _ _ _ H Hi) as ([k' t] & _ & _ & Ht). by exists t.
Qed.

Lemma type_in cols T k t : columns_ok cols T -> (k, t) ∈ T -> exists r, (k, r) ∈ cols /\ column_ok r t.
Proof.
  intros H Hin. apply list_elem_of_lookup in Hin as [i Hi].
  destruct (Forall2_lookup_r _ _ _ _ _ H Hi) as ([k' r] & Hc & Hk & Ht). cbn in Hk. subst k'.
  exists r. split; [by eapply list_elem_of_lookup_2|done].
Qed.

Lemma get_app_l {V} k (o o' : obj V) v : get k o = Some v -> get k (o ++ o') = Some v.
Proof.
  induction o as [|[j w] o IH]; [done|]. cbn [get app]. by case_bool_decide.
Qed.

(** A row followed by more fields. *)
Lemma read_row_app cols T o more :
  NoDup (map fst T) -> columns_ok cols T ->
  let o' := read_row cols o ++ more in
  Forall (field_typed o') T /\ read_row cols o' = read_row cols o.
Proof.
  intros Hnd Hok. cbn zeta. pose proof (columns_keys _ _ Hok) as Hkeys. rewrite <- Hkeys in Hnd.
  assert (Hp : forall k r, (k, r) ∈ cols -> prop k (read_row cols o ++ more) = r (prop k o)).
  { intros k r Hin. pose proof (get_read_row cols o k r Hnd Hin) as Hg. unfold prop at 1.
    by rewrite (get_app_l k (read_row cols o) more _ Hg). }
  split.
  - apply Forall_forall. intros [k t] Hin. destruct (type_in _ _ _ _ Hok Hin) as (r & Hr & Hc).
    unfold field_typed. cbn [fst snd]. rewrite (Hp k r Hr). apply Hc.
  - apply read_row_ext. intros k r Hin. rewrite (Hp k r Hin). destruct (column_in _ _ _ _ Hok Hin) as [t Hc]. apply Hc.
Qed.

Lemma to_row_ok cols T : NoDup (map fst T) -> columns_ok cols T -> reads_as T (to_row cols).
Proof.
  intros Hnd Hok v o Ho. destruct v as [| | | | | |o0]; try done. injection Ho as <-.
  destruct (read_row_app cols T o0 [] Hnd Hok) as [H1 H2]. rewrite app_nil_r in H1, H2.
  split_and!; [by rewrite keys_read_row, (columns_keys _ _ Hok)|done|]. cbn [to_row]. by rewrite H2.
Qed.

Section texts.
Context {J : Json}.

Lemma record_or_text_ok v t :
  has_type (TOptional TObject) (record_or_text v t) = true
  /\ record_or_text (record_or_text v t) (asText t) = record_or_text v t.
Proof.
  unfold record_or_text. destruct (is_record v) eqn:Ev.
  { rewrite Ev. split; [|done]. by destruct v. }
  assert (H : parseUnknownRecordJson t = VUndefined \/ is_record (parseUnknownRecordJson t) = true).
  { unfold parseUnknownRecordJson. destruct t; try (by left). destruct (truthy_str (trim s)); [|by left].
    destruct (parse (trim s)) as [[]|]; try (by left). by right. }
  destruct H as [H|H].
  - rewrite H. split; [done|]. cbn [is_record]. destruct t; try done.
  - rewrite H. split; [|done]. by destruct (parseUnknownRecordJson t).
Qed.

Lemma record_row_ok cols T k text :
  NoDup (map fst T ++ [k; text]) -> columns_ok cols T ->
  reads_as (T ++ [(k, TOptional TObject); (text, TOptional TString)]) (record_row cols k text).
Proof.
  intros Hnd Hok v o Ho. destruct v as [| | | | | |o0]; try done. injection Ho as <-.
  set (v := record_or_text (prop k o0) (prop text o0)). set (t := asText (prop text o0)).
  apply NoDup_app in Hnd as (Hnd & Hdis & Hkt).
  destruct (read_row_app cols T o0 [(k, v); (text, t)] Hnd Hok) as [H1 H2].
  set (o := read_row cols o0 ++ [(k, v); (text, t)]) in *.
  assert (Hkeys : keys o = map fst T ++ [k; text]).
  { unfold o, keys. rewrite map_app. change (map fst (read_row cols o0)) with (keys (read_row cols o0)).
    by rewrite keys_read_row, (columns_keys _ _ Hok). }
  assert (Hw : wf o) by (unfold wf; rewrite Hkeys; by apply NoDup_app).
  assert (Hk : prop k o = v).
  { unfold prop. rewrite (wf_get k v o Hw); [done|]. apply elem_of_app. right. by left. }
  assert (Ht : prop text o = t).
  { unfold prop. rewrite (wf_get text t o Hw); [done|]. apply elem_of_app. right. right. by left. }
  split_and!.
  - by rewrite Hkeys, map_app.
  - apply Forall_app. split; [exact H1|]. repeat (apply List.Forall_cons); [| |constructor]; unfold field_typed; cbn [fst snd].
    + rewrite Hk. apply record_or_text_ok.
    + rewrite Ht. apply text_ok.
  - cbn [record_row]. rewrite H2, Hk, Ht. unfold v, t. rewrite (proj2 (record_or_text_ok _ _)), (proj2 (text_ok _)). done.
Qed.
End texts.

Lemma event_ok : reads_as AgentEvent toAgentEvent.
Proof.
  intros v e He. destruct v as [| | | | | |o]; try done. cbn [toAgentEvent] in He.
  destruct (trimmed_ok (prop "type" o)) as [_ Hi], (trimmed_ok (prop "trace_id" o)) as [Ht2 Hi2].
  destruct (asTrimmedString (prop "type" o)) as [| | | |s| |] eqn:E; try done;
    (destruct (truthy _) eqn:Etr in He; [|done]); injection He as <-;
    try (unfold asTrimmedString in E; by destruct (prop "type" o); try done; destruct (truthy_str _)).
  split_and!; [done| |].
  - repeat (apply List.Forall_cons); [done|exact Ht2|done|constructor].
  - match goal with |- toAgentEvent (VObject ?l) = _ => set (e := l) end. cbn [toAgentEvent].
    assert (prop "type" e = VString s) as -> by done.
    assert (prop "trace_id" e = asTrimmedString (prop "trace_id" o)) as -> by done.
    assert (prop "data" e = prop "data" o) as -> by done.
    rewrite Hi, Hi2. by rewrite Etr.
Qed.

(** Columns against the fields of a type, one by one. *)
Ltac match_columns :=
  apply to_row_ok || apply record_row_ok; [by_compute|];
  repeat (apply List.Forall2_cons; [split; [reflexivity|solve [auto with history]]|]); apply List.Forall2_nil.

Lemma run_ok : reads_as DbRunSummaryRow toDbRunSummaryRow.
Proof. match_columns. Qed.

Lemma tool_ok : reads_as DbToolRecordRow toDbToolRecordRow.
Proof. match_columns. Qed.

Lemma events_field_ok : column_ok (rows_field toAgentEvent) TArray.
Proof. eapply rows_field_ok, event_ok. Qed.

Lemma run_field_ok : column_ok (row_field toDbRunSummaryRow) (TOptional TObject).
Proof. apply (row_field_ok DbRunSummaryRow); [apply run_ok|done]. Qed.

Lemma tools_field_ok : column_ok (rows_field toDbToolRecordRow) TArray.
Proof. eapply rows_field_ok, tool_ok. Qed.

#[export] Hint Resolve events_field_ok run_field_ok tools_field_ok : history.

Lemma history_ok : reads_as HistoryEntry toHistoryEntry.
Proof. match_columns. Qed.

Lemma message_ok : reads_as DbMessageRow toDbMessageRow.
Proof. match_columns. Qed.

Lemma detail_ok : reads_as DbRunDetailRow normalizeDbRunDetailRow.
Proof. match_columns. Qed.

Lemma action_ok {J : Json} : reads_as DbUiActionRow toDbUiActionRow.
Proof.
  apply (record_row_ok action_columns (take 11 DbUiActionRow)); [by_compute|].
  repeat (apply List.Forall2_cons; [split; [reflexivity|solve [auto with history]]|]); apply List.Forall2_nil.
Qed.

Lemma client_ok {J : Json} : reads_as DbClientEventRow toDbClientEventRow.
Proof.
  apply (record_row_ok client_columns (take 3 DbClientEventRow)); [by_compute|].
  repeat (apply List.Forall2_cons; [split; [reflexivity|solve [auto with history]]|]); apply List.Forall2_nil.
Qed.

(** ** The scene store *)

Definition entity_ok (p : string * obj value) : Prop :=
  trim (fst p) = fst p /\ fst p <> "" /\ prop "id" (snd p) = VString (fst p)
  /\ (exists kind, prop "kind" (snd p) = VString kind /\ trim kind = kind /\ kind <> "")
  /\ forall fallback, toSceneEntity (VObject (snd p)) fallback = Some (snd p).

Definition store_value (store : obj (obj value)) : value := VObject (map (fun p => (fst p, VObject (snd p))) store).

Lemma trimmed_some v s : asTrimmedString v = VString s -> trim s = s /\ s <> "".
Proof.
  unfold asTrimmedString. destruct v as [| | | |t| |]; try done. destruct (truthy_str (trim t)) eqn:E; [|done].
  intros [= <-]. split; [apply trim_idem|by apply truthy_str_true].
Qed.

Lemma trimmed_cases v : asTrimmedString v = VUndefined \/ exists s, asTrimmedString v = VString s.
Proof. unfold asTrimmedString. destruct v; try (by left). destruct (truthy_str _); [right; eauto|by left]. Qed.

Lemma entity_read v fallback e :
  toSceneEntity v fallback = Some e -> exists s, prop "id" e = VString s /\ entity_ok (s, e).
Proof.
  intros H. destruct v as [| | | | | |o]; try done. cbn [toSceneEntity] in H.
  set (id := asTrimmedString (prop "id" o) ??? asTrimmedString (VString fallback)) in H.
  assert (Hid : id = VUndefined \/ exists s, id = VString s /\ trim s = s /\ s <> "").
  { unfold id. destruct (trimmed_cases (prop "id" o)) as [->|[s E]].
    - cbn [coalesce nullish]. destruct (trimmed_cases (VString fallback)) as [E|[s E]]; rewrite E; [by left|right].
      exists s. split; [done|by apply trimmed_some in E].
    - rewrite E. right. exists s. split; [done|by apply trimmed_some in E]. }
  destruct Hid as [Hu|(s & Hs & Hs1 & Hs2)]; [by rewrite Hu in H|]. rewrite Hs in H.
  destruct (trimmed_cases (prop "kind" o)) as [E|[kind E]]; rewrite E in H.
  { by rewrite orb_true_r in H. }
  pose proof (trimmed_some _ _ E) as [Hk1 Hk2]. cbn [truthy] in H.
  rewrite (proj2 (truthy_str_true s)), (proj2 (truthy_str_true kind)) in H by done. cbn [negb orb] in H.
  injection H as He.
  assert (P1 : prop "id" e = VString s) by (by subst e). assert (P2 : prop "kind" e = VString kind) by (by subst e).
  assert (P3 : prop "title" e = asTrimmedString (prop "title" o)) by (by subst e).
  assert (P4 : prop "props" e = pick is_record (prop "props" o)) by (by subst e).
  assert (P5 : prop "created_ms" e = asFiniteNumber (prop "created_ms" o)) by (by subst e).
  assert (P6 : prop "updated_ms" e = asFiniteNumber (prop "updated_ms" o)) by (by subst e).
  exists s. split; [done|]. split_and!; [done|done|done|by exists kind|]. intros fb. cbn [fst snd toSceneEntity].
  rewrite P1, P2, P3, P4, P5, P6. cbn [asTrimmedString coalesce nullish].
  rewrite Hs1, Hk1, (proj2 (truthy_str_true s)), (proj2 (truthy_str_true kind)) by done. cbn [coalesce nullish truthy].
  rewrite (proj2 (truthy_str_true s)), (proj2 (truthy_str_true kind)) by done. cbn [negb orb].
  rewrite (proj2 (trimmed_ok _)), pick_idem, !(proj2 (number_ok _)). by rewrite He.
Qed.

Lemma scene_store_ok v :
  let store := normalizeSceneEntityStore v in wf store /\ ordered store /\ Forall entity_ok store.
Proof.
  cbn zeta. destruct v as [| | | | | |o]; try (split_and!; [apply NoDup_nil_2|constructor|constructor]).
  cbn [normalizeSceneEntityStore].
  assert (H : forall m : obj (obj value), wf m /\ ordered m /\ Forall entity_ok m ->
    let m' := fold_left scene_entry o m in wf m' /\ ordered m' /\ Forall entity_ok m').
  2: { apply H. split_and!; [apply NoDup_nil_2|constructor|constructor]. }
  induction o as [|p o IH]; intros m Hm; [done|]. cbn [fold_left]. apply IH. unfold scene_entry.
  destruct (toSceneEntity (snd p) (fst p)) as [e|] eqn:E; [|done]. destruct Hm as (H1 & H2 & H3).
  destruct (entity_read _ _ _ E) as (s & Hs & Hok). rewrite Hs. cbn [v_to_string].
  split_and!; [by apply wf_set|by apply ordered_set|]. apply Forall_forall. intros q Hq.
  apply elem_of_set in Hq as [->|Hq]; [done| |done]. rewrite Forall_forall in H3. by apply H3.
Qed.

Lemma scene_store_back v :
  let store := normalizeSceneEntityStore v in normalizeSceneEntityStore (store_value store) = store.
Proof.
  cbn zeta. destruct (scene_store_ok v) as (Hwf & Hord & Hok).
  generalize dependent (normalizeSceneEntityStore v). intros m Hwf Hord Hok.
  rewrite <- (of_entries_ordered m) at 2 by done. unfold store_value, of_entries.
  cbn [normalizeSceneEntityStore]. clear Hwf Hord. generalize (@nil (string * obj value)).
  induction Hok as [|[k e] m (_ & _ & Hid & _ & He) Hok IH]; intros out; [done|]. cbn [map fold_left fst snd] in *.
  rewrite IH. f_equal. unfold scene_entry. cbn [fst snd]. by rewrite He, Hid.
Qed.

(** C40: the rows that the history readers make of any JSON are of their declared
    types, with exactly the declared fields, and reading a row again gives it
    back; so does the scene's store, whose entries are under their own
    identifiers, trimmed and not empty. *)
Theorem history_rows_typed {J : Json} :
  reads_as AgentEvent toAgentEvent /\ reads_as HistoryEntry toHistoryEntry
  /\ reads_as DbMessageRow toDbMessageRow /\ reads_as DbRunSummaryRow toDbRunSummaryRow
  /\ reads_as DbToolRecordRow toDbToolRecordRow /\ reads_as DbRunDetailRow normalizeDbRunDetailRow
  /\ reads_as DbUiActionRow toDbUiActionRow /\ reads_as DbClientEventRow toDbClientEventRow
  /\ forall v, let store := normalizeSceneEntityStore v in
       wf store /\ Forall entity_ok store /\ normalizeSceneEntityStore (store_value store) = store.
Proof.
  split_and!; [apply event_ok|apply history_ok|apply message_ok|apply run_ok|apply tool_ok|apply detail_ok
              |apply action_ok|apply client_ok|].
  intros v. cbn zeta. destruct (scene_store_ok v) as (H1 & _ & H3). split_and!; [done|done|apply scene_store_back].
Qed.

(** ** The conversation in order *)

Definition before_or_same (x y : Item) : Prop := leb (item_ts x) (item_ts y) = true.

Lemma sorted_items (l : list Item) :
  Forall (fun i => is_finite (item_ts i) = true) l ->
  StronglySorted before_or_same (sort_by item_gt l)
  /\ forall t, List.filter (fun i => bool_decide (item_ts i = t)) (sort_by item_gt l)
               = List.filter (fun i => bool_decide (item_ts i = t)) l.
Proof. apply (sort_by_number item_ts). Qed.

(** A row whose time is a finite number or missing, as rows are once read. *)
Definition timed (k : string) (row : obj value) : Prop :=
  prop k row = VUndefined \/ exists z, prop k row = VNumber (Fin z).

Lemma best_ts_timed k row : timed k row -> best_ts k row = row_ts k row /\ is_nan (row_ts k row) = false.
Proof.
  unfold best_ts, row_ts. intros [->|[z ->]]; [done|]. cbn [as_number default]. split; [|done].
  unfold v_or. cbn [truthy num_truthy]. destruct (Z.eqb_spec z 0) as [->|]; done.
Qed.

(** The latest of a list, the last of them where several are as late. *)
Definition latest (k : string) (l : list (obj value)) (m : obj value) : Prop :=
  exists l1 l2, l = l1 ++ m :: l2
    /\ Forall (fun x => leb (row_ts k x) (row_ts k m) = true) l1
    /\ Forall (fun x => ltb (row_ts k x) (row_ts k m) = true) l2.

Lemma fold_later k l :
  Forall (timed k) l ->
  match fold_left (later k) l None with None => l = [] | Some m => latest k l m end.
Proof.
  induction l as [|x l IH] using rev_ind; [done|]. intros [Hl Hx]%Forall_app. rewrite Forall_singleton in Hx.
  specialize (IH Hl). rewrite fold_left_app. cbn [fold_left].
  destruct (fold_left (later k) l None) as [m|]; cbn [later]; [|subst l; by exists [], []].
  destruct IH as (l1 & l2 & -> & H1 & H2).
  assert (Hm : timed k m) by (apply Forall_app in Hl as [_ Hl]; by apply Forall_cons in Hl as [? _]).
  destruct (best_ts_timed k m Hm) as [-> Nm]. destruct (best_ts_timed k x Hx) as [_ Nx].
  assert (Hl2 : Forall (fun y => is_nan (row_ts k y) = false) l2).
  { apply Forall_app in Hl as [_ Hl]. apply Forall_cons in Hl as [_ Hl]. eapply Forall_impl; [exact Hl|].
    intros y Hy. by apply best_ts_timed. }
  unfold geb. destruct (leb (row_ts k m) (row_ts k x)) eqn:E.
  - exists (l1 ++ m :: l2), []. split; [done|]. split; [|constructor]. apply Forall_app. split; [|constructor; [done|]].
    + eapply Forall_impl; [exact H1|]. intros y Hy. exact (leb_trans _ _ _ Hy E).
    + rewrite Forall_forall in H2, Hl2 |- *. intros y Hy. specialize (H2 y Hy).
      rewrite (ltb_negb_leb _ _ (Hl2 y Hy) Nm) in H2. apply negb_true_iff in H2.
      destruct (leb_total (row_ts k m) (row_ts k y)) as [H|H]; [done|by apply Hl2|congruence|exact (leb_trans _ _ _ H E)].
  - exists l1, (l2 ++ [x]). split; [by rewrite <- app_assoc|]. split; [done|]. apply Forall_app. split; [done|].
    apply Forall_singleton. rewrite ltb_negb_leb by done. by rewrite E.
Qed.

Lemma finite_number_timed v : asFiniteNumber v = VUndefined \/ exists z, asFiniteNumber v = VNumber (Fin z).
Proof.
  assert (H : forall x, (if is_finite x then VNumber x else VUndefined) = VUndefined
                        \/ exists z, (if is_finite x then VNumber x else VUndefined) = VNumber (Fin z)).
  { intros [| | |z]; [by left..|right; by exists z]. }
  destruct v; try (by left); cbn [asFiniteNumber]; [apply H|]. destruct (truthy_str _); [apply H|by left].
Qed.

Lemma read_rows_timed cols k v :
  NoDup (map fst cols) -> (k, asFiniteNumber) ∈ cols -> Forall (timed k) (read_rows (to_row cols) v).
Proof.
  intros Hnd Hin. apply Forall_forall. intros row Hrow. destruct v as [| | | | |l|]; try by apply not_elem_of_nil in Hrow.
  apply list_elem_of_omap in Hrow as (v & _ & Hv). destruct v as [| | | | | |o]; try done. injection Hv as <-.
  unfold timed. unfold prop. rewrite (get_read_row cols o k asFiniteNumber Hnd Hin). apply finite_number_timed.
Qed.

Lemma fold_assistant k (l : list (obj value)) best :
  fold_left (fun last m => if is_assistant m then later k last m else last) l best
  = fold_left (later k) (List.filter is_assistant l) best.
Proof. revert best. induction l as [|m l IH]; intros best; [done|]. cbn [fold_left List.filter]. by destruct (is_assistant m). Qed.

(** A tool record of a run, as in the witness. *)
Definition sample_details : obj (obj value) :=
  [("7", [("ok", VBool true); ("run", VUndefined);
          ("tool_records", VArray [VObject [("tool_name", VString "bash"); ("ts_unix_ms", VNumber (int 20))]])])].

Definition sample_messages : list (obj value) :=
  [[("role", VString "assistant"); ("created_unix_ms", VNumber (int 30))];
   [("role", VString "user"); ("created_unix_ms", VNumber (int 10))]; [("role", VString "user")]].

Definition sample_runs : list (obj value) := [[("run_id", VNumber (int 7)); ("ts_unix_ms", VNumber (int 15))]].

(** The conversation shows exactly the messages and tool records that have a
    time, in the order of their times, and those of the same time in the order
    in which they were loaded: messages, then the records run by run. *)
Theorem conversation_sorted (messages runs : list (obj value)) (byId : obj (obj value))
    (Hfin : Forall (fun i => is_finite (item_ts i) = true) (unsorted_items messages runs byId)) :
  let items := buildPersistedConversationItems messages runs byId in
  items ≡ₚ unsorted_items messages runs byId
  /\ StronglySorted before_or_same items
  /\ (forall t, List.filter (fun i => bool_decide (item_ts i = t)) items
                = List.filter (fun i => bool_decide (item_ts i = t)) (unsorted_items messages runs byId))
  /\ (forall m t, mkItem t (Message m) ∈ items
        <-> m ∈ messages /\ t = row_ts "created_unix_ms" m /\ num_truthy t = true).
Proof.
  cbn zeta. unfold buildPersistedConversationItems. destruct (sorted_items _ Hfin) as [Hs Hst].
  split_and!; [apply sort_by_perm|exact Hs|exact Hst|]. intros m t. rewrite elem_of_sort_by.
  unfold unsorted_items. rewrite elem_of_app, list_elem_of_omap. split.
  - intros [(m' & Hm & H)|H].
    + unfold message_item in H. destruct (num_truthy _) eqn:E in H; [|done]. by injection H as <- <-.
    + exfalso. apply list_elem_of_In, in_concat in H as (l & (run & <- & _)%in_map_iff & Hin%list_elem_of_In).
      unfold run_items in Hin. destruct (num_truthy _); [|by apply not_elem_of_nil in Hin].
      destruct (run_details byId run); [|by apply not_elem_of_nil in Hin].
      by apply elem_of_lookup_imap in Hin as (? & ? & ? & _).
  - intros (Hm & -> & Ht). left. exists m. split; [done|]. unfold message_item. by rewrite Ht.
Qed.

Lemma conversation_sorted_witness :
  map item_ts (buildPersistedConversationItems sample_messages sample_runs sample_details) = [int 10; int 20; int 30]
  /\ StronglySorted before_or_same (buildPersistedConversationItems sample_messages sample_runs sample_details).
Proof.
  assert (H : Forall (fun i => is_finite (item_ts i) = true) (unsorted_items sample_messages sample_runs sample_details))
    by by_compute.
  split; [by vm_compute|]. exact (proj1 (proj2 (conversation_sorted sample_messages sample_runs sample_details H))).
Defined.

(** The last assistant message is the latest of those loaded, and of several
    as late the last; there is none only when no message is the assistant's;
    and so for the last run. *)
Theorem last_found (rawMessages rawRuns : value) :
  match findLastAssistantMessage (normalizeDbMessageRows rawMessages) with
  | Some m => latest "created_unix_ms" (List.filter is_assistant (normalizeDbMessageRows rawMessages)) m
  | None => List.filter is_assistant (normalizeDbMessageRows rawMessages) = []
  end
  /\ match findLastRun (normalizeDbRunSummaryRows rawRuns) with
     | Some r => latest "ts_unix_ms" (normalizeDbRunSummaryRows rawRuns) r
     | None => normalizeDbRunSummaryRows rawRuns = []
     end.
Proof.
  split.
  - unfold findLastAssistantMessage. rewrite fold_assistant.
    pose proof (fold_later "created_unix_ms" (List.filter is_assistant (normalizeDbMessageRows rawMessages))) as H.
    destruct (fold_left _ _ None); apply H; apply Forall_filter, read_rows_timed;
      first [by_compute|repeat (apply list_elem_of_here || apply list_elem_of_further)].
  - unfold findLastRun.
    pose proof (fold_later "ts_unix_ms" (normalizeDbRunSummaryRows rawRuns)) as H.
    destruct (fold_left _ _ None); apply H; apply read_rows_timed;
      first [by_compute|repeat (apply list_elem_of_here || apply list_elem_of_further)].
Qed.
