(* ===== verification/Conversation.v ===== *)
(** What an agent asks the page to do (src/ui/src/components/conversation/
    conversationData.ts, utils.ts): reading the request for a client call,
    its operations on the scene, and what the conversation shows of tool
    calls. *)
From S2P Require Import Prelude JsNumber JsString JsValue JsOrder JsonUtils.

(** ** utils.ts *)

(** [clampInt(n, lo, hi, def)]; the limits are integers. *)
Definition clampInt (n : value) (lo hi def : Z) : number :=
  let v := v_to_number n in
  if negb (is_finite v) then int def else math_min (math_max (math_trunc v) (int lo)) (int hi).

(** The same as a count, for [slice(0, n)]. *)
Definition clampCount (n : value) (lo hi def : Z) : nat :=
  match clampInt n lo hi def with Fin k => Z.to_nat (k / scale) | _ => 0 end.

Definition SENSITIVE : list string :=
  ["secret"; "token"; "auth"; "apikey"; "api_key"; "password"; "passwd"; "session"; "cookie"].

Definition isSensitiveKey (k : string) : bool := existsb (fun p => includes p (to_lower k)) SENSITIVE.

(** ** Readers *)

Definition asTrimmedString (v : value) : string := match v with VString s => trim s | _ => "" end.

Definition asStringArray (v : value) : list string :=
  match v with
  | VArray l => List.filter truthy_str (map (fun item => default "" (as_string item)) l)
  | _ => []
  end.

Definition tstr (k : string) (o : obj value) : string := asTrimmedString (prop k o).
Definition record (k : string) (o : obj value) : obj value := safeObject (prop k o).

(** [s || undefined]. *)
Definition or_undefined (s : string) : option string := if truthy_str s then Some s else None.

Definition RPC_SIDE_EFFECT_KINDS : list string :=
  ["dom_click"; "dom_set_value"; "dom_apply"; "entity_apply"; "media_play"; "media_pause"; "media_observe";
   "navigate"; "open_url"; "page_eval"].

(** [v === true]. *)
Definition is_true (v : value) : bool := bool_decide (v = VBool true).

(** ** The requested call *)

Record ParsedConversationUiAction := mkParsed {
  raw : obj value; action : obj value; atype : string; title : string; toolCallId : string; queryId : string;
  rpc : obj value; rpcId : string; rpcKind : string; rpcArgs : obj value;
  sideEffectsRequested : bool; autoRunRequested : bool }.

Definition parseConversationUiAction (v : value) : ParsedConversationUiAction :=
  let raw := safeObject v in
  let action := record "action" raw in
  let atype := tstr "type" action in
  let toolCallId := tstr "tool_call_id" raw in
  let rpc := safeObject (prop "rpc" action ??? prop "probe" action) in
  let rpcKind := tstr "kind" rpc in
  {| raw := raw; action := action; atype := atype;
     title := str_or (tstr "title" action) (if truthy_str atype then "ui_action: " ++s atype else "ui_action");
     toolCallId := toolCallId;
     queryId := str_or (tstr "query_id" action) toolCallId;
     rpc := rpc;
     rpcId := str_or (tstr "rpc_id" action) (str_or (tstr "probe_id" action) toolCallId);
     rpcKind := rpcKind;
     rpcArgs := safeObject (prop "args" rpc ??? VObject rpc);
     sideEffectsRequested :=
       is_true (prop "side_effects" rpc) || is_true (prop "side_effects" action)
       || bool_decide (rpcKind ∈ RPC_SIDE_EFFECT_KINDS);
     autoRunRequested := default (default true (as_bool (prop "auto" action))) (as_bool (prop "auto_run" action)) |}.

Record ConversationUiActionRpcRequest := mkRequest {
  parsed : ParsedConversationUiAction; canRun : bool; canRunAuto : bool; autoRun : bool }.

(** [typeof sessionId === "string" ? sessionId.trim() : ""]. *)
Definition session_key (sessionId : option string) : string := trim (default "" sessionId).

Definition deriveConversationRpcRequest (v : value) (sessionId : option string)
    (allowClientRpcs allowClientEffects : bool) : ConversationUiActionRpcRequest :=
  let p := parseConversationUiAction v in
  let canRunAuto := allowClientRpcs && (negb (sideEffectsRequested p) || allowClientEffects) in
  {| parsed := p;
     canRun := truthy_str (rpcId p) && (0 <? String.length (session_key sessionId))%nat;
     canRunAuto := canRunAuto;
     autoRun := canRunAuto && autoRunRequested p |}.

(** ** Operations on the scene *)

Inductive SceneEntityMutationOp :=
  | OpCreate (id : option string) (entity_kind : string) (title : option string) (props : obj value)
  | OpUpdate (id : string) (props : obj value)
  | OpDelete (id : string)
  | OpRemove (id : string)
  | OpAction (id : string) (action : string) (args : obj value)
  | OpClear (color : option string).

Section ops.
Context {E : Ellipsis}.

(** The [flatMap] of the [ops] form: at most one operation per item. *)
Definition read_op (item : value) : option SceneEntityMutationOp :=
  let op := safeObject item in
  let kind := str_or (tstr "op" op) (tstr "kind" op) in
  let id := tstr "id" op in
  if bool_decide (kind = "create") then
    let entityKind := str_or (tstr "entity_kind" op) (tstr "entityKind" op) in
    if negb (truthy_str entityKind) then None
    else Some (OpCreate (or_undefined id) entityKind (or_undefined (tstr "title" op)) (record "props" op))
  else if bool_decide (kind = "update") then
    if negb (truthy_str id) then None else Some (OpUpdate id (record "props" op))
  else if bool_decide (kind = "delete") then
    if negb (truthy_str id) then None else Some (OpDelete id)
  else if bool_decide (kind = "remove") then
    if negb (truthy_str id) then None else Some (OpRemove id)
  else if bool_decide (kind = "action") then
    let action := tstr "action" op in
    if negb (truthy_str id) || negb (truthy_str action) then None
    else Some (OpAction id action (record "args" op))
  else if bool_decide (kind = "clear") then Some (OpClear (or_undefined (tstr "color" op)))
  else None.

(** One action of an entity of the [entities] form. *)
Definition entity_action (id : string) (v : value) : option SceneEntityMutationOp :=
  let action := safeObject v in
  let name := safeTrunc (str_or (tstr "name" action) (str_or (tstr "action" action) (tstr "kind" action))) 80 in
  if negb (truthy_str name) then None
  else Some (OpAction id name (safeObject (prop "args" action ??? VObject action))).

Definition kind_of_entity (e : obj value) : string :=
  safeTrunc (str_or (tstr "entity_kind" e) (str_or (tstr "entityKind" e) (str_or (tstr "type" e) (tstr "kind" e)))) 100.

(** [Array.isArray(o.actions) ? o.actions : []], its first 20. *)
Definition twenty_actions (o : obj value) : list value := take 20 (default [] (as_array (prop "actions" o))).

Definition entity_ops (v : value) : list SceneEntityMutationOp :=
  let entity := safeObject v in
  let id := safeTrunc (tstr "id" entity) 200 in
  let entityKind := kind_of_entity entity in
  if negb (truthy_str id) || negb (truthy_str entityKind) then []
  else
    OpCreate (Some id) entityKind (or_undefined (tstr "title" entity)) (safeObject (prop "props" entity ??? VObject entity))
    :: omap (entity_action id) (twenty_actions entity).

(** One action of the single form; the identifier is not tested. *)
Definition single_action (id : string) (v : value) : option SceneEntityMutationOp :=
  let action := safeObject v in
  let name := safeTrunc (str_or (tstr "name" action) (tstr "action" action)) 80 in
  if negb (truthy_str name) then None else Some (OpAction id name (record "args" action)).

Definition single_ops (args : obj value) : list SceneEntityMutationOp :=
  let id := safeTrunc (tstr "id" args) 200 in
  let entityKind := kind_of_entity args in
  let props := record "props" args in
  let title := str_or (safeTrunc (tstr "title" args) 200) (tstr "title" props) in
  let some_props := (0 <? length props)%nat in
  let singleAction := safeTrunc (tstr "action" args) 80 in
  (if truthy_str id && truthy_str entityKind && (some_props || truthy_str title) then
     [OpCreate (Some id) entityKind (or_undefined title) props]
   else if truthy_str id && some_props then [OpUpdate id props] else [])
  ++ omap (single_action id) (twenty_actions args)
  ++ (if truthy_str singleAction && truthy_str id then [OpAction id singleAction (record "args" args)] else [])
  ++ (if truthy_str id && (is_true (prop "delete" args) || is_true (prop "remove" args)) then [OpDelete id] else [])
  ++ (if is_true (prop "clear" args) then [OpClear None] else []).

Definition buildEntityApplyOps (v : value) : list SceneEntityMutationOp :=
  let args := safeObject v in
  match prop "ops" args with
  | VArray ops => omap read_op ops
  | _ =>
      match prop "entities" args with
      | VArray entities => mjoin (map entity_ops (take 50 entities))
      | _ => single_ops args
      end
  end.
End ops.

(** ** Payloads and previews *)

Section json.
Context {J : Json}.

(** [JSON.stringify(undefined)] is [undefined], whose [length] throws. *)
Definition capEventPayload (v : value) : value :=
  match v with
  | VUndefined => VObject [("kind", VString "unserializable")]
  | _ =>
      let serialized := stringify v in
      let len := Z.of_nat (String.length serialized) in
      if len <=? 32 * 1024 then v
      else VObject [("kind", VString "truncated"); ("bytes", VNumber (int len)); ("preview", VString (stake 2000 serialized))]
  end.

Definition extractToolCallArgumentsText (data : obj value) : string :=
  match prop "arguments_json" data with
  | VString s => s
  | _ =>
      if (0 <? length (record "arguments" data))%nat then stringify (prop "arguments" data)
      else if (0 <? length (record "args" data))%nat then stringify (prop "args" data)
      else ""
  end.

Inductive ConversationToolCallPreview := PreviewCmd (s : string) | PreviewArgv (s : string).

Definition buildToolCallPreviewFromArgs (toolName argsText : string) : option ConversationToolCallPreview :=
  let record := safeObject (if truthy_str argsText then safeJsonParse argsText else VNull) in
  if bool_decide (toolName = "shell_exec") then
    let cmd := tstr "cmd" record in if truthy_str cmd then Some (PreviewCmd cmd) else None
  else if bool_decide (toolName = "proc_exec") then
    let argv := join " " (asStringArray (prop "argv" record)) in if truthy_str argv then Some (PreviewArgv argv) else None
  else None.

Definition getNormalizedEventRecord (data : value) : obj value := safeObject (normalizeEventData data).

Record ToolCallSummary := mkSummary { cmd : option string; argv : option string }.

(** One event (its type and its data) of the loop. *)
Definition add_summary (summaries : obj ToolCallSummary) (event : string * value) : obj ToolCallSummary :=
  if negb (bool_decide (fst event = "tool_result")) then summaries
  else
    let data := getNormalizedEventRecord (snd event) in
    let toolCallId := tstr "tool_call_id" data in
    if negb (truthy_str toolCallId) then summaries
    else
      let summary := record "summary" data in
      if (length summary =? 0)%nat then summaries
      else
        let cmd := tstr "cmd" summary in
        let argv := join " " (asStringArray (prop "argv" summary)) in
        if truthy_str cmd || truthy_str argv then set toolCallId (mkSummary (or_undefined cmd) (or_undefined argv)) summaries
        else summaries.

Definition buildConversationToolCallSummaryById (events : list (string * value)) : obj ToolCallSummary :=
  fold_left add_summary events [].
End json.

(** ** The operations that are read *)

(** An operation names what it works on. *)
Definition usable (op : SceneEntityMutationOp) : Prop :=
  match op with
  | OpCreate id kind _ _ => kind <> "" /\ id <> Some ""
  | OpUpdate id _ | OpDelete id | OpRemove id => id <> ""
  | OpAction id action _ => id <> "" /\ action <> ""
  | OpClear _ => True
  end.

Definition trimmed (s : string) : Prop := trim s = s.
Definition trimmed_opt (o : option string) : Prop := match o with Some s => trimmed s /\ s <> "" | None => True end.

(** It is one that the [ops] form can ask for. *)
Definition readable (op : SceneEntityMutationOp) : Prop :=
  usable op /\
  match op with
  | OpCreate id kind title _ => trimmed_opt id /\ trimmed kind /\ trimmed_opt title
  | OpUpdate id _ | OpDelete id | OpRemove id => trimmed id
  | OpAction id action _ => trimmed id /\ trimmed action
  | OpClear color => trimmed_opt color
  end.

(** How a request writes an operation. *)
Definition opt_entry (k : string) (o : option string) : obj value :=
  match o with Some s => [(k, VString s)] | None => [] end.

Definition op_value (op : SceneEntityMutationOp) : value :=
  VObject match op with
  | OpCreate id kind title props =>
      [("op", VString "create")] ++ opt_entry "id" id ++ [("entity_kind", VString kind)]
      ++ opt_entry "title" title ++ [("props", VObject props)]
  | OpUpdate id props => [("op", VString "update"); ("id", VString id); ("props", VObject props)]
  | OpDelete id => [("op", VString "delete"); ("id", VString id)]
  | OpRemove id => [("op", VString "remove"); ("id", VString id)]
  | OpAction id action args =>
      [("op", VString "action"); ("id", VString id); ("action", VString action); ("args", VObject args)]
  | OpClear color => ("op", VString "clear") :: opt_entry "color" color
  end.

Lemma length_omap_le {A B} (f : A -> option B) l : (length (omap f l) <= length l)%nat.
Proof.
  induction l as [|x l IH]; [done|]. cbn [omap list_omap]. change (list_omap A B f l) with (omap f l).
  destruct (f x); cbn [length]; lia.
Qed.

Lemma length_mjoin_le {A B} (f : A -> list B) n l :
  (forall x, (length (f x) <= n)%nat) -> (length (mjoin (map f l)) <= length l * n)%nat.
Proof.
  intros Hf. induction l as [|x l IH]; [done|].
  change (mjoin (map f (x :: l))) with (f x ++ mjoin (map f l)). rewrite length_app. specialize (Hf x). simpl. lia.
Qed.

Lemma tstr_trimmed k o : trimmed (tstr k o).
Proof. unfold trimmed, tstr. destruct (prop k o); try done. apply trim_idem. Qed.

Lemma or_undefined_trimmed k o : trimmed_opt (or_undefined (tstr k o)).
Proof.
  unfold or_undefined. destruct (truthy_str (tstr k o)) eqn:Hs; [|done].
  split; [apply tstr_trimmed|by apply truthy_str_true].
Qed.

Lemma or_undefined_usable s : or_undefined s <> Some "".
Proof. unfold or_undefined. destruct (truthy_str s) eqn:H; [|done]. apply truthy_str_true in H. congruence. Qed.

Lemma or_undefined_opt o : trimmed_opt o -> or_undefined (default "" o) = o.
Proof. destruct o as [s|]; [|done]. intros [_ Hs]. unfold or_undefined. change (default "" (Some s)) with s. by rewrite (proj2 (truthy_str_true s)). Qed.

Lemma str_or_trimmed a b : trimmed a -> trimmed b -> trimmed (str_or a b).
Proof. unfold str_or. by case_match. Qed.

Lemma negb_truthy s : negb (truthy_str s) = false <-> s <> "".
Proof. by rewrite negb_false_iff, truthy_str_true. Qed.

Section ops_read.
Context {E : Ellipsis}.

Lemma read_op_readable item op : read_op item = Some op -> readable op.
Proof.
  unfold read_op. repeat (case_match; try done); intros [= <-];
    repeat match goal with
    | H : negb _ || negb _ = false |- _ => apply orb_false_iff in H as [? ?]
    | H : negb _ = false |- _ => apply negb_truthy in H
    end; split; cbn [usable];
    eauto using or_undefined_usable, or_undefined_trimmed, tstr_trimmed, str_or_trimmed.
Qed.

Lemma tstr_cons k k' v o :
  tstr k ((k', v) :: o) = if bool_decide (k = k') then asTrimmedString v else tstr k o.
Proof. unfold tstr. rewrite prop_cons. by case_match. Qed.

Lemma tstr_opt k k' o rest :
  trimmed_opt o -> k ∉ keys rest ->
  tstr k (opt_entry k' o ++ rest) = if bool_decide (k = k') then default "" o else tstr k rest.
Proof.
  intros Ho Hk. destruct o as [s|]; cbn [opt_entry app].
  - rewrite tstr_cons. case_bool_decide; [|done]. apply Ho.
  - case_bool_decide; [|done]. unfold tstr, prop. by rewrite (proj2 (get_none k rest) Hk).
Qed.

Lemma tstr_skip k k' o rest : k <> k' -> tstr k (opt_entry k' o ++ rest) = tstr k rest.
Proof. intros Hk. destruct o; [|done]. cbn [opt_entry app]. rewrite tstr_cons. by rewrite bool_decide_false. Qed.

Lemma record_skip k k' o rest : k <> k' -> record k (opt_entry k' o ++ rest) = record k rest.
Proof.
  intros Hk. destruct o; [|done]. unfold record. cbn [opt_entry app]. rewrite prop_cons. by rewrite bool_decide_false.
Qed.

Lemma read_create id kind title props :
  readable (OpCreate id kind title props) ->
  read_op (op_value (OpCreate id kind title props)) = Some (OpCreate id kind title props).
Proof.
  intros [[Hk _] (Hid & Hkt & Ht)]. unfold op_value. cbn [app].
  set (o := ("op", VString "create") :: _).
  assert (H1 : tstr "op" o = "create") by done.
  assert (H2 : tstr "id" o = default "" id).
  { unfold o. rewrite tstr_cons. cbn [bool_decide]. rewrite (tstr_opt "id" "id") by (done || (destruct title; by_compute)).
    done. }
  assert (H3 : tstr "entity_kind" o = kind).
  { unfold o. rewrite tstr_cons, bool_decide_false, tstr_skip, tstr_cons, bool_decide_true by done. exact Hkt. }
  assert (H4 : tstr "title" o = default "" title).
  { unfold o. rewrite tstr_cons, bool_decide_false, tstr_skip, tstr_cons, bool_decide_false by done.
    rewrite (tstr_opt "title" "title") by (done || by_compute). done. }
  assert (H5 : record "props" o = props).
  { unfold o, record. rewrite prop_cons, bool_decide_false by done. fold (record "props").
    change (safeObject (prop "props" ?l)) with (record "props" l). rewrite record_skip by done.
    unfold record. rewrite prop_cons, bool_decide_false by done.
    change (safeObject (prop "props" ?l)) with (record "props" l). rewrite record_skip by done. done. }
  clearbody o. unfold read_op. change (safeObject (VObject o)) with o. rewrite H1, H2, H3, H4, H5.
  change (str_or "create" _) with "create". rewrite bool_decide_true by done.
  unfold str_or at 1 2. rewrite (proj2 (truthy_str_true kind) Hk). cbn [negb]. rewrite (proj2 (truthy_str_true kind) Hk).
  cbn [negb]. by rewrite !or_undefined_opt.
Qed.

Lemma read_op_value op : readable op -> read_op (op_value op) = Some op.
Proof.
  intros H. destruct op as [id kind title props|id props|id|id|id action args|color]; [by apply read_create|..];
    destruct H as [Hu Hr]; unfold trimmed in *; cbn [usable] in *; unfold read_op.
  1-3: apply truthy_str_true in Hu; set (o := safeObject _); rewrite (Hr : tstr "id" o = id), Hu.
  - by change (str_or (tstr "op" o) _) with "update".
  - by change (str_or (tstr "op" o) _) with "delete".
  - by change (str_or (tstr "op" o) _) with "remove".
  - destruct Hr as [Hr Ha], Hu as [Hi Hu]. apply truthy_str_true in Hi, Hu. set (o := safeObject _).
    rewrite (Hr : tstr "id" o = id), Hi, (Ha : tstr "action" o = action), Hu.
    by change (str_or (tstr "op" o) _) with "action".
  - set (o := safeObject _). assert (Hc : tstr "color" o = default "" color).
    { destruct color; [apply Hr|done]. }
    rewrite Hc, or_undefined_opt by done. by change (str_or (tstr "op" o) _) with "clear".
Qed.
Lemma Forall_omap {A B} (P : B -> Prop) (f : A -> option B) l :
  (forall x y, f x = Some y -> P y) -> Forall P (omap f l).
Proof. intros Hf. apply Forall_forall. intros y (x & _ & Hx)%list_elem_of_omap. eauto. Qed.

Lemma omap_read_back ops : Forall readable ops -> omap read_op (map op_value ops) = ops.
Proof.
  induction 1 as [|op ops Hop _ IH]; [done|]. cbn [map omap list_omap]. rewrite read_op_value by done.
  by f_equal.
Qed.

(** What the entities form asks for. *)
Definition creates_or_acts (op : SceneEntityMutationOp) : Prop :=
  match op with OpCreate _ _ _ _ | OpAction _ _ _ => True | _ => False end.

Lemma truthy_trunc_usable s n : negb (truthy_str (safeTrunc s n)) = false -> safeTrunc s n <> "".
Proof. apply negb_truthy. Qed.

Lemma entity_ops_spec v :
  Forall (fun op => usable op /\ creates_or_acts op) (entity_ops v) /\ (length (entity_ops v) <= 21)%nat.
Proof.
  unfold entity_ops. case_match eqn:H; [split; [constructor|simpl; lia]|].
  apply orb_false_iff in H as [Hid%negb_truthy Hk%negb_truthy]. split.
  - constructor; [cbn [usable]; split; [|done]; split; [done|congruence]|]. apply Forall_omap. intros x op.
    unfold entity_action. case_match eqn:Hn; intros [= <-]. apply negb_truthy in Hn. done.
  - cbn [length]. pose proof (length_omap_le (entity_action (safeTrunc (tstr "id" (safeObject v)) 200)) (twenty_actions (safeObject v))).
    unfold twenty_actions in *. rewrite length_take in H. lia.
Qed.

Lemma entities_spec l :
  Forall (fun op => usable op /\ creates_or_acts op) (mjoin (map entity_ops (take 50 l)))
  /\ (length (mjoin (map entity_ops (take 50 l))) <= 50 * 21)%nat.
Proof.
  split.
  - apply Forall_forall. intros op (k & Hop & (e & -> & _)%list_elem_of_fmap)%list_elem_of_join.
    pose proof (proj1 (entity_ops_spec e)) as H. rewrite Forall_forall in H. by apply H.
  - etrans; [apply (length_mjoin_le entity_ops 21); intros; apply entity_ops_spec|].
    rewrite length_take. lia.
Qed.

(** An operation on the entity without a name, and clearing. *)
Definition nameless (op : SceneEntityMutationOp) : Prop :=
  match op with OpAction id _ _ => id = "" | OpClear _ => True | _ => False end.

Lemma single_ops_spec args :
  (length (single_ops args) <= 24)%nat
  /\ (tstr "id" args <> "" -> Forall usable (single_ops args))
  /\ (tstr "id" args = "" -> Forall nameless (single_ops args)).
Proof.
  unfold single_ops. set (id := safeTrunc (tstr "id" args) 200).
  pose proof (truthy_safeTrunc (tstr "id" args) 200 : truthy_str id = _) as Hid.
  pose proof (length_omap_le (single_action id) (twenty_actions args)) as Hl.
  assert (Ha : forall x op, single_action id x = Some op -> exists a o, op = OpAction id a o /\ a <> "").
  { intros x op. unfold single_action. case_match eqn:Hn; intros [= <-]. apply negb_truthy in Hn. eauto. }
  split; [|split].
  - unfold twenty_actions in *. rewrite length_take in Hl. rewrite !length_app.
    repeat case_match; cbn [length]; lia.
  - intros Hn%truthy_str_true. rewrite Hn in Hid. rewrite Hid. apply truthy_str_true in Hid.
    repeat (apply Forall_app; split); [| |repeat case_match; repeat constructor; cbn [usable]; auto..].
    + destruct (truthy_str (kind_of_entity args)) eqn:Hk; cbn [andb].
      * apply truthy_str_true in Hk. repeat case_match; repeat constructor; cbn [usable]; try done; congruence.
      * by repeat case_match; repeat constructor.
    + apply Forall_omap. intros x op (a & o & -> & Hx)%Ha. done.
    + match goal with H : truthy_str (safeTrunc (tstr "action" args) 80) && _ = true |- _ =>
        apply andb_split in H as [H _]; by apply truthy_str_true in H end.
  - intros Hn. rewrite Hn in Hid. cbn in Hid. rewrite Hid, andb_false_r. cbn [andb app].
    assert (Forall nameless (omap (single_action id) (twenty_actions args))).
    { apply Forall_omap. intros x op (a & o & -> & Hx)%Ha. cbn [nameless]. by apply truthy_str_false. }
    repeat (apply Forall_app; split); try done; by repeat case_match; repeat constructor.
Qed.
End ops_read.

(** What is asked of the scene.  A list of operations yields at most as many
    operations, each naming what it works on by trimmed names, and every list
    of such operations can be asked for: written as a request it is read back
    as it is.  A list of entities yields at most 50 entities with 20 actions
    each, all named, and never removes or clears anything.  A single entity
    yields at most 24 operations, all named if the entity is; if it is not,
    nothing is created, changed or removed, but its actions are kept, addressed
    to the empty name. *)
Theorem scene_ops_read {E : Ellipsis} (v : value) :
  let args := safeObject v in
  let ops := buildEntityApplyOps v in
  (forall l, prop "ops" args = VArray l -> Forall readable ops /\ (length ops <= length l)%nat)
  /\ (forall l, as_array (prop "ops" args) = None -> prop "entities" args = VArray l ->
       Forall (fun op => usable op /\ creates_or_acts op) ops /\ (length ops <= 50 * 21)%nat)
  /\ (as_array (prop "ops" args) = None -> as_array (prop "entities" args) = None ->
       (length ops <= 24)%nat /\ (tstr "id" args <> "" -> Forall usable ops) /\ (tstr "id" args = "" -> Forall nameless ops))
  /\ (forall ops', Forall readable ops' -> buildEntityApplyOps (VObject [("ops", VArray (map op_value ops'))]) = ops').
Proof.
  intros args ops. unfold ops, buildEntityApplyOps. fold args. split; [|split; [|split]].
  - intros l ->. split; [apply Forall_omap; intros; by eapply read_op_readable|apply length_omap_le].
  - intros l Ho ->. destruct (prop "ops" args); try done; apply entities_spec.
  - intros Ho He. destruct (prop "ops" args), (prop "entities" args); try done; apply single_ops_spec.
  - intros ops' Hops. by apply omap_read_back.
Qed.

(** ** Instances *)

Definition demo_dots : Ellipsis := "~"%char.

Definition demo_update : value := VObject [("op", VString "update"); ("id", VString " a ")].
Definition demo_nameless : value := VObject [("actions", VArray [VObject [("name", VString "spin")]])].

Lemma scene_ops_read_witness :
  buildEntityApplyOps (E := demo_dots) (VObject [("ops", VArray [demo_update])]) = [OpUpdate "a" []]
  /\ Forall readable [OpUpdate "a" []]
  /\ buildEntityApplyOps (E := demo_dots) demo_nameless = [OpAction "" "spin" []]
  /\ Forall nameless [OpAction "" "spin" []].
Proof.
  pose proof (scene_ops_read (E := demo_dots) (VObject [("ops", VArray [demo_update])])) as (H1 & _).
  pose proof (scene_ops_read (E := demo_dots) demo_nameless) as (_ & _ & H2 & _).
  split; [reflexivity|]. split; [exact (proj1 (H1 [demo_update] eq_refl))|]. split; [reflexivity|].
  exact (proj2 (proj2 (H2 eq_refl eq_refl)) eq_refl).
Defined.
