(* ===== verification/Programs.v ===== *)
(** Programs that make requests: finite trees, one branch per answer, with
    exceptions.  What a program may request ([always]), its executions ([runs])
    and running it against a state ([exec]). *)
From S2P Require Import Prelude JsString.

(** What a request that may throw answers: a result, or the text of what it throws. *)
Definition outcome (A : Type) : Type := A + string.

(** ** Programs *)

Inductive prog (E : Type -> Type) (A : Type) : Type :=
  | Ret (a : A)
  | Throw (e : string)
  | Act {R : Type} (e : E R) (k : R -> prog E A).
Arguments Ret {E A}.
Arguments Throw {E A}.
Arguments Act {E A R}.

#[export] Instance prog_ret {E} : MRet (prog E) := fun A => Ret.
#[export] Instance prog_bind {E} : MBind (prog E) :=
  fun A B f => fix go p :=
    match p with
    | Ret a => f a
    | Throw e => Throw e
    | Act e k => Act e (fun r => go (k r))
    end.

(** The requests a program may make, a request with its answer, and answers
    given by a state, to run a program against. *)
Definition allowed (E : Type -> Type) : Type := forall R, E R -> Prop.

Inductive answered (E : Type -> Type) : Type :=
  | Ev {R : Type} (e : E R) (answer : R).
Arguments Ev {E R}.

Definition world (E : Type -> Type) (S : Type) : Type := forall R, E R -> S -> R * S.

Section programs.
Context {E : Type -> Type}.

(** [try { p } catch (e) { h(String(e)) }]. *)
Fixpoint catch {A} (p : prog E A) (h : string -> prog E A) : prog E A :=
  match p with
  | Ret a => Ret a
  | Throw e => h e
  | Act e k => Act e (fun r => catch (k r) h)
  end.

(** [try { p } finally { f }], for an [f] that does not throw. *)
Fixpoint finally {A} (p : prog E A) (f : prog E unit) : prog E A :=
  match p with
  | Ret a => f ;; Ret a
  | Throw e => f ;; Throw e
  | Act e k => Act e (fun r => finally (k r) f)
  end.

(** [throw new Error(message)]. *)
Definition throw_error {A} (message : string) : prog E A := Throw ("Error: " ++s message).

Definition ask {R} (e : E R) : prog E R := Act e Ret.

(** A request whose exception goes on. *)
Definition call {R} (e : E (outcome R)) : prog E R :=
  Act e (fun r => match r with inl a => Ret a | inr e => Throw e end).

(** The same in a [try] with an empty [catch]: did it succeed? *)
Definition attempt {R} (e : E (outcome R)) : prog E bool :=
  Act e (fun r => Ret (match r with inl _ => true | inr _ => false end)).

(** [for (const x of l) { f(x) }]. *)
Fixpoint for_each {A B} (f : A -> prog E B) (l : list A) : prog E unit :=
  match l with
  | [] => Ret tt
  | x :: l => f x ;; for_each f l
  end.

(** The number of elements for which [f] succeeds. *)
Fixpoint count_ok {A} (f : A -> prog E bool) (l : list A) : prog E Z :=
  match l with
  | [] => Ret 0
  | x :: l => ok ← f x; n ← count_ok f l; Ret ((if ok : bool then 1 else 0) + n)
  end.

(** ** Requests a program can make *)

Fixpoint always (P : allowed E) {A} (p : prog E A) : Prop :=
  match p with
  | Ret _ | Throw _ => True
  | Act e k => P _ e /\ forall r, always P (k r)
  end.

Section always.
Context (P : allowed E).

Lemma always_bind {A B} (p : prog E A) (f : A -> prog E B) :
  always P p -> (forall a, always P (f a)) -> always P (p ≫= f).
Proof. intros Hp Hf. induction p as [a|e|R e k IH]; simpl in *; [apply Hf|done|]. destruct Hp; split; [done|]. intros r. by apply IH. Qed.

Lemma always_catch {A} (p : prog E A) h : always P p -> (forall e, always P (h e)) -> always P (catch p h).
Proof. intros Hp Hh. induction p as [a|e|R e k IH]; simpl in *; [done|apply Hh|]. destruct Hp; split; auto. Qed.

Lemma always_act {A R} (e : E R) (k : R -> prog E A) : P _ e -> (forall r, always P (k r)) -> always P (Act e k).
Proof. done. Qed.

Lemma always_ask {R} (e : E R) : P _ e -> always P (ask e).
Proof. done. Qed.

Lemma always_call {R} (e : E (outcome R)) : P _ e -> always P (call e).
Proof. intros H. split; [done|]. by intros [?|?]. Qed.

Lemma always_attempt {R} (e : E (outcome R)) : P _ e -> always P (attempt e).
Proof. done. Qed.

Lemma always_for_each {A B} (f : A -> prog E B) l : (forall x, always P (f x)) -> always P (for_each f l).
Proof. intros Hf. induction l; simpl; [done|]. by apply always_bind. Qed.

Lemma always_count_ok {A} (f : A -> prog E bool) l : (forall x, always P (f x)) -> always P (count_ok f l).
Proof. intros Hf. induction l; simpl; [done|]. apply always_bind; [done|]. intros ok. by apply always_bind. Qed.

Lemma always_mapM {A B} (f : A -> prog E B) l : (forall x, always P (f x)) -> always P (mapM f l).
Proof. intros Hf. induction l; simpl; [done|]. apply always_bind; [done|]. intros ok. by apply always_bind. Qed.
End always.

Lemma always_impl (P Q : allowed E) {A} (p : prog E A) :
  (forall R (e : E R), P _ e -> Q _ e) -> always P p -> always Q p.
Proof. intros HPQ. induction p; simpl; [done..|]. intros [? ?]; split; auto. Qed.

(** ** Programs that do not throw *)

Fixpoint never_throws {A} (p : prog E A) : Prop :=
  match p with
  | Ret _ => True
  | Throw _ => False
  | Act e k => forall r, never_throws (k r)
  end.

Lemma never_throws_bind {A B} (p : prog E A) (f : A -> prog E B) :
  never_throws p -> (forall a, never_throws (f a)) -> never_throws (p ≫= f).
Proof. intros Hp Hf. induction p as [a|e|R e k IH]; simpl in *; [apply Hf|done|]. intros r. by apply IH. Qed.

Lemma never_throws_catch {A} (p : prog E A) h : (forall e, never_throws (h e)) -> never_throws (catch p h).
Proof. intros Hh. induction p as [a|e|R e k IH]; simpl in *; [done|apply Hh|]. intros r. by apply IH. Qed.

Lemma never_throws_finally {A} (p : prog E A) f : never_throws p -> never_throws f -> never_throws (finally p f).
Proof.
  intros Hp Hf. induction p as [a|e|R e k IH]; simpl in *; [by apply (never_throws_bind f)|done|].
  intros r. by apply IH.
Qed.

(** ** Executions *)

(** [runs p t o]: with the answers of [t], [p] makes the requests of [t] and
    ends with [o], a result or an exception. *)
Fixpoint runs {A} (p : prog E A) (t : list (answered E)) (o : A + string) : Prop :=
  match p with
  | Ret a => t = [] /\ o = inl a
  | Throw e => t = [] /\ o = inr e
  | Act e k => exists r t', t = Ev e r :: t' /\ runs (k r) t' o
  end.

Lemma runs_bind {A B} (p : prog E A) (f : A -> prog E B) t o :
  runs (p ≫= f) t o ->
  (exists e, runs p t (inr e) /\ o = inr e)
  \/ exists a t1 t2, t = t1 ++ t2 /\ runs p t1 (inl a) /\ runs (f a) t2 o.
Proof.
  revert t. induction p as [a|e|R e k IH]; simpl; intros t.
  - intros H. right. exists a, [], t. done.
  - intros [-> ->]. left. by exists e.
  - intros (r & t' & -> & H). destruct (IH r t' H) as [(e' & He & ->)|(a & t1 & t2 & -> & H1 & H2)].
    + left. exists e'. split; [|done]. eauto.
    + right. exists a, (Ev e r :: t1), t2. split; [done|]. split; [|done]. eauto.
Qed.

Lemma runs_catch {A} (p : prog E A) h t o :
  runs (catch p h) t o ->
  (exists a, runs p t (inl a) /\ o = inl a)
  \/ exists e t1 t2, t = t1 ++ t2 /\ runs p t1 (inr e) /\ runs (h e) t2 o.
Proof.
  revert t. induction p as [a|e|R e k IH]; simpl; intros t.
  - intros [-> ->]. left. by exists a.
  - intros H. right. exists e, [], t. done.
  - intros (r & t' & -> & H). destruct (IH r t' H) as [(a & Ha & ->)|(e' & t1 & t2 & -> & H1 & H2)].
    + left. exists a. split; [|done]. eauto.
    + right. exists e', (Ev e r :: t1), t2. split; [done|]. split; [|done]. eauto.
Qed.

Definition on_event (P : allowed E) (ev : answered E) : Prop := match ev with Ev e _ => P _ e end.

Lemma always_runs (P : allowed E) {A} (p : prog E A) t o : always P p -> runs p t o -> Forall (on_event P) t.
Proof.
  revert t. induction p as [a|e|R e k IH]; simpl; intros t.
  1, 2: intros _ [-> _]; constructor.
  intros [He Hk] (r & t' & -> & H). constructor; [done|]. eauto.
Qed.

Fixpoint exec {S A} (b : world E S) (p : prog E A) (s : S) : list (answered E) * (A + string) * S :=
  match p with
  | Ret a => ([], inl a, s)
  | Throw e => ([], inr e, s)
  | Act e k =>
      let '(r, s') := b _ e s in
      let '(t, o, s'') := exec b (k r) s' in (Ev e r :: t, o, s'')
  end.

Lemma exec_runs {S A} (b : world E S) (p : prog E A) s t o s' : exec b p s = (t, o, s') -> runs p t o.
Proof.
  revert s t. induction p as [a|e|R e k IH]; simpl; intros s t.
  1, 2: by intros [= <- <- _].
  destruct (b R e s) as [r s1]. destruct (exec b (k r) s1) as [[t1 o1] s2] eqn:Eq.
  intros [= <- <- <-]. exists r, t1. split; [done|]. by apply (IH r s1).
Qed.
End programs.
