(* ===== verification/Browser.v ===== *)
(** The page as the client calls see it: the requests they make of the browser
    and of the page's own state, and programs as trees of such requests.  A
    program is finite: it ends once each of its requests is answered. *)
From S2P Require Import Prelude JsNumber JsString JsValue Conversation.
From S2P Require Export Programs.

(** ** What the browser shows *)

Record media_state := mkMedia {
  currentSrc : string; src : string; paused : bool; ended : bool; currentTime : number; duration : number }.

(** An element and its properties when it is read.  [form_value] is the
    [value] of an input, text area or selection, [input_type] the [type] of an
    input, [media] the state of an audio or video element, [dataset] that of an
    HTML element. *)
Record element := mkElement {
  node : nat; tagName : string; textContent : option string;
  form_value : option string; input_type : option string; checked : bool;
  dataset : option (obj string); attributes : list (string * string);
  media : option media_state; has_click : bool }.

Record location := mkLocation {
  href : string; origin : string; pathname : string; search : string; hash : string; page_title : string }.

(** [new URL(s)], [None] where it throws. *)
Record url := mkUrl {
  url_text : string; url_origin : string; url_protocol : string; url_pathname : string;
  searchParams : list (string * string) }.
Class Urls := tryParseUrl : string -> option url.

(** An answer of [fetch]. *)
Record response := mkResponse { resp_ok : bool; resp_status : number; content_type : option string }.

(** An observer kept in [rpcCleanupRef]; its [cleanups] remove the listener of
    an event of an element each. *)
Record RpcCleanupEntry := mkEntry {
  cleanups : list (nat * string); entry_kind : string; createdMs : number; lastActiveMs : number }.

(** ** Requests *)

Inductive dom_change :=
  | Click | SetValue (v : string) | Fire (mouse : bool) (type : string) (bubbles cancelable : bool)
  | SetAttribute (name v : string) | RemoveAttribute (name : string) | Remove
  | SetText (s : string) | SetInnerHtml (s : string) | InsertHtml (s : string)
  | AppendChild (child : nat) | PrependChild (child : nat)
  | Play | Pause | SetControls (b : bool) | SetAutoplay (b : bool) | SetLoop (b : bool) | SetMuted (b : bool)
  | SetVolume (x : number) | SetSrc (s : string) | SetId (s : string).

Inductive pageE : Type -> Type :=
  (* the document *)
  | QueryAll (selector : string) : pageE (outcome (list element))
  | QueryFirst (selector : string) : pageE (outcome (option element))
  | ById (id : string) : pageE (option element)
  | Body : pageE element
  | NewElement (tag : string) : pageE (outcome element)
  | Change (c : dom_change) (on : nat) : pageE (outcome unit)
  | AddListener (on : nat) (event : string) : pageE unit
  | RemoveListener (on : nat) (event : string) : pageE (outcome unit)
  (* the window *)
  | ReadLocation : pageE location
  | Assign (u : string) : pageE (outcome unit)
  | Confirm (text : string) : pageE bool
  | OpenWindow (u : string) : pageE (outcome unit)
  | Now : pageE number
  (* files *)
  | Fetch (u : string) : pageE (outcome response)
  | ReadBlob : pageE (outcome number)
  | CreateObjectUrl : pageE string
  | RevokeObjectUrl (u : string) : pageE (outcome unit)
  (* code of the agent *)
  | StartWorker : pageE (outcome unit)
  | RunWorker (code : string) (args : obj value) (timeoutMs : number) : pageE (outcome value)
  | Terminate : pageE (outcome unit)
  | Respond (message : value) : pageE (outcome unit)
  | RunPageCode (code : string) (args : obj value) (timeoutMs : number) : pageE (outcome value)
  (* the page's own state, and the daemon *)
  | SceneApply (ops : list SceneEntityMutationOp) : pageE (outcome value)
  | GetBlobUrls : pageE (list string)
  | SetBlobUrls (l : list string) : pageE unit
  | GetCleanups : pageE (obj RpcCleanupEntry)
  | SetCleanups (o : obj RpcCleanupEntry) : pageE unit
  | PostEvent (session type : string) (data : value) : pageE (outcome unit).

(** ** Programs of the page *)

Abbreviation io := (prog pageE).
Abbreviation requests := (allowed pageE).
Abbreviation event := (answered pageE).
Abbreviation browser := (world pageE).
