(* ===== verification/ClientRpc.v ===== *)
(** The client calls that an agent may request of the page
    (src/ui/src/components/conversation/conversationRpcExecutor.ts), as
    programs that make requests of the browser. *)
From S2P Require Import Prelude JsNumber JsString JsValue JsOrder JsonUtils JsonText Conversation Browser.

(** ** Small readers *)

(** [String(o.k ?? "")], and [String(o.k ?? o.k' ?? d)]. *)
Definition text (k : string) (o : obj value) : string := v_to_string (prop k o ??? VString "").
Definition text2 (k k' : string) (d : string) (o : obj value) : string :=
  v_to_string (prop k o ??? (prop k' o ??? VString d)).

(** [s || undefined]. *)
Definition vopt (s : string) : value := if truthy_str s then VString s else VUndefined.

Definition ends_with (p s : string) : bool := bool_decide (sdrop (String.length s - String.length p) s = p).

(** [!!v]. *)
Definition vbool (v : value) : value := VBool (truthy v).

(** [if (b) o.k = v]. *)
Definition put_when (b : bool) (k : string) (v : value) (o : obj value) : obj value := if b then set k v o else o.

(** The characters that [s.replace(/[^a-z0-9_-]/g, "")] keeps; and the same
    with capital letters. *)
Definition is_lower_alpha (c : ascii) : bool := ((97 <=? code c) && (code c <=? 122))%N.
Definition is_upper_alpha (c : ascii) : bool := ((65 <=? code c) && (code c <=? 90))%N.
Definition is_name_char (c : ascii) : bool := is_lower_alpha c || is_digit c || is_char "_" c || is_char "-" c.
Definition is_ident_char (c : ascii) : bool := is_upper_alpha c || is_name_char c.

(** [encodeURIComponent]: unreserved characters as they are, the others as the
    bytes of their UTF-8 form. *)
Definition hex_char (n : N) : ascii := if (n <? 10)%N then Ascii.ascii_of_N (48 + n) else Ascii.ascii_of_N (55 + n).
Definition percent (n : N) : string :=
  String "%" (String (hex_char (n / 16)) (String (hex_char (n mod 16)) "")).

Definition is_unreserved (c : ascii) : bool :=
  is_upper_alpha c || is_lower_alpha c || is_digit c || existsb (is_char c) ["-"; "_"; "."; "!"; "~"; "*"; "'"; "("; ")"]%char.

Definition encode_char (c : ascii) : string :=
  if is_unreserved c then String c ""
  else if (code c <? 128)%N then percent (code c)
  else percent (192 + code c / 64) ++s percent (128 + code c mod 64).

Fixpoint encodeURIComponent (s : string) : string :=
  match s with "" => "" | String c s => encode_char c ++s encodeURIComponent s end.

(** ** The input *)

(** What the page passes.  [hasSceneApply] tells whether [onSceneApply] is
    given; the request's fields are those of [rpc_call]. *)
Record ConversationUiActionRpcExecutorInput := mkInput {
  baseUrl : string; yolo : bool; sessionId : option string;
  allowClientRpcs : bool; allowClientEffects : bool; allowUnsafePageEval : bool;
  rpc_call : ParsedConversationUiAction;
  sceneEntities : option (list value); hasSceneApply : bool }.

(** [CSS.escape], where the browser has it. *)
Class CssApi := css_escape : option (string -> string).

(** [postClientEvent] of useConversationViewState.ts, for the session of the call. *)
Definition postClientEvent (sessionId : option string) (type : string) (data : value) : io unit :=
  let sid := session_key sessionId in
  if (String.length sid =? 0)%nat then throw_error "missing session_id"
  else call (PostEvent sid type (data ??? VObject [])).

Definition safeFieldSet : list string :=
  ["tag"; "text"; "value"; "checked"; "dataset"; "attrs"; "currentSrc"; "paused"; "ended"; "currentTime"; "duration"].

Definition getDomNodeTag (e : element) : string := to_lower (tagName e).

Section queries.
Context {E : Ellipsis}.

(** ** Reading the document *)

(** The entries that [dataset] and [attrs] show. *)
Definition shown_entry (p : string * string) : string * value :=
  (fst p, VString (if isSensitiveKey (fst p) then "(redacted)" else safeTrunc (snd p) 200)).

Definition shown_entries (l : list (string * string)) : obj value := of_entries (map shown_entry (take 20 l)).

Definition shown_value (el : element) (v : string) : value :=
  let inputType := to_lower (default "" (input_type el)) in
  VString (if bool_decide (inputType = "password") then "(redacted)" else safeTrunc v 200).

Definition dom_query_item (fields : list string) (el : element) : obj value :=
  let wants f := bool_decide (f ∈ fields) in
  let out := put_when (wants "tag") "tag" (VString (getDomNodeTag el)) [] in
  let out := put_when (wants "text") "text" (VString (safeTrunc (trim (default "" (textContent el))) 400)) out in
  let out := match form_value el with Some v => put_when (wants "value") "value" (shown_value el v) out | None => out end in
  let out := match input_type el with Some _ => put_when (wants "checked") "checked" (VBool (checked el)) out | None => out end in
  let out := put_when (wants "dataset") "dataset" (VObject (shown_entries (default [] (dataset el)))) out in
  let out := put_when (wants "attrs") "attrs" (VObject (shown_entries (attributes el))) out in
  match media el with
  | Some m =>
      let out := put_when (wants "currentSrc") "currentSrc" (VString (safeTrunc (currentSrc m) 300)) out in
      let out := put_when (wants "paused") "paused" (VBool (paused m)) out in
      let out := put_when (wants "ended") "ended" (VBool (ended m)) out in
      let out := put_when (wants "currentTime") "currentTime" (VNumber (currentTime m)) out in
      put_when (wants "duration") "duration" (VNumber (duration m)) out
  | None => out
  end.

Definition dom_query_fields (args : obj value) : list string :=
  let fields := take 20 (List.filter (fun f => bool_decide (f ∈ safeFieldSet))
                           (map v_to_string (default [] (as_array (prop "fields" args))))) in
  match fields with [] => ["tag"; "text"] | _ => fields end.

Definition makeDomQuery (args : obj value) : io value :=
  let selector := safeTrunc (text "selector" args) 200 in
  let fields := dom_query_fields args in
  if negb (truthy_str selector) then throw_error "dom_query requires selector"
  else
    els ← call (QueryAll selector);
    let items := map (dom_query_item fields) (take (clampCount (prop "limit" args) 1 20 10) els) in
    Ret (VObject
      [("kind", VString "dom_query"); ("selector", VString selector);
       ("limit", VNumber (clampInt (prop "limit" args) 1 20 10));
       ("fields", VArray (map VString fields)); ("items", VArray (map VObject items))]).

(** ** Changing the document *)

Definition change_all (c : dom_change) (nodes : list element) : io Z :=
  count_ok (fun n => attempt (Change c (node n))) nodes.

Definition dom_create (o : obj value) : io (obj value) :=
  let tag := filter_str is_name_char (to_lower (v_to_string (prop "tag" o ??? VString "div"))) in
  if negb (truthy_str tag) then throw_error "create requires tag"
  else
    el ← call (NewElement tag);
    let set_attr (p : string * value) :=
      attempt (Change (SetAttribute (fst p) (stake 2000 (v_to_string (snd p ??? VString "")))) (node el)) in
    for_each set_attr (take 50 (record "attrs" o)) ;;
    (if bool_decide (prop "text" o = VUndefined) then Ret tt
     else call (Change (SetText (stake 20000 (text "text" o))) (node el))) ;;
    (if bool_decide (prop "html" o = VUndefined) then Ret tt
     else call (Change (SetInnerHtml (stake 50000 (text "html" o))) (node el))) ;;
    let parentSel := text2 "parent_selector" "parent" "body" o in
    found ← (if truthy_str parentSel then call (QueryFirst parentSel) else Ret None);
    parent ← (match found with Some p => Ret p | None => ask Body end);
    let insert := v_to_string (prop "insert" o ??? VString "append") in
    call (Change (if bool_decide (insert = "prepend") then PrependChild (node el) else AppendChild (node el)) (node parent)) ;;
    Ret [("op", VString "create"); ("tag", VString tag); ("parent_selector", VString parentSel); ("inserted", VBool true)].

Definition MOUSE_EVENTS : list string := ["click"; "mousedown"; "mouseup"; "mousemove"].

(** [init.k !== undefined ? !!init.k : true]. *)
Definition flag (k : string) (init : obj value) : bool :=
  if bool_decide (prop k init = VUndefined) then true else truthy (prop k init).

(** The operations on the elements of a selector. *)
Definition dom_apply_to (kind : string) (o : obj value) (selector : string) (nodes : list element) : io (obj value) :=
  let out l := ("op", VString kind) :: ("selector", VString selector) :: l in
  let num n := VNumber (int n) in
  if bool_decide (kind = "remove") then
    n ← change_all Remove nodes; Ret (out [("removed", num n)])
  else if bool_decide (kind = "set_attr") then
    let name := text "name" o in
    if negb (truthy_str name) then throw_error "set_attr requires name"
    else n ← change_all (SetAttribute name (stake 2000 (text "value" o))) nodes; Ret (out [("name", VString name); ("set", num n)])
  else if bool_decide (kind = "remove_attr") then
    let name := text "name" o in
    if negb (truthy_str name) then throw_error "remove_attr requires name"
    else n ← change_all (RemoveAttribute name) nodes; Ret (out [("name", VString name); ("removed", num n)])
  else if bool_decide (kind = "set_text") then
    let s := stake 20000 (text "text" o) in
    n ← change_all (SetText s) nodes; Ret (out [("set", num n); ("bytes", num (Z.of_nat (String.length s)))])
  else if bool_decide (kind = "set_html") || bool_decide (kind = "append_html") then
    let bounded := stake 50000 (text "html" o) in
    n ← change_all (if bool_decide (kind = "append_html") then InsertHtml bounded else SetInnerHtml bounded) nodes;
    Ret (out [("set", num n); ("bytes", num (Z.of_nat (String.length bounded)))])
  else if bool_decide (kind = "dispatch") then
    let eventType := text2 "event" "type" "click" o in
    let init := safeObject (prop "event_init" o ??? prop "init" o) in
    n ← change_all (Fire (bool_decide (eventType ∈ MOUSE_EVENTS)) eventType (flag "bubbles" init) (flag "cancelable" init)) nodes;
    Ret (out [("event", VString eventType); ("fired", num n)])
  else throw_error ("unsupported dom_apply op: " ++s kind).

Definition applyOne (op : value) : io (obj value) :=
  let o := safeObject op in
  let kind := trim (text2 "op" "kind" "" o) in
  if negb (truthy_str kind) then throw_error "dom_apply op missing op"
  else if bool_decide (kind = "create") then dom_create o
  else
    let selector := text "selector" o in
    if negb (truthy_str selector) then throw_error (kind ++s " requires selector")
    else
      els ← call (QueryAll selector);
      dom_apply_to kind o selector (take (clampCount (prop "limit" o) 1 50 1) els).

Definition apply_result (op : value) : io value :=
  catch (o ← applyOne op; Ret (VObject (("ok", VBool true) :: o)))
        (fun e => Ret (VObject [("ok", VBool false); ("error", VString e)])).

Definition makeDomApply (args : obj value) : io value :=
  let ops := take 100 (default [] (as_array (prop "ops" args))) in
  results ← mapM apply_result ops;
  let applied := length (List.filter (fun r => truthy (vprop "ok" r)) results) in
  Ret (VObject
    [("kind", VString "dom_apply"); ("ops", VArray results); ("applied", VNumber (int (Z.of_nat applied)));
     ("total", VNumber (int (Z.of_nat (length results))))]).

Definition makeDomClick (args : obj value) : io value :=
  let selector := safeTrunc (text "selector" args) 200 in
  let out l := Ret (VObject (("kind", VString "dom_click") :: ("selector", VString selector) :: l)) in
  if negb (truthy_str selector) then throw_error "dom_click requires selector"
  else
    el ← call (QueryFirst selector);
    match el with
    | None => out [("clicked", VBool false)]
    | Some el =>
        if has_click el then
          call (Change Click (node el)) ;; out [("clicked", VBool true); ("tag", VString (getDomNodeTag el))]
        else throw_error "element has no click()"
    end.

Definition makeDomSetValue (args : obj value) : io value :=
  let selector := safeTrunc (text "selector" args) 200 in
  let v := stake 2000 (text "value" args) in
  let out b := Ret (VObject [("kind", VString "dom_set_value"); ("selector", VString selector); ("set", VBool b)]) in
  if negb (truthy_str selector) then throw_error "dom_set_value requires selector"
  else
    el ← call (QueryFirst selector);
    match el with
    | None => out false
    | Some el =>
        match form_value el with
        | None => throw_error "element has no value"
        | Some _ =>
            call (Change (SetValue v) (node el)) ;;
            (if bool_decide (prop "dispatch_events" args = VBool false) then Ret tt
             else
               catch (call (Change (Fire false "input" true false) (node el)) ;;
                      call (Change (Fire false "change" true false) (node el)))
                     (fun _ => Ret tt)) ;;
            out true
        end
    end.
End queries.

(** ** Media elements *)

(** [audio] and [video] elements, wherever they are. *)
Definition is_video (el : element) : bool := bool_decide (to_lower (tagName el) = "video").

(** [Number.isFinite(x) ? x : 0]. *)
Definition finite_or_zero (x : number) : value := VNumber (if is_finite x then x else int 0).

(** The first value of a parameter of a query. *)
Definition search_param (k : string) (l : list (string * string)) : option string := get k l.

Section media.
Context {E : Ellipsis} {U : Urls}.

Definition snapshot_item (el : element) : io value :=
  match media el, dataset el with
  | Some m, Some ds =>
      let src := str_or (currentSrc m) (src m) in
      let u := if truthy_str src then tryParseUrl src else None in
      let fromFilePath :=
        match u with
        | Some u => if ends_with "/api/v1/file" (url_pathname u) then default "" (search_param "path" (searchParams u)) else ""
        | None => ""
        end in
      Ret (VObject
        [("kind", VString (if is_video el then "video" else "audio"));
         ("tool_call_id", vopt (default "" (get "toolCallId" ds)));
         ("path", VString (safeTrunc (str_or (default "" (get "path" ds)) fromFilePath) 200));
         ("src", VString (safeTrunc src 300)); ("paused", VBool (paused m)); ("ended", VBool (ended m));
         ("current_time", finite_or_zero (currentTime m)); ("duration", finite_or_zero (duration m))])
  | _, _ => Throw "TypeError"
  end.

Definition media_snapshot_items : io (list value) :=
  els ← call (QueryAll "audio,video"); mapM snapshot_item (take 20 els).

Definition makeMediaSnapshot : io value :=
  items ← media_snapshot_items; Ret (VObject [("kind", VString "media_snapshot"); ("items", VArray items)]).

(** ** The address *)

Definition shown_param (u : url) (k : string) : string * value :=
  (k, VString (if isSensitiveKey k then "(redacted)" else safeTrunc (default "" (search_param k (searchParams u))) 200)).

Definition location_value (l : location) : value :=
  let u := if truthy_str (href l) then tryParseUrl (href l) else None in
  let keys := match u with Some u => take 40 (map fst (searchParams u)) | None => [] end in
  let search_params := match u with Some u => of_entries (map (shown_param u) keys) | None => [] end in
  VObject
    [("kind", VString "location"); ("href", VString (safeTrunc (href l) 400)); ("origin", VString (safeTrunc (origin l) 200));
     ("pathname", VString (safeTrunc (pathname l) 200)); ("search", VString (safeTrunc (search l) 200));
     ("hash", VString (safeTrunc (hash l) 200)); ("search_params", VObject search_params);
     ("has_sensitive_query", VBool (existsb isSensitiveKey keys)); ("title", VString (safeTrunc (page_title l) 200))].

Definition makeLocation : io value := l ← ask ReadLocation; Ret (location_value l).

Definition makeStateSnapshot : io value :=
  loc ← makeLocation; items ← media_snapshot_items;
  Ret (VObject [("kind", VString "state_snapshot"); ("location", loc); ("media", VArray items)]).

Definition makeNavigate (args : obj value) : io value :=
  let url := safeTrunc (text2 "url" "href" "" args) 2000 in
  if negb (truthy_str url) then throw_error "navigate requires url"
  else
    here ← ask ReadLocation;
    let foreign := match tryParseUrl url with Some u => negb (bool_decide (url_origin u = origin here)) | None => false end in
    if foreign : bool then throw_error "navigate only supports same-origin URLs; use open_url for external links"
    else call (Assign url) ;; Ret (VObject [("kind", VString "navigate"); ("url", VString url)]).

Definition makeOpenUrl (args : obj value) : io value :=
  let urlRaw := safeTrunc (text2 "url" "href" "" args) 2000 in
  if negb (truthy_str urlRaw) then throw_error "open_url requires url"
  else
    match tryParseUrl urlRaw with
    | None => throw_error "open_url requires absolute http(s) URL"
    | Some u =>
        if negb (bool_decide (url_protocol u = "http:")) && negb (bool_decide (url_protocol u = "https:"))
        then throw_error "open_url only supports http(s) URLs"
        else
          let label := safeTrunc (text "title" args) 120 in
          let prompt := if truthy_str label then "Open link?" ++s nl ++s label ++s nl ++s url_text u
                        else "Open link?" ++s nl ++s url_text u in
          yes ← ask (Confirm prompt);
          if negb yes then throw_error "user declined"
          else
            call (OpenWindow (url_text u)) ;;
            Ret (VObject [("kind", VString "open_url"); ("url", VString (url_text u)); ("opened", VBool true)])
    end.
End media.

(** ** Files *)

Section files.
Context {E : Ellipsis} {J : Json} (i : ConversationUiActionRpcExecutorInput).

(** The loop that keeps 32 addresses: the list that stays and the addresses
    that are given back. *)
Fixpoint trim_blob_urls (l : list string) : list string * list string :=
  match l with
  | old :: rest =>
      if (32 <? length l)%nat then
        if negb (truthy_str old) then (rest, [])
        else let '(kept, dropped) := trim_blob_urls rest in (kept, old :: dropped)
      else (l, [])
  | [] => ([], [])
  end.

(** The body of the [try] for one path. *)
Definition fetch_artifact (wantYolo : bool) (p : string) : io value :=
  let sid := session_key (sessionId i) in
  let sidQ := if truthy_str sid then "&session_id=" ++s encodeURIComponent sid else "" in
  let src := baseUrl i ++s "/api/v1/file?path=" ++s encodeURIComponent p ++s "&yolo=" ++s (if wantYolo then "1" else "0") ++s sidQ in
  r ← call (Fetch src);
  if negb (resp_ok r) then throw_error ("file fetch failed: " ++s num_to_string (resp_status r))
  else
    size ← call ReadBlob;
    u ← ask CreateObjectUrl;
    urls ← ask GetBlobUrls;
    let '(kept, dropped) := trim_blob_urls (urls ++ [u]) in
    ask (SetBlobUrls kept) ;;
    for_each (fun old => attempt (RevokeObjectUrl old)) dropped ;;
    Ret (VObject
      [("kind", VString "artifact_url"); ("ok", VBool true); ("url", VString u); ("source_path", VString p);
       ("content_type", vopt (trim (default "" (content_type r)))); ("size_bytes", VNumber size)]).

Fixpoint try_paths (wantYolo : bool) (paths : list string) (lastErr : option string) : io value :=
  match paths with
  | [] => match lastErr with Some e => Throw e | None => throw_error "artifact_url failed" end
  | p :: paths => catch (fetch_artifact wantYolo p) (fun e => try_paths wantYolo paths (Some e))
  end.

(** [typeof args.yolo === "boolean" ? args.yolo : yolo]. *)
Definition want_yolo (args : obj value) : bool := default (yolo i) (as_bool (prop "yolo" args)).

Definition artifact_paths (args : obj value) : string * string :=
  let artifact := record "artifact" args in
  (trim (safeTrunc (v_to_string (prop "path" args ??? (prop "path" artifact ??? VString ""))) 4000),
   trim (safeTrunc (v_to_string (prop "resolved_path" args ??? (prop "resolvedPath" args ???
                                   (prop "resolved_path" artifact ??? VString "")))) 4000)).

Definition makeArtifactUrl (args : obj value) : io value :=
  let '(path, resolvedPath) := artifact_paths args in
  let wantYolo := want_yolo args in
  if negb (truthy_str path) && negb (truthy_str resolvedPath) then throw_error "artifact_url requires path or resolved_path"
  else
    let tryPaths := if truthy_str path then [path] else [] in
    let tryPaths :=
      if wantYolo && truthy_str resolvedPath && negb (bool_decide (resolvedPath ∈ tryPaths))
      then tryPaths ++ [resolvedPath] else tryPaths in
    try_paths wantYolo tryPaths None.

(** ** Playing *)

Definition play (el : element) (ok : value) (failed : string -> value) : io value :=
  catch (call (Change Play (node el)) ;; Ret ok) (fun e => Ret (failed e)).

Definition play_selected (selector : string) : io value :=
  let out l := VObject (("kind", VString "media_play") :: ("selector", VString selector) :: l) in
  el ← call (QueryFirst selector);
  match el with
  | None => Ret (out [("ok", VBool false); ("error", VString "no element matched")])
  | Some el =>
      match media el with
      | None => Ret (out [("ok", VBool false); ("error", VString "element has no play()")])
      | Some _ => play el (out [("ok", VBool true)]) (fun e => out [("ok", VBool false); ("error", VString e)])
      end
  end.

(** The assignments, each in its own [try]. *)
Definition media_settings (args : obj value) (url : string) : list dom_change :=
  [SetControls (negb (bool_decide (prop "controls" args = VBool false)))]
  ++ (match prop "autoplay" args with VBool b => [SetAutoplay b] | _ => [] end)
  ++ (match prop "loop" args with VBool b => [SetLoop b] | _ => [] end)
  ++ (match prop "muted" args with VBool b => [SetMuted b] | _ => [] end)
  ++ (match as_finite (prop "volume" args) with Some x => [SetVolume (math_min (int 1) (math_max (int 0) x))] | None => [] end)
  ++ [SetSrc url].

(** The address to play: the given one, or that of a file. *)
Definition media_url (args : obj value) : io string :=
  let url := trim (text2 "url" "src" "" args) in
  let pathRaw := trim (text "path" args) in
  let resolvedPathRaw := trim (text2 "resolved_path" "resolvedPath" "" args) in
  if negb (truthy_str url) && (truthy_str pathRaw || truthy_str resolvedPathRaw) then
    u ← makeArtifactUrl [("path", VString pathRaw); ("resolved_path", VString resolvedPathRaw); ("yolo", VBool (want_yolo args))];
    Ret (tstr "url" (safeObject u))
  else Ret url.

(** The element to play it with; [None] when the named one does not play. *)
Definition media_element (id tag : string) : io (option element) :=
  existing ← (if truthy_str id then ask (ById id) else Ret None);
  match existing with
  | Some el => match media el with Some _ => Ret (Some el) | None => Ret None end
  | None =>
      el ← call (NewElement tag);
      (if truthy_str id then call (Change (SetId id) (node el)) else Ret tt) ;;
      body ← ask Body;
      attempt (Change (AppendChild (node el)) (node body)) ;;
      Ret (Some el)
  end.

Definition makeMediaPlay (args : obj value) : io value :=
  let selector := trim (safeTrunc (text "selector" args) 200) in
  if truthy_str selector then play_selected selector
  else
    let id := trim (safeTrunc (text2 "id" "element_id" "" args) 80) in
    let tagRaw := to_lower (v_to_string (prop "tag" args ??? (prop "element" args ??? (prop "kind" args ??? VString "")))) in
    let tag := if includes "video" tagRaw then "video" else "audio" in
    url ← media_url args;
    if negb (truthy_str url) then
      Ret (VObject [("kind", VString "media_play"); ("ok", VBool false); ("error", VString "media_play requires selector or url/path")])
    else
      el ← media_element id tag;
      match el with
      | None =>
          Ret (VObject [("kind", VString "media_play"); ("ok", VBool false); ("created", VBool false); ("tag", VString tag);
                        ("id", VString id); ("error", VString "existing element is not media")])
      | Some el =>
          for_each (fun c => attempt (Change c (node el))) (media_settings args url) ;;
          let out ok := [("kind", VString "media_play"); ("ok", VBool ok); ("created", VBool true); ("tag", VString tag);
                         ("id", vopt id); ("url", VString (safeTrunc url 300))] in
          play el (VObject (out true)) (fun e => VObject (out false ++ [("error", VString e)]))
      end.

Definition makeMediaPause (args : obj value) : io value :=
  let selector := trim (safeTrunc (text "selector" args) 200) in
  let id := trim (safeTrunc (text2 "id" "element_id" "" args) 80) in
  let out ok l := VObject (("kind", VString "media_pause") :: ("ok", VBool ok) :: ("selector", vopt selector) :: ("id", vopt id) :: l) in
  candidate ← (if truthy_str selector then call (QueryFirst selector)
               else if truthy_str id then ask (ById id) else Ret None);
  match candidate with
  | Some el =>
      match media el with
      | Some _ => catch (call (Change Pause (node el)) ;; Ret (out true [])) (fun e => Ret (out false [("error", VString e)]))
      | None => Ret (out false [("error", VString "no element matched")])
      end
  | None => Ret (out false [("error", VString "no element matched")])
  end.
End files.

(** ** Observing media *)

Section observers.
Context {E : Ellipsis} {C : CssApi} (i : ConversationUiActionRpcExecutorInput).

Let id_of_call : string := rpcId (rpc_call i).

Definition postRpcProgress (name : string) (payload : value) : io unit :=
  now ← ask Now;
  postClientEvent (sessionId i) "client_rpc_progress"
    (VObject [("rpc_id", VString id_of_call); ("rpc_kind", VString (rpcKind (rpc_call i)));
              ("name", VString (str_or name "progress")); ("ts_unix_ms", VNumber now); ("payload", payload ??? VObject [])]).

Definition mkPayload (el : element) (m : media_state) : value :=
  VObject
    [("kind", VString (if is_video el then "video" else "audio")); ("current_time", finite_or_zero (currentTime m));
     ("duration", finite_or_zero (duration m)); ("paused", VBool (paused m)); ("ended", VBool (ended m))].

(** A post that is not waited for, whose failure is dropped. *)
Definition post_quietly (p : io unit) : io unit := catch p (fun _ => Ret tt).

(** The handler of a media event. *)
Definition on_media_event (evName : string) (el : element) (m : media_state) : io unit :=
  entries ← ask GetCleanups;
  (match get id_of_call entries with
   | Some entry =>
       now ← ask Now;
       ask (SetCleanups (set id_of_call (mkEntry (cleanups entry) (entry_kind entry) (createdMs entry) now) entries))
   | None => Ret tt
   end) ;;
  post_quietly (postRpcProgress evName (mkPayload el m)).

Definition observable : list string := ["play"; "pause"; "ended"; "error"; "timeupdate"].

Definition observed_events (args : obj value) : list string :=
  let eventsRaw := match prop "events" args with VArray l => map v_to_string l | _ => ["play"; "pause"; "ended"; "error"] end in
  take 5 (List.filter (fun x => bool_decide (x ∈ observable)) eventsRaw).

Definition cssEscape (s : string) : string :=
  match css_escape with Some f => f s | None => filter_str is_ident_char s end.

Definition dquote : string := String "034" "".

Definition observed_selector (args : obj value) : string :=
  let selectorFromArgs := safeTrunc (text "selector" args) 200 in
  let toolId := safeTrunc (text "tool_call_id" args) 120 in
  let by_tool tag := tag ++s "[data-tool-call-id=" ++s dquote ++s cssEscape toolId ++s dquote ++s "]" in
  if truthy_str toolId then by_tool "audio" ++s "," ++s by_tool "video"
  else if truthy_str selectorFromArgs then selectorFromArgs
  else "audio,video".

(** Listeners of every event on every element, in the order they are added. *)
Definition listeners (els : list element) (events : list string) : list (nat * string) :=
  els ≫= (fun el => map (fun ev => (node el, ev)) events).

(** The type of an element that [mkPayload] reads; an element of another kind
    has no such properties and is reported with the defaults. *)
Definition media_or_default (el : element) : media_state :=
  default (mkMedia "" "" false false NaN NaN) (media el).

Definition makeMediaObserve (args : obj value) : io value :=
  let events := observed_events args in
  let sel := observed_selector args in
  els ← call (QueryAll sel);
  let els := take 10 els in
  if (length els =? 0)%nat then
    Ret (VObject [("kind", VString "media_observe"); ("selector", VString sel); ("observing", VNumber (int 0))])
  else
    let observing := VNumber (int (Z.of_nat (length els))) in
    entries ← ask GetCleanups;
    (match get id_of_call entries with
     | Some _ => Ret tt
     | None =>
         for_each (fun p => ask (AddListener (fst p) (snd p))) (listeners els events) ;;
         now ← ask Now;
         entries ← ask GetCleanups;
         ask (SetCleanups (set id_of_call (mkEntry (listeners els events) "media_observe" now now) entries))
     end) ;;
    postRpcProgress "attached" (VObject [("selector", VString sel); ("observing", observing)]) ;;
    for_each (fun el => post_quietly (postRpcProgress "snapshot" (mkPayload el (media_or_default el)))) els ;;
    Ret (VObject [("kind", VString "media_observe"); ("selector", VString sel); ("observing", observing);
                  ("events", VArray (map VString events))]).

(** [cleanupRpcEntry] of useConversationViewState.ts. *)
Definition cleanupRpcEntry (id : string) : io bool :=
  entries ← ask GetCleanups;
  match get id entries with
  | None => Ret false
  | Some entry =>
      for_each (fun p => attempt (RemoveListener (fst p) (snd p))) (cleanups entry) ;;
      entries ← ask GetCleanups;
      ask (SetCleanups (remove id entries)) ;;
      Ret true
  end.

(** The identifiers whose observers are to go, none twice. *)
Definition unobserved_ids (args : obj value) : list string :=
  let list_of k := as_array (prop k args) in
  let many := match list_of "rpc_ids" with
              | Some l => l
              | None => match list_of "rpcIds" with Some l => l | None => default [] (list_of "ids") end
              end in
  let one := prop "rpc_id" args ??? (prop "rpcId" args ??? (prop "target_rpc_id" args ??? (prop "targetRpcId" args ???
               (prop "tool_call_id" args ??? (prop "toolCallId" args ??? prop "id" args))))) in
  unique (trimmed_nonempty (map (fun v => v_to_string (v ??? VString "")) (many ++ [one]))).

Definition is_observer (e : RpcCleanupEntry) : bool := bool_decide (entry_kind e = "media_observe").

Definition observer_ids (entries : obj RpcCleanupEntry) : list string :=
  map fst (List.filter (fun p => is_observer (snd p)) entries).

(** One target of the loop: its identifier when its observer was removed. *)
Definition unobserve (id : string) : io (list string) :=
  entries ← ask GetCleanups;
  match get id entries with
  | Some entry => if is_observer entry then ok ← cleanupRpcEntry id; Ret (if ok : bool then [id] else []) else Ret []
  | None => Ret []
  end.

Definition makeMediaUnobserve (args : obj value) : io value :=
  let ids := unobserved_ids args in
  entries ← ask GetCleanups;
  let all := is_true (prop "all" args) || ((length ids =? 0)%nat && bool_decide (prop "all" args = VString "true")) in
  removed ← mapM unobserve (if all then observer_ids entries else ids);
  entries ← ask GetCleanups;
  let num n := VNumber (int (Z.of_nat n)) in
  Ret (VObject
    [("kind", VString "media_unobserve"); ("removed", num (length (mjoin removed)));
     ("removed_ids", VArray (map VString (mjoin removed))); ("remaining", num (length (observer_ids entries)))]).

(** ** The scene *)

Definition makeEntityApply (args : value) : io value :=
  if negb (hasSceneApply i) then throw_error "entity_apply not supported (no scene handler)"
  else
    let ops := buildEntityApplyOps args in
    if existsb (fun op => match op with OpClear _ => true | _ => false end) ops then throw_error "scene clear is disabled in WebUI"
    else call (SceneApply ops).

Definition makeEntityQuery (args : obj value) : io value :=
  let ents := default [] (sceneEntities i) in
  let kind := match prop "entity_kind" args with VString s => trim s | _ => tstr "kind" args end in
  let idPrefix := tstr "id_prefix" args in
  let field k entity := v_to_string (vprop k entity ??? VString "") in
  let items := take (clampCount (prop "limit" args) 1 200 50)
    (List.filter (fun e => if truthy_str idPrefix then starts_with idPrefix (field "id" e) else true)
      (List.filter (fun e => if truthy_str kind then bool_decide (field "kind" e = kind) else true) ents)) in
  Ret (VObject
    [("kind", VString "entity_query"); ("entity_kind", vopt kind); ("id_prefix", vopt idPrefix);
     ("count", VNumber (int (Z.of_nat (length items)))); ("items", VArray items)]).
End observers.

(** ** Calls *)

Section calls.
Context {E : Ellipsis} {J : Json} {U : Urls} {C : CssApi} (i : ConversationUiActionRpcExecutorInput).

(** [args.timeout_ms ?? args.timeoutMs], limited. *)
Definition timeout_of (args : obj value) : number :=
  clampInt (prop "timeout_ms" args ??? prop "timeoutMs" args) 50 60000 8000.

(** The script runs in a worker; what the worker posts meanwhile is handled by
    [on_worker_call].  The answer of [RunWorker] is the first of the script's
    result, its error, the worker's error and the time limit. *)
Definition makeScriptEval (args : obj value) : io value :=
  let code := text "code" args in
  if negb (truthy_str code) then throw_error "script_eval requires code"
  else
    call StartWorker ;;
    Act (RunWorker code (record "args" args) (timeout_of args)) (fun r =>
      attempt Terminate ;;
      match r with
      | inl result =>
          Ret (VObject [("kind", VString "script_eval"); ("ok", VBool true); ("timeout_ms", VNumber (timeout_of args)); ("result", result)])
      | inr e => Throw e
      end).

(** The text of the function: between the braces and the code there is a
    backslash and an [n], not a line feed. *)
Definition backslash : string := String "092" "".
Definition page_function (code : string) : string :=
  dquote ++s "use strict" ++s dquote ++s "; return (async function() {" ++s backslash ++s "n" ++s code ++s backslash ++s "n})();".

(** The code runs in the page, with [page_api] at hand, if the browser accepts
    the function. *)
Definition makePageEval (args : obj value) : io value :=
  if negb (allowUnsafePageEval i) then throw_error "page_eval disabled by settings"
  else
    let code := text "code" args in
    if negb (truthy_str code) then throw_error "page_eval requires code"
    else
      result ← call (RunPageCode (page_function code) (record "args" args) (timeout_of args));
      Ret (VObject [("kind", VString "page_eval"); ("ok", VBool true); ("timeout_ms", VNumber (timeout_of args)); ("result", result)]).

Definition invokeByKind (kind : string) (args : obj value) : io value :=
  if bool_decide (kind = "dom_query") then makeDomQuery args
  else if bool_decide (kind = "dom_apply") then makeDomApply args
  else if bool_decide (kind = "entity_apply") then makeEntityApply i (VObject args)
  else if bool_decide (kind = "entity_query") then makeEntityQuery i args
  else if bool_decide (kind = "media_snapshot") then makeMediaSnapshot
  else if bool_decide (kind = "location") then makeLocation
  else if bool_decide (kind = "state_snapshot") then makeStateSnapshot
  else if bool_decide (kind = "dom_click") then makeDomClick args
  else if bool_decide (kind = "dom_set_value") then makeDomSetValue args
  else if bool_decide (kind = "media_play") then makeMediaPlay i args
  else if bool_decide (kind = "media_pause") then makeMediaPause args
  else if bool_decide (kind = "media_observe") then makeMediaObserve i args
  else if bool_decide (kind = "media_unobserve") then makeMediaUnobserve args
  else if bool_decide (kind = "navigate") then makeNavigate args
  else if bool_decide (kind = "open_url") then makeOpenUrl args
  else if bool_decide (kind = "artifact_url") then makeArtifactUrl i args
  else if bool_decide (kind = "script_eval") then makeScriptEval args
  else if bool_decide (kind = "page_eval") then makePageEval args
  else throw_error ("unsupported rpc.kind: " ++s kind).

(** ** What a script may call *)

Definition sideEffectMethods : list string :=
  ["dom.click"; "dom.set_value"; "dom.apply"; "scene.apply"; "media.play"; "media.observe"; "nav.go"; "nav.open"].

Definition script_method (method : string) (cargs : obj value) : io value :=
  if bool_decide (method = "dom.query") then makeDomQuery cargs
  else if bool_decide (method = "dom.click") then makeDomClick cargs
  else if bool_decide (method = "dom.set_value") then makeDomSetValue cargs
  else if bool_decide (method = "dom.apply") then makeDomApply cargs
  else if bool_decide (method = "scene.apply") then makeEntityApply i (VObject cargs)
  else if bool_decide (method = "scene.query") then makeEntityQuery i cargs
  else if bool_decide (method = "media.snapshot") then makeMediaSnapshot
  else if bool_decide (method = "media.play") then makeMediaPlay i cargs
  else if bool_decide (method = "media.observe") then makeMediaObserve i cargs
  else if bool_decide (method = "media.unobserve") then makeMediaUnobserve cargs
  else if bool_decide (method = "location.get") then makeLocation
  else if bool_decide (method = "nav.go") then makeNavigate cargs
  else if bool_decide (method = "nav.open") then makeOpenUrl cargs
  else if bool_decide (method = "rpc.progress") then
    postRpcProgress i (v_to_string (prop "name" cargs ??? VString "progress")) (prop "payload" cargs ??? VObject []) ;;
    Ret (VBool true)
  else throw_error ("unsupported script api method: " ++s method).

(** A [call] message of the worker. *)
Definition on_worker_call (msg : obj value) : io unit :=
  let id := VNumber (v_to_number (prop "id" msg)) in
  let method := str_or_empty (prop "method" msg) in
  let respond (ok : bool) payload :=
    call (Respond (VObject [("type", VString "resp"); ("id", id); ("ok", VBool ok); (if ok then "result" else "error", payload)])) in
  catch
    ((if bool_decide (method ∈ sideEffectMethods) && negb (allowClientEffects i)
      then throw_error "side effects disabled by settings" else Ret tt) ;;
     out ← script_method method (record "args" msg);
     respond true out)
    (fun e => respond false (VString e)).

(** The functions that code run in the page is given. *)
Definition page_api (name : string) (q : value) : io value :=
  let o := safeObject q in
  if bool_decide (name = "dom.query") then makeDomQuery o
  else if bool_decide (name = "dom.click") then makeDomClick o
  else if bool_decide (name = "dom.setValue") then makeDomSetValue o
  else if bool_decide (name = "dom.apply") then makeDomApply o
  else if bool_decide (name = "scene.apply") then makeEntityApply i q
  else if bool_decide (name = "scene.query") then makeEntityQuery i o
  else if bool_decide (name = "media.snapshot") then makeMediaSnapshot
  else if bool_decide (name = "media.play") then makeMediaPlay i o
  else if bool_decide (name = "media.observe") then makeMediaObserve i o
  else if bool_decide (name = "media.unobserve") then makeMediaUnobserve o
  else if bool_decide (name = "location.get") then makeLocation
  else if bool_decide (name = "nav.go") then makeNavigate o
  else Throw "TypeError".

Definition page_progress (name : string) (payload : value) : io value :=
  postRpcProgress i name (payload ??? VObject []) ;; Ret (VBool true).

(** ** Running a call *)

Definition result_value (prefix : string) (ok : bool) (elapsed : number) (payload : value) : value :=
  VObject
    [(prefix ++s "_id", VString (rpcId (rpc_call i))); ("request_tool_call_id", VString (toolCallId (rpc_call i)));
     (prefix ++s "_kind", VString (rpcKind (rpc_call i))); ("ok", VBool ok); ("elapsed_ms", VNumber elapsed);
     (if ok then ("result", capEventPayload payload) else ("error", payload))].

Definition postRpcResult (ok : bool) (elapsed : number) (payload : value) : io unit :=
  postClientEvent (sessionId i) "client_rpc_result" (result_value "rpc" ok elapsed payload) ;;
  (if bool_decide (atype (rpc_call i) = "client_probe") then
     postClientEvent (sessionId i) "client_probe_result" (result_value "probe" ok elapsed payload)
   else Ret tt).

(** The conditions in front of the call. *)
Definition rpc_checks : io unit :=
  if negb (truthy_str (rpcId (rpc_call i))) || (String.length (session_key (sessionId i)) =? 0)%nat
  then throw_error "missing session/rpc_id"
  else if negb (truthy_str (rpcKind (rpc_call i))) then throw_error "missing rpc.kind"
  else if negb (allowClientRpcs i) then throw_error "client RPC disabled by settings"
  else if sideEffectsRequested (rpc_call i) && negb (allowClientEffects i)
  then throw_error "client RPC side effects disabled by settings"
  else Ret tt.

Definition runConversationUiActionRpc : io unit :=
  t0 ← ask Now;
  catch
    (rpc_checks ;;
     result ← invokeByKind (rpcKind (rpc_call i)) (rpcArgs (rpc_call i));
     now ← ask Now;
     postRpcResult true (sub now t0) result)
    (fun e =>
       now ← ask Now;
       postRpcResult false (sub now t0) (VString e)).
End calls.

(** ** What the programs request *)

Inductive level := LRead | LOwn | LProgress | LScript | LChange | LCarry | LPageCode | LReport.
#[export] Instance level_eq_dec : EqDecision level.
Proof. solve_decision. Defined.

(** Changes that put text of the request where it may run as code: elements,
    attributes ([on...]) and HTML. *)
Definition carries (c : dom_change) : bool :=
  match c with
  | SetAttribute _ _ | SetText _ | SetInnerHtml _ | InsertHtml _ | AppendChild _ | PrependChild _ | SetSrc _ => true
  | _ => false
  end.

(** Reading the page; the page's own records of files and observers; progress
    and result events; the worker; changing the page; changes that may bring
    code into it, which are those, the operations on the scene, whose entities
    have scripts, and new addresses; evaluating code in it. *)
Definition level_of {R} (e : pageE R) : level :=
  match e with
  | QueryAll _ | QueryFirst _ | ById _ | Body | ReadLocation | Now | GetBlobUrls | GetCleanups => LRead
  | RemoveListener _ _ | Fetch _ | ReadBlob | CreateObjectUrl | RevokeObjectUrl _ | SetBlobUrls _ | SetCleanups _ => LOwn
  | StartWorker | RunWorker _ _ _ | Terminate | Respond _ => LScript
  | Change c _ => if carries c then LCarry else LChange
  | NewElement _ | Assign _ | SceneApply _ => LCarry
  | AddListener _ _ | Confirm _ | OpenWindow _ => LChange
  | RunPageCode _ _ _ => LPageCode
  | PostEvent _ type _ => if bool_decide (type = "client_rpc_progress") then LProgress else LReport
  end.

Definition among (ls : list level) : requests := fun R e => level_of e ∈ ls.

Lemma always_among_sub ls ls' {A} (p : io A) : ls ⊆ ls' -> always (among ls) p -> always (among ls') p.
Proof. intros H. apply always_impl. intros R e He. by apply H. Qed.

(** A change, whatever it is. *)
Lemma among_change ls c n : LChange ∈ ls -> LCarry ∈ ls -> among ls (outcome unit) (Change c n).
Proof. intros. unfold among, level_of. by destruct (carries c). Qed.

(** Go through a program: its requests are looked up in the list. *)
Ltac walk :=
  repeat (cbv zeta; match goal with
  | |- forall _, _ => intros ?
  | |- always _ (mbind _ _) => apply always_bind
  | |- always _ (catch _ _) => apply always_catch
  | |- always _ (Act _ _) => apply always_act
  | |- always _ (call _) => apply always_call
  | |- always _ (ask _) => apply always_ask
  | |- always _ (attempt _) => apply always_attempt
  | |- always _ (for_each _ _) => apply always_for_each
  | |- always _ (count_ok _ _) => apply always_count_ok
  | |- always _ (mapM _ _) => apply always_mapM
  | |- always _ (Ret _) => exact I
  | |- always _ (Throw _) => exact I
  | |- always _ (throw_error _) => exact I
  | |- always _ (match ?x with _ => _ end) => destruct x
  | |- among _ _ (Change _ _) => first [apply among_change; by_compute | unfold among; cbn [level_of carries]; by_compute]
  | |- among _ _ _ => unfold among; cbn [level_of carries]; rewrite ?bool_decide_eq_true_2 by done; by_compute
  end; eauto 2 with page).

Create HintDb page.

Section levels.
Context {E : Ellipsis} {J : Json} {U : Urls} {C : CssApi} (i : ConversationUiActionRpcExecutorInput).

Lemma dom_query_levels args : always (among [LRead]) (makeDomQuery args).
Proof. unfold makeDomQuery. walk. Qed.

Lemma applyOne_levels op : always (among [LRead; LChange; LCarry]) (applyOne op).
Proof. unfold applyOne, dom_create, dom_apply_to, change_all. walk. Qed.
Hint Resolve applyOne_levels : page.

Lemma dom_apply_levels args : always (among [LRead; LChange; LCarry]) (makeDomApply args).
Proof. unfold makeDomApply, apply_result. walk. Qed.

Lemma dom_click_levels args : always (among [LRead; LChange]) (makeDomClick args).
Proof. unfold makeDomClick. walk. Qed.

Lemma dom_set_value_levels args : always (among [LRead; LChange]) (makeDomSetValue args).
Proof. unfold makeDomSetValue. walk. Qed.

Lemma media_items_levels : always (among [LRead]) media_snapshot_items.
Proof. unfold media_snapshot_items, snapshot_item. walk. Qed.
Hint Resolve media_items_levels : page.

Lemma media_snapshot_levels : always (among [LRead]) makeMediaSnapshot.
Proof. unfold makeMediaSnapshot. walk. Qed.

Lemma location_levels : always (among [LRead]) makeLocation.
Proof. unfold makeLocation. walk. Qed.
Hint Resolve location_levels : page.

Lemma state_snapshot_levels : always (among [LRead]) makeStateSnapshot.
Proof. unfold makeStateSnapshot. walk. Qed.

Lemma navigate_levels args : always (among [LRead; LCarry]) (makeNavigate args).
Proof. unfold makeNavigate. walk. Qed.

Lemma open_url_levels args : always (among [LChange]) (makeOpenUrl args).
Proof. unfold makeOpenUrl. walk. Qed.

Lemma try_paths_levels w ps e : always (among [LRead; LOwn]) (try_paths i w ps e).
Proof. revert e. induction ps as [|p ps IH]; intros e; cbn [try_paths]; [walk|]. unfold fetch_artifact. walk. Qed.
Hint Resolve try_paths_levels : page.

Lemma artifact_levels args : always (among [LRead; LOwn]) (makeArtifactUrl i args).
Proof. unfold makeArtifactUrl. walk. Qed.

Lemma artifact_levels_wide args : always (among [LRead; LOwn; LChange; LCarry]) (makeArtifactUrl i args).
Proof. eapply always_among_sub; [|apply artifact_levels]. set_solver. Qed.
Hint Resolve artifact_levels_wide : page.

Lemma media_play_levels args : always (among [LRead; LOwn; LChange; LCarry]) (makeMediaPlay i args).
Proof. unfold makeMediaPlay, play_selected, media_url, media_element, play. walk. Qed.

Lemma media_pause_levels args : always (among [LRead; LChange]) (makeMediaPause args).
Proof. unfold makeMediaPause. walk. Qed.

Lemma progress_levels name payload : always (among [LRead; LProgress]) (postRpcProgress i name payload).
Proof. unfold postRpcProgress, postClientEvent. walk. Qed.

Lemma progress_levels_wide name payload : always (among [LRead; LOwn; LProgress; LChange]) (postRpcProgress i name payload).
Proof. eapply always_among_sub; [|apply progress_levels]. set_solver. Qed.
Hint Resolve progress_levels_wide : page.

Lemma media_observe_levels args : always (among [LRead; LOwn; LProgress; LChange]) (makeMediaObserve i args).
Proof. unfold makeMediaObserve, post_quietly. walk. Qed.

Lemma media_unobserve_levels args : always (among [LRead; LOwn]) (makeMediaUnobserve args).
Proof. unfold makeMediaUnobserve, unobserve, cleanupRpcEntry. walk. Qed.

Lemma entity_apply_levels args : always (among [LCarry]) (makeEntityApply i args).
Proof. unfold makeEntityApply. walk. Qed.

Lemma entity_query_levels args : always (among []) (makeEntityQuery i args).
Proof. unfold makeEntityQuery. walk. Qed.

Lemma script_eval_levels args : always (among [LScript]) (makeScriptEval args).
Proof. unfold makeScriptEval. walk. Qed.

Lemma page_eval_levels args :
  always (among (if allowUnsafePageEval i then [LPageCode] else [])) (makePageEval i args).
Proof. unfold makePageEval. destruct (allowUnsafePageEval i); cbn [negb]; walk. Qed.

(** The levels of a call: none that changes the page unless its kind is one of
    the listed ones, and none that may bring code into it unless it is one of
    four. *)
Definition quiet : list level := [LRead; LOwn; LProgress; LScript].
Definition moving : list level := LChange :: quiet.
Definition loud : list level := LCarry :: moving.

Definition carrying_kinds : list string := ["dom_apply"; "entity_apply"; "media_play"; "navigate"].

Definition kind_levels (kind : string) : list level :=
  if bool_decide (kind ∈ RPC_SIDE_EFFECT_KINDS) then
    if bool_decide (kind = "page_eval") then if allowUnsafePageEval i then [LPageCode] else []
    else if bool_decide (kind ∈ carrying_kinds) then loud else moving
  else quiet.

Lemma invokeByKind_levels kind args : always (among (kind_levels kind)) (invokeByKind i kind args).
Proof.
  unfold invokeByKind.
  repeat (case_bool_decide; [subst kind; eapply always_among_sub; [|first
      [apply dom_query_levels | apply dom_apply_levels | apply entity_apply_levels | apply entity_query_levels
      |apply media_snapshot_levels | apply location_levels | apply state_snapshot_levels | apply dom_click_levels
      |apply dom_set_value_levels | apply media_play_levels | apply media_pause_levels | apply media_observe_levels
      |apply media_unobserve_levels | apply navigate_levels | apply open_url_levels | apply artifact_levels
      |apply script_eval_levels | apply page_eval_levels]]; first [by_compute | let Hx := fresh in intros ? Hx; exact Hx]|]).
  exact I.
Qed.
End levels.

(** ** A call from its request to its reports *)

Section calls.
Context {E : Ellipsis} {J : Json} {U : Urls} {C : CssApi} (i : ConversationUiActionRpcExecutorInput).

(** The checks and the call they protect. *)
Definition checked_call : io value :=
  rpc_checks i ;; invokeByKind i (rpcKind (rpc_call i)) (rpcArgs (rpc_call i)).

Lemma rpc_checks_pass : rpc_checks i = Ret tt \/ exists m, rpc_checks i = throw_error m.
Proof. unfold rpc_checks. repeat case_match; eauto. Qed.

Lemma rpc_checks_ret : rpc_checks i = Ret tt ->
  allowClientRpcs i = true /\ (sideEffectsRequested (rpc_call i) = true -> allowClientEffects i = true).
Proof.
  unfold rpc_checks, throw_error. destruct (allowClientRpcs i); cbn [negb]; [|by repeat case_match].
  destruct (sideEffectsRequested (rpc_call i)), (allowClientEffects i); cbn [negb andb]; by repeat case_match.
Qed.

Lemma checked_call_levels P :
  (allowClientRpcs i = true -> (sideEffectsRequested (rpc_call i) = true -> allowClientEffects i = true) ->
   kind_levels i (rpcKind (rpc_call i)) ⊆ P) ->
  always (among P) checked_call.
Proof.
  intros HP. unfold checked_call. destruct rpc_checks_pass as [Hc|[m ->]]; [|exact I].
  destruct (rpc_checks_ret Hc) as [Hr He]. rewrite Hc.
  eapply always_among_sub; [apply HP; eauto|apply invokeByKind_levels].
Qed.

Lemma runConversationUiActionRpc_levels P :
  always (among P) checked_call -> LRead ∈ P -> LReport ∈ P -> always (among P) (runConversationUiActionRpc i).
Proof.
  intros Hc Hr Hp. unfold runConversationUiActionRpc.
  assert (Hpost : forall ok x v, always (among P) (postRpcResult i ok x v)).
  { intros. unfold postRpcResult, postClientEvent.
    repeat first [progress walk | unfold among; cbn [level_of]; case_bool_decide; done]. }
  apply always_bind; [done|intros t0]. apply always_catch.
  - unfold checked_call in Hc. destruct rpc_checks_pass as [Hk|[m ->]]; [|exact I]. rewrite Hk in Hc |- *.
    apply always_bind; [done|]. intros []. apply always_bind; [exact Hc|]. walk.
  - walk.
Qed.

(** The methods that change the page are those refused without effects. *)
Definition method_levels (method : string) : list level :=
  if bool_decide (method ∈ sideEffectMethods) then loud else quiet.

Lemma script_method_levels method cargs : always (among (method_levels method)) (script_method i method cargs).
Proof.
  unfold script_method.
  repeat (case_bool_decide; [subst method; eapply always_among_sub; [|first
      [apply dom_query_levels | apply dom_apply_levels | apply entity_apply_levels | apply entity_query_levels
      |apply media_snapshot_levels | apply location_levels | apply dom_click_levels | apply dom_set_value_levels
      |apply media_play_levels | apply media_observe_levels | apply media_unobserve_levels | apply navigate_levels
      |apply open_url_levels]]; by_compute|]).
  case_bool_decide; [subst method|exact I].
  apply always_bind; [|done]. intros. eapply always_among_sub; [|apply progress_levels]. by_compute.
Qed.

Lemma on_worker_call_levels msg :
  always (among (LScript :: if allowClientEffects i then loud else quiet)) (on_worker_call i msg).
Proof.
  unfold on_worker_call. set (method := str_or_empty _). pose proof (script_method_levels method) as Hm.
  unfold method_levels in Hm. apply always_catch; [|walk].
  destruct (bool_decide (method ∈ sideEffectMethods)); cbn [andb];
    destruct (allowClientEffects i); cbn [negb]; [|exact I| |].
  all: apply always_bind; [done|intros _]; apply always_bind; [|intros out; walk].
  all: eapply always_among_sub; [|apply Hm]; by_compute.
Qed.
End calls.

(** ** The reports of a call *)

Definition reported {R} (e : pageE R) : R -> option (string * value * bool) :=
  match e in pageE R return R -> option (string * value * bool) with
  | PostEvent _ type data => fun r =>
      if bool_decide (type = "client_rpc_progress") then None
      else Some (type, data, match r with inl _ => true | inr _ => false end)
  | _ => fun _ => None
  end.

(** The reports of an execution, each with whether the daemon took it. *)
Definition reports (t : list event) : list (string * value * bool) :=
  omap (fun ev => match ev with Ev e r => reported e r end) t.

(** The sending of [l], which stops at the first that fails. *)
Definition sent (l : list (string * value)) (s : list (string * value * bool)) (fine : bool) : Prop :=
  if fine then s = map (fun p => (p, true)) l
  else exists l1 x l2, l = l1 ++ x :: l2 /\ s = map (fun p => (p, true)) l1 ++ [(x, false)].

Lemma reports_app t1 t2 : reports (t1 ++ t2) = reports t1 ++ reports t2.
Proof. apply omap_app. Qed.

Lemma reports_none ls t : LReport ∉ ls -> Forall (on_event (among ls)) t -> reports t = [].
Proof.
  intros Hl. induction 1 as [|[R e r] t He _ IH]; [done|]. unfold reports in *. cbn [omap list_omap].
  replace (reported e r) with (@None (string * value * bool)); [done|].
  cbn [on_event] in He. destruct e; try reflexivity. unfold among, level_of in He. cbn [reported].
  case_bool_decide; [done|]. contradiction.
Qed.

Section reports.
Context {E : Ellipsis} {J : Json} {U : Urls} {C : CssApi} (i : ConversationUiActionRpcExecutorInput).
(** The reports that belong to a result, the second for an old kind of request. *)
Definition report_list (r : value + string) (elapsed : number) : list (string * value) :=
  let ok := match r with inl _ => true | inr _ => false end in
  let payload := match r with inl v => v | inr e => VString e end in
  ("client_rpc_result", result_value i "rpc" ok elapsed payload)
  :: (if bool_decide (atype (rpc_call i) = "client_probe") then [("client_probe_result", result_value i "probe" ok elapsed payload)]
      else []).

Lemma checked_call_silent t r : runs (checked_call i) t r -> reports t = [].
Proof.
  intros H. eapply (reports_none (LPageCode :: loud)); [by_compute|].
  eapply always_runs; [|exact H]. apply checked_call_levels. intros _ _. unfold kind_levels.
  repeat case_match; set_solver.
Qed.

Context (Hsid : session_key (sessionId i) <> "").

Lemma post_runs type data t o :
  type <> "client_rpc_progress" -> data <> VUndefined -> data <> VNull ->
  runs (postClientEvent (sessionId i) type data) t o ->
  (reports t = [((type, data), true)] /\ o = inl tt) \/ (reports t = [((type, data), false)] /\ exists e, o = inr e).
Proof.
  intros Ht H1 H2. unfold postClientEvent. destruct (Nat.eqb_spec (String.length (session_key (sessionId i))) 0) as [H|_].
  { by destruct (session_key (sessionId i)). }
  replace (data ??? VObject []) with data by (by destruct data).
  intros (r & t' & -> & H). unfold reports. cbn [omap list_omap reported]. rewrite bool_decide_false by done.
  destruct r as [[]|e]; destruct H as [-> ->]; [left|right]; eauto.
Qed.

Lemma postRpcResult_runs r elapsed t o :
  let ok := match r with inl _ => true | inr _ => false end in
  let payload := match r with inl v => v | inr e => VString e end in
  runs (postRpcResult i ok elapsed payload) t o ->
  exists fine, sent (report_list r elapsed) (reports t) fine /\ (if fine then o = inl tt else exists e, o = inr e).
Proof.
  intros ok payload H. unfold postRpcResult in H.
  apply runs_bind in H as [(e & H & ->)|([] & t1 & t2 & -> & H1 & H2)].
  - apply post_runs in H as [[_ [=]]|[-> _]]; [|done..]. exists false. split; [|eauto].
    eexists [], _, _. done.
  - apply post_runs in H1 as [[H1 _]|[_ (? & [=])]]; [|done..]. rewrite reports_app, H1.
    unfold report_list. case_bool_decide.
    + apply post_runs in H2 as [[-> ->]|[-> [e ->]]]; [| |done..]; [by exists true|].
      exists false. split; [|eauto]. eexists [_], _, []. done.
    + destruct H2 as [-> ->]. by exists true.
Qed.

(** The protected part of a call: what it checks and calls, then the report. *)
Definition reporting (t0 : number) : io unit :=
  rpc_checks i ;;
  result ← invokeByKind i (rpcKind (rpc_call i)) (rpcArgs (rpc_call i));
  now ← ask Now;
  postRpcResult i true (sub now t0) result.

Lemma reporting_bind t0 :
  reporting t0 = (result ← checked_call i; now ← ask Now; postRpcResult i true (sub now t0) result).
Proof. unfold reporting, checked_call. by destruct (rpc_checks_pass i) as [->|[m ->]]. Qed.

Lemma reporting_runs t0 t :
  runs (reporting t0) t (inl tt) ->
  exists t1 t2 v now, t = t1 ++ Ev Now now :: t2 /\ runs (checked_call i) t1 (inl v)
    /\ runs (postRpcResult i true (sub now t0) v) t2 (inl tt).
Proof.
  rewrite reporting_bind. intros [(e & _ & [=])|(v & t1 & t2 & -> & H1 & H2)]%runs_bind.
  destruct H2 as (now & t3 & -> & H3). eauto 10.
Qed.

Lemma reporting_throws t0 t e :
  runs (reporting t0) t (inr e) ->
  runs (checked_call i) t (inr e)
  \/ exists t1 t2 v now, t = t1 ++ Ev Now now :: t2 /\ runs (checked_call i) t1 (inl v)
       /\ runs (postRpcResult i true (sub now t0) v) t2 (inr e).
Proof.
  rewrite reporting_bind. intros [(e' & H & [= ->])|(v & t1 & t2 & -> & H1 & H2)]%runs_bind; [by left|right].
  destruct H2 as (now & t3 & -> & H3). eauto 10.
Qed.
End reports.

(** ** What queries hide *)

(** The same entries, except for the values of sensitive ones. *)
Definition same_entries : list (string * string) -> list (string * string) -> Prop :=
  Forall2 (fun p q => fst p = fst q /\ (isSensitiveKey (fst p) = false -> snd p = snd q)).

Definition is_password (el : element) : bool := bool_decide (to_lower (default "" (input_type el)) = "password").

Definition same_form_value (el : element) (v w : option string) : Prop :=
  match v, w with
  | Some v, Some w => is_password el = false -> v = w
  | None, None => True
  | _, _ => False
  end.

(** Two states of an element that differ at most in what is to be hidden: the
    text of a password, and the values of sensitive attributes and data. *)
Definition alike (a b : element) : Prop :=
  tagName a = tagName b /\ textContent a = textContent b /\ input_type a = input_type b /\ checked a = checked b
  /\ media a = media b /\ same_form_value a (form_value a) (form_value b)
  /\ same_entries (attributes a) (attributes b) /\ same_entries (default [] (dataset a)) (default [] (dataset b)).

Definition queried {R} (e : pageE R) : R -> option (string * outcome (list element)) :=
  match e in pageE R return R -> option (string * outcome (list element)) with
  | QueryAll s => fun r => Some (s, r)
  | _ => fun _ => None
  end.

Definition event_query (ev : event) : option (string * outcome (list element)) :=
  match ev with Ev e r => queried e r end.

(** The same event, or the same query answered with elements that are alike. *)
Definition alike_event (ev1 ev2 : event) : Prop :=
  match event_query ev1, event_query ev2 with
  | Some (s1, inl l1), Some (s2, inl l2) => s1 = s2 /\ Forall2 alike l1 l2
  | _, _ => ev1 = ev2
  end.

Section redaction.
Context {E : Ellipsis} {U : Urls}.

Lemma shown_entries_alike l1 l2 : same_entries l1 l2 -> shown_entries l1 = shown_entries l2.
Proof.
  intros H. unfold shown_entries. f_equal.
  apply (Forall2_take _ _ _ 20) in H. induction H as [|[k v] [k' w] l1' l2' [Hk Hv] _ IH]; [done|].
  cbn [map]. rewrite IH. f_equal. unfold shown_entry. cbn [fst snd] in *. subst k'.
  destruct (isSensitiveKey k); [done|]. by rewrite Hv.
Qed.

Lemma dom_query_item_alike fields a b : alike a b -> dom_query_item fields a = dom_query_item fields b.
Proof.
  intros (Ht & Hx & Hi & Hc & Hm & Hf & Ha & Hd). unfold dom_query_item, shown_value, getDomNodeTag.
  rewrite <-Ht, <-Hx, <-Hi, <-Hc, <-Hm, (shown_entries_alike _ _ Ha), (shown_entries_alike _ _ Hd).
  unfold same_form_value, is_password in Hf.
  destruct (form_value a) as [v|], (form_value b) as [w|]; try done.
  case_bool_decide; [done|]. by rewrite Hf.
Qed.

Lemma dom_query_items_alike fields n l1 l2 :
  Forall2 alike l1 l2 -> map (dom_query_item fields) (take n l1) = map (dom_query_item fields) (take n l2).
Proof.
  intros Ha. apply (Forall2_take _ _ _ n) in Ha.
  induction Ha as [|a b ? ? Hab _ IH]; [done|]. cbn [map]. by rewrite IH, (dom_query_item_alike _ a b).
Qed.

Lemma dom_query_alike args t1 t2 o1 o2 :
  runs (makeDomQuery args) t1 o1 -> runs (makeDomQuery args) t2 o2 -> Forall2 alike_event t1 t2 -> o1 = o2.
Proof.
  unfold makeDomQuery. destruct (negb _).
  { intros [-> ->] [-> ->] _. done. }
  intros (r1 & t1' & -> & H1) (r2 & t2' & -> & H2) [Ha _]%Forall2_cons. unfold alike_event in Ha.
  cbn [event_query queried] in Ha. destruct r1 as [l1|e1], r2 as [l2|e2].
  - destruct H1 as [_ ->], H2 as [_ ->], Ha as [_ Ha]. by rewrite (dom_query_items_alike _ _ l1 l2 Ha).
  - apply (f_equal event_query) in Ha. cbn [event_query queried] in Ha. congruence.
  - apply (f_equal event_query) in Ha. cbn [event_query queried] in Ha. congruence.
  - apply (f_equal event_query) in Ha. cbn [event_query queried] in Ha.
    destruct H1 as [_ ->], H2 as [_ ->]. congruence.
Qed.
End redaction.

(** ** Links *)

Section links.
Context {E : Ellipsis} {U : Urls}.

(** The address that [navigate] is asked for. *)
Definition asked_url (args : obj value) : string := safeTrunc (text2 "url" "href" "" args) 2000.

Lemma navigate_runs args t o :
  runs (makeNavigate args) t o ->
  t = [] \/ exists here t', t = Ev ReadLocation here :: t'
    /\ (t' = [] \/ (exists r, t' = [Ev (Assign (asked_url args)) r])
                   /\ forall u, tryParseUrl (asked_url args) = Some u -> url_origin u = origin here).
Proof.
  unfold makeNavigate. fold (asked_url args). destruct (negb _).
  { intros [-> _]. by left. }
  intros (here & t' & -> & H). right. exists here, t'. split; [done|].
  destruct (tryParseUrl (asked_url args)) as [u|]; cbn [mbind prog_bind] in H.
  - case_bool_decide as Ho; cbn [negb] in H; [right|left; by destruct H].
    destruct H as (r & t & -> & H). split; [|by intros ? [= <-]]. exists r. f_equal. destruct r; by destruct H.
  - right. destruct H as (r & t & -> & H). split; [|done]. exists r. f_equal. destruct r; by destruct H.
Qed.

Definition is_web (u : url) : Prop := url_protocol u = "http:" \/ url_protocol u = "https:".

Lemma open_url_runs args t o :
  runs (makeOpenUrl args) t o ->
  t = [] \/ exists u prompt, tryParseUrl (asked_url args) = Some u /\ is_web u
    /\ (t = [Ev (Confirm prompt) false] \/ exists r, t = [Ev (Confirm prompt) true; Ev (OpenWindow (url_text u)) r]).
Proof.
  unfold makeOpenUrl. fold (asked_url args). destruct (negb _).
  { intros [-> _]. by left. }
  destruct (tryParseUrl (asked_url args)) as [u|]; [|intros [-> _]; by left].
  destruct (negb (bool_decide (url_protocol u = "http:")) && _) eqn:Hw; [intros [-> _]; by left|].
  set (prompt := if truthy_str _ then _ else _). intros (yes & t' & -> & H). right. exists u, prompt. split; [done|].
  split.
  { apply andb_false_iff in Hw as [Hw|Hw]; apply negb_false_iff, bool_decide_eq_true in Hw; [by left|by right]. }
  destruct yes; cbn [negb] in H; [right|left; by destruct H as [-> _]].
  destruct H as (r & t & -> & H). exists r. do 2 f_equal. destruct r; by destruct H.
Qed.
End links.

(** A call that may start by itself is refused only for want of a kind. *)
Lemma checks_pass (i : ConversationUiActionRpcExecutorInput) (data : value) :
  rpc_call i = parseConversationUiAction data ->
  let request := deriveConversationRpcRequest data (sessionId i) (allowClientRpcs i) (allowClientEffects i) in
  canRun request = true -> autoRun request = true ->
  rpc_checks i = if bool_decide (rpcKind (rpc_call i) = "") then throw_error "missing rpc.kind" else Ret tt.
Proof.
  intros Hi request. unfold request, deriveConversationRpcRequest. cbn [canRun autoRun canRunAuto]. rewrite <-Hi.
  intros [Hid Hsid]%andb_split [[Hr He]%andb_split _]%andb_split.
  unfold rpc_checks. rewrite Hid. apply Nat.ltb_lt in Hsid.
  rewrite (proj2 (Nat.eqb_neq _ _)) by lia. cbn [negb orb].
  case_bool_decide as Hkind; [by rewrite Hkind|]. rewrite (proj2 (truthy_str_true _)) by done. rewrite Hr. cbn [negb].
  destruct (sideEffectsRequested (rpc_call i)); [|done]. cbn [negb orb] in He. by rewrite He.
Qed.

(** Requests that carry a text into the page: as an attribute of the elements
    of a selector, and as the script of an entity. *)
Definition attribute_op (selector name code : string) : obj value :=
  [("op", VString "set_attr"); ("selector", VString selector); ("name", VString name); ("value", VString code)].
Definition attribute_args (selector name code : string) : obj value :=
  [("ops", VArray [VObject (attribute_op selector name code)])].

Definition entity_args (id kind code : string) : obj value :=
  [("ops", VArray [VObject [("op", VString "create"); ("id", VString id); ("entity_kind", VString kind);
                            ("props", VObject [("script", VString code)])]])].

Section carried.
Context {E : Ellipsis} {J : Json} {U : Urls} {C : CssApi} (i : ConversationUiActionRpcExecutorInput).

Lemma attribute_carried selector name code el :
  selector <> "" -> name <> "" ->
  exists v, runs (invokeByKind i "dom_apply" (attribute_args selector name code))
    [Ev (QueryAll selector) (inl [el]); Ev (Change (SetAttribute name (stake 2000 code)) (node el)) (inl tt)] (inl v).
Proof.
  intros Hs%truthy_str_true Hn%truthy_str_true. change (invokeByKind i "dom_apply") with makeDomApply.
  unfold makeDomApply.
  change (take 100 _) with [VObject (attribute_op selector name code)]. cbn [mapM].
  assert (Ha : applyOne (VObject (attribute_op selector name code))
    = (els ← call (QueryAll selector); dom_apply_to "set_attr" (attribute_op selector name code) selector (take 1 els))).
  { unfold applyOne. change (safeObject (VObject ?o)) with o. change (text "selector" _) with selector.
    change (trim (text2 "op" "kind" "" _)) with "set_attr". cbv zeta. change (truthy_str "set_attr") with true.
    by rewrite Hs. }
  unfold apply_result. rewrite Ha. unfold dom_apply_to. change (text "name" _) with name. change (text "value" _) with code.
  rewrite Hn. unfold change_all. eexists.
  exists (inl [el]), [Ev (Change (SetAttribute name (stake 2000 code)) (node el)) (inl tt)]. split; [done|].
  exists (inl tt), []. split; [done|]. split; reflexivity.
Qed.

Lemma entity_carried id kind code v :
  trim id = id -> trim kind = kind -> kind <> "" -> hasSceneApply i = true ->
  runs (invokeByKind i "entity_apply" (entity_args id kind code))
    [Ev (SceneApply [OpCreate (or_undefined id) kind None [("script", VString code)]]) (inl v)] (inl v).
Proof.
  intros Hid Hk Hne%truthy_str_true Hs. change (invokeByKind i "entity_apply" ?a) with (makeEntityApply i (VObject a)).
  unfold makeEntityApply. rewrite Hs. cbn [negb].
  assert (Ho : buildEntityApplyOps (VObject (entity_args id kind code)) = [OpCreate (or_undefined id) kind None [("script", VString code)]]).
  { unfold buildEntityApplyOps, entity_args, read_op.
    change (prop "ops" _) with (VArray [VObject [("op", VString "create"); ("id", VString id); ("entity_kind", VString kind);
                            ("props", VObject [("script", VString code)])]]). cbn [omap list_omap].
    set (o := safeObject _). change (tstr "id" o) with (trim id). change (tstr "entity_kind" o) with (trim kind).
    change (str_or (tstr "op" o) (tstr "kind" o)) with "create". rewrite Hid, Hk, bool_decide_true by done.
    unfold str_or. rewrite Hne. cbn [negb]. by rewrite Hne. }
  rewrite Ho. cbn [existsb orb]. exists (inl v), []. split; [done|]. split; reflexivity.
Qed.
End carried.


(** C11: every call is reported.  Against every browser a call ends.  Its
    execution is: the time is taken; then the checked call runs, [t1], without
    any report, to its result or exception [r]; the time is taken again; and the
    rest, [t2], reports this [r], with the time between the two (an old-style
    probe gets a second event): the whole of it when the daemon takes it, and
    then the call ends normally.  When sending a failure fails, that is the end;
    but when sending a success fails with [e], even after the daemon has taken
    the first event of it, the same call is reported once more, as failed with
    [e]. *)
Theorem rpc_reported {E : Ellipsis} {J : Json} {U : Urls} {C : CssApi}
    (i : ConversationUiActionRpcExecutorInput) {S : Type} (b : browser S) (s : S) :
  session_key (sessionId i) <> "" ->
  let '(t, o, _) := exec b (runConversationUiActionRpc i) s in
  exists t0 t1 r now t2 s1 fine1,
    t = Ev Now t0 :: t1 ++ Ev Now now :: t2
    /\ runs (checked_call i) t1 r /\ reports t1 = []
    /\ sent (report_list i r (sub now t0)) s1 fine1
    /\ match fine1, r with
       | true, _ => reports t2 = s1 /\ o = inl tt
       | false, inr _ => reports t2 = s1 /\ exists e, o = inr e
       | false, inl v =>
           exists e t3 now' t4 s2 fine2,
             t2 = t3 ++ Ev Now now' :: t4
             /\ runs (postRpcResult i true (sub now t0) v) t3 (inr e) /\ reports t3 = s1
             /\ sent (report_list i (inr e) (sub now' t0)) s2 fine2 /\ reports t4 = s2
             /\ if fine2 then o = inl tt else exists e, o = inr e
       end.
Proof.
  intros Hsid. destruct (exec b _ s) as [[t o] s'] eqn:Ex. apply exec_runs in Ex.
  unfold runConversationUiActionRpc in Ex. destruct Ex as (t0 & t' & -> & Ex).
  apply runs_catch in Ex as [([] & Ex & ->)|(e & t1 & t2 & -> & Ex & Eh)].
  - apply reporting_runs in Ex as (t1 & t2 & v & now & -> & H1 & H2).
    apply (postRpcResult_runs i Hsid (inl v)) in H2 as (fine & Hs & Ho). destruct fine; [|by destruct Ho].
    exists t0, t1, (inl v), now, t2, (reports t2), true. by rewrite (checked_call_silent i t1 _ H1).
  - destruct Eh as (now & t2' & -> & Eh). apply (postRpcResult_runs i Hsid (inr e)) in Eh as (fine & Hs & Ho).
    apply reporting_throws in Ex as [Ex|(t3 & t4 & v & now' & -> & H1 & H2)].
    + exists t0, t1, (inr e), now, t2', (reports t2'), fine. rewrite (checked_call_silent i t1 _ Ex). by destruct fine.
    + pose proof H2 as H3. apply (postRpcResult_runs i Hsid (inl v)) in H3 as (fine' & Hs' & Ho'). destruct fine'; [done|].
      exists t0, t3, (inl v), now', (t4 ++ Ev Now now :: t2'), (reports t4), false. rewrite (checked_call_silent i t3 _ H1).
      rewrite <-app_assoc. do 4 (split; [done|]). by exists e, t4, now, t2', (reports t2'), fine.
Qed.

(** C12: what the agent sees of the page's secrets.  A query of the document does
    not depend on the text of passwords nor on the values of sensitive data and
    attributes: on pages that agree otherwise it has the same outcome, error
    included.  The address's sensitive parameters are listed as redacted.  But
    the [value] attribute of a password is not among the sensitive ones and is
    shown, and so are the whole query and the whole address, next to the list. *)
Theorem queries_redacted {E : Ellipsis} {U : Urls} :
  (forall args t1 t2 o1 o2,
     runs (makeDomQuery args) t1 o1 -> runs (makeDomQuery args) t2 o2 -> Forall2 alike_event t1 t2 -> o1 = o2)
  /\ (forall l u k v, tryParseUrl (href l) = Some u -> truthy_str (href l) = true -> isSensitiveKey k = true ->
       get k (safeObject (vprop "search_params" (location_value l))) = Some v -> v = VString "(redacted)")
  /\ (forall el secret, is_password el = true -> attributes el = [("type", "password"); ("value", secret)] -> (String.length secret <= 200)%nat ->
       dom_query_item ["attrs"] el = [("attrs", VObject [("type", VString "password"); ("value", VString secret)])]
       /\ (form_value el <> None -> dom_query_item ["value"] el = [("value", VString "(redacted)")]))
  /\ (forall l, (String.length (search l) <= 200)%nat -> (String.length (href l) <= 400)%nat ->
       vprop "search" (location_value l) = VString (search l) /\ vprop "href" (location_value l) = VString (href l)).
Proof.
  split; [apply dom_query_alike|]. split; [|split].
  - intros l u k v Hu Hh Hk. unfold location_value. rewrite Hh, Hu.
    change (safeObject _) with (of_entries (map (shown_param u) (take 40 (map fst (searchParams u))))).
    intros (k' & [= -> ->] & _)%get_of_entries_in%list_elem_of_fmap. by rewrite Hk.
  - intros el secret Hp Ha Hl. split.
    + unfold dom_query_item. rewrite Ha. destruct (form_value el), (input_type el), (media el);
        cbn -[safeTrunc isSensitiveKey]; by rewrite (safeTrunc_short secret).
    + unfold dom_query_item, shown_value, is_password in *. rewrite Hp.
      destruct (form_value el), (input_type el), (media el); done.
  - intros l Hs Hh. unfold location_value. rewrite (safeTrunc_short (search l)), (safeTrunc_short (href l)) by done.
    done.
Qed.

(** C13: where the agent can send the page.  [navigate] asks the browser for its
    address and then assigns at most the address it was asked for, which is of
    the same origin whenever it is a complete address; [open_url] opens at most
    the complete web address it was asked for, and only when the user agrees.
    An address that is not complete is not compared: one that begins with two
    slashes, which names another host, is assigned. *)
Theorem links_guarded {E : Ellipsis} {U : Urls} (args : obj value) t o :
  (runs (makeNavigate args) t o ->
     t = [] \/ exists here t', t = Ev ReadLocation here :: t'
       /\ (t' = [] \/ (exists r, t' = [Ev (Assign (asked_url args)) r])
                      /\ forall u, tryParseUrl (asked_url args) = Some u -> url_origin u = origin here))
  /\ (runs (makeOpenUrl args) t o ->
     t = [] \/ exists u prompt, tryParseUrl (asked_url args) = Some u /\ is_web u
       /\ (t = [Ev (Confirm prompt) false] \/ exists r, t = [Ev (Confirm prompt) true; Ev (OpenWindow (url_text u)) r]))
  /\ (tryParseUrl "//other.example" = None -> forall here,
     runs (makeNavigate [("url", VString "//other.example")]) [Ev ReadLocation here; Ev (Assign "//other.example") (inl tt)]
       (inl (VObject [("kind", VString "navigate"); ("url", VString "//other.example")]))).
Proof.
  split; [apply navigate_runs|]. split; [apply open_url_runs|].
  intros Hu here. unfold makeNavigate. change (safeTrunc _ 2000) with "//other.example". cbn [truthy_str negb].
  exists here, [Ev (Assign "//other.example") (inl tt)]. split; [done|]. rewrite Hu. cbn [mbind prog_bind].
  exists (inl tt), []. done.
Qed.

(** ** Instances *)

Definition demo_urls : Urls := fun s =>
  if starts_with "http:" s then Some (mkUrl s "http://host" "http:" "/" [("token", "t0")]) else None.
Definition demo_css : CssApi := None.

(** A request for a click. *)
Definition demo_click : value :=
  VObject [("tool_call_id", VString "c1");
           ("action", VObject [("type", VString "client_rpc");
                               ("rpc", VObject [("kind", VString "dom_click"); ("args", VObject [("selector", VString "b")])])])].

Definition demo_input (effects : bool) (data : value) : ConversationUiActionRpcExecutorInput :=
  mkInput "" false (Some "s") true effects false (parseConversationUiAction data) None false.

(** A page with one element, whose daemon takes every event. *)
Definition demo_element (secret : string) : element :=
  mkElement 0 "INPUT" None (Some secret) (Some "password") false None [("type", "password"); ("data-token", secret)] None true.

Definition demo_browser : browser unit := fun R e s =>
  match e in pageE R return R * unit with
  | QueryAll _ => (inl [demo_element "x"], s)
  | QueryFirst _ => (inl (Some (demo_element "x")), s)
  | ById _ => (None, s)
  | Body => (demo_element "", s)
  | NewElement _ => (inr "no", s)
  | Change _ _ => (inl tt, s)
  | AddListener _ _ => (tt, s)
  | RemoveListener _ _ => (inl tt, s)
  | ReadLocation => (mkLocation "http://host/" "http://host" "/" "" "" "", s)
  | Assign _ => (inl tt, s)
  | Confirm _ => (true, s)
  | OpenWindow _ => (inl tt, s)
  | Now => (int 1, s)
  | Fetch _ => (inr "no", s)
  | ReadBlob => (inr "no", s)
  | CreateObjectUrl => ("blob:", s)
  | RevokeObjectUrl _ => (inl tt, s)
  | StartWorker => (inl tt, s)
  | RunWorker _ _ _ => (inr "no", s)
  | Terminate => (inl tt, s)
  | Respond _ => (inl tt, s)
  | RunPageCode _ _ _ => (inr "no", s)
  | SceneApply _ => (inr "no", s)
  | GetBlobUrls => ([], s)
  | SetBlobUrls _ => (tt, s)
  | GetCleanups => ([], s)
  | SetCleanups _ => (tt, s)
  | PostEvent _ _ _ => (inl tt, s)
  end.

Definition demo_run (effects : bool) : list event * (unit + string) * unit :=
  exec demo_browser
    (runConversationUiActionRpc (E := demo_dots) (J := text_json) (U := demo_urls) (C := demo_css) (demo_input effects demo_click)) tt.

(** The kinds of the reports. *)
Definition report_heads (t : list event) : list (string * value * bool) :=
  map (fun p => (fst (fst p), vprop "ok" (snd (fst p)), snd p)) (reports t).


Lemma rpc_reported_witness :
  session_key (Some "s") <> ""
  /\ (exists t0 t1 r now t2 s1 (fine1 : bool),
      fst (fst (demo_run true)) = Ev Now t0 :: t1 ++ Ev Now now :: t2
      /\ runs (checked_call (E := demo_dots) (U := demo_urls) (C := demo_css) (demo_input true demo_click)) t1 r
      /\ reports t1 = []
      /\ sent (report_list (J := text_json) (demo_input true demo_click) r (sub now t0)) s1 fine1)
  /\ report_heads (fst (fst (demo_run true))) = [("client_rpc_result", VBool true, true)].
Proof.
  split; [discriminate|]. split; [|vm_compute; reflexivity].
  assert (H : session_key (sessionId (demo_input true demo_click)) <> "") by discriminate.
  pose proof (rpc_reported (E := demo_dots) (J := text_json) (U := demo_urls) (C := demo_css) (demo_input true demo_click) demo_browser tt H) as R.
  unfold demo_run. destruct (exec demo_browser _ tt) as [[t o] u]. cbn [fst].
  destruct R as (t0 & t1 & r & now & t2 & s1 & fine1 & H1 & H2 & H3 & H4 & _).
  exists t0, t1, r, now, t2, s1, fine1. split; [exact H1|]. split; [exact H2|]. split; [exact H3|exact H4].
Defined.

(** A query of two pages with different secrets. *)
Definition demo_query : obj value :=
  [("selector", VString "input"); ("fields", VArray [VString "value"; VString "attrs"])].

Definition demo_answer (secret : string) : list event := [Ev (QueryAll "input") (inl [demo_element secret])].

Definition demo_query_result : value :=
  VObject
    [("kind", VString "dom_query"); ("selector", VString "input"); ("limit", VNumber (int 10));
     ("fields", VArray [VString "value"; VString "attrs"]);
     ("items", VArray [VObject
        [("value", VString "(redacted)");
         ("attrs", VObject [("type", VString "password"); ("data-token", VString "(redacted)")])]])].

Lemma queries_redacted_witness :
  runs (makeDomQuery (E := demo_dots) demo_query) (demo_answer "one") (inl demo_query_result)
  /\ (forall o, runs (makeDomQuery (E := demo_dots) demo_query) (demo_answer "two") o -> inl demo_query_result = o).
Proof.
  assert (H1 : runs (makeDomQuery (E := demo_dots) demo_query) (demo_answer "one") (inl demo_query_result)).
  { exists (inl [demo_element "one"]), []. split; [reflexivity|]. split; reflexivity. }
  split; [exact H1|]. intros o H2.
  apply (proj1 (queries_redacted (E := demo_dots) (U := demo_urls)) demo_query (demo_answer "one") (demo_answer "two") _ _ H1 H2).
  constructor; [|constructor]. split; [reflexivity|]. constructor; [|constructor].
  unfold alike, same_form_value, demo_element. cbn [tagName textContent input_type checked media form_value attributes dataset].
  repeat (split; [reflexivity || discriminate|]).
  split; [|constructor]. repeat constructor. cbn [fst]. vm_compute. discriminate.
Defined.

(** The page moves within its origin, and to another host by the gap. *)
Definition demo_here : location := mkLocation "http://host/" "http://host" "/" "" "" "".

Lemma links_guarded_witness :
  (exists here t', [Ev ReadLocation demo_here; Ev (Assign "http://host/x") (inl tt)] = Ev ReadLocation here :: t'
    /\ (t' = [] \/ (exists r, t' = [Ev (Assign "http://host/x") r])
                   /\ forall u, demo_urls "http://host/x" = Some u -> url_origin u = origin here))
  /\ runs (makeNavigate (E := demo_dots) (U := demo_urls) [("url", VString "//other.example")])
       [Ev ReadLocation demo_here; Ev (Assign "//other.example") (inl tt)]
       (inl (VObject [("kind", VString "navigate"); ("url", VString "//other.example")])).
Proof.
  split.
  - destruct (links_guarded (E := demo_dots) (U := demo_urls) [("url", VString "http://host/x")]
      [Ev ReadLocation demo_here; Ev (Assign "http://host/x") (inl tt)]
      (inl (VObject [("kind", VString "navigate"); ("url", VString "http://host/x")]))) as [H _].
    destruct H as [H|H]; [|discriminate H|exact H].
    exists demo_here, [Ev (Assign "http://host/x") (inl tt)]. split; [reflexivity|].
    exists (inl tt), []. split; [reflexivity|]. split; reflexivity.
  - destruct (links_guarded (E := demo_dots) (U := demo_urls) [] [] (inr "")) as (_ & _ & H).
    exact (H eq_refl demo_here).
Defined.
