(* ===== verification/ConversationView.v ===== *)
(** The state of the conversation view (src/ui/src/components/conversation/
    useConversationViewState.ts, useConversationUiActionRpcState.ts): what was
    shown, acknowledged and run, the calls that start by themselves, and the
    observers that time out. *)
From S2P Require Import Prelude JsNumber JsString JsValue JsOrder JsonUtils JsonText Conversation Browser ClientRpc.

Definition ACKED_KEY_LIMIT : nat := 2000.
Definition LOCAL_UI_ACTION_LIMIT : nat := 2000.
Definition MEDIA_OBSERVER_TTL_MS : Z := 15 * 60 * 1000.
Definition MEDIA_OBSERVER_MAX : nat := 32.

(** ** Keys with a time, and a limit on their number *)

(** [x || 0] of a number. *)
Definition or_0 (x : number) : number := if num_truthy x then x else int 0.

(** [a.ts - b.ts > 0]. *)
Definition younger {A} (ts : A -> number) (a b : A) : bool := gtb (sub (ts a) (ts b)) (int 0).

(** The entries beyond the limit, least recent first. *)
Definition overflowing {A} (ts : A -> number) (limit : nat) (l : list A) : list A :=
  take (length l - limit) (sort_by (younger ts) l).

Definition key_ts (p : string * number) : number := or_0 (snd p).

(** Deleting keys in turn. *)
Definition remove_all {V} (ks : list string) (o : obj V) : obj V := fold_left (fun o k => remove k o) ks o.

Definition markSeenWithLimit (now : number) (store : obj number) (key : string) (limit : nat) : obj number :=
  if negb (truthy_str key) then store
  else
    let store := set key now store in
    if (length store <=? limit)%nat then store
    else remove_all (map fst (overflowing key_ts limit store)) store.

(** The state update of [markAckedKey]. *)
Definition markAckedKey (now : number) (key : string) (prev : obj number) : obj number :=
  if negb (truthy_str key) then prev
  else
    let next := set key now prev in
    if (length next <=? ACKED_KEY_LIMIT)%nat then next
    else remove_all (map fst (overflowing key_ts ACKED_KEY_LIMIT next)) next.

(** [!!store[key]]. *)
Definition seen (key : string) (store : obj number) : bool := num_truthy (default NaN (get key store)).

(** ** Events on arrival *)

Section events.
Context {E : Ellipsis} {J : Json}.

(** An event of the conversation: its type and its data. *)
Definition parsed_action (event : string * value) : ParsedConversationUiAction :=
  parseConversationUiAction (VObject (getNormalizedEventRecord (snd event))).

(** One event of the first effect: the actions shown, each reported once. *)
Definition show_event (sessionId : option string) (store : obj number) (event : string * value) : io (obj number) :=
  let p := parsed_action event in
  if negb (bool_decide (fst event = "ui_action")) || negb (truthy_str (toolCallId p)) || seen (toolCallId p) store
  then Ret store
  else
    now ← ask Now;
    catch (postClientEvent sessionId "ui_action_shown"
             (VObject [("tool_call_id", VString (toolCallId p)); ("action_type", VString (atype p)); ("title", VString (title p))]))
          (fun _ => Ret tt) ;;
    Ret (markSeenWithLimit now store (toolCallId p) LOCAL_UI_ACTION_LIMIT).

Fixpoint fold_io {A S} (f : S -> A -> io S) (s : S) (l : list A) : io S :=
  match l with
  | [] => Ret s
  | x :: l => s' ← f s x; fold_io f s' l
  end.

Definition show_events (sessionId : option string) (store : obj number) (events : list (string * value)) : io (obj number) :=
  if (String.length (session_key sessionId) =? 0)%nat then Ret store else fold_io (show_event sessionId) store events.

(** ** Scene operations that are applied on arrival *)

Definition RPC_TYPES : list string := ["client_rpc"; "collab_rpc"; "client_probe"].

(** [entity_apply:${toolCallId || rpcId || idx}]; the identifier of the call is
    not empty where the key is used. *)
Definition scene_key (p : ParsedConversationUiAction) : string := "entity_apply:" ++s str_or (toolCallId p) (rpcId p).

Definition scene_result (p : ParsedConversationUiAction) (prefix : string) (r : value + string) : value :=
  VObject
    [(prefix ++s "_id", VString (rpcId p)); ("request_tool_call_id", VString (toolCallId p)); (prefix ++s "_kind", VString (rpcKind p));
     ("ok", VBool (match r with inl _ => true | inr _ => false end)); ("elapsed_ms", VNumber (int 0));
     (match r with inl v => ("result", capEventPayload v) | inr e => ("error", VString e) end)].

Definition post_scene_result (sessionId : option string) (p : ParsedConversationUiAction) (r : value + string) : io unit :=
  catch (postClientEvent sessionId "client_rpc_result" (scene_result p "rpc" r)) (fun _ => Ret tt) ;;
  (if bool_decide (atype p = "client_probe") then
     catch (postClientEvent sessionId "client_probe_result" (scene_result p "probe" r)) (fun _ => Ret tt)
   else Ret tt).

(** The operations of a call, unless one of them clears the scene. *)
Definition apply_scene (p : ParsedConversationUiAction) : io value :=
  let ops := buildEntityApplyOps (VObject (rpcArgs p)) in
  if existsb (fun op => match op with OpClear _ => true | _ => false end) ops then throw_error "scene clear is disabled in WebUI"
  else call (SceneApply ops).

Definition wants_scene (event : string * value) (p : ParsedConversationUiAction) : bool :=
  bool_decide (fst event = "ui_action") && bool_decide (atype p ∈ RPC_TYPES) && bool_decide (rpcKind p = "entity_apply")
  && autoRunRequested p && truthy_str (rpcId p).

(** One event of the second effect. *)
Definition scene_event (sessionId : option string) (store : obj number) (event : string * value) : io (obj number) :=
  let p := parsed_action event in
  if negb (wants_scene event p) || seen (scene_key p) store then Ret store
  else
    now ← ask Now;
    catch (result ← apply_scene p; post_scene_result sessionId p (inl result))
          (fun e => post_scene_result sessionId p (inr e)) ;;
    Ret (markSeenWithLimit now store (scene_key p) LOCAL_UI_ACTION_LIMIT).

Definition scene_events (disableAutoClientRpcs allowClientRpcs allowClientEffects hasSceneApply : bool)
    (sessionId : option string) (store : obj number) (events : list (string * value)) : io (obj number) :=
  if disableAutoClientRpcs || negb allowClientRpcs || negb allowClientEffects || negb hasSceneApply
     || (String.length (session_key sessionId) =? 0)%nat
  then Ret store else fold_io (scene_event sessionId) store events.
End events.

(** ** Observers that time out *)

(** Removal of an observer, which also removes its listeners. *)
Definition drop_observer (st : obj RpcCleanupEntry * list (nat * string)) (id : string) :=
  let '(entries, removed) := st in
  match get id entries with
  | Some entry => (remove id entries, removed ++ cleanups entry)
  | None => st
  end.

Definition timed_out (now : number) (e : RpcCleanupEntry) : bool :=
  is_observer e && gtb (sub now (lastActiveMs e)) (int MEDIA_OBSERVER_TTL_MS).

Definition active (p : string * RpcCleanupEntry) : number := lastActiveMs (snd p).

(** One tick of the timer: the observers that stay, and the listeners removed. *)
Definition observer_tick (now : number) (entries : obj RpcCleanupEntry) : obj RpcCleanupEntry * list (nat * string) :=
  let old := List.filter (fun p => timed_out now (snd p)) entries in
  let activeMedia := List.filter (fun p => is_observer (snd p) && negb (timed_out now (snd p))) entries in
  let st := fold_left drop_observer (map fst old) (entries, []) in
  if (MEDIA_OBSERVER_MAX <? length activeMedia)%nat
  then fold_left drop_observer (map fst (overflowing active MEDIA_OBSERVER_MAX activeMedia)) st
  else st.

(** When the view goes away: all observers and file addresses are given back. *)
Definition unmount : io unit :=
  entries ← ask GetCleanups;
  for_each cleanupRpcEntry (keys entries) ;;
  ask (SetCleanups []) ;;
  urls ← ask GetBlobUrls;
  for_each (fun url => attempt (RevokeObjectUrl url)) urls ;;
  ask (SetBlobUrls []).

(** ** Calls that start by themselves *)

(** What a card of the conversation is given. *)
Record CardProps := mkCard {
  card_base : string; card_yolo : bool; card_session : option string;
  card_rpcs : bool; card_effects : bool; card_eval : bool; disableAutoClientRpcs : bool;
  card_data : value; card_idx : nat; card_entities : option (list value); card_scene : bool }.

(** The state: [probeRanRef], the map of the page with the number of times it
    was replaced, and [pendingAutoRunsRef]. *)
Record autorun := mkAuto {
  probeRan : obj number; onceGen : nat; once : obj bool; pending : obj ConversationUiActionRpcExecutorInput }.

(** A card as it was rendered: what its effect and its button use. *)
Record rendered := mkRendered {
  card : CardProps; request : ConversationUiActionRpcRequest; ackKey : string; globalKey : string;
  alreadyRan : bool; rendered_gen : nat }.

(** [globalAutoRunOnceMap]: a map with too many keys is replaced. *)
Definition globalAutoRunOnceMap (s : autorun) : autorun :=
  if (2000 <? length (once s))%nat then mkAuto (probeRan s) (S (onceGen s)) [] (pending s) else s.

Definition card_request (c : CardProps) : ConversationUiActionRpcRequest :=
  deriveConversationRpcRequest (card_data c) (card_session c) (card_rpcs c) (card_effects c).

Definition card_ackKey (c : CardProps) : string :=
  let p := parsed (card_request c) in
  "rpc:" ++s str_or (toolCallId p) (str_or (rpcId p) (pretty (Z.of_nat (card_idx c)))).

Definition card_globalKey (c : CardProps) : string := str_or (session_key (card_session c)) "no_session" ++s "::" ++s card_ackKey c.

Definition card_input (c : CardProps) : ConversationUiActionRpcExecutorInput :=
  mkInput (card_base c) (card_yolo c) (card_session c) (card_rpcs c) (card_effects c) (card_eval c)
    (parsed (card_request c)) (card_entities c) (card_scene c).

Definition render (s : autorun) (c : CardProps) : autorun * rendered :=
  let s := globalAutoRunOnceMap s in
  let ran := seen (card_ackKey c) (probeRan s) || default false (get (card_globalKey c) (once s)) in
  (s, mkRendered c (card_request c) (card_ackKey c) (card_globalKey c) ran (onceGen s)).

(** The card's button. *)
Definition runDisabled (c : CardProps) : bool :=
  let r := card_request c in
  negb (canRun r) || negb (card_rpcs c) || (sideEffectsRequested (parsed r) && negb (card_effects c)).

Definition onRun (now : number) (r : rendered) (s : autorun) : autorun :=
  mkAuto (markSeenWithLimit now (probeRan s) (ackKey r) LOCAL_UI_ACTION_LIMIT) (onceGen s) (once s) (pending s).

(** The conditions of the effect that do not depend on the past. *)
Definition wants_auto_run (c : CardProps) : bool :=
  let r := card_request c in
  negb (disableAutoClientRpcs c) && autoRun r && negb (bool_decide (rpcKind (parsed r) = "entity_apply")) && canRun r.

(** The effect of a card.  A map that was replaced since the card was rendered
    is written in vain. *)
Definition auto_effect (now : number) (s : autorun) (r : rendered) : autorun :=
  if negb (wants_auto_run (card r)) || alreadyRan r then s
  else
    mkAuto (markSeenWithLimit now (probeRan s) (ackKey r) LOCAL_UI_ACTION_LIMIT) (onceGen s)
      (if bool_decide (rendered_gen r = onceGen s) then set (globalKey r) true (once s) else once s)
      (set (globalKey r) (card_input (card r)) (pending s)).

(** The function that the effect returns, when it ran. *)
Definition auto_cleanup (s : autorun) (r : rendered) : autorun :=
  if negb (wants_auto_run (card r)) || alreadyRan r then s
  else mkAuto (probeRan s) (onceGen s) (once s) (remove (globalKey r) (pending s)).

(** The view's effect after those of its cards: the calls that are started. *)
Definition flush (s : autorun) : autorun * obj ConversationUiActionRpcExecutorInput :=
  (mkAuto (probeRan s) (onceGen s) (once s) [], pending s).

Fixpoint render_all (s : autorun) (cs : list CardProps) : autorun * list rendered :=
  match cs with
  | [] => (s, [])
  | c :: cs =>
      let '(s, r) := render s c in
      let '(s, rs) := render_all s cs in (s, r :: rs)
  end.

(** A commit of the page: the cards are rendered, the previous effects cleaned
    up, the new ones run, and then the view's. *)
Definition commit (now : number) (cs : list CardProps) (st : autorun * list rendered)
    : autorun * list rendered * obj ConversationUiActionRpcExecutorInput :=
  let '(s, before) := st in
  let '(s, rs) := render_all s cs in
  let s := fold_left auto_cleanup before s in
  let s := fold_left (auto_effect now) rs s in
  let '(s, started) := flush s in (s, rs, started).

(** What the page does: a commit, or a click on the button of a card shown. *)
Inductive page_input :=
  | Commit (now : number) (cs : list CardProps)
  | Press (now : number) (n : nat).

Definition page_step (st : autorun * list rendered) (i : page_input)
    : autorun * list rendered * obj ConversationUiActionRpcExecutorInput :=
  match i with
  | Commit now cs => commit now cs st
  | Press now n =>
      match snd st !! n with
      | Some r => if runDisabled (card r) then (st, []) else (onRun now r (fst st), snd st, [])
      | None => (st, [])
      end
  end.

(** All calls that started by themselves, by key, in order. *)
Fixpoint auto_runs (st : autorun * list rendered) (l : list page_input) : list (string * ConversationUiActionRpcExecutorInput) :=
  match l with
  | [] => []
  | i :: l => let '(st, started) := page_step st i in started ++ auto_runs st l
  end.

Definition no_runs : autorun * list rendered := (mkAuto [] 0 [] [], []).

(** ** A commit, in terms of its cards *)

Lemma once_map_idem s : globalAutoRunOnceMap (globalAutoRunOnceMap s) = globalAutoRunOnceMap s.
Proof. unfold globalAutoRunOnceMap. by destruct (2000 <? length (once s))%nat eqn:H; cbn [once length]; [|rewrite H]. Qed.

(** The map that the cards of a commit find. *)
Definition settled (s : autorun) (cs : list CardProps) : autorun :=
  match cs with [] => s | _ => globalAutoRunOnceMap s end.

Lemma render_all_eq s cs : render_all s cs = (settled s cs, map (fun c => snd (render (settled s cs) c)) cs).
Proof.
  revert s. induction cs as [|c cs IH]; intros s; [done|]. cbn [render_all render settled map].
  rewrite IH. assert (H : settled (globalAutoRunOnceMap s) cs = globalAutoRunOnceMap s).
  { destruct cs; [done|]. apply once_map_idem. }
  rewrite H. do 2 f_equal. unfold render. by rewrite once_map_idem.
Qed.

Lemma cleanup_none s rs : pending s = [] -> fold_left auto_cleanup rs s = s.
Proof.
  intros Hp. induction rs as [|r rs IH]; [done|]. cbn [fold_left].
  replace (auto_cleanup s r) with s; [done|]. unfold auto_cleanup. case_match; [done|].
  rewrite Hp. destruct s; cbn in *. by subst.
Qed.

(** A card whose effect runs. *)
Definition fires (s : autorun) (c : CardProps) : bool :=
  wants_auto_run c && negb (seen (card_ackKey c) (probeRan s) || default false (get (card_globalKey c) (once s))).

(** The state of the map and of the waiting calls while the effects of a commit
    run, that began in [s0]. *)
Record effects_ok (s0 s : autorun) : Prop := {
  eff_gen : onceGen s = onceGen s0;
  eff_pending : wf (pending s);
  eff_once : wf (once s);
  eff_new k : is_Some (get k (pending s)) -> default false (get k (once s0)) = false /\ get k (once s) = Some true;
  eff_old k : get k (pending s) = None -> get k (once s) = get k (once s0);
  eff_card k i : get k (pending s) = Some i ->
    exists c, k = card_globalKey c /\ i = card_input c /\ wants_auto_run c = true }.

Lemma effect_ok now s0 s c :
  effects_ok s0 s ->
  let s' := auto_effect now s (snd (render (settled s0 [c]) c)) in
  settled s0 [c] = s0 ->
  effects_ok s0 s' /\ (forall k, is_Some (get k (pending s)) -> is_Some (get k (pending s')))
  /\ (fires s0 c = true -> is_Some (get (card_globalKey c) (pending s'))).
Proof.
  intros Hs s' H0. unfold s'. rewrite H0. unfold render. rewrite (H0 : globalAutoRunOnceMap s0 = s0). cbn [snd].
  unfold auto_effect, fires. cbn [card alreadyRan globalKey rendered_gen ackKey].
  destruct (wants_auto_run c) eqn:Hw; cbn [negb orb andb]; [|done].
  destruct (seen _ _ || _) eqn:Hran; [done|]. apply orb_false_iff in Hran as [_ Hran].
  rewrite (bool_decide_true (onceGen s0 = onceGen s)) by (by destruct Hs). cbn [pending].
  split; [|split; [|by rewrite get_set_eq]].
  - destruct Hs as [Hg Hp Ho Hn Hl Hc]. split; cbn [onceGen once pending]; auto with js.
    + intros k. rewrite !get_set. case_bool_decide; [by subst|apply Hn].
    + intros k. rewrite !get_set. case_bool_decide; [done|apply Hl].
    + intros k i. rewrite get_set. case_bool_decide; [|apply Hc]. intros [= <-]. subst. eauto.
  - intros k Hk. rewrite get_set. by case_bool_decide.
Qed.

Lemma effects_run now s0 s cs :
  effects_ok s0 s -> globalAutoRunOnceMap s0 = s0 ->
  let s' := fold_left (auto_effect now) (map (fun c => snd (render s0 c)) cs) s in
  effects_ok s0 s' /\ (forall k, is_Some (get k (pending s)) -> is_Some (get k (pending s')))
  /\ (forall c, c ∈ cs -> fires s0 c = true -> is_Some (get (card_globalKey c) (pending s'))).
Proof.
  intros Hs H0. revert s Hs. induction cs as [|c cs IH]; intros s Hs.
  { split; [done|split; [done|]]. intros c Hc%elem_of_nil. done. }
  cbn [map fold_left]. pose proof (effect_ok now s0 s c Hs H0) as (Hs1 & Hk1 & Hf1).
  cbn [settled] in *. rewrite H0 in Hs1, Hk1, Hf1. destruct (IH _ Hs1) as (Hs2 & Hk2 & Hf2).
  split; [done|split]; [by eauto|]. intros c' [->|Hc']%elem_of_cons Hfire; eauto.
Qed.

(** The state between commits. *)
Record auto_ok (s : autorun) (runs : list (string * ConversationUiActionRpcExecutorInput)) : Prop := {
  ok_pending : pending s = [];
  ok_once : wf (once s);
  ok_ran k : is_Some (get k (once s)) -> k ∈ map fst runs;
  ok_few : (length runs <= 2000)%nat ->
    NoDup (map fst runs) /\ forall k, k ∈ map fst runs -> get k (once s) = Some true;
  ok_cards : Forall (fun p => exists c, p = (card_globalKey c, card_input c) /\ wants_auto_run c = true) runs }.

Lemma once_few s runs : auto_ok s runs -> (length (once s) <= length runs)%nat.
Proof.
  intros Hs. rewrite <-(length_map fst (once s)), <-(length_map fst runs).
  apply submseteq_length, NoDup_submseteq; [apply Hs|].
  intros k Hk. apply (ok_ran _ _ Hs). destruct (get k (once s)) eqn:E; [done|]. by apply get_none in E.
Qed.

Lemma settled_ok s runs cs : auto_ok s runs ->
  auto_ok (settled s cs) runs /\ (forall c, wants_auto_run c = true ->
    fires (settled s cs) c = true \/ seen (card_ackKey c) (probeRan s) = true \/ card_globalKey c ∈ map fst runs)
  /\ probeRan (settled s cs) = probeRan s.
Proof.
  intros Hs. assert (Hp : probeRan (settled s cs) = probeRan s).
  { destruct cs; [done|]. cbn [settled]. unfold globalAutoRunOnceMap. by case_match. }
  assert (Hok : auto_ok (settled s cs) runs).
  { destruct cs as [|c cs]; [done|]. cbn [settled]. unfold globalAutoRunOnceMap.
    destruct (Nat.ltb_spec 2000 (length (once s))) as [Hlt|]; [|done]. pose proof (once_few _ _ Hs).
    split; cbn [pending once]; [apply Hs|constructor|by intros k [? ?]|lia|apply Hs]. }
  split; [done|split; [|done]]. intros c Hc. unfold fires. rewrite Hc, Hp. cbn [andb].
  destruct (seen _ _); [by right; left|]. cbn [orb].
  destruct (get (card_globalKey c) (once (settled s cs))) as [b|] eqn:Hg; [|by left].
  right. right. apply (ok_ran _ _ Hok). by rewrite Hg.
Qed.

Lemma effects_start s : pending s = [] -> wf (once s) -> effects_ok s s.
Proof. intros Hp Ho. split; try done; rewrite Hp; [constructor|by intros k [? ?]|done]. Qed.

Lemma settled_idem s cs : cs <> [] -> globalAutoRunOnceMap (settled s cs) = settled s cs.
Proof. destruct cs; [done|]. intros _. apply once_map_idem. Qed.

(** What the effects of a commit add to what was run before. *)
Lemma effects_add s0 s2 runs :
  auto_ok s0 runs -> effects_ok s0 s2 -> auto_ok (fst (flush s2)) (runs ++ pending s2).
Proof.
  intros Hok [_ Hp Ho Hn Hl Hc]. unfold flush. split; cbn [fst pending once]; [done|done|..].
  - intros k Hk. rewrite map_app, elem_of_app. destruct (get k (pending s2)) as [i|] eqn:E.
    + right. apply get_in in E. apply list_elem_of_fmap. by exists (k, i).
    + left. rewrite Hl in Hk by done. by apply Hok.
  - intros Hlen. rewrite length_app in Hlen. destruct (ok_few _ _ Hok) as [Hnd Hall]; [lia|].
    rewrite map_app. split.
    + apply NoDup_app. split; [done|split; [|done]]. intros k Hk Hin.
      assert (Hs : is_Some (get k (pending s2))).
      { destruct (get k (pending s2)) eqn:E; [done|]. by apply get_none in E. }
      destruct (Hn k Hs) as [Hf _]. by rewrite (Hall k Hk) in Hf.
    + intros k [Hk|Hk]%elem_of_app.
      * destruct (get k (pending s2)) eqn:E; [by apply Hn|]. rewrite Hl by done. by apply Hall.
      * apply Hn. destruct (get k (pending s2)) eqn:E; [done|]. by apply get_none in E.
  - apply Forall_app. split; [apply Hok|]. apply Forall_forall. intros [k i] Hin.
    apply get_elem in Hin; [|done]. destruct (Hc k i Hin) as (c & -> & -> & Hw). eauto.
Qed.

Lemma commit_ok now cs s before runs :
  auto_ok s runs ->
  let '(s', _, started) := commit now cs (s, before) in
  auto_ok s' (runs ++ started)
  /\ forall c, c ∈ cs -> wants_auto_run c = true ->
       seen (card_ackKey c) (probeRan s) = true \/ card_globalKey c ∈ map fst (runs ++ started).
Proof.
  intros Hs. unfold commit. rewrite render_all_eq.
  destruct (settled_ok s runs cs Hs) as (Hok & Hfires & Hpr).
  rewrite cleanup_none by apply Hok. set (s1 := settled s cs) in *.
  pose proof (effects_start s1 (ok_pending _ _ Hok) (ok_once _ _ Hok)) as He.
  assert (Hrun : let s2 := fold_left (auto_effect now) (map (fun c => snd (render s1 c)) cs) s1 in
    effects_ok s1 s2 /\ forall c, c ∈ cs -> fires s1 c = true -> is_Some (get (card_globalKey c) (pending s2))).
  { destruct cs as [|c cs]; [split; [done|]; by intros ? ?%elem_of_nil|].
    destruct (effects_run now s1 s1 (c :: cs) He) as (H1 & _ & H2); [by apply settled_idem|done]. }
  destruct Hrun as [He2 Hf2]. set (s2 := fold_left _ _ _) in *. unfold flush. split; [by apply (effects_add s1)|].
  intros c Hc Hw. destruct (Hfires c Hw) as [H|[H|H]]; [right|by left|right; rewrite map_app; set_solver].
  destruct (Hf2 c Hc H) as [i Hi%get_in]. rewrite map_app. apply elem_of_app. right. apply list_elem_of_fmap.
  by exists (card_globalKey c, i).
Qed.

Lemma auto_ok_press now r s runs : auto_ok s runs -> auto_ok (onRun now r s) runs.
Proof. by intros [? ? ? ? ?]; split. Qed.

Lemma page_step_ok st i runs :
  auto_ok (fst st) runs ->
  let '(st', started) := page_step st i in auto_ok (fst st') (runs ++ started).
Proof.
  intros Hs. destruct st as [s rs]. destruct i as [now cs|now n]; cbn [page_step].
  - pose proof (commit_ok now cs s rs runs Hs) as H. destruct (commit now cs (s, rs)) as [[s' rs'] started]. apply H.
  - cbn [snd]. destruct (rs !! n) as [r|]; [destruct (runDisabled _)|]; rewrite app_nil_r; [done| |done].
    by apply auto_ok_press.
Qed.

(** The state after some inputs. *)
Definition play (st : autorun * list rendered) (l : list page_input) : autorun * list rendered :=
  fold_left (fun st i => fst (page_step st i)) l st.

Lemma play_ok l st runs : auto_ok (fst st) runs -> auto_ok (fst (play st l)) (runs ++ auto_runs st l).
Proof.
  revert st runs. induction l as [|i l IH]; intros st runs Hs; cbn [auto_runs play fold_left]; [by rewrite app_nil_r|].
  pose proof (page_step_ok st i runs Hs) as H. destruct (page_step st i) as [st' started]. rewrite app_assoc. by apply IH.
Qed.

Lemma auto_runs_app l1 l2 st : auto_runs st (l1 ++ l2) = auto_runs st l1 ++ auto_runs (play st l1) l2.
Proof.
  revert st. induction l1 as [|i l1 IH]; intros st; [done|]. cbn [app auto_runs play fold_left].
  destruct (page_step st i) as [st' started]. rewrite IH. by rewrite app_assoc.
Qed.

Lemma no_runs_ok : auto_ok (fst no_runs) [].
Proof. split; try done; [constructor|by intros k [? ?]|]. intros _. split; [constructor|]. by intros k ?%elem_of_nil. Qed.

Lemma wanted_checked c :
  wants_auto_run c = true ->
  rpc_checks (card_input c) = if bool_decide (rpcKind (parsed (card_request c)) = "") then throw_error "missing rpc.kind" else Ret tt.
Proof.
  unfold wants_auto_run. intros [[[_ Ha]%andb_split _]%andb_split Hc]%andb_split.
  apply (checks_pass (card_input c) (card_data c)); done.
Qed.

Lemma set_first {V} k (v : V) : set k v [] = [(k, v)].
Proof. unfold set. cbn. by destruct (array_index k). Qed.

(** The key of a call that has started keeps others with it from starting in
    the same view, whatever their session. *)
Lemma ack_key_suppresses now now' c c' :
  num_truthy now = true -> wants_auto_run c = true -> card_ackKey c = card_ackKey c' ->
  map fst (auto_runs no_runs [Commit now [c]; Commit now' [c']]) = [card_globalKey c].
Proof.
  intros Hn Hw Hk. cbn [auto_runs page_step]. unfold commit at 1. unfold no_runs. cbn [render_all render].
  change (globalAutoRunOnceMap (mkAuto [] 0 [] [])) with (mkAuto [] 0 [] []).
  cbn [probeRan once fold_left]. unfold auto_effect at 1. cbn [card alreadyRan globalKey rendered_gen ackKey onceGen pending probeRan once].
  change (seen (card_ackKey c) []) with false. change (default false (get (card_globalKey c) [])) with false.
  rewrite Hw, bool_decide_true by done. cbn [negb orb].
  rewrite (set_first (card_globalKey c) (card_input c)), (set_first (card_globalKey c) true). unfold flush at 1.
  cbn [probeRan once onceGen pending].
  assert (Hm : markSeenWithLimit now [] (card_ackKey c) LOCAL_UI_ACTION_LIMIT = [(card_ackKey c, now)]).
  { unfold markSeenWithLimit. rewrite set_first. done. }
  rewrite Hm. cbn [app]. unfold commit. cbn [render_all render].
  set (s1 := globalAutoRunOnceMap _).
  assert (Hs1 : s1 = mkAuto [(card_ackKey c, now)] 0 [(card_globalKey c, true)] []) by done. rewrite Hs1. clear s1 Hs1.
  cbn [probeRan once onceGen pending].
  assert (Hseen : seen (card_ackKey c') [(card_ackKey c, now)] = true).
  { unfold seen. cbn [get]. by rewrite bool_decide_true. }
  rewrite Hseen. cbn [orb]. rewrite cleanup_none by done. cbn [fold_left]. unfold auto_effect. cbn [alreadyRan]. rewrite orb_true_r.
  done.
Qed.

(** ** Effects that are run twice *)

(** React's strict mode, in development: the effects of cards that appear with
    the view are run, cleaned up, and run again as they were rendered. *)
Definition strict_commit (now : number) (cs : list CardProps) (st : autorun * list rendered) :=
  let '(s, rs, started) := commit now cs st in
  let s := fold_left auto_cleanup rs s in
  let s := fold_left (auto_effect now) rs s in
  let '(s, again) := flush s in (s, rs, started ++ again).

(** A call that starts by itself then starts twice: the effect tests what was
    rendered, not the map of the page. *)
Lemma strict_mode_runs_twice now c :
  wants_auto_run c = true ->
  map fst (snd (strict_commit now [c] no_runs)) = [card_globalKey c; card_globalKey c].
Proof.
  intros Hw. unfold strict_commit, commit, no_runs. cbn -[wants_auto_run card_globalKey card_ackKey LOCAL_UI_ACTION_LIMIT].
  unfold auto_effect, auto_cleanup. cbn -[wants_auto_run card_globalKey card_ackKey LOCAL_UI_ACTION_LIMIT].
  rewrite Hw. cbn -[card_globalKey card_ackKey LOCAL_UI_ACTION_LIMIT set markSeenWithLimit].
  unfold set. cbn -[card_globalKey array_index]. by destruct (array_index (card_globalKey c)).
Qed.

(** C14: calls that start by themselves.  Under every sequence of commits and
    clicks, the calls that the page starts on its own are calls of cards that
    ask for it, and the executor's checks refuse one only when it names no kind;
    as long as at most 2000 calls have started, no key is started twice (the map
    of keys is emptied beyond that); and after a commit every call of its cards
    that asks for it has been started, unless the key of its call, which does
    not name the session, was used in this view before: by its button, or by a
    call with this key, which also keeps a call of another session from being
    started.  (React's strict mode, which runs the effects twice, starts it
    twice.) *)
Theorem auto_run_once (l : list page_input) :
  ((length (auto_runs no_runs l) <= 2000)%nat -> NoDup (map fst (auto_runs no_runs l)))
  /\ Forall (fun p => exists c, p = (card_globalKey c, card_input c) /\ wants_auto_run c = true
       /\ rpc_checks (card_input c) = if bool_decide (rpcKind (parsed (card_request c)) = "")
                                      then throw_error "missing rpc.kind" else Ret tt) (auto_runs no_runs l)
  /\ (forall now cs c, c ∈ cs -> wants_auto_run c = true ->
       seen (card_ackKey c) (probeRan (fst (play no_runs l))) = true
       \/ card_globalKey c ∈ map fst (auto_runs no_runs (l ++ [Commit now cs])))
  /\ (forall now now' c c', num_truthy now = true -> wants_auto_run c = true -> card_ackKey c = card_ackKey c' ->
       map fst (auto_runs no_runs [Commit now [c]; Commit now' [c']]) = [card_globalKey c])
  /\ (forall now c, wants_auto_run c = true ->
       map fst (snd (strict_commit now [c] no_runs)) = [card_globalKey c; card_globalKey c]).
Proof.
  pose proof (play_ok l no_runs [] no_runs_ok) as H. cbn [app] in H.
  split; [|split; [|split; [|split; [apply ack_key_suppresses|apply strict_mode_runs_twice]]]].
  - intros Hl. by apply (ok_few _ _ H).
  - eapply Forall_impl; [apply H|]. intros p (c & -> & Hw). exists c. split; [done|split; [done|]].
    by apply wanted_checked.
  - intros now cs c Hc Hw. rewrite auto_runs_app. cbn [auto_runs page_step].
    destruct (play no_runs l) as [s rs] eqn:Hplay.
    pose proof (commit_ok now cs s rs _ H) as Hcm. destruct (commit now cs (s, rs)) as [[s' rs'] started].
    rewrite app_nil_r. by apply Hcm.
Qed.

(** ** What a limit drops *)

(** A finite time, as a whole number of steps. *)
Definition rank (x : number) : Z := match x with Fin k => k | _ => 0 end.
Definition finite_ts {A} (ts : A -> number) (l : list A) : Prop := forall x, x ∈ l -> ts x = Fin (rank (ts x)).

Section overflow.
Context {A : Type} (ts : A -> number) (limit : nat) (l : list A) (Hfin : finite_ts ts l).

Definition later_than (x y : A) : bool := rank (ts y) <? rank (ts x).

Lemma overflowing_eq : overflowing ts limit l = take (length l - limit) (sort_by later_than l).
Proof.
  unfold overflowing. f_equal. apply sort_by_ext. intros x y Hx Hy. unfold younger, later_than.
  by rewrite (Hfin x Hx), (Hfin y Hy), sub_gt_0.
Qed.

Lemma length_overflowing : length (overflowing ts limit l) = (length l - limit)%nat.
Proof. rewrite overflowing_eq, length_take, length_sort_by. lia. Qed.

Lemma overflowing_perm : exists kept, Permutation.Permutation l (overflowing ts limit l ++ kept).
Proof. exists (drop (length l - limit) (sort_by later_than l)). by rewrite overflowing_eq, take_drop, sort_by_perm. Qed.

Lemma overflowing_in x : x ∈ overflowing ts limit l -> x ∈ l.
Proof.
  rewrite overflowing_eq. intros Hx. apply (elem_of_sort_by later_than).
  rewrite <-(take_drop (length l - limit) (sort_by later_than l)). apply elem_of_app. by left.
Qed.

Lemma overflowing_oldest x y :
  x ∈ overflowing ts limit l -> y ∈ l -> y ∉ overflowing ts limit l -> rank (ts x) <= rank (ts y).
Proof.
  rewrite overflowing_eq. intros Hx Hy Hn. apply (elem_of_sort_by later_than) in Hy.
  rewrite <-(take_drop (length l - limit) (sort_by later_than l)) in Hy. apply elem_of_app in Hy as [|Hy]; [done|].
  apply Z.ltb_ge. change (ngt later_than x y).
  eapply StronglySorted_app_rel; [|exact Hx|exact Hy]. rewrite take_drop.
  apply sort_by_sorted; unfold ngt, later_than; intros *; rewrite ?Z.ltb_lt, ?Z.ltb_ge; lia.
Qed.
End overflow.

Lemma NoDup_overflowing {V} (ts : string * V -> number) limit (o : obj V) :
  finite_ts ts o -> wf o -> NoDup (map fst (overflowing ts limit o)).
Proof.
  intros Hf Ho. destruct (overflowing_perm ts limit o Hf) as [kept Hp].
  eapply (wf_perm o _ Hp) in Ho. unfold wf, keys in Ho. rewrite map_app in Ho. by apply NoDup_app in Ho as [? _].
Qed.

Lemma get_remove_all {V} ks (o : obj V) k : get k (remove_all ks o) = if bool_decide (k ∈ ks) then None else get k o.
Proof.
  unfold remove_all. revert o. induction ks as [|k' ks IH]; intros o; [done|]. cbn [fold_left]. rewrite IH, get_remove.
  repeat case_bool_decide; set_solver.
Qed.

Lemma wf_remove_all {V} ks (o : obj V) : wf o -> wf (remove_all ks o).
Proof. unfold remove_all. revert o. induction ks; intros o Ho; cbn [fold_left]; auto with js. Qed.

Lemma length_remove {V} k (o : obj V) : wf o -> is_Some (get k o) -> S (length (remove k o)) = length o.
Proof.
  induction o as [|[k1 v1] o IH]; intros Ho Hk; [by destruct Hk|]. apply NoDup_cons in Ho as [Hk1 Ho].
  unfold remove in *. cbn [List.filter fst length]. cbn [get] in Hk. case_bool_decide as E; cbn [negb].
  - subst. f_equal. rewrite filter_bool_id; [done|]. intros [k' v'] Hin.
    apply negb_true_iff, bool_decide_eq_false. cbn [fst]. intros ->. apply Hk1, list_elem_of_fmap. by exists (k', v').
  - cbn [length]. by rewrite IH.
Qed.

Lemma length_remove_all {V} ks (o : obj V) :
  wf o -> NoDup ks -> (forall k, k ∈ ks -> is_Some (get k o)) -> (length (remove_all ks o) + length ks = length o)%nat.
Proof.
  intros Ho Hk. revert o Ho. induction Hk as [|k ks Hk Hnd IH]; intros o Ho Hs; [unfold remove_all; simpl; lia|].
  change (remove_all (k :: ks) o) with (remove_all ks (remove k o)). cbn [length].
  rewrite <-(length_remove k o) by (auto; apply Hs; by left).
  rewrite <-(IH (remove k o)); [lia|auto with js|].
  intros k' Hk'. rewrite get_remove. case_bool_decide; [by subst|]. apply Hs. by right.
Qed.

(** The store of times after a limit: nothing is added or altered, the limit is
    reached exactly, and what is dropped is not more recent than what stays. *)
Lemma limited_spec {V} (ts : string * V -> number) limit (o : obj V) :
  finite_ts ts o -> wf o ->
  let r := remove_all (map fst (overflowing ts limit o)) o in
  wf r /\ length r = Nat.min limit (length o)
  /\ (forall k v, get k r = Some v -> get k o = Some v)
  /\ (forall k v k' v', get k o = Some v -> get k r = None -> get k' r = Some v' -> rank (ts (k, v)) <= rank (ts (k', v'))).
Proof.
  intros Hf Ho r. unfold r.
  assert (Hin : forall k v, get k o = Some v -> k ∈ map fst (overflowing ts limit o) <-> (k, v) ∈ overflowing ts limit o).
  { intros k v Hv. split; [|intros H; apply list_elem_of_fmap; by exists (k, v)].
    intros ([k' v'] & -> & Hx)%list_elem_of_fmap. pose proof (overflowing_in ts limit o Hf _ Hx) as Hw.
    apply (wf_get _ _ _ Ho) in Hw. cbn [fst] in *. congruence. }
  split; [by apply wf_remove_all|]. split; [|split].
  - pose proof (length_remove_all (map fst (overflowing ts limit o)) o Ho (NoDup_overflowing ts limit o Hf Ho)) as Hl.
    rewrite length_map, length_overflowing in Hl by done. rewrite <-(Nat.add_cancel_r _ _ (length o - limit)), Hl; [lia|].
    intros k ([k' v] & -> & Hx)%list_elem_of_fmap. apply overflowing_in in Hx; [|done]. exists v. by apply wf_get.
  - intros k v. rewrite get_remove_all. by case_bool_decide.
  - intros k v k' v' Hv. rewrite !get_remove_all. case_bool_decide as H1; [|congruence]. intros _.
    case_bool_decide as H2; [done|]. intros Hv'. apply (overflowing_oldest ts limit o Hf).
    + by apply Hin.
    + by apply get_in.
    + intros H. apply H2. by apply (Hin k' v').
Qed.

Lemma key_ts_fin k z : key_ts (k, Fin z) = Fin z.
Proof.
  unfold key_ts, or_0. cbn [snd num_truthy]. destruct (Z.eqb_spec z 0) as [->|]; done.
Qed.

(** ** Dropping observers *)

Lemma remove_absent {V} k (o : obj V) : get k o = None -> remove k o = o.
Proof.
  intros Hk. unfold remove. apply filter_bool_id. intros [k' v] Hin. apply negb_true_iff, bool_decide_eq_false.
  cbn [fst]. intros ->. apply get_none in Hk. apply Hk, list_elem_of_fmap. by exists (k', v).
Qed.

Lemma drop_observers_spec ks o l :
  let '(o', l') := fold_left drop_observer ks (o, l) in
  o' = remove_all ks o
  /\ forall p, p ∈ l' <-> p ∈ l \/ exists k e, k ∈ ks /\ get k o = Some e /\ p ∈ cleanups e.
Proof.
  revert o l. induction ks as [|k ks IH]; intros o l; [split; [done|set_solver]|]. cbn [fold_left drop_observer].
  change (remove_all (k :: ks) o) with (remove_all ks (remove k o)). destruct (get k o) as [e|] eqn:Hk.
  - specialize (IH (remove k o) (l ++ cleanups e)). destruct (fold_left _ ks _) as [o' l'].
    destruct IH as [-> IH]. split; [done|]. intros p. rewrite IH, elem_of_app. setoid_rewrite get_remove. split.
    + intros [[H|H]|(k' & e' & Hin & He & Hp)]; [by left|right; exists k, e; set_solver|].
      case_bool_decide; [done|]. right. exists k', e'. set_solver.
    + intros [H|(k' & e' & [->|Hin]%elem_of_cons & He & Hp)]; [by left; left|left; right; congruence|].
      destruct (decide (k' = k)) as [->|]; [left; right; congruence|]. right. exists k', e'.
      by rewrite bool_decide_false.
  - rewrite (remove_absent k o Hk). specialize (IH o l). destruct (fold_left _ ks _) as [o' l'].
    destruct IH as [-> IH]. split; [done|]. intros p. rewrite IH. split.
    + intros [H|(k' & e' & Hin & He)]; [by left|right; exists k', e'; set_solver].
    + intros [H|(k' & e' & [->|Hin]%elem_of_cons & He & Hp)]; [by left|congruence|right; eauto].
Qed.

(** The observers that may stay, before the limit. *)
Definition active_media (now : number) (entries : obj RpcCleanupEntry) : obj RpcCleanupEntry :=
  List.filter (fun p => is_observer (snd p) && negb (timed_out now (snd p))) entries.

Definition dropped_ids (now : number) (entries : obj RpcCleanupEntry) : list string :=
  map fst (List.filter (fun p => timed_out now (snd p)) entries)
  ++ map fst (overflowing active MEDIA_OBSERVER_MAX (active_media now entries)).

Lemma observer_tick_eq now entries :
  observer_tick now entries = fold_left drop_observer (dropped_ids now entries) (entries, []).
Proof.
  unfold observer_tick, dropped_ids, active_media. rewrite fold_left_app.
  set (l := List.filter (fun p => is_observer _ && _) entries). set (st := fold_left _ _ (entries, [])).
  destruct (Nat.ltb_spec MEDIA_OBSERVER_MAX (length l)); [done|].
  replace (overflowing active MEDIA_OBSERVER_MAX l) with (@nil (string * RpcCleanupEntry)); [done|].
  unfold overflowing. by replace (length l - MEDIA_OBSERVER_MAX)%nat with 0%nat by lia.
Qed.

(** The entries of a store whose times are finite. *)
Lemma all_finite n store key k v :
  Forall (fun p : string * number => is_finite (snd p) = true) store ->
  get k (set key (Fin n) store) = Some v -> exists z, v = Fin z.
Proof.
  intros Hf. rewrite get_set. case_bool_decide; [intros [= <-]; eauto|]. intros Hg%get_in.
  rewrite Forall_forall in Hf. specialize (Hf _ Hg). cbn [snd] in Hf. destruct v; try done. eauto.
Qed.

Lemma all_finite_ts n store key :
  wf store -> Forall (fun p : string * number => is_finite (snd p) = true) store ->
  finite_ts key_ts (set key (Fin n) store).
Proof.
  intros Hw Hf [k v] Hin. apply get_elem in Hin; [|auto with js].
  destruct (all_finite n store key k v Hf Hin) as [z ->]. by rewrite key_ts_fin.
Qed.

Lemma nonempty_get {V} (o : obj V) : (0 < length o)%nat -> exists k v, get k o = Some v.
Proof.
  destruct o as [|[k v] o]; cbn [length]; [lia|]. intros _. exists k, v. cbn [get]. by rewrite bool_decide_true.
Qed.

Lemma length_set_pos {V} k (v : V) o : (0 < length (set k v o))%nat.
Proof.
  pose proof (get_set_eq k v o) as H. destruct (set k v o); [done|]. cbn [length]. lia.
Qed.

(** Marking, whether or not the limit is reached. *)
Lemma markSeen_spec n store key limit :
  wf store -> Forall (fun p => is_finite (snd p) = true) store -> key <> "" ->
  let all := set key (Fin n) store in
  let kept := markSeenWithLimit (Fin n) store key limit in
  wf kept /\ length kept = Nat.min limit (length all)
  /\ (forall k v, get k kept = Some v -> get k all = Some v)
  /\ (forall k v k' v', get k all = Some v -> get k kept = None -> get k' kept = Some v' ->
       rank (key_ts (k, v)) <= rank (key_ts (k', v'))).
Proof.
  intros Hw Hf Hk all kept. unfold kept, markSeenWithLimit. rewrite (proj2 (truthy_str_true key) Hk). cbn [negb].
  fold all. assert (Hwa : wf all) by (unfold all; auto with js).
  destruct (Nat.leb_spec (length all) limit) as [Hle|Hlt].
  - split; [done|split; [lia|split; [done|congruence]]].
  - apply limited_spec; [by apply all_finite_ts|done].
Qed.

(** The memory of what was seen.  Marking a key keeps the times of at most
    [limit] keys, exactly as many as there are up to the limit; no other time is
    added or altered, and no key that is dropped is more recent than one that
    stays; so the key just marked stays when its time is the latest.  The keys
    of acknowledged actions are kept in the same way. *)
Theorem seen_keys_limited (n : Z) (store : obj number) (key : string) (limit : nat) :
  wf store -> Forall (fun p => is_finite (snd p) = true) store -> key <> "" ->
  let all := set key (Fin n) store in
  let kept := markSeenWithLimit (Fin n) store key limit in
  wf kept /\ length kept = Nat.min limit (length all)
  /\ (forall k v, get k kept = Some v -> get k all = Some v)
  /\ (forall k v k' v', get k all = Some v -> get k kept = None -> get k' kept = Some v' -> leb v v' = true)
  /\ ((0 < limit)%nat -> (forall k v, get k store = Some v -> k <> key -> ltb v (Fin n) = true) -> get key kept = Some (Fin n))
  /\ markAckedKey (Fin n) key store = markSeenWithLimit (Fin n) store key ACKED_KEY_LIMIT.
Proof.
  intros Hw Hf Hk all kept. destruct (markSeen_spec n store key limit Hw Hf Hk) as (Hwk & Hlen & Hsub & Hold).
  fold all kept in Hwk, Hlen, Hsub, Hold.
  assert (Hleb : forall k v k' v', get k all = Some v -> get k kept = None -> get k' kept = Some v' -> leb v v' = true).
  { intros k v k' v' Hv Hn Hv'. specialize (Hold k v k' v' Hv Hn Hv'). apply Hsub in Hv'.
    destruct (all_finite n store key k v Hf Hv) as [z ->], (all_finite n store key k' v' Hf Hv') as [z' ->].
    rewrite !key_ts_fin in Hold. by apply Z.leb_le. }
  do 4 (split; [done|]). split; [|done].
  intros Hl Hlate. destruct (get key kept) as [v|] eqn:Hkey.
  { apply Hsub in Hkey. unfold all in Hkey. by rewrite get_set_eq in Hkey. }
  destruct (nonempty_get kept) as (k' & v' & Hv').
  { rewrite Hlen. unfold all. pose proof (length_set_pos key (Fin n) store). lia. }
  pose proof (Hleb key (Fin n) k' v' (get_set_eq _ _ _) Hkey Hv') as Hle.
  assert (Hne : k' <> key) by congruence. apply Hsub in Hv'.
  destruct (all_finite n store key k' v' Hf Hv') as [z ->]. unfold all in Hv'. rewrite get_set_ne in Hv' by done.
  specialize (Hlate k' (Fin z) Hv' Hne). cbn in Hle, Hlate. lia.
Qed.


Section tick.
Context (now : number) (entries : obj RpcCleanupEntry).
Context (Hw : wf entries) (Hf : Forall (fun p => is_finite (lastActiveMs (snd p)) = true) entries).

Let media := active_media now entries.
Let kept := remove_all (dropped_ids now entries) entries.

Lemma active_media_get k e :
  get k media = Some e <-> get k entries = Some e /\ is_observer e = true /\ timed_out now e = false.
Proof.
  unfold media, active_media. rewrite get_filter by done. cbn [snd]. destruct (get k entries) as [e'|]; [|by split; [|intros [? _]]].
  destruct (is_observer e') eqn:Ho, (timed_out now e') eqn:Ht; cbn [andb negb];
    (split; [by intros [= <-]|intros ([= <-] & H1 & H2); congruence]).
Qed.

Lemma active_finite : finite_ts active media.
Proof.
  intros [k e] Hin. apply elem_of_filter_bool in Hin as [Hin _]. rewrite Forall_forall in Hf.
  specialize (Hf _ Hin). cbn [snd] in Hf. unfold active. cbn [snd]. by destruct (lastActiveMs e).
Qed.

Lemma wf_media : wf media.
Proof. by apply wf_filter. Qed.

(** A dropped identifier has timed out, or is beyond the limit. *)
Lemma dropped_iff k e : get k entries = Some e ->
  k ∈ dropped_ids now entries <->
  timed_out now e = true \/ k ∈ map fst (overflowing active MEDIA_OBSERVER_MAX media).
Proof.
  intros He. unfold dropped_ids. rewrite elem_of_app. apply or_iff_compat_r. split.
  - intros ([k' e'] & -> & [Hin Ht]%elem_of_filter_bool)%list_elem_of_fmap. apply (wf_get _ _ _ Hw) in Hin.
    cbn [fst snd] in *. congruence.
  - intros Ht. apply list_elem_of_fmap. exists (k, e). split; [done|]. apply elem_of_filter_bool. split; [by apply get_in|done].
Qed.

Lemma dropped_spec :
  (forall k e, get k kept = Some e -> get k entries = Some e /\ timed_out now e = false)
  /\ (length (List.filter (fun p => is_observer (snd p)) kept) <= 32)%nat
  /\ (forall k e, get k entries = Some e -> get k kept = None ->
       is_observer e = true /\ (timed_out now e = true \/ forall k' e', get k' kept = Some e' -> is_observer e' = true ->
         leb (lastActiveMs e) (lastActiveMs e') = true)).
Proof.
  pose proof (limited_spec active MEDIA_OBSERVER_MAX media active_finite wf_media) as (_ & Hlen & _ & Hold).
  set (r := remove_all _ media) in *.
  assert (Hkeep : forall k e, get k kept = Some e -> get k entries = Some e /\ timed_out now e = false
    /\ (is_observer e = true -> get k r = Some e)).
  { intros k e. unfold kept. rewrite get_remove_all. case_bool_decide as Hin; [done|]. intros He.
    rewrite (dropped_iff k e He) in Hin.
    destruct (timed_out now e) eqn:Ht; [exfalso; apply Hin; by left|]. do 2 (split; [done|]).
    intros Ho. unfold r. rewrite get_remove_all, bool_decide_false by (intros H; apply Hin; by right). by apply active_media_get. }
  split; [|split].
  - intros k e Hk. destruct (Hkeep k e Hk) as (? & ? & _). done.
  - transitivity (length r); [|rewrite Hlen; apply Nat.le_min_l]. apply submseteq_length, NoDup_submseteq.
    { apply NoDup_of_wf, wf_filter. by apply wf_remove_all. }
    intros [k e] [Hin Ho]%elem_of_filter_bool. apply get_elem in Hin; [|by apply wf_remove_all].
    by apply get_in, Hkeep.
  - intros k e He. unfold kept at 1. rewrite get_remove_all. case_bool_decide as Hin; [|congruence]. intros _.
    apply (dropped_iff k e He) in Hin. destruct (timed_out now e) eqn:Ht.
    { split; [|by left]. unfold timed_out in Ht. by apply andb_split in Ht as [? _]. }
    destruct Hin as [|Hin]; [done|]. assert (Hm : get k media = Some e).
    { apply list_elem_of_fmap in Hin as ([k' e'] & -> & Hin). apply (overflowing_in active _ media active_finite) in Hin.
      apply (wf_get _ _ _ wf_media) in Hin. cbn [fst] in *. pose proof (proj1 (proj1 (active_media_get _ _) Hin)). congruence. }
    split; [by apply active_media_get in Hm as (_ & ? & _)|]. right. intros k' e' Hk' Ho'.
    destruct (Hkeep k' e' Hk') as (_ & _ & Hr). specialize (Hr Ho').
    assert (Hn : get k r = None) by (unfold r; rewrite get_remove_all; by rewrite bool_decide_true).
    specialize (Hold k e k' e' Hm Hn Hr). unfold r in Hr. rewrite get_remove_all in Hr. case_bool_decide; [done|].
    pose proof (active_finite (k, e) (get_in _ _ _ Hm)) as H1. pose proof (active_finite (k', e') (get_in _ _ _ Hr)) as H2.
    unfold active in *. cbn [snd] in *. rewrite H1, H2 in *. by apply Z.leb_le.
Qed.
End tick.

(** C15: observers are few and in use.  After a tick of the timer at most 32
    media observers are left and none that has been idle for more than 15
    minutes; entries are dropped only if they have been idle so long, or if
    no observer that stays has been idle for longer; what stays is as it
    was, and the listeners removed are those of the dropped entries. *)
Theorem observers_bounded (now : number) (entries : obj RpcCleanupEntry) :
  wf entries -> Forall (fun p => is_finite (lastActiveMs (snd p)) = true) entries ->
  let '(kept, removed) := observer_tick now entries in
  wf kept /\ (length (List.filter (fun p => is_observer (snd p)) kept) <= 32)%nat
  /\ (forall k e, get k kept = Some e -> get k entries = Some e /\ timed_out now e = false)
  /\ (forall k e, get k entries = Some e -> get k kept = None ->
       is_observer e = true /\ (timed_out now e = true \/ forall k' e', get k' kept = Some e' -> is_observer e' = true ->
         leb (lastActiveMs e) (lastActiveMs e') = true))
  /\ (forall p, p ∈ removed <-> exists k e, get k entries = Some e /\ get k kept = None /\ p ∈ cleanups e).
Proof.
  intros Hw Hf. pose proof (drop_observers_spec (dropped_ids now entries) entries []) as Hd.
  rewrite observer_tick_eq. destruct (fold_left _ _ _) as [kept removed]. destruct Hd as [-> Hr].
  pose proof (dropped_spec now entries Hw Hf) as (Hget & Hfew & Hwhy).
  split; [by apply wf_remove_all|]. split; [done|]. split; [|split; [done|]].
  - intros k e Hk. by apply Hget.
  - intros p. rewrite Hr. setoid_rewrite get_remove_all. split.
    + intros [[]%elem_of_nil|(k & e & Hin & He & Hp)]. exists k, e. by rewrite bool_decide_true.
    + intros (k & e & He & Hn & Hp). right. exists k, e. case_bool_decide; [done|congruence].
Qed.

(** ** Effects that run again on a longer list of events *)

(** The clock's answers are positive. *)
Definition clock_ok {R} (e : pageE R) : R -> Prop :=
  match e in pageE R return R -> Prop with
  | Now => fun now => exists n, now = Fin n /\ 0 < n
  | _ => fun _ => True
  end.

Definition clocks_ok (t : list event) : Prop := Forall (fun ev => match ev with Ev e r => clock_ok e r end) t.

Lemma seen_mark n k s k' limit :
  0 < n -> (length s < limit)%nat -> k <> "" ->
  let s' := markSeenWithLimit (Fin n) s k limit in
  seen k s' = true /\ (seen k' s = true -> seen k' s' = true) /\ (length s' <= S (length s))%nat.
Proof.
  intros Hn Hl Hk s'. assert (Hs' : s' = set k (Fin n) s).
  { unfold s', markSeenWithLimit. rewrite (proj2 (truthy_str_true k) Hk). cbn [negb].
    pose proof (length_set k (Fin n) s). by destruct (Nat.leb_spec (length (set k (Fin n) s)) limit); [|lia]. }
  rewrite Hs'. assert (Ht : num_truthy (Fin n) = true) by (cbn [num_truthy]; apply negb_true_iff, Z.eqb_neq; lia).
  unfold seen. split; [by rewrite get_set_eq|]. split; [|apply length_set].
  rewrite get_set. by case_bool_decide.
Qed.

Section replay.
Context {A : Type} (step : obj number -> A -> io (obj number)) (key : A -> option string).
Hypothesis step_none : forall s x, key x = None -> step s x = Ret s.
Hypothesis step_seen : forall s x k, key x = Some k -> seen k s = true -> step s x = Ret s.
Hypothesis step_new : forall s x k t s', key x = Some k -> seen k s = false -> runs (step s x) t (inl s') -> clocks_ok t ->
  k <> "" /\ exists n, 0 < n /\ s' = markSeenWithLimit (Fin n) s k LOCAL_UI_ACTION_LIMIT.

(** What one event does to the store. *)
Lemma step_store s x t s' :
  (length s < LOCAL_UI_ACTION_LIMIT)%nat -> runs (step s x) t (inl s') -> clocks_ok t ->
  (length s' <= S (length s))%nat /\ (forall k, seen k s = true -> seen k s' = true)
  /\ (forall k, key x = Some k -> seen k s' = true).
Proof.
  intros Hl Hr Ht. destruct (key x) as [k|] eqn:Hk.
  - destruct (seen k s) eqn:Hs.
    + rewrite (step_seen s x k Hk Hs) in Hr. destruct Hr as [_ [= ->]]. split; [lia|split; [done|]]. by intros ? [= <-].
    + destruct (step_new s x k t s' Hk Hs Hr Ht) as (Hne & n & Hn & ->).
      pose proof (fun k' => seen_mark n k s k' LOCAL_UI_ACTION_LIMIT Hn Hl Hne) as Hm. cbv zeta in Hm.
      split; [apply (Hm k)|]. split; [intros k'; apply (Hm k')|]. intros ? [= <-]. exact (proj1 (Hm k)).
  - rewrite (step_none s x Hk) in Hr. destruct Hr as [_ [= ->]]. split; [lia|split; done].
Qed.

Lemma fold_store s l t s' :
  (length s + length l <= LOCAL_UI_ACTION_LIMIT)%nat -> runs (fold_io step s l) t (inl s') -> clocks_ok t ->
  (forall k, seen k s = true -> seen k s' = true) /\ (forall x k, x ∈ l -> key x = Some k -> seen k s' = true).
Proof.
  revert s t. induction l as [|x l IH]; intros s t Hl; cbn [fold_io].
  { intros [_ [= ->]] _. split; [done|]. by intros x k ?%elem_of_nil. }
  cbn [length] in Hl. intros [(e & _ & [=])|(s1 & t1 & t2 & -> & H1 & H2)]%runs_bind [Ht1 Ht2]%Forall_app.
  destruct (step_store s x t1 s1) as (Hl1 & Hmono & Hx); [lia|done..|].
  destruct (IH s1 t2) as [Hmono2 Hin]; [lia|done..|]. split; [eauto|].
  intros y k [->|Hy]%elem_of_cons Hk; eauto.
Qed.

Lemma fold_seen s l more :
  (forall x k, x ∈ l -> key x = Some k -> seen k s = true) -> fold_io step s (l ++ more) = fold_io step s more.
Proof.
  induction l as [|x l IH]; intros H; [done|]. cbn [app fold_io].
  replace (step s x) with (Ret s : io (obj number)).
  - apply IH. intros y k Hy. apply H. by right.
  - symmetry. destruct (key x) as [k|] eqn:Hk; [|by apply step_none]. apply (step_seen s x k Hk). apply (H x k); [by left|done].
Qed.

Lemma fold_replay s l t s' more :
  (length s + length l <= LOCAL_UI_ACTION_LIMIT)%nat -> runs (fold_io step s l) t (inl s') -> clocks_ok t ->
  fold_io step s' (l ++ more) = fold_io step s' more.
Proof. intros Hl Hr Ht. apply fold_seen. by apply (fold_store s l t s'). Qed.
End replay.

Section arrivals.
Context {E : Ellipsis} {J : Json} (sessionId : option string).

Definition shown_key (event : string * value) : option string :=
  let p := parsed_action event in
  if bool_decide (fst event = "ui_action") && truthy_str (toolCallId p) then Some (toolCallId p) else None.

Definition scene_event_key (event : string * value) : option string :=
  let p := parsed_action event in if wants_scene event p then Some (scene_key p) else None.

Lemma show_replay s l t s' more :
  (length s + length l <= LOCAL_UI_ACTION_LIMIT)%nat -> runs (fold_io (show_event sessionId) s l) t (inl s') -> clocks_ok t ->
  fold_io (show_event sessionId) s' (l ++ more) = fold_io (show_event sessionId) s' more.
Proof.
  apply (fold_replay (show_event sessionId) shown_key); unfold shown_key, show_event.
  - intros s0 x. destruct (bool_decide _), (truthy_str _); done.
  - intros s0 x k. generalize (toolCallId (parsed_action x)). intros k0.
    destruct (bool_decide _), (truthy_str k0); try done. cbn [andb negb orb]. by intros [= <-] ->.
  - intros s0 x k t0 s1. generalize (toolCallId (parsed_action x)). intros k0.
    destruct (bool_decide _), (truthy_str k0) eqn:Hk; try done. cbn [andb negb orb].
    intros [= <-] -> (now & t1 & -> & Hr) [(n & -> & Hn) _]%Forall_cons. split; [by apply truthy_str_true|].
    exists n. split; [done|]. cbn [prog_bind] in Hr. by apply runs_bind in Hr as [(e & _ & [=])|([] & t2 & t3 & _ & _ & _ & [= ->])].
Qed.

Lemma scene_key_nonempty p : scene_key p <> "".
Proof. done. Qed.

Lemma scene_replay s l t s' more :
  (length s + length l <= LOCAL_UI_ACTION_LIMIT)%nat -> runs (fold_io (scene_event sessionId) s l) t (inl s') -> clocks_ok t ->
  fold_io (scene_event sessionId) s' (l ++ more) = fold_io (scene_event sessionId) s' more.
Proof.
  apply (fold_replay (scene_event sessionId) scene_event_key); unfold scene_event_key, scene_event.
  - intros s0 x. by destruct (wants_scene _ _).
  - intros s0 x k. destruct (wants_scene _ _); [|done]. cbn [negb orb].
    generalize (scene_key (parsed_action x)). by intros k0 [= <-] ->.
  - intros s0 x k t0 s1. pose proof (scene_key_nonempty (parsed_action x)) as Hk. revert Hk.
    generalize (scene_key (parsed_action x)). intros k0 Hk. destruct (wants_scene _ _); [|done]. cbn [negb orb].
    intros [= <-] -> (now & t1 & -> & Hr) [(n & -> & Hn) _]%Forall_cons. split; [exact Hk|].
    exists n. split; [done|]. cbn [prog_bind] in Hr. by apply runs_bind in Hr as [(e & _ & [=])|([] & t2 & t3 & _ & _ & _ & [= ->])].
Qed.

(** No request clears the scene. *)
Definition keeps_scene : requests := fun R e =>
  match e with SceneApply ops => existsb (fun op => match op with OpClear _ => true | _ => false end) ops = false | _ => True end.

Lemma post_keeps sid type data : always keeps_scene (postClientEvent sid type data).
Proof. unfold postClientEvent. case_match; [done|]. by apply always_call. Qed.

Lemma scene_event_keeps s x : always keeps_scene (scene_event sessionId s x).
Proof.
  assert (Hp : forall p r, always keeps_scene (post_scene_result sessionId p r)).
  { intros p r. unfold post_scene_result. apply always_bind; [|intros _; case_match; [|done]].
    all: apply always_catch; [apply post_keeps|done]. }
  unfold scene_event. case_match; [done|]. apply always_bind; [done|]. intros now. apply always_bind; [|done].
  apply always_catch; [|auto]. apply always_bind; [|auto]. unfold apply_scene. case_match eqn:H0; [done|].
  by apply always_call.
Qed.

Lemma fold_keeps {A S} (f : S -> A -> io S) s l :
  (forall s x, always keeps_scene (f s x)) -> always keeps_scene (fold_io f s l).
Proof. intros Hf. revert s. induction l; intros s; cbn [fold_io]; [done|]. by apply always_bind. Qed.
End arrivals.

(** What happens to actions on arrival.  The effects run over all events
    each time the list grows; as long as the memory has room, a run that
    follows another on a longer list makes exactly the requests for the events
    that are new: each action is reported as shown once, and each call of the
    scene is applied, and answered, once.  No such call clears the scene, and
    without the permissions, a scene and a session none is applied. *)
Theorem arrivals_once {E : Ellipsis} {J : Json} (sid : option string) (s : obj number) l more t s' :
  (length s + length l <= LOCAL_UI_ACTION_LIMIT)%nat -> clocks_ok t ->
  (runs (show_events sid s l) t (inl s') -> show_events sid s' (l ++ more) = show_events sid s' more)
  /\ (forall off rpcs effects scene, runs (scene_events off rpcs effects scene sid s l) t (inl s') ->
       scene_events off rpcs effects scene sid s' (l ++ more) = scene_events off rpcs effects scene sid s' more)
  /\ (forall off rpcs effects scene, always keeps_scene (scene_events off rpcs effects scene sid s l)
       /\ (off = true \/ rpcs = false \/ effects = false \/ scene = false \/ session_key sid = "" ->
           scene_events off rpcs effects scene sid s l = Ret s)).
Proof.
  intros Hl Ht. split; [|split].
  - unfold show_events. case_match; [done|]. intros Hr. by apply (show_replay sid s l t s' more).
  - intros off rpcs effects scene. unfold scene_events. case_match; [done|]. intros Hr.
    by apply (scene_replay sid s l t s' more).
  - intros off rpcs effects scene. split.
    + unfold scene_events. case_match; [done|]. apply fold_keeps, scene_event_keeps.
    + unfold scene_events. intros H. destruct off, rpcs, effects, scene; try done.
      destruct H as [? | [? | [? | [? | ->]]]]; done.
Qed.

(** ** Instances *)

(** A card with a request that starts by itself, and the same shown again. *)
Definition demo_data : value :=
  VObject [("tool_call_id", VString "c1");
           ("action", VObject [("type", VString "client_rpc"); ("rpc", VObject [("kind", VString "location")])])].

Definition demo_card (n : nat) : CardProps := mkCard "" false (Some "s") true false false false demo_data n None false.

Lemma auto_run_once_witness :
  map fst (auto_runs no_runs [Commit (int 1) [demo_card 0; demo_card 1]; Commit (int 2) [demo_card 0]]) = ["s::rpc:c1"]
  /\ NoDup (map fst (auto_runs no_runs [Commit (int 1) [demo_card 0; demo_card 1]; Commit (int 2) [demo_card 0]])).
Proof.
  split; [vm_compute; reflexivity|].
  apply (proj1 (auto_run_once [Commit (int 1) [demo_card 0; demo_card 1]; Commit (int 2) [demo_card 0]])).
  apply Nat.leb_le. vm_compute. reflexivity.
Defined.

Lemma seen_keys_limited_witness :
  markSeenWithLimit (Fin 3) [("a", Fin 1); ("b", Fin 2)] "c" 2 = [("b", Fin 2); ("c", Fin 3)]
  /\ get "c" (markSeenWithLimit (Fin 3) [("a", Fin 1); ("b", Fin 2)] "c" 2) = Some (Fin 3).
Proof.
  split; [vm_compute; reflexivity|].
  apply (seen_keys_limited 3 [("a", Fin 1); ("b", Fin 2)] "c" 2).
  - unfold wf. by_compute.
  - by repeat constructor.
  - discriminate.
  - lia.
  - intros k v. cbn [get]. repeat case_bool_decide; try done; by intros [= <-].
Defined.

Definition demo_entries : obj RpcCleanupEntry :=
  [("r1", mkEntry [(0%nat, "play")] "media_observe" (int 0) (int 0));
   ("r2", mkEntry [(1%nat, "ended")] "media_observe" (int 0) (int 1000000))].

Lemma observers_bounded_witness :
  wf demo_entries
  /\ observer_tick (int 1000000) demo_entries
     = ([("r2", mkEntry [(1%nat, "ended")] "media_observe" (int 0) (int 1000000))], [(0%nat, "play")])
  /\ (let '(kept, _) := observer_tick (int 1000000) demo_entries in
      (length (List.filter (fun p => is_observer (snd p)) kept) <= 32)%nat).
Proof.
  assert (Hw : wf demo_entries) by (unfold wf; by_compute). split; [exact Hw|]. split; [vm_compute; reflexivity|].
  assert (Hf : Forall (fun p => is_finite (lastActiveMs (snd p)) = true) demo_entries) by (by repeat constructor).
  pose proof (observers_bounded (int 1000000) demo_entries Hw Hf) as H.
  destruct (observer_tick (int 1000000) demo_entries) as [kept removed]. exact (proj1 (proj2 H)).
Defined.

(** Two events, of which the second is new to the second run. *)
Definition demo_event (id : string) : string * value :=
  ("ui_action", VObject [("tool_call_id", VString id); ("action", VObject [("type", VString "notify")])]).

Definition demo_show : list event * (obj number + string) * unit :=
  exec demo_browser (show_events (J := text_json) (Some "s") [] [demo_event "a"]) tt.

Lemma arrivals_once_witness :
  snd (fst demo_show) = inl [("a", int 1)]
  /\ show_events (J := text_json) (Some "s") [("a", int 1)] ([demo_event "a"] ++ [demo_event "b"])
     = show_events (J := text_json) (Some "s") [("a", int 1)] [demo_event "b"].
Proof.
  split; [vm_compute; reflexivity|].
  assert (Hr : runs (show_events (J := text_json) (Some "s") [] [demo_event "a"]) (fst (fst demo_show)) (inl [("a", int 1)])).
  { apply (exec_runs demo_browser _ tt _ _ tt). vm_compute. reflexivity. }
  refine (proj1 (arrivals_once (E := demo_dots) (J := text_json) (Some "s") [] [demo_event "a"] [demo_event "b"]
    (fst (fst demo_show)) [("a", int 1)] _ _) Hr).
  - apply Nat.leb_le. vm_compute. reflexivity.
  - vm_compute. constructor; [eexists; split; reflexivity|]. constructor; [exact I|constructor].
Defined.
