(* ===== verification/BrokerEvents.v ===== *)
(** The broker's events in the page: the rows read from the stream and from the
    replay endpoint and their merging (src/ui/src/components/broker/
    brokerPanelUtils.ts, teamEventPrefs.ts), and the cursor map that both readers
    of events keep in the server's preferences. *)
From S2P Require Import Prelude JsNumber JsString JsValue JsOrder JsonUtils JsonText.

(** ** Rows *)

Record BrokerEventRow := mkRow {
  r_type : string; ts_unix_ms : option number; event_id : option string; trace_id : option string;
  payload : value }.

#[export] Instance BrokerEventRow_eq_dec : EqDecision BrokerEventRow.
Proof. solve_decision. Defined.

(** [asObjectRecord(v) ?? undefined]. *)
Definition asObjectRecord (v : value) : option (obj value) :=
  match v with VObject o => Some o | _ => None end.

(** [v ? String(v) : undefined]. *)
Definition text_if (v : value) : option string := if truthy v then Some (v_to_string v) else None.

(** [parsed] is any value; [fallbackType] is a text from the stream, or the
    event's own type from a replay. *)
Definition normalizeBrokerEventRow (parsed fallbackType : value) : option BrokerEventRow :=
  match asObjectRecord parsed with
  | None =>
      if negb (truthy fallbackType) then None
      else
        let eventType := v_to_string fallbackType in
        if negb (truthy_str eventType) then None
        else Some (mkRow eventType None None None VUndefined)
  | Some event =>
      let eventType := v_to_string (prop "type" event |||| fallbackType |||| VString "message") in
      if negb (truthy_str eventType) then None
      else Some (mkRow eventType (as_number (prop "ts_unix_ms" event)) (text_if (prop "event_id" event))
             (text_if (prop "trace_id" event)) (of_option (VObject <$> asObjectRecord (prop "payload" event))))
  end.

(** [brokerPanelUtils.normalizeBrokerReplayEvents]. *)
Definition normalizeBrokerReplayEvents (events : value) : list BrokerEventRow :=
  omap (fun event => normalizeBrokerEventRow event (vprop "type" event)) (default [] (as_array events)).

(** [teamEventPrefs.normalizeBrokerReplayEvents]. *)
Definition normalizeTeamReplayEvents (events : value) : list BrokerEventRow :=
  map (fun event => mkRow (v_to_string (vprop "type" event |||| VString "")) (as_number (vprop "ts_unix_ms" event))
         (text_if (vprop "event_id" event)) (text_if (vprop "trace_id" event))
         (if is_objectish (vprop "payload" event) then vprop "payload" event else VUndefined))
    (default [] (as_array events)).

(** [x || 0]. *)
Definition num_or_0 (x : option number) : number :=
  match x with Some n => if num_truthy n then n else int 0 | None => int 0 end.

Definition row_ts (row : BrokerEventRow) : number := num_or_0 (ts_unix_ms row).

(** [buildEventKey]; the console's reader writes the same expression out. *)
Definition buildEventKey (row : BrokerEventRow) : string :=
  str_or (default "" (event_id row))
    (r_type row ++s ":" ++s num_to_string (row_ts row) ++s ":" ++s default "" (trace_id row)).

(** ** Results of a fan-out *)

Record BrokerFanoutResult := mkFanout { deployment_id : string; f_status : number; f_data : obj value }.

Definition normalizeDeploymentId (raw : value) : string := str_or (str_trim raw) "default".

Definition fanout_row (fallbackIds : list string) (idx : nat) (row : value) : BrokerFanoutResult :=
  let rec := default [] (asObjectRecord row) in
  let dep := prop "deployment_id" rec ??? prop "deploymentId" rec ??? prop "deployment" rec
             ??? of_option (VString <$> fallbackIds !! idx) ??? VString "" in
  let parsedStatus := match prop "status" rec with
                      | VNumber x => x
                      | statusRaw => v_to_number (statusRaw |||| VNumber (int 0))
                      end in
  mkFanout (normalizeDeploymentId dep) (if is_finite parsedStatus then parsedStatus else int 0)
    (default rec (asObjectRecord (prop "data" rec ??? prop "response" rec ??? prop "body" rec))).

Definition normalizeBrokerFanoutResults (rows : value) (fallbackIds : list string) : option (list BrokerFanoutResult) :=
  match rows with VArray l => Some (imap (fanout_row fallbackIds) l) | _ => None end.

(** ** Merging without duplicates *)

(** One turn of the loops over rows: the keys seen and the rows kept. *)
Definition push_row (st : list string * list BrokerEventRow) (row : BrokerEventRow) :
    list string * list BrokerEventRow :=
  let '(seen, out) := st in
  let key := buildEventKey row in
  if bool_decide (key ∈ seen) then st else (key :: seen, out ++ [row]).

Definition BROKER_EVENTS_MAX : nat := 200.
Definition TEAM_EVENTS_MAX : nat := 200.

(** [appendBrokerEvents], on the previous rows. *)
Definition appendBrokerEvents (rows prev : list BrokerEventRow) : list BrokerEventRow :=
  if (length rows =? 0)%nat then prev
  else
    let seen := fold_left (fun s ev => buildEventKey ev :: s) prev [] in
    let '(_, next) := fold_left push_row rows (seen, prev) in
    if (length next <=? BROKER_EVENTS_MAX)%nat then next else last_n BROKER_EVENTS_MAX next.

(** [compare(a, b) > 0] of the sort by time. *)
Definition later (a b : BrokerEventRow) : bool := gtb (sub (row_ts a) (row_ts b)) (int 0).

(** The merge that the three views of the team console share, [keep] being the
    view's test. *)
Definition mergeEvents (keep : BrokerEventRow -> bool) (live replay : list BrokerEventRow) : list BrokerEventRow :=
  let skip st row := if keep row then push_row st row else st in
  let '(_, out) := fold_left skip live (fold_left skip replay ([], [])) in
  let out := sort_by later out in
  if (TEAM_EVENTS_MAX <? length out)%nat then last_n TEAM_EVENTS_MAX out else out.

(** ** The cursor map *)

Record CursorEntry := mkCursor { cursor_ts : number; updated_unix_ms : option number }.

#[export] Instance CursorEntry_eq_dec : EqDecision CursorEntry.
Proof. solve_decision. Defined.

Abbreviation CursorByScope := (obj CursorEntry).

(** [Object.entries] of an object or an array. *)
Definition entries_of (v : value) : obj value :=
  match v with
  | VObject o => o
  | VArray l => imap (fun i v => (pretty (Z.of_nat i), v)) l
  | _ => []
  end.

(** [typeof cursor === "number"], finite and positive. *)
Definition cursor_entry (v : value) : option CursorEntry :=
  match as_finite (vprop "cursor_ts" v) with
  | Some cursor =>
      if leb cursor (int 0) then None
      else Some (mkCursor cursor (as_number (vprop "updated_unix_ms" v)))
  | None => None
  end.

Definition extract_step (out : CursorByScope) (p : string * value) : CursorByScope :=
  match cursor_entry (snd p) with Some e => set (fst p) e out | None => out end.

(** [extractBrokerEventsCursorByScope] and [extractTeamEventsCursorByScope]
    differ in the [field] they read. *)
Definition extractCursorByScope (field : string) (prefs : value) : CursorByScope :=
  let raw := if is_objectish prefs then vprop field prefs else VUndefined in
  let byScope := if is_objectish raw then vprop "by_scope" raw else VUndefined in
  fold_left extract_step (entries_of byScope) [].

Definition BROKER_EVENTS_PREFS_KIND : string := "webui-broker-events".
Definition BROKER_EVENTS_PREFS_VERSION : Z := 1.

Definition extractBrokerEventsCursorByScope := extractCursorByScope "broker_events_cursor".
Definition extractTeamEventsCursorByScope := extractCursorByScope "team_events_cursor".

(** What is posted: an [updated_unix_ms] that is [undefined] is not written. *)
Definition entry_value (e : CursorEntry) : value :=
  VObject (("cursor_ts", VNumber (cursor_ts e))
           :: match updated_unix_ms e with Some u => [("updated_unix_ms", VNumber u)] | None => [] end).

Definition by_scope_value (m : CursorByScope) : value := VObject (map (fun p => (fst p, entry_value (snd p))) m).

Definition prefs_value (field : string) (version : Z) (m : CursorByScope) : value :=
  VObject [(field, VObject [("version", VNumber (int version)); ("by_scope", by_scope_value m)])].

Definition push_payload (clientId kind field : string) (version : Z) (m : CursorByScope) : value :=
  VObject [("client_id", VString clientId); ("client_kind", VString kind);
           ("prefs", prefs_value field version m)].

(** [map[key]?.cursor_ts || 0]. *)
Definition cursor_at (key : string) (m : CursorByScope) : number :=
  num_or_0 (cursor_ts <$> get key m).

Inductive CursorStatus := idle | loading | ready | error.

#[export] Instance CursorStatus_eq_dec : EqDecision CursorStatus.
Proof. solve_decision. Defined.

(** The part of both readers that keeps the map on the server: the map, the
    status of the last request, the throttle (a timer set, a map waiting), the
    pushes in flight and those sent. *)
Record Sync := mkSync {
  byScope : CursorByScope; status : CursorStatus; timer : bool; pending : option CursorByScope;
  pushes : list CursorByScope }.

Definition set_status (st : CursorStatus) (y : Sync) : Sync :=
  mkSync (byScope y) st (timer y) (pending y) (pushes y).

Definition set_by_scope (m : CursorByScope) (y : Sync) : Sync :=
  mkSync m (status y) (timer y) (pending y) (pushes y).

(** [schedule...CursorPersist]; [can_push]: base, client and scope key are not
    empty; [shown]: the status that the callback's closure sees. *)
Definition schedulePersist (can_push : bool) (shown : CursorStatus) (next : CursorByScope) (y : Sync) : Sync :=
  if negb can_push then y
  else if bool_decide (shown = error) then y
  else mkSync (byScope y) (status y) true (Some next) (pushes y).

(** The timer's callback, with the start of [push...Cursor]. *)
Definition persist_fires (can_push : bool) (y : Sync) : Sync :=
  if negb (timer y) then y
  else mkSync (byScope y) (status y) false None
         (match pending y with
          | Some next => if can_push then pushes y ++ [next] else pushes y
          | None => pushes y
          end).

Definition push_settles (i : nat) (isOk : bool) (y : Sync) : Sync :=
  match pushes y !! i with
  | None => y
  | Some _ => mkSync (byScope y) (if isOk then ready else error) (timer y) (pending y) (delete i (pushes y))
  end.

(** The rest of [load...Cursor] after the answer's map: the map, the merged
    cursor, and a push when the server is behind. *)
Definition load_merge (can_push : bool) (shown : CursorStatus) (key : string) (localTs now : number)
    (remoteMap : CursorByScope) (y : Sync) : number * Sync :=
  let y := set_by_scope remoteMap y in
  let remoteTs := cursor_at key remoteMap in
  let merged := math_max localTs remoteTs in
  let y := if gtb merged remoteTs
           then let nextMap := set key (mkCursor merged (Some now)) remoteMap in
                schedulePersist can_push shown nextMap (set_by_scope nextMap y)
           else y in
  (merged, set_status ready y).

(** The effect that follows the cursor: the map of the render, the cursor. *)
Definition follow_cursor (can_push : bool) (shown : CursorStatus) (key : string) (cursor now : number)
    (rendered : CursorByScope) (y : Sync) : Sync :=
  if negb (truthy_str key) || leb cursor (int 0) then y
  else if leb cursor (cursor_at key rendered) then y
  else let nextMap := set key (mkCursor cursor (Some now)) rendered in
       schedulePersist can_push shown nextMap (set_by_scope nextMap y).

(** ** Rows that are new *)

Abbreviation row_keys := (map buildEventKey).

(** The rows of a list whose key is neither in [seen] nor earlier in the list. *)
Fixpoint fresh (seen : list string) (rows : list BrokerEventRow) : list BrokerEventRow :=
  match rows with
  | [] => []
  | row :: rows =>
      if bool_decide (buildEventKey row ∈ seen) then fresh seen rows
      else row :: fresh (buildEventKey row :: seen) rows
  end.

Lemma fold_push rows seen out : snd (fold_left push_row rows (seen, out)) = out ++ fresh seen rows.
Proof.
  revert seen out. induction rows as [|row rows IH]; intros seen out; cbn [fold_left fresh push_row]; [by rewrite app_nil_r|].
  case_bool_decide; rewrite IH; [done|]. by rewrite <- app_assoc.
Qed.

Lemma fresh_ext s1 s2 rows : (forall k, k ∈ s1 <-> k ∈ s2) -> fresh s1 rows = fresh s2 rows.
Proof.
  revert s1 s2. induction rows as [|row rows IH]; intros s1 s2 H; cbn [fresh]; [done|].
  rewrite (bool_decide_ext _ _ (H (buildEventKey row))). case_match; [by apply IH|].
  f_equal. apply IH. intros k. rewrite !elem_of_cons. by rewrite H.
Qed.

Lemma fresh_elem seen rows row : row ∈ fresh seen rows -> row ∈ rows /\ buildEventKey row ∉ seen.
Proof.
  revert seen. induction rows as [|r rows IH]; intros seen; cbn [fresh]; [by intros ?%not_elem_of_nil|].
  case_bool_decide as E.
  - intros [H1 H2]%IH. split; [by right|done].
  - intros [->|[H1 H2]%IH]%elem_of_cons; [split; [by left|done]|]. split; [by right|set_solver].
Qed.

Lemma fresh_keys seen rows k : k ∈ row_keys (fresh seen rows) <-> k ∈ row_keys rows /\ k ∉ seen.
Proof.
  revert seen. induction rows as [|r rows IH]; intros seen; cbn [fresh map]; [set_solver|].
  case_bool_decide as E; [rewrite IH|cbn [map]; rewrite elem_of_cons, IH]; rewrite !elem_of_cons;
    destruct (decide (k = buildEventKey r)) as [->|]; set_solver.
Qed.

Lemma fresh_NoDup seen rows : NoDup (row_keys (fresh seen rows)).
Proof.
  revert seen. induction rows as [|r rows IH]; intros seen; cbn [fresh]; [constructor|].
  case_bool_decide; [done|]. cbn [map]. constructor; [|done]. rewrite fresh_keys. set_solver.
Qed.

Lemma fresh_none seen rows : (forall row, row ∈ rows -> buildEventKey row ∈ seen) -> fresh seen rows = [].
Proof.
  induction rows as [|r rows IH]; intros H; cbn [fresh]; [done|].
  rewrite bool_decide_true by (apply H; by left). apply IH. intros row Hr. apply H. by right.
Qed.

Lemma fresh_app seen rows more : fresh seen (rows ++ more) = fresh seen rows ++ fresh (row_keys rows ++ seen) more.
Proof.
  revert seen. induction rows as [|r rows IH]; intros seen; cbn [fresh app map]; [done|].
  case_bool_decide as E; rewrite IH; cbn [app]; [|f_equal];
    (f_equal; apply fresh_ext; intros k; rewrite !elem_of_app, !elem_of_cons, ?elem_of_app); [|set_solver].
  split; [tauto|]. intros [->|[?|?]]; [by right|by left|by right].
Qed.

Lemma fold_skip (keep : BrokerEventRow -> bool) rows st :
  fold_left (fun st row => if keep row then push_row st row else st) rows st = fold_left push_row (List.filter keep rows) st.
Proof. revert st. induction rows as [|r rows IH]; intros st; cbn; [done|]. rewrite IH. by case_match. Qed.

Lemma last_n_if (n : nat) {A} (l : list A) : (if (length l <=? n)%nat then l else last_n n l) = last_n n l.
Proof. destruct (Nat.leb_spec (length l) n); [|done]. by rewrite last_n_short. Qed.

(** Appending keeps the newest of the rows and the new rows, in order. *)
Lemma append_fresh rows prev :
  (length prev <= BROKER_EVENTS_MAX)%nat ->
  appendBrokerEvents rows prev = last_n BROKER_EVENTS_MAX (prev ++ fresh (row_keys prev) rows).
Proof.
  intros Hl. unfold appendBrokerEvents. destruct rows as [|r rows]; [cbn; by rewrite app_nil_r, last_n_short|].
  cbn [length Nat.eqb]. set (seen := fold_left _ prev []).
  pose proof (fold_push (r :: rows) seen prev) as Hp. destruct (fold_left push_row _ _) as [k next]. cbn [snd] in Hp.
  rewrite last_n_if, Hp. do 2 f_equal. apply fresh_ext. intros k'. unfold seen.
  enough (forall acc, k' ∈ fold_left (fun s ev => buildEventKey ev :: s) prev acc <-> k' ∈ acc \/ k' ∈ row_keys prev) as H
    by (rewrite H; set_solver).
  clear. induction prev as [|p prev IH]; intros acc; cbn [fold_left map]; [set_solver|]. rewrite IH. set_solver.
Qed.

Lemma append_bound rows prev :
  (length prev <= BROKER_EVENTS_MAX)%nat -> (length (appendBrokerEvents rows prev) <= BROKER_EVENTS_MAX)%nat.
Proof. intros H. rewrite append_fresh by done. apply length_last_n. Qed.

Lemma append_NoDup rows prev :
  (length prev <= BROKER_EVENTS_MAX)%nat -> NoDup (row_keys prev) -> NoDup (row_keys (appendBrokerEvents rows prev)).
Proof.
  intros Hl Hp. rewrite append_fresh, map_last_n by done. unfold last_n.
  eapply sublist_NoDup; [|apply sublist_drop]. rewrite map_app. apply NoDup_app.
  split_and!; [done| |apply fresh_NoDup]. intros k Hk [_ Hn]%fresh_keys. done.
Qed.

(** Without evictions the buffer is the first occurrences of all rows. *)
Lemma append_first_occurrences all rows :
  (length (fresh [] (all ++ rows)) <= BROKER_EVENTS_MAX)%nat ->
  appendBrokerEvents rows (fresh [] all) = fresh [] (all ++ rows).
Proof.
  rewrite fresh_app, app_nil_r. intros Hl. rewrite append_fresh by (rewrite length_app in Hl; lia).
  rewrite (fresh_ext (row_keys (fresh [] all)) (row_keys all)); [by apply last_n_short|].
  intros k. rewrite fresh_keys. set_solver.
Qed.

(** The first row of a list with the same key. *)
Definition first_with (row : BrokerEventRow) (rows : list BrokerEventRow) : option BrokerEventRow :=
  List.find (fun r => bool_decide (buildEventKey r = buildEventKey row)) rows.

Lemma fresh_first seen rows row :
  row ∈ fresh seen rows <-> first_with row rows = Some row /\ buildEventKey row ∉ seen.
Proof.
  revert seen. induction rows as [|r rows IH]; intros seen; unfold first_with in *; cbn [fresh List.find].
  { split; [by intros ?%not_elem_of_nil|by intros [? _]]. }
  destruct (bool_decide_reflect (buildEventKey r = buildEventKey row)) as [E|E].
  - case_bool_decide as Hs; rewrite ?elem_of_cons.
    + split; [intros Hf%fresh_elem; rewrite <- E in Hf; tauto|intros [[= ->] Hn]; done].
    + split; [|intros [[= ->] _]; by left]. rewrite E in Hs. intros [->|Hf%fresh_elem]; [done|]. set_solver.
  - case_bool_decide as Hs; rewrite ?elem_of_cons, IH, ?elem_of_cons; split; try tauto.
    + intros [->|?]; [done|tauto].
    + intros [Hf Hn]. right. split; [done|]. intros [Hk|]; [by rewrite Hk in E|done].
Qed.

Lemma merge_fresh keep live replay :
  mergeEvents keep live replay
  = last_n TEAM_EVENTS_MAX (sort_by later (fresh [] (List.filter keep (replay ++ live)))).
Proof.
  unfold mergeEvents. rewrite !fold_skip, <- fold_left_app, <- List.filter_app.
  pose proof (fold_push (List.filter keep (replay ++ live)) [] []) as Hp.
  destruct (fold_left push_row _ _) as [k out]. cbn [snd app] in Hp. subst out.
  destruct (Nat.ltb_spec TEAM_EVENTS_MAX (length (sort_by later (fresh [] (List.filter keep (replay ++ live)))))); [done|].
  by rewrite last_n_short.
Qed.

Lemma num_or_0_num x : is_nan (num_or_0 x) = false.
Proof. destruct x as [[]|]; cbn; try done. by case_match. Qed.

Lemma later_ltb a b : later a b = ltb (row_ts b) (row_ts a).
Proof.
  unfold later. pose proof (num_or_0_num (ts_unix_ms a)) as Ha. pose proof (num_or_0_num (ts_unix_ms b)) as Hb.
  fold (row_ts a) in Ha. fold (row_ts b) in Hb. destruct (row_ts a), (row_ts b); try done. apply sub_gt_0.
Qed.

Definition not_after (a b : BrokerEventRow) : Prop := leb (row_ts a) (row_ts b) = true.

Lemma ngt_later a b : ngt later a b <-> not_after a b.
Proof.
  unfold ngt, not_after. rewrite later_ltb, ltb_negb_leb by apply num_or_0_num. by rewrite negb_false_iff.
Qed.

Lemma sort_later_sorted rows : StronglySorted not_after (sort_by later rows).
Proof.
  eapply StronglySorted_impl; [|apply sort_by_sorted].
  - intros x y _ _. apply ngt_later.
  - intros x y. rewrite !later_ltb, !ltb_negb_leb by apply num_or_0_num. rewrite negb_true_iff, negb_false_iff.
    intros Hx. destruct (leb_total (row_ts x) (row_ts y)) as [H|H]; [apply num_or_0_num..| |done]. congruence.
  - intros x y z. rewrite !ngt_later. apply leb_trans.
Qed.

(** The merged rows of a view of the team console are sorted by time,
    pairwise different in key, rows that the view shows, and the first such row
    of their key, the replay's before the live ones; a row that is the first of
    its key is missing only when the view is full, and then no row shown is
    older. *)
Theorem merged_rows keep live replay :
  let l := mergeEvents keep live replay in
  let all := List.filter keep (replay ++ live) in
  StronglySorted not_after l /\ NoDup (row_keys l) /\ (length l <= TEAM_EVENTS_MAX)%nat
  /\ (forall row, row ∈ l -> first_with row all = Some row)
  /\ (forall row, first_with row all = Some row ->
        row ∈ l \/ length l = TEAM_EVENTS_MAX /\ Forall (not_after row) l).
Proof.
  intros l all. unfold l. rewrite merge_fresh. fold all.
  set (sorted := sort_by later (fresh [] all)).
  assert (Hin : forall row, row ∈ sorted <-> first_with row all = Some row).
  { intros row. unfold sorted. rewrite elem_of_sort_by, fresh_first. set_solver. }
  pose proof (sort_later_sorted (fresh [] all)) as Hs. fold sorted in Hs.
  destruct (last_n_suffix TEAM_EVENTS_MAX sorted) as [k Hk].
  split_and!.
  - rewrite Hk in Hs. by eapply StronglySorted_app_r.
  - unfold last_n. eapply sublist_NoDup; [|apply (fmap_sublist buildEventKey), sublist_drop].
    unfold sorted. change (NoDup (row_keys (sort_by later (fresh [] all)))). rewrite sort_by_perm. apply fresh_NoDup.
  - apply length_last_n.
  - intros row Hr%in_last_n. by apply Hin.
  - intros row Hr%Hin. rewrite Hk in Hr. apply elem_of_app in Hr as [Hr|]; [right|by left]. split.
    + unfold last_n in *. rewrite length_drop. apply (f_equal length) in Hk. rewrite length_app, length_drop in Hk.
      destruct k as [|r' k]; [by apply not_elem_of_nil in Hr|]. cbn [length] in Hk. lia.
    + apply Forall_forall. intros r Hr'. rewrite Hk in Hs. by eapply StronglySorted_app_rel.
Qed.

(** ** The cursor map reads back *)

Definition entry_ok (e : CursorEntry) : Prop := is_finite (cursor_ts e) = true /\ leb (cursor_ts e) (int 0) = false.

Definition map_ok (m : CursorByScope) : Prop := wf m /\ ordered m /\ Forall (fun p => entry_ok (snd p)) m.

Lemma cursor_entry_ok v e : cursor_entry v = Some e -> entry_ok e.
Proof.
  unfold cursor_entry, as_finite. destruct (vprop "cursor_ts" v) as [| | |x| | |]; try done.
  destruct (is_finite x) eqn:E; [|done]. destruct (leb x (int 0)) eqn:L; [done|]. by intros [= <-].
Qed.

Lemma cursor_entry_value e : entry_ok e -> cursor_entry (entry_value e) = Some e.
Proof.
  intros [H1 H2]. unfold cursor_entry, entry_value, vprop. rewrite prop_cons. cbn [bool_decide decide].
  rewrite bool_decide_true by done. unfold as_finite. rewrite H1, H2. destruct e as [c [u|]]; done.
Qed.

Lemma map_ok_set k e m : entry_ok e -> map_ok m -> map_ok (set k e m).
Proof.
  intros He (H1 & H2 & H3). split_and!; auto with js. apply Forall_forall. intros p Hp.
  apply elem_of_set in Hp as [->|Hp]; [done| |done]. rewrite Forall_forall in H3. by apply H3.
Qed.

Lemma extract_fold_ok es m : map_ok m -> map_ok (fold_left extract_step es m).
Proof.
  revert m. induction es as [|[k v] es IH]; intros m Hm; cbn [fold_left]; [done|]. apply IH.
  unfold extract_step. cbn [fst snd]. destruct (cursor_entry v) as [e|] eqn:E; [|done].
  by eapply map_ok_set, Hm; apply cursor_entry_ok in E.
Qed.

Lemma extract_ok field prefs : map_ok (extractCursorByScope field prefs).
Proof. apply extract_fold_ok. split_and!; constructor. Qed.

Lemma extract_entries m acc :
  Forall (fun p => entry_ok (snd p)) m ->
  fold_left extract_step (map (fun p => (fst p, entry_value (snd p))) m) acc
  = fold_left (fun o p => set (fst p) (snd p) o) m acc.
Proof.
  intros H. revert acc. induction H as [|[k e] m He _ IH]; intros acc; cbn [map fold_left]; [done|].
  rewrite <- IH. f_equal. unfold extract_step. cbn [fst snd]. by rewrite cursor_entry_value.
Qed.

Lemma extract_prefs field version m : map_ok m -> extractCursorByScope field (prefs_value field version m) = m.
Proof.
  intros (H1 & H2 & H3). unfold extractCursorByScope, prefs_value, vprop. cbn [is_objectish].
  rewrite prop_cons, bool_decide_true by done. cbn [is_objectish]. rewrite !prop_cons.
  rewrite bool_decide_false, bool_decide_true by done. unfold by_scope_value. cbn [is_objectish entries_of].
  rewrite extract_entries by done. by apply of_entries_ordered.
Qed.

(** Numbers read from a text are numbers that a text can carry. *)
Definition entry_json_ok (e : CursorEntry) : Prop := json_ok (entry_value e) = true.

Lemma cursor_entry_json v e : json_ok v = true -> cursor_entry v = Some e -> entry_json_ok e.
Proof.
  intros Hv He. unfold cursor_entry, as_finite in He. destruct v as [| | | | | |o]; try done. cbn [vprop] in He.
  destruct (prop "cursor_ts" o) as [| | |c| | |] eqn:Ec; try done. destruct (is_finite c); [|done].
  case_match; [done|]. injection He as <-. unfold entry_json_ok, entry_value. cbn [cursor_ts updated_unix_ms].
  assert (Hn : forall k x, prop k o = VNumber x -> num_ok x = true).
  { intros k x Hp. unfold prop in Hp. destruct (get k o) as [v|] eqn:Eg; [|done]. cbn in Hp. subst v.
    by pose proof (json_ok_get o k (VNumber x) Hv Eg). }
  pose proof (Hn _ _ Ec) as Hc. destruct (prop "updated_unix_ms" o) as [| | |u| | |] eqn:Eu; cbn [as_number];
    (apply json_ok_object; [shape|]); repeat (apply List.Forall_cons || apply List.Forall_nil); try done.
  by apply (Hn _ _ Eu).
Qed.

Lemma json_ok_entries v : json_ok v = true -> Forall (fun p => json_ok (snd p) = true) (entries_of v).
Proof.
  destruct v as [| | | | |l|o]; intros H; try constructor.
  - cbn [json_ok] in H. rewrite forallb_forall in H. apply Forall_forall. intros p (i & x & -> & Hx)%elem_of_lookup_imap.
    cbn [snd entries_of]. apply H, list_elem_of_In. by eapply list_elem_of_lookup_2.
  - by apply json_ok_object_iff in H as (_ & _ & H).
Qed.

Lemma extract_fold_json es m :
  Forall (fun p => json_ok (snd p) = true) es -> wf m -> Forall (fun p => entry_json_ok (snd p)) m ->
  Forall (fun p => entry_json_ok (snd p)) (fold_left extract_step es m).
Proof.
  intros Hes. revert m. induction Hes as [|[k v] es Hv _ IH]; intros m Hw Hm; cbn [fold_left]; [done|].
  unfold extract_step at 2. cbn [fst snd]. destruct (cursor_entry v) as [e|] eqn:E; [|by apply IH].
  apply IH; [by apply wf_set|]. apply Forall_forall. intros p [->|Hp]%elem_of_set; [| |done].
  - cbn [snd]. by eapply cursor_entry_json.
  - rewrite Forall_forall in Hm. by apply Hm.
Qed.

Lemma json_ok_vprop_object k v : json_ok v = true -> is_objectish (vprop k v) = true -> json_ok (vprop k v) = true.
Proof.
  destruct v as [| | | | | |o]; try done. cbn [vprop]. unfold prop. destruct (get k o) eqn:E; [|done].
  intros H _. by apply (json_ok_get o k).
Qed.

Lemma json_ok_by_scope m :
  wf m -> ordered m -> Forall (fun p => entry_json_ok (snd p)) m -> json_ok (by_scope_value m) = true.
Proof.
  intros Hw Ho Hj. unfold by_scope_value. apply json_ok_object_iff.
  assert (Hk : keys (map (fun p => (fst p, entry_value (snd p))) m) = keys m) by (unfold keys; by rewrite map_map).
  split_and!.
  - unfold wf. by rewrite Hk.
  - clear - Ho. induction Ho as [|p m Ho IH Hp]; cbn [map]; constructor; [done|].
    apply Forall_map. eapply Forall_impl; [exact Hp|]. done.
  - by apply Forall_map.
Qed.

Lemma json_ok_single k v : json_ok v = true -> json_ok (VObject [(k, v)]) = true.
Proof.
  intros Hv. apply json_ok_object; [|by constructor]. unfold of_entries, set. cbn. by destruct (array_index k).
Qed.

Section roundtrip.
Context {J : Json} {JL : JsonLaws J}.

(** The cursors read from the server's preferences are well formed, and a
    request body that posts them as they are, printed and parsed as JSON, is
    read back as the same map; both readers of such maps are instances. *)
Theorem cursor_prefs_roundtrip clientId kind field prefs :
  json_ok prefs = true ->
  let m := extractCursorByScope field prefs in
  map_ok m /\ exists body, parse (stringify (push_payload clientId kind field BROKER_EVENTS_PREFS_VERSION m)) = Some body
                        /\ extractCursorByScope field (vprop "prefs" body) = m.
Proof.
  intros Hp m. pose proof (extract_ok field prefs) as Hm. fold m in Hm. split; [done|].
  exists (push_payload clientId kind field BROKER_EVENTS_PREFS_VERSION m).
  split; [|by apply (extract_prefs field BROKER_EVENTS_PREFS_VERSION)].
  assert (Hj : json_ok (by_scope_value m) = true).
  { apply json_ok_by_scope; [apply Hm..|]. apply extract_fold_json; [|constructor..]. clear -Hp.
    destruct (is_objectish (if is_objectish prefs then vprop field prefs else VUndefined)) eqn:E; [|constructor].
    destruct (is_objectish prefs) eqn:E'; [|done].
    destruct (is_objectish (vprop "by_scope" (vprop field prefs))) eqn:E2;
      [apply json_ok_entries; by repeat apply json_ok_vprop_object|].
    by destruct (vprop "by_scope" _). }
  apply parse_stringify. unfold push_payload, prefs_value. generalize dependent (by_scope_value m). intros v Hv.
  assert (Hv' : json_ok (VObject [("version", VNumber (int BROKER_EVENTS_PREFS_VERSION)); ("by_scope", v)]) = true).
  { apply json_ok_object; [shape|]. apply List.Forall_cons; [by vm_compute|by repeat constructor]. }
  apply json_ok_object; [shape|]. do 3 (apply List.Forall_cons; [try done|]); [|constructor].
  by apply json_ok_single.
Qed.
End roundtrip.

Lemma cursor_prefs_roundtrip_witness :
  let prefs := VObject [("team_events_cursor", VObject [("version", VNumber (int 1)); ("by_scope",
    VObject [("b::k::t", VObject [("cursor_ts", VNumber (int 7)); ("updated_unix_ms", VNumber (int 9))]);
             ("old", VObject [("cursor_ts", VNumber (int 0))]); ("bad", VString "x")])])] in
  extractTeamEventsCursorByScope prefs = [("b::k::t", mkCursor (int 7) (Some (int 9)))]
  /\ (let m := extractCursorByScope "team_events_cursor" prefs in
      map_ok m /\ exists body, parse (stringify (push_payload "webui" "webui-team-events" "team_events_cursor"
                                                  BROKER_EVENTS_PREFS_VERSION m)) = Some body
                            /\ extractCursorByScope "team_events_cursor" (vprop "prefs" body) = m).
Proof.
  intros prefs. split; [by vm_compute|].
  apply (cursor_prefs_roundtrip "webui" "webui-team-events" "team_events_cursor" prefs). by vm_compute.
Defined.

(** ** Maxima *)

Lemma above_max c t : leb (int 0) c = true -> is_nan t = false -> math_max c t = if gtb t c then t else c.
Proof.
  intros Hc Ht. unfold math_max, gtb. destruct (is_nan c) eqn:Ec; [by destruct c|]. rewrite Ht. cbn [orb].
  rewrite ltb_negb_leb by done. destruct (leb c t) eqn:L.
  - destruct (leb t c) eqn:L'; [|done]. by apply leb_antisym.
  - destruct (leb_total c t Ec Ht) as [|H]; [congruence|]. by rewrite H.
Qed.
