(* ===== verification/BrokerConsole.v ===== *)
(** The console's reader of the broker's events, src/ui/src/components/broker/
    useBrokerEventsState.ts, as a state machine over renders, effects, stream
    events and answers.  The base and the key are fixed: with others the hook
    starts again ([mount]). *)
From S2P Require Import Prelude JsNumber JsString JsValue JsOrder JsonUtils JsonText Sse BrokerEvents.

Record Args := mkArgs { base : string; authKey : string; clientId : string; isOpen : bool; canQuery : bool }.

(** What a render shows to the effects and callbacks it creates. *)
Record view := mkView { v_cursor : number; v_map : CursorByScope; v_status : CursorStatus }.

#[export] Instance view_eq_dec : EqDecision view.
Proof. solve_decision. Defined.

Record state := mkState {
  brokerEvents : list BrokerEventRow; brokerEventsError : option string;
  brokerEventsActive : bool; brokerEventsConnected : bool;
  reading : bool;                      (* a stream reader that is not aborted *)
  replayBusy : bool; replayError : option string; replayNote : option nat;
  cursorTs : number; cursorRef : number; replayKey : string; loadKey : string;
  sync : Sync; stored : option string;
  last : view;                         (* the view whose effects have run last *)
  committed : option view              (* a committed render whose effects have not run *)
}.

Inductive input :=
  | Render (now : Z)
  | Effects (now : Z)
  | StreamStarts
  | StreamAnswer (isOk : bool) (httpStatus : Z)
  | StreamEvent (ev : SseEvent)
  | StreamEnd
  | StreamThrow (msg : string)
  | SetActive (b : bool)
  | AutoReplay                                          (* the effect that replays once per key *)
  | ReplayStarts                                        (* the button *)
  | ReplaySettles (events next_since_ts : value)
  | ReplayThrow (msg : string)
  | AutoLoad
  | LoadSettles (shown : CursorStatus) (prefs : value) (now : Z)
  | LoadThrow
  | TimerFires
  | PushSettles (i : nat) (isOk : bool)
  | ClearEvents.

Section reader.
Context {J : Json} (a : Args).

Definition brokerEventsCursorKey : string :=
  if negb (truthy_str (base a)) || negb (truthy_str (authKey a)) then ""
  else "agentd:broker:eventsCursor:" ++s base a ++s ":" ++s authKey a.

Definition brokerEventsScopeKey : string :=
  if negb (truthy_str (base a)) then "" else base a ++s "::" ++s trim (authKey a).

Definition brokerPrefsClientId : string := str_or (clientId a) "webui".

Definition can_push : bool :=
  truthy_str (base a) && truthy_str brokerPrefsClientId && truthy_str brokerEventsScopeKey.

(** State updates. *)
Definition with_events (l : list BrokerEventRow) (s : state) : state :=
  mkState l (brokerEventsError s) (brokerEventsActive s) (brokerEventsConnected s) (reading s) (replayBusy s)
    (replayError s) (replayNote s) (cursorTs s) (cursorRef s) (replayKey s) (loadKey s) (sync s) (stored s)
    (last s) (committed s).
Definition with_stream (err : option string) (active connected rd : bool) (s : state) : state :=
  mkState (brokerEvents s) err active connected rd (replayBusy s)
    (replayError s) (replayNote s) (cursorTs s) (cursorRef s) (replayKey s) (loadKey s) (sync s) (stored s)
    (last s) (committed s).
Definition with_replay (busy : bool) (err : option string) (note : option nat) (s : state) : state :=
  mkState (brokerEvents s) (brokerEventsError s) (brokerEventsActive s) (brokerEventsConnected s) (reading s) busy
    err note (cursorTs s) (cursorRef s) (replayKey s) (loadKey s) (sync s) (stored s) (last s) (committed s).
Definition with_cursor (ts : number) (s : state) : state :=
  mkState (brokerEvents s) (brokerEventsError s) (brokerEventsActive s) (brokerEventsConnected s) (reading s)
    (replayBusy s) (replayError s) (replayNote s) ts (cursorRef s) (replayKey s) (loadKey s) (sync s) (stored s)
    (last s) (committed s).
Definition with_keys (rk lk : string) (s : state) : state :=
  mkState (brokerEvents s) (brokerEventsError s) (brokerEventsActive s) (brokerEventsConnected s) (reading s)
    (replayBusy s) (replayError s) (replayNote s) (cursorTs s) (cursorRef s) rk lk (sync s) (stored s)
    (last s) (committed s).
Definition with_sync (y : Sync) (s : state) : state :=
  mkState (brokerEvents s) (brokerEventsError s) (brokerEventsActive s) (brokerEventsConnected s) (reading s)
    (replayBusy s) (replayError s) (replayNote s) (cursorTs s) (cursorRef s) (replayKey s) (loadKey s) y (stored s)
    (last s) (committed s).
Definition with_effects (ref : number) (text : option string) (v : view) (c : option view) (s : state) : state :=
  mkState (brokerEvents s) (brokerEventsError s) (brokerEventsActive s) (brokerEventsConnected s) (reading s)
    (replayBusy s) (replayError s) (replayNote s) (cursorTs s) ref (replayKey s) (loadKey s) (sync s) text v c.

(** [updateBrokerEventsCursor]: compares with the ref, sets the state. *)
Definition updateBrokerEventsCursor (rowTs nextSince : option number) (s : state) : state :=
  let current := cursorRef s in
  let candidate := math_max (math_max current (num_or_0 rowTs)) (num_or_0 nextSince) in
  if gtb candidate current then with_cursor candidate s else s.

(** The stored text of the cursor. *)
Definition cursor_text (ts now : number) : string :=
  stringify (VObject [("ts", VNumber ts); ("updated", VNumber now)]).

Definition read_cursor_text (raw : option string) : number :=
  match raw with
  | None => int 0
  | Some raw =>
      if negb (truthy_str raw) then int 0
      else match parse raw with
           | None => int 0
           | Some parsed =>
               match vprop "ts" parsed with
               | VNumber ts => if gtb ts (int 0) then ts else int 0
               | _ => int 0
               end
           end
  end.

(** The first flush of effects on a stored text: [raw] is read under a key
    that is not empty. *)
Definition mount (raw : option string) : state :=
  let start := mkView (int 0) [] idle in
  mkState [] None true false false false None None
    (if truthy_str brokerEventsCursorKey then read_cursor_text raw else int 0) (int 0) "" ""
    (mkSync [] idle false None []) raw start None.

Definition current_view (s : state) : view := mkView (cursorTs s) (byScope (sync s)) (status (sync s)).

(** The effects of a committed render that follow the cursor, in the order of
    the file: the ref, the stored text, the map. *)
Definition run_effects (now : Z) (s : state) : state :=
  match committed s with
  | None => s
  | Some v =>
      let text := if negb (truthy_str brokerEventsCursorKey) || leb (v_cursor v) (int 0)
                     || bool_decide (v_cursor v = v_cursor (last s))
                  then stored s else Some (cursor_text (v_cursor v) (int now)) in
      let y := if bool_decide (v = last s) then sync s
               else follow_cursor can_push (v_status v) brokerEventsScopeKey (v_cursor v) (int now) (v_map v) (sync s) in
      with_sync y (with_effects (v_cursor v) text v None s)
  end.

(** A render is committed; React runs the effects of the one before first. *)
Definition render (now : Z) (s : state) : state :=
  let s := run_effects now s in
  with_effects (cursorRef s) (stored s) (last s) (Some (current_view s)) s.

Definition start_stream (s : state) : state :=
  if isOpen a && canQuery a && brokerEventsActive s then with_stream None (brokerEventsActive s) false true s else s.

(** The row of a stream event; [ev.data] that is no JSON gives [null]. *)
Definition stream_row (ev : SseEvent) : option BrokerEventRow :=
  let parsed := if truthy_str (data ev) then safeJsonParse (data ev) else VNull in
  normalizeBrokerEventRow parsed (VString (event ev)).

Definition on_event (ev : SseEvent) (s : state) : state :=
  match stream_row ev with
  | None => s
  | Some row =>
      updateBrokerEventsCursor (ts_unix_ms row) None
        (with_events (appendBrokerEvents [row] (brokerEvents s)) s)
  end.

(** [loadBrokerEventsReplay], before and after its request; the request asks
    for the events since the ref. *)
Definition replay_starts (s : state) : state :=
  if negb (canQuery a) || negb (truthy_str (base a)) then s
  else with_replay true None (replayNote s) s.

Definition replay_since (s : state) : number := cursorRef s.

Definition replay_settles (events next_since_ts : value) (s : state) : state :=
  let rows := normalizeBrokerReplayEvents events in
  let s := with_events (appendBrokerEvents rows (brokerEvents s)) s in
  let s := match next_since_ts with
           | VNumber next => updateBrokerEventsCursor None (Some next) s
           | _ => fold_left (fun s row => updateBrokerEventsCursor (ts_unix_ms row) None s) rows s
           end in
  with_replay false (replayError s) (Some (length rows)) s.

Definition auto_replay (s : state) : state :=
  if negb (isOpen a) || negb (canQuery a) || negb (brokerEventsActive s) || negb (truthy_str (base a)) then s
  else
    let key := base a ++s "::" ++s authKey a ++s ":on" in
    if bool_decide (replayKey s = key) then s else replay_starts (with_keys key (loadKey s) s).

Definition auto_load (s : state) : state :=
  if negb (canQuery a) || negb (truthy_str (base a)) || negb (truthy_str brokerPrefsClientId)
     || negb (truthy_str (authKey a)) then s
  else
    let nextKey := base a ++s "::" ++s brokerPrefsClientId ++s "::" ++s authKey a in
    if bool_decide (loadKey s = nextKey) then s
    else with_sync (set_status loading (sync s)) (with_keys (replayKey s) nextKey s).

Definition load_settles (shown : CursorStatus) (prefs : value) (now : Z) (s : state) : state :=
  let '(merged, y) := load_merge can_push shown brokerEventsScopeKey (cursorRef s) (int now)
                        (extractBrokerEventsCursorByScope prefs) (sync s) in
  let s := with_sync y s in
  if gtb merged (cursorRef s) then with_cursor merged s else s.

Definition set_active (b : bool) (s : state) : state :=
  if bool_decide (b = brokerEventsActive s) then s
  else start_stream (with_stream (brokerEventsError s) b false false s).

Definition step (s : state) (i : input) : state :=
  match i with
  | Render now => render now s
  | Effects now => run_effects now s
  | StreamStarts => start_stream s
  | StreamAnswer isOk code =>
      if negb (reading s) then s
      else if isOk then with_stream (brokerEventsError s) (brokerEventsActive s) true true s
      else with_stream (Some ("Error: broker events failed (" ++s pretty code ++s ")")) (brokerEventsActive s) false false s
  | StreamEvent ev => if reading s && brokerEventsConnected s then on_event ev s else s
  | StreamEnd => if reading s then with_stream (brokerEventsError s) (brokerEventsActive s) (brokerEventsConnected s) false s else s
  | StreamThrow msg => if reading s then with_stream (Some msg) (brokerEventsActive s) false false s else s
  | SetActive b => set_active b s
  | AutoReplay => auto_replay s
  | ReplayStarts => replay_starts s
  | ReplaySettles events next => replay_settles events next s
  | ReplayThrow msg => with_replay false (Some msg) (replayNote s) s
  | AutoLoad => auto_load s
  | LoadSettles shown prefs now => load_settles shown prefs now s
  | LoadThrow => with_sync (set_status error (sync s)) s
  | TimerFires => with_sync (persist_fires can_push (sync s)) s
  | PushSettles i isOk => with_sync (push_settles i isOk (sync s)) s
  | ClearEvents => with_events [] s
  end.

Definition run (s : state) (ins : list input) : state := fold_left step ins s.

(** The rows shown, newest first. *)
Definition brokerEventRows (quorumOnly : bool) (s : state) : list BrokerEventRow :=
  rev (if quorumOnly then List.filter (fun ev => starts_with "team_quorum" (r_type ev)) (brokerEvents s)
       else brokerEvents s).
End reader.

(** ** The rows shown *)

Section feed.
Context {J : Json} (a : Args).

(** The rows that an input delivers, in order. *)
Definition delivered (s : state) (i : input) : list BrokerEventRow :=
  match i with
  | StreamEvent ev => if reading s && brokerEventsConnected s then option_list (stream_row ev) else []
  | ReplaySettles events _ => normalizeBrokerReplayEvents events
  | _ => []
  end.

Fixpoint deliveries (s : state) (ins : list input) : list BrokerEventRow :=
  match ins with
  | [] => []
  | i :: ins => delivered s i ++ deliveries (step a s i) ins
  end.

Lemma append_nothing l : appendBrokerEvents [] l = l.
Proof. done. Qed.

Lemma update_cursor_events x y s : brokerEvents (updateBrokerEventsCursor x y s) = brokerEvents s.
Proof. unfold updateBrokerEventsCursor. by case_match. Qed.

Lemma fold_update_events rows s :
  brokerEvents (fold_left (fun s row => updateBrokerEventsCursor (ts_unix_ms row) None s) rows s) = brokerEvents s.
Proof. revert s. induction rows as [|r rows IH]; intros s; cbn [fold_left]; [done|]. by rewrite IH, update_cursor_events. Qed.

Lemma run_effects_events now s : brokerEvents (run_effects a now s) = brokerEvents s.
Proof. unfold run_effects. by destruct (committed s). Qed.

Lemma replay_settles_events events next s :
  brokerEvents (replay_settles events next s)
  = appendBrokerEvents (normalizeBrokerReplayEvents events) (brokerEvents s).
Proof.
  unfold replay_settles, with_replay. cbn [brokerEvents].
  destruct next; by rewrite ?update_cursor_events, ?fold_update_events.
Qed.

Lemma step_events s i :
  brokerEvents (step a s i) = match i with
                              | ClearEvents => []
                              | _ => appendBrokerEvents (delivered s i) (brokerEvents s)
                              end.
Proof.
  destruct i; try done; unfold step, delivered; rewrite ?append_nothing.
  - unfold render, with_effects. cbn [brokerEvents]. apply run_effects_events.
  - apply run_effects_events.
  - unfold start_stream. by case_match.
  - by repeat case_match.
  - case_match; [|done]. unfold on_event. destruct (stream_row ev); [|done]. by rewrite update_cursor_events.
  - by case_match.
  - by case_match.
  - unfold set_active. case_match; [done|]. unfold start_stream. by case_match.
  - unfold auto_replay. case_match; [done|]. cbv zeta. case_match; [done|]. unfold replay_starts. by case_match.
  - unfold replay_starts. by case_match.
  - apply replay_settles_events.
  - unfold auto_load. case_match; [done|]. cbv zeta. by case_match.
  - unfold load_settles. destruct (load_merge _ _ _ _ _ _ _) as [m y]. by case_match.
Qed.

Lemma run_buffer ins s :
  (length (brokerEvents s) <= BROKER_EVENTS_MAX)%nat -> NoDup (row_keys (brokerEvents s)) ->
  (length (brokerEvents (run a s ins)) <= BROKER_EVENTS_MAX)%nat /\ NoDup (row_keys (brokerEvents (run a s ins))).
Proof.
  revert s. induction ins as [|i ins IH]; intros s H1 H2; [done|]. apply IH; rewrite step_events.
  - destruct i; try (by apply append_bound). cbn. lia.
  - destruct i; try (by apply append_NoDup). constructor.
Qed.

Lemma run_feed ins s all :
  ClearEvents ∉ ins -> brokerEvents s = fresh [] all ->
  (length (fresh [] (all ++ deliveries s ins)) <= BROKER_EVENTS_MAX)%nat ->
  brokerEvents (run a s ins) = fresh [] (all ++ deliveries s ins).
Proof.
  revert s all. induction ins as [|i ins IH]; intros s all Hc Hs; cbn [deliveries]; [by rewrite app_nil_r|].
  rewrite app_assoc. intros Hl. cbn [run fold_left]. apply IH; [set_solver| |done].
  rewrite step_events. rewrite fresh_app, length_app in Hl. rewrite Hs.
  destruct i; try (apply append_first_occurrences; lia). destruct Hc. by left.
Qed.

(** C17: in every run the console shows at most 200 rows with different keys,
    and until more have come, or the list is cleared, exactly the first row of
    every key that the stream and the replays have delivered, in the order of
    delivery, however they overlap. *)
Theorem console_exactly_once raw ins :
  let s := run a (mount a raw) ins in
  let all := deliveries (mount a raw) ins in
  (length (brokerEvents s) <= BROKER_EVENTS_MAX)%nat /\ NoDup (row_keys (brokerEvents s))
  /\ (ClearEvents ∉ ins -> (length (fresh [] all) <= BROKER_EVENTS_MAX)%nat -> brokerEvents s = fresh [] all).
Proof.
  cbn zeta. destruct (run_buffer ins (mount a raw)) as [H1 H2]; [cbn; lia|constructor|].
  split_and!; [done..|]. intros Hc. by apply (run_feed ins (mount a raw) []).
Qed.
End feed.

(** ** The cursor *)

Section cursor.
Context {J : Json} (a : Args).
#[local] Abbreviation key := (brokerEventsScopeKey a).

(** The time stamps that an input reports to the cursor. *)
Definition reported (i : input) : list number :=
  match i with
  | StreamEvent ev => match stream_row ev with Some row => [row_ts row] | None => [] end
  | ReplaySettles events next => num_or_0 (as_number next) :: map row_ts (normalizeBrokerReplayEvents events)
  | LoadSettles _ prefs _ => [cursor_at key (extractBrokerEventsCursorByScope prefs)]
  | _ => []
  end.

(** The cursors that the reader holds: the state, the ref, a committed render,
    and the scope's entry of the maps kept, waiting and sent. *)
Definition maps_of (y : Sync) : list CursorByScope := byScope y :: option_list (pending y) ++ pushes y.

Definition cursors_of (s : state) : list number :=
  cursorTs s :: cursorRef s :: map v_cursor (option_list (committed s))
  ++ map (cursor_at key) (maps_of (sync s)).

Section from.
Context (P : number -> Prop) (HP0 : P (int 0)) (HPnan : ~ P NaN).

Lemma max_from x y : P x -> P y -> P (math_max x y).
Proof.
  intros Hx Hy. unfold math_max. destruct (is_nan x) eqn:Ex; [by destruct x|].
  destruct (is_nan y) eqn:Ey; [by destruct y|]. cbn [orb]. by case_match.
Qed.

Definition maps_from (y : Sync) : Prop := Forall (fun m => P (cursor_at key m)) (maps_of y).

Lemma maps_from_iff y :
  maps_from y <-> P (cursor_at key (byScope y)) /\ (forall m, pending y = Some m -> P (cursor_at key m))
                  /\ Forall (fun m => P (cursor_at key m)) (pushes y).
Proof.
  unfold maps_from, maps_of. rewrite Forall_cons, Forall_app. destruct (pending y) as [m|].
  - change (option_list (Some m)) with [m]. rewrite Forall_singleton. split; intros (H1 & H2 & H3); (split_and!; [done| |done]); [by intros ? [= <-]|by apply H2].
  - split; intros (H1 & H2 & H3); (split_and!; [done| |done]); [done|constructor].
Qed.

Lemma maps_scheduled shown m y :
  maps_from y -> P (cursor_at key m) -> maps_from (schedulePersist (can_push a) shown m (set_by_scope m y)).
Proof.
  rewrite !maps_from_iff. intros (_ & Hp & Hy) Hm. unfold schedulePersist.
  repeat case_match; cbn [set_by_scope byScope pending pushes]; (split_and!; [done| |done]); [done..|].
  by intros ? [= <-].
Qed.

Lemma cursor_at_set m c now : is_nan c = false -> cursor_at key (set key (mkCursor c now) m) = c.
Proof. intros Hc. unfold cursor_at. rewrite get_set_eq. cbn. destruct c as [| | |k]; try done. by destruct k. Qed.

Lemma not_nan x : P x -> is_nan x = false.
Proof. by destruct x. Qed.

Lemma merge_from shown x now m y :
  P x -> P (cursor_at key m) -> maps_from y ->
  P (fst (load_merge (can_push a) shown key x now m y)) /\ maps_from (snd (load_merge (can_push a) shown key x now m y)).
Proof.
  intros Hx Hm Hy. unfold load_merge. cbv zeta. cbn [fst snd].
  pose proof (max_from x (cursor_at key m) Hx Hm) as Hmax. split; [done|].
  assert (Hy1 : maps_from (set_by_scope m y)) by (rewrite maps_from_iff in *; split_and!; [done|apply Hy|apply Hy]).
  assert (H : forall y, maps_from y -> maps_from (set_status ready y)) by (intros z; by rewrite !maps_from_iff).
  apply H. case_match; [|done]. apply maps_scheduled; [done|]. by rewrite cursor_at_set by by apply not_nan.
Qed.

Lemma follow_from shown x now m y :
  P x -> maps_from y -> maps_from (follow_cursor (can_push a) shown key x now m y).
Proof.
  intros Hx Hy. unfold follow_cursor. repeat case_match; [done..|]. apply maps_scheduled; [done|].
  by rewrite cursor_at_set by by apply not_nan.
Qed.

(** All cursors of a state satisfy [P]; so does what its inputs report. *)
Definition from (s : state) : Prop :=
  P (cursorTs s) /\ P (cursorRef s) /\ (forall v, committed s = Some v -> P (v_cursor v)) /\ maps_from (sync s).

Lemma update_from x y s :
  P (num_or_0 x) -> P (num_or_0 y) -> from s -> from (updateBrokerEventsCursor x y s).
Proof.
  intros Hx Hy (H1 & H2 & H3). unfold updateBrokerEventsCursor. cbv zeta. case_match; [|done].
  split; [|done]. cbn. by repeat apply max_from.
Qed.

Lemma effects_from now s : from s -> from (run_effects a now s).
Proof.
  intros (H1 & H2 & H3 & H4). unfold run_effects. destruct (committed s) as [v|] eqn:E; [|by split_and!; rewrite ?E].
  split_and!; cbn; [done|by apply H3|done|]. case_match; [done|]. apply follow_from; [by apply H3|done].
Qed.

Lemma fold_update_from rows s :
  Forall (fun row => P (row_ts row)) rows -> from s ->
  from (fold_left (fun s row => updateBrokerEventsCursor (ts_unix_ms row) None s) rows s).
Proof.
  intros Hr. revert s. induction Hr as [|r rows Hr _ IH]; intros s Hs; cbn [fold_left]; [done|].
  apply IH. by apply update_from; [exact Hr|exact HP0|].
Qed.

Lemma step_from s i : Forall P (reported i) -> from s -> from (step a s i).
Proof.
  intros Hi Hs. assert (Hkeep : forall t, cursorTs t = cursorTs s -> cursorRef t = cursorRef s ->
    committed t = committed s -> maps_from (sync t) -> from t).
  { intros t E1 E2 E3 H. destruct Hs as (H1 & H2 & H3 & _). unfold from. rewrite E1, E2, E3. done. }
  pose proof (proj2 (proj2 (proj2 Hs))) as Hm. destruct i; cbn [step].
  - pose proof (effects_from now s Hs) as (H1 & H2 & H3 & H4). split_and!; try done. intros v [= <-]. done.
  - by apply effects_from.
  - unfold start_stream. case_match; [by apply Hkeep|done].
  - repeat case_match; [done|by apply Hkeep..].
  - case_match; [|done]. unfold on_event. cbn [reported] in Hi. destruct (stream_row ev) as [row|]; [|done].
    apply Forall_cons in Hi as [Hi _]. apply update_from; [exact Hi|exact HP0|by apply Hkeep].
  - case_match; [by apply Hkeep|done].
  - case_match; [by apply Hkeep|done].
  - unfold set_active. case_match; [done|]. unfold start_stream. case_match; by apply Hkeep.
  - unfold auto_replay, replay_starts. repeat case_match; first [done|by apply Hkeep].
  - unfold replay_starts. case_match; [done|by apply Hkeep].
  - cbn [reported] in Hi. apply Forall_cons in Hi as [Hn Hr]. rewrite List.Forall_map in Hr.
    unfold replay_settles. cbv zeta.
    set (rows := normalizeBrokerReplayEvents events) in *.
    assert (H : forall t, from t -> from (with_replay false (replayError t) (Some (length rows)) t)) by done.
    apply H. destruct next_since_ts; try (apply fold_update_from; [exact Hr|by apply Hkeep]).
    apply update_from; [exact HP0|exact Hn|by apply Hkeep].
  - by apply Hkeep.
  - unfold auto_load. repeat case_match; [done..|]. by apply Hkeep.
  - cbn [reported] in Hi. apply Forall_cons in Hi as [Hi _]. destruct Hs as (H1 & H2 & H3 & H4).
    pose proof (merge_from shown (cursorRef s) (int now) _ (sync s) H2 Hi H4) as [Hc Hy].
    unfold load_settles. destruct (load_merge _ _ _ _ _ _ _) as [c y]. cbn [fst snd] in *.
    case_match; by split_and!.
  - by apply Hkeep.
  - apply Hkeep; try done. unfold persist_fires. case_match; [done|]. rewrite !maps_from_iff in *.
    cbn [byScope pending pushes] in *. destruct Hm as (M1 & M2 & M3). split_and!; try done.
    destruct (pending (sync s)); [|done]. case_match; [|done]. apply Forall_app. split; [done|]. apply Forall_singleton. by apply M2.
  - apply Hkeep; try done. unfold push_settles. destruct (pushes (sync s) !! i); [|done]. rewrite !maps_from_iff in *.
    cbn [byScope pending pushes] in *. destruct Hm as (M1 & M2 & M3). split_and!; [done|done|]. by apply Forall_delete.
  - by apply Hkeep.
Qed.
Lemma run_from ins s : Forall (fun i => Forall P (reported i)) ins -> from s -> from (run a s ins).
Proof.
  intros Hi. revert s. induction Hi as [|i ins Hi _ IH]; intros s Hs; [done|]. by apply IH, step_from.
Qed.

Lemma cursors_from s : from s -> Forall P (cursors_of s).
Proof.
  intros (H1 & H2 & H3 & H4). unfold cursors_of. do 2 (apply List.Forall_cons; [done|]).
  apply Forall_app. split; [|by apply List.Forall_map].
  destruct (committed s) as [v|]; [|constructor]. apply List.Forall_cons; [by apply H3|constructor].
Qed.
End from.

Lemma read_cursor_num raw : is_nan (read_cursor_text raw) = false.
Proof.
  unfold read_cursor_text. repeat case_match; try done. by destruct x.
Qed.

Lemma reported_num i : Forall (fun x => is_nan x = false) (reported i).
Proof.
  destruct i; cbn [reported]; repeat apply List.Forall_cons; try constructor; try apply num_or_0_num.
  - destruct (stream_row ev); repeat constructor. apply num_or_0_num.
  - apply List.Forall_map, Forall_forall. intros r _. apply num_or_0_num.
Qed.

(** The reader's cursor, its ref, and the scope's entry of every map that
    it keeps or sends are 0, the stored cursor or a time stamp that the stream,
    a replay or the server reported: a replay never skips past what has been
    reported. *)
Theorem console_cursor_reported raw ins :
  let s := run a (mount a raw) ins in
  Forall (fun x => x ∈ int 0 :: read_cursor_text raw :: concat (map reported ins)) (cursors_of s).
Proof.
  intros s. set (seen := int 0 :: read_cursor_text raw :: concat (map reported ins)).
  assert (Hseen : forall x, x ∈ seen -> is_nan x = false).
  { apply Forall_forall. unfold seen. repeat apply List.Forall_cons; [done|by apply read_cursor_num|].
    apply Forall_concat, Forall_map, Forall_forall. intros i _. apply reported_num. }
  eapply (cursors_from (fun x => x ∈ seen)), run_from.
  - by left.
  - by intros ?%Hseen.
  - apply Forall_forall. intros i Hi. apply Forall_forall. intros x Hx. do 2 right.
    apply list_elem_of_In, in_concat. exists (reported i). split; [by apply in_map, list_elem_of_In|by apply list_elem_of_In].
  - assert (H0 : int 0 ∈ seen) by by left. split_and!; [|done|done|].
    + cbn. case_match; [by right; left|done].
    + by apply maps_from_iff.
Qed.

(** A reader whose ref has caught up with its state. *)
Definition settled (s : state) : Prop :=
  cursorRef s = cursorTs s /\ committed s = None /\ leb (int 0) (cursorTs s) = true
  /\ reading s = true /\ brokerEventsConnected s = true.

Definition stream_times (evs : list SseEvent) : list number := map row_ts (omap stream_row evs).

(** The last of some time stamps that is later than [c]. *)
Definition last_above (c : number) (ts : list number) : option number :=
  list.last (List.filter (fun t => gtb t c) ts).

Lemma max_above c t :
  leb (int 0) c = true -> is_nan t = false ->
  math_max (math_max c t) (int 0) = if gtb t c then t else c.
Proof.
  intros Hc Ht. unfold gtb, math_max. destruct (is_nan c) eqn:Ec; [by destruct c|]. rewrite Ht. cbn [orb].
  rewrite (ltb_negb_leb c t) by done. destruct (leb c t) eqn:L.
  - rewrite Ht. change (is_nan (int 0)) with false. cbn [orb negb].
    destruct (leb t c) eqn:L'; cbn [negb].
    + rewrite (leb_antisym t c) by done. destruct (leb c (int 0)) eqn:E0; [by apply leb_antisym|done].
    + destruct (leb t (int 0)) eqn:E0; [|done]. by rewrite (leb_trans t (int 0) c) in L'.
  - assert (leb t c = true) as -> by (destruct (leb_total c t Ec Ht); congruence). rewrite Ec.
    change (is_nan (int 0)) with false. cbn [orb negb]. destruct (leb c (int 0)) eqn:E0; [by apply leb_antisym|done].
Qed.

Lemma update_above row s :
  leb (int 0) (cursorRef s) = true ->
  updateBrokerEventsCursor (ts_unix_ms row) None s
  = if gtb (row_ts row) (cursorRef s) then with_cursor (row_ts row) s else s.
Proof.
  intros Hc. unfold updateBrokerEventsCursor. change (num_or_0 None) with (int 0). fold (row_ts row). cbv zeta.
  rewrite max_above by (done || apply num_or_0_num). destruct (gtb (row_ts row) (cursorRef s)) eqn:E; [by rewrite E|].
  unfold gtb. destruct (cursorRef s) as [| | |k]; cbn; try done. by rewrite Z.ltb_irrefl.
Qed.

Lemma updates_above rows s :
  leb (int 0) (cursorRef s) = true ->
  let t := fold_left (fun s row => updateBrokerEventsCursor (ts_unix_ms row) None s) rows s in
  cursorTs t = default (cursorTs s) (last_above (cursorRef s) (map row_ts rows)).
Proof.
  cbn zeta. revert s. induction rows as [|r rows IH]; intros s Hc; [done|]. cbn [fold_left map].
  rewrite update_above by done. unfold last_above in *. cbn [List.filter].
  destruct (gtb (row_ts r) (cursorRef s)); rewrite IH by done; [|done]. cbn [with_cursor cursorTs cursorRef].
  rewrite last_cons. by destruct (list.last _).
Qed.

Lemma on_event_above ev s :
  leb (int 0) (cursorRef s) = true ->
  cursorTs (on_event ev s) = default (cursorTs s) (last_above (cursorRef s) (map row_ts (option_list (stream_row ev))))
  /\ cursorRef (on_event ev s) = cursorRef s /\ committed (on_event ev s) = committed s
  /\ reading (on_event ev s) = reading s /\ brokerEventsConnected (on_event ev s) = brokerEventsConnected s.
Proof.
  intros Hc. unfold on_event. destruct (stream_row ev) as [row|]; [|done].
  rewrite update_above by done. change (map row_ts (option_list (Some row))) with [row_ts row].
  unfold last_above. cbn [with_events cursorRef List.filter]. by case_match.
Qed.

Lemma effects_idle now s : committed s = None -> run_effects a now s = s.
Proof. intros H. unfold run_effects. by rewrite H. Qed.

Lemma effects_done now v s : committed s = Some v ->
  let t := run_effects a now s in
  cursorTs t = cursorTs s /\ cursorRef t = v_cursor v /\ committed t = None /\ reading t = reading s
  /\ brokerEventsConnected t = brokerEventsConnected s.
Proof. intros H. unfold run_effects. by rewrite H. Qed.

Lemma settled_turn ev now s :
  settled s ->
  let t := run a s [StreamEvent ev; Render now; Effects now] in
  settled t /\ cursorTs t = fold_left math_max (stream_times [ev]) (cursorTs s).
Proof.
  intros (H1 & H2 & H3 & H4 & H5). cbn zeta. unfold run. cbn [fold_left step]. rewrite H4, H5. cbn [andb].
  rewrite <- H1 in H3. pose proof (on_event_above ev s H3) as (E1 & E2 & E3 & E4 & E5).
  unfold render. rewrite (effects_idle now (on_event ev s)) by congruence.
  match goal with |- context [run_effects a now ?u] => pose proof (effects_done now _ u eq_refl) as (F1 & F2 & F3 & F4 & F5) end.
  cbn [with_effects current_view v_cursor cursorTs reading brokerEventsConnected] in F1, F2, F4, F5.
  assert (Hc : cursorTs (on_event ev s) = fold_left math_max (stream_times [ev]) (cursorTs s)).
  { rewrite E1, <- H1. unfold stream_times, last_above. cbn [omap list_omap]. destruct (stream_row ev) as [row|]; [|done].
    change (map row_ts (option_list (Some row))) with [row_ts row]. cbn [map fold_left List.filter].
    rewrite above_max by (done || apply num_or_0_num). by case_match. }
  unfold settled. rewrite F1, F2, F3, F4, F5. split; [|done]. split_and!; [done..| |by rewrite E4|by rewrite E5].
  rewrite E1. unfold last_above. destruct (stream_row ev) as [row|]; [|cbn; by rewrite <- H1].
  change (map row_ts (option_list (Some row))) with [row_ts row]. cbn [List.filter].
  destruct (gtb (row_ts row) (cursorRef s)) eqn:E; [|cbn; by rewrite <- H1].
  change (leb (int 0) (row_ts row) = true).
  unfold gtb in E. rewrite ltb_negb_leb in E; [|by destruct (cursorRef s)|apply num_or_0_num].
  destruct (leb_total (cursorRef s) (row_ts row)) as [L|L];
    [by destruct (cursorRef s)|apply num_or_0_num|by eapply leb_trans|by rewrite L in E].
Qed.

Lemma stream_times_cons ev evs : stream_times (ev :: evs) = stream_times [ev] ++ stream_times evs.
Proof. unfold stream_times. cbn [omap list_omap]. by destruct (stream_row ev). Qed.

Lemma last_above_app c t u d :
  default (default d (last_above c t)) (last_above c u) = default d (last_above c (t ++ u)).
Proof. unfold last_above. rewrite List.filter_app, last_app. by destruct (list.last (List.filter _ u)). Qed.

(** When every event of the stream is rendered before the next one comes,
    the cursor is the largest time stamp; when events come within one render,
    or a replay gives no next cursor, it is the last one that is later than the
    rendered cursor, which an older event can make smaller than it was. *)
Theorem console_cursor_follows s now evs events :
  settled s ->
  cursorTs (run a s (concat (map (fun ev => [StreamEvent ev; Render now; Effects now]) evs)))
    = fold_left math_max (stream_times evs) (cursorTs s)
  /\ cursorTs (run a s (map StreamEvent evs))
    = default (cursorTs s) (last_above (cursorRef s) (stream_times evs))
  /\ cursorTs (run a s [ReplaySettles events VUndefined])
    = default (cursorTs s) (last_above (cursorRef s) (map row_ts (normalizeBrokerReplayEvents events))).
Proof.
  intros Hs. split_and!.
  - revert s Hs. induction evs as [|ev evs IH]; intros s Hs; [done|]. cbn [map concat].
    unfold run in *. rewrite fold_left_app. pose proof (settled_turn ev now s Hs) as [Ht Hc]. unfold run in Ht, Hc.
    rewrite IH by done. rewrite Hc, (stream_times_cons ev evs). by rewrite fold_left_app.
  - assert (H : leb (int 0) (cursorRef s) = true /\ reading s && brokerEventsConnected s = true).
    { destruct Hs as (H1 & _ & H3 & H4 & H5). by rewrite H1, H3, H4, H5. }
    clear Hs. revert s H. induction evs as [|ev evs IH]; intros s [Hc Hr]; [done|].
    cbn [map]. unfold run in *. cbn [fold_left step]. rewrite Hr.
    pose proof (on_event_above ev s Hc) as (E1 & E2 & E3 & E4 & E5).
    rewrite IH by (by rewrite E2, E4, E5). rewrite E1, E2, (stream_times_cons ev evs), <- last_above_app.
    unfold stream_times at 2. cbn [omap list_omap]. by destruct (stream_row ev).
  - unfold run. cbn [fold_left step]. unfold replay_settles. cbv zeta. cbn [with_replay cursorTs].
    rewrite updates_above; [done|]. destruct Hs as (H1 & _ & H3 & _). cbn [with_events cursorRef]. by rewrite H1.
Qed.
End cursor.

Definition example_args : Args := mkArgs "http://b" "k" "" true true.
Definition example_event (ts : Z) : SseEvent :=
  mkSseEvent "team_run_status" (stringify (VObject [("ts_unix_ms", VNumber (int ts))])) None.

(** Rendered one by one, the events of times 10 and 7 leave the cursor at 10;
    within one render they leave it at 7. *)
Lemma console_cursor_follows_witness :
  let s := run example_args (mount example_args None) [StreamStarts; StreamAnswer true 200; Render 0; Effects 0] in
  let evs := [example_event 10; example_event 7] in
  settled s /\ fold_left math_max (stream_times evs) (cursorTs s) = int 10
  /\ default (cursorTs s) (last_above (cursorRef s) (stream_times evs)) = int 7
  /\ (cursorTs (run example_args s (concat (map (fun ev => [StreamEvent ev; Render 0; Effects 0]) evs)))
        = fold_left math_max (stream_times evs) (cursorTs s)
      /\ cursorTs (run example_args s (map StreamEvent evs))
        = default (cursorTs s) (last_above (cursorRef s) (stream_times evs))
      /\ cursorTs (run example_args s [ReplaySettles VNull VUndefined])
        = default (cursorTs s) (last_above (cursorRef s) (map row_ts (normalizeBrokerReplayEvents VNull)))).
Proof.
  intros s evs. assert (Hs : settled s) by (split_and!; by vm_compute).
  split; [exact Hs|]. split; [vm_compute; reflexivity|]. split; [vm_compute; reflexivity|].
  exact (console_cursor_follows example_args s 0 evs VNull Hs).
Defined.
