(* ===== verification/TeamEvents.v ===== *)
(** The team console's event views, src/ui/src/components/broker/
    useBrokerTeamEventsState.ts: the live rows of the console's reader merged
    with the rows of a replay, a cursor per team in the browser's storage, and
    its copy in the server's preferences.  A render is committed and its effects
    run in one step ([flush]), in the order of the file, each when a value it
    depends on has changed. *)
From S2P Require Import Prelude JsNumber JsString JsValue JsOrder JsonUtils BrokerEvents.

Definition TEAM_EVENTS_PREFS_KIND : string := "webui-team-events".
Definition TEAM_EVENTS_PREFS_VERSION : Z := 1.

(** ** The tests on rows (the sets are those of teamRunUtils.ts) *)

Definition TEAM_RUN_EVENT_TYPES : list string :=
  ["team_run_created"; "team_run_status"; "team_runtime_members_updated"; "team_quorum_request";
   "team_quorum_result"; "team_goal_progress"; "team_goal_drift"; "team_goal_spawn_validation";
   "team_goal_replan_resume"; "team_handoff"].

Definition ORCHESTRATOR_EVENT_TYPES : list string :=
  ["orchestrator_run_created"; "orchestrator_run_updated"; "orchestrator_run_status";
   "orchestrator_run_heartbeat"; "orchestrator_goal_revision"; "orchestrator_role_plan_revision";
   "orchestrator_spawn_requested"; "orchestrator_spawn_updated"; "orchestrator_spawn_status"].

Definition GUIDANCE_EVENT_TYPES : list string :=
  ["team_guidance_created"; "team_guidance_ack"; "team_guidance_expired"].

(** The types that a replay asks for. *)
Definition REPLAY_TYPES : list string :=
  unique (TEAM_RUN_EVENT_TYPES ++ ORCHESTRATOR_EVENT_TYPES ++ GUIDANCE_EVENT_TYPES).

Record Args := mkArgs { base : string; authKey : string; clientId : string; canQuery : bool; teamIdTrimmed : string }.

Section hook.
Context (a : Args).

Definition teamEventsScopeKey : string :=
  if negb (truthy_str (teamIdTrimmed a)) then ""
  else trim (base a) ++s "::" ++s trim (authKey a) ++s "::" ++s teamIdTrimmed a.

Definition teamPrefsClientId : string := str_or (clientId a) "webui".

Definition teamPrefsBase : string := trim (base a).

(** The guard of the three preference callbacks. *)
Definition can_push : bool :=
  truthy_str teamPrefsBase && truthy_str teamPrefsClientId && truthy_str teamEventsScopeKey.

Definition eventTeamId (row : BrokerEventRow) : string :=
  if is_objectish (payload row) then str_or_empty (vprop "team_id" (payload row)) else "".

Definition isEventOf (types : list string) (row : BrokerEventRow) : bool :=
  bool_decide (r_type row ∈ types)
  && (negb (truthy_str (teamIdTrimmed a)) || bool_decide (eventTeamId row = teamIdTrimmed a)).

Definition isTeamEvent := isEventOf TEAM_RUN_EVENT_TYPES.
Definition isGuidanceEvent := isEventOf GUIDANCE_EVENT_TYPES.
Definition isOrchestratorEvent := isEventOf ORCHESTRATOR_EVENT_TYPES.

(** ** State *)

(** What a render shows; [v_id] is the identity of the cursor record, which
    changes with every update of it. *)
Record view := mkView {
  v_cursors : obj number; v_id : nat; v_map : CursorByScope; v_status : CursorStatus;
  v_live : list BrokerEventRow }.

(** A replay in flight: the cursor asked for, and the team's cursor that its
    closure sees. *)
Record Replay := mkReplay { q_since : number; q_seen : number }.

Record state := mkState {
  teamReplayEvents : list BrokerEventRow; orchestratorReplayEvents : list BrokerEventRow;
  teamReplayBusy : bool; teamReplayError : option string; teamReplayNote : option nat;
  cursorByTeam : obj number; cursor_id : nat; cursorRef : number; sync : Sync;
  liveEvents : list BrokerEventRow;
  loads : list CursorStatus;           (* loads in flight: the status each closure sees *)
  replays : list Replay;               (* replays in flight *)
  last : option view                   (* the view whose effects have run *)
}.

Inductive input :=
  | Flush (now : Z)
  | Live (rows : list BrokerEventRow)                          (* the console's reader has new rows *)
  | LoadSettles (i : nat) (prefs : value) (now : Z)
  | LoadThrow (i : nat)
  | ReplayStarts                                               (* the button *)
  | ReplaySettles (i : nat) (events next_since_ts : value)
  | ReplayThrow (i : nat) (msg : string)
  | TimerFires
  | PushSettles (i : nat) (isOk : bool).

Definition with_rows (team orch : list BrokerEventRow) (s : state) : state :=
  mkState team orch (teamReplayBusy s) (teamReplayError s) (teamReplayNote s) (cursorByTeam s) (cursor_id s)
    (cursorRef s) (sync s) (liveEvents s) (loads s) (replays s) (last s).
Definition with_note (busy : bool) (err : option string) (note : option nat) (s : state) : state :=
  mkState (teamReplayEvents s) (orchestratorReplayEvents s) busy err note (cursorByTeam s) (cursor_id s)
    (cursorRef s) (sync s) (liveEvents s) (loads s) (replays s) (last s).
Definition with_sync (y : Sync) (s : state) : state :=
  mkState (teamReplayEvents s) (orchestratorReplayEvents s) (teamReplayBusy s) (teamReplayError s) (teamReplayNote s)
    (cursorByTeam s) (cursor_id s) (cursorRef s) y (liveEvents s) (loads s) (replays s) (last s).
Definition with_requests (ls : list CursorStatus) (qs : list Replay) (s : state) : state :=
  mkState (teamReplayEvents s) (orchestratorReplayEvents s) (teamReplayBusy s) (teamReplayError s) (teamReplayNote s)
    (cursorByTeam s) (cursor_id s) (cursorRef s) (sync s) (liveEvents s) ls qs (last s).
Definition with_view (ref : number) (v : view) (s : state) : state :=
  mkState (teamReplayEvents s) (orchestratorReplayEvents s) (teamReplayBusy s) (teamReplayError s) (teamReplayNote s)
    (cursorByTeam s) (cursor_id s) ref (sync s) (liveEvents s) (loads s) (replays s) (Some v).

(** [setTeamEventsCursorByTeam((prev) => ({ ...prev, [teamIdTrimmed]: ts }))]. *)
Definition set_cursor (ts : number) (s : state) : state :=
  mkState (teamReplayEvents s) (orchestratorReplayEvents s) (teamReplayBusy s) (teamReplayError s) (teamReplayNote s)
    (set (teamIdTrimmed a) ts (cursorByTeam s)) (S (cursor_id s)) (cursorRef s) (sync s) (liveEvents s)
    (loads s) (replays s) (last s).

(** [cursors] is the record kept in the browser's storage. *)
Definition mount (cursors : obj number) : state :=
  mkState [] [] false None None cursors 0 (int 0) (mkSync [] idle false None []) [] [] [] None.

Definition current_view (s : state) : view :=
  mkView (cursorByTeam s) (cursor_id s) (byScope (sync s)) (status (sync s)) (liveEvents s).

(** [teamEventsCursorByTeam[teamIdTrimmed] || 0]. *)
Definition team_cursor (v : view) : number := num_or_0 (get (teamIdTrimmed a) (v_cursors v)).

Definition teamEventsCursor (v : view) : number :=
  if truthy_str (teamIdTrimmed a) then team_cursor v else int 0.

(** ** Requests *)

(** [loadTeamEventsCursor] up to its request. *)
Definition load_starts (v : view) (s : state) : state :=
  if negb (canQuery a) || negb can_push then s
  else with_requests (loads s ++ [v_status v]) (replays s) (with_sync (set_status loading (sync s)) s).

Definition load_settles (i : nat) (prefs : value) (now : Z) (s : state) : state :=
  match loads s !! i with
  | None => s
  | Some shown =>
      let localTs := num_or_0 (Some (cursorRef s)) in
      let '(merged, y) := load_merge can_push shown teamEventsScopeKey localTs (int now)
                            (extractTeamEventsCursorByScope prefs) (sync s) in
      let s := with_requests (delete i (loads s)) (replays s) (with_sync y s) in
      if gtb merged localTs && truthy_str (teamIdTrimmed a) then set_cursor merged s else s
  end.

Definition load_throw (i : nat) (s : state) : state :=
  match loads s !! i with
  | None => s
  | Some _ => with_requests (delete i (loads s)) (replays s) (with_sync (set_status error (sync s)) s)
  end.

(** [loadTeamReplay] up to its request, created in the render [v]. *)
Definition replay_starts (v : view) (s : state) : state :=
  if negb (canQuery a) || negb (truthy_str (teamIdTrimmed a)) then s
  else with_requests (loads s) (replays s ++ [mkReplay (num_or_0 (Some (cursorRef s))) (team_cursor v)])
         (with_note true None None s).

(** The loop over the replayed rows. *)
Definition later_cursor (nextCursor : number) (row : BrokerEventRow) : number :=
  match ts_unix_ms row with
  | Some ts => if num_truthy ts && gtb ts nextCursor then ts else nextCursor
  | None => nextCursor
  end.

Definition next_cursor (ref : number) (next_since_ts : value) (rows : list BrokerEventRow) : number :=
  fold_left later_cursor rows
    (match next_since_ts with VNumber next => math_max (num_or_0 (Some ref)) next | _ => num_or_0 (Some ref) end).

Definition replay_settles (i : nat) (events next_since_ts : value) (s : state) : state :=
  match replays s !! i with
  | None => s
  | Some q =>
      let rows := normalizeTeamReplayEvents events in
      let nextCursor := next_cursor (cursorRef s) next_since_ts rows in
      let s := with_requests (loads s) (delete i (replays s)) s in
      let s := with_rows (List.filter isTeamEvent rows) (List.filter isOrchestratorEvent rows) s in
      let s := if truthy_str (teamIdTrimmed a) && gtb nextCursor (q_seen q) then set_cursor nextCursor s else s in
      with_note false (teamReplayError s) (Some (length rows)) s
  end.

Definition replay_throw (i : nat) (msg : string) (s : state) : state :=
  match replays s !! i with
  | None => s
  | Some _ => with_note false (Some msg) (teamReplayNote s) (with_requests (loads s) (delete i (replays s)) s)
  end.

(** ** Effects *)

(** Without a team the replay is cleared, otherwise it is asked for. *)
Definition replay_effect (v : view) (s : state) : state :=
  if negb (truthy_str (teamIdTrimmed a))
  then with_note (teamReplayBusy s) None None (with_rows [] (orchestratorReplayEvents s) s)
  else replay_starts v s.

(** The cursor follows the live rows. *)
Definition live_effect (v : view) (s : state) : state :=
  if negb (truthy_str (teamIdTrimmed a)) then s
  else
    let maxTs := fold_left (fun m row => if isTeamEvent row && gtb (row_ts row) m then row_ts row else m)
                   (v_live v) (num_or_0 (Some (cursorRef s))) in
    if gtb maxTs (team_cursor v) then set_cursor maxTs s else s.

Definition scope_effect (v : view) (now : Z) (s : state) : state :=
  with_sync (follow_cursor can_push (v_status v) teamEventsScopeKey (teamEventsCursor v) (int now) (v_map v) (sync s)) s.

Definition changed {A} `{EqDecision A} (f : view -> A) (l : option view) (v : view) : bool :=
  match l with None => true | Some l => negb (bool_decide (f l = f v)) end.

Definition flush (now : Z) (s : state) : state :=
  let v := current_view s in
  let l := last s in
  let s := with_view (teamEventsCursor v) v s in
  let s := if changed v_status l v then load_starts v s else s in
  let s := if changed v_id l v then replay_effect v s else s in
  let s := if changed v_live l v || changed v_id l v then live_effect v s else s in
  if changed v_status l v || changed teamEventsCursor l v || changed v_map l v then scope_effect v now s else s.

Definition step (s : state) (i : input) : state :=
  match i with
  | Flush now => flush now s
  | Live rows => mkState (teamReplayEvents s) (orchestratorReplayEvents s) (teamReplayBusy s) (teamReplayError s)
                   (teamReplayNote s) (cursorByTeam s) (cursor_id s) (cursorRef s) (sync s) rows (loads s)
                   (replays s) (last s)
  | LoadSettles i prefs now => load_settles i prefs now s
  | LoadThrow i => load_throw i s
  | ReplayStarts => match last s with Some v => replay_starts v s | None => s end
  | ReplaySettles i events next => replay_settles i events next s
  | ReplayThrow i msg => replay_throw i msg s
  | TimerFires => with_sync (persist_fires can_push (sync s)) s
  | PushSettles i isOk => with_sync (push_settles i isOk (sync s)) s
  end.

Definition run (s : state) (ins : list input) : state := fold_left step ins s.

(** ** The three views *)

Definition mergedTeamEvents (s : state) := mergeEvents isTeamEvent (liveEvents s) (teamReplayEvents s).
Definition mergedOrchestratorEvents (s : state) :=
  mergeEvents isOrchestratorEvent (liveEvents s) (orchestratorReplayEvents s).
Definition mergedGuidanceEvents (s : state) := mergeEvents isGuidanceEvent (liveEvents s) (teamReplayEvents s).
End hook.

(** ** The preference requests *)

Section requests.
Context (a : Args).

(** The requests leave [loads] alone except where they start or end one. *)
Lemma replay_effect_requests v s :
  loads (replay_effect a v s) = loads s /\ status (sync (replay_effect a v s)) = status (sync s)
  /\ last (replay_effect a v s) = last s.
Proof. unfold replay_effect, replay_starts. by repeat case_match. Qed.

Lemma live_effect_requests v s :
  loads (live_effect a v s) = loads s /\ status (sync (live_effect a v s)) = status (sync s)
  /\ last (live_effect a v s) = last s.
Proof. unfold live_effect. case_match; [done|]. cbv zeta. by case_match. Qed.

Lemma schedule_status c shown m y : status (schedulePersist c shown m y) = status y.
Proof. unfold schedulePersist. by repeat case_match. Qed.

Lemma scope_effect_requests v now s :
  loads (scope_effect a v now s) = loads s /\ status (sync (scope_effect a v now s)) = status (sync s)
  /\ last (scope_effect a v now s) = last s.
Proof.
  unfold scope_effect, follow_cursor. cbn [with_sync loads sync last]. split_and!; [done| |done].
  repeat case_match; [done..|]. by rewrite schedule_status.
Qed.

(** What a flush does to the loads. *)
Lemma flush_requests now s :
  canQuery a = true -> can_push a = true ->
  let t := flush a now s in
  last t = Some (current_view s)
  /\ (loads t, status (sync t))
     = if changed v_status (last s) (current_view s) then (loads s ++ [status (sync s)], loading)
       else (loads s, status (sync s)).
Proof.
  intros Hq Hp. cbn zeta. unfold flush.
  set (v := current_view s). set (s0 := with_view _ v s).
  set (s1 := if changed v_status _ v then _ else s0).
  assert (H1 : last s1 = Some v /\ (loads s1, status (sync s1))
     = if changed v_status (last s) v then (loads s ++ [status (sync s)], loading) else (loads s, status (sync s))).
  { unfold s1, load_starts. rewrite Hq, Hp. by destruct (changed v_status (last s) v). }
  set (s2 := if changed v_id _ v then _ else s1).
  assert (H2 : last s2 = last s1 /\ loads s2 = loads s1 /\ status (sync s2) = status (sync s1)).
  { unfold s2. destruct (changed v_id _ v); [|done]. destruct (replay_effect_requests v s1) as (? & ? & ?). by split_and!. }
  set (s3 := if changed v_live _ v || _ then _ else s2).
  assert (H3 : last s3 = last s2 /\ loads s3 = loads s2 /\ status (sync s3) = status (sync s2)).
  { unfold s3. destruct (_ || _); [|done]. destruct (live_effect_requests v s2) as (? & ? & ?). by split_and!. }
  destruct H1 as [H1 H1'], H2 as (E2 & L2 & S2), H3 as (E3 & L3 & S3). rewrite <- H1'.
  destruct (_ || changed v_map _ v); cbv iota.
  - destruct (scope_effect_requests v now s3) as (L4 & S4 & E4). split; congruence.
  - split; congruence.
Qed.

(** A state whose last render shows that a load is under way. *)
Definition loading_shown (s : state) : Prop := status (sync s) = loading /\ v_status <$> last s = Some loading.

Lemma changed_status l v : changed v_status l v = negb (bool_decide (v_status <$> l = Some (v_status v))).
Proof.
  destruct l as [l|]; cbn [changed fmap option_fmap option_map]; [|done]. f_equal. apply bool_decide_ext.
  split; [by intros ->|by intros [= ->]].
Qed.

(** Two renders after the status has changed, two more loads are in flight. *)
Lemma two_flushes now s :
  canQuery a = true -> can_push a = true ->
  v_status <$> last s <> Some (status (sync s)) -> status (sync s) <> loading ->
  let t := flush a now (flush a now s) in
  loading_shown t /\ length (loads t) = (length (loads s) + 2)%nat.
Proof.
  intros Hq Hp Hl Hst. cbn zeta.
  pose proof (flush_requests now s Hq Hp) as [L1 R1]. set (u := flush a now s) in *.
  pose proof (flush_requests now u Hq Hp) as [L2 R2]. set (t := flush a now u) in *.
  rewrite changed_status, bool_decide_false in R1 by done. cbn [negb] in R1. injection R1 as R1 S1.
  rewrite changed_status, L1 in R2. cbn [fmap option_fmap option_map current_view v_status] in R2.
  rewrite bool_decide_false in R2 by (rewrite S1; congruence). cbn [negb] in R2. injection R2 as R2 S2.
  split; [split; [done|]|].
  - rewrite L2. cbn. by rewrite S1.
  - rewrite R2, R1, !length_app. cbn. lia.
Qed.

Definition answers_load (i : input) : bool :=
  match i with LoadSettles 0 _ _ | LoadThrow 0 => true | _ => false end.

Lemma answered i s :
  answers_load i = true -> loading_shown s -> (0 < length (loads s))%nat ->
  let t := step a s i in
  S (length (loads t)) = length (loads s) /\ status (sync t) <> loading /\ v_status <$> last t = Some loading.
Proof.
  intros Hi [Hs Hl] Hn. cbn zeta. destruct (loads s) as [|sh ls] eqn:El; [cbn in Hn; lia|].
  destruct i as [| |[|i] prefs now|[|i]| | | | |]; try done; cbn [step].
  - unfold load_settles. rewrite El. cbn [lookup list_lookup]. cbv zeta.
    destruct (load_merge _ _ _ _ _ _ _) as [m y] eqn:Em.
    assert (status y = ready) as Hy by (unfold load_merge in Em; by injection Em as <- <-).
    case_match; (split_and!; [done|cbn; by rewrite Hy|done]).
  - unfold load_throw. rewrite El. by split_and!.
Qed.

(** C16: the reader of the team's cursor never comes to rest: once mounted for a
    team on a base, with [n] of its preference requests answered, whether well or
    badly, [n + 2] are in flight, for every [n], since each answer changes the
    status, each change of the status makes a new callback, and each new
    callback is called by the effect. *)
Theorem prefs_requests_never_stop cursors now answers :
  canQuery a = true -> can_push a = true -> forallb answers_load answers = true ->
  let s := run a (mount cursors)
             ([Flush now; Flush now] ++ concat (map (fun i => [i; Flush now; Flush now]) answers)) in
  length (loads s) = (length answers + 2)%nat.
Proof.
  intros Hq Hp Ha. cbn zeta. unfold run. rewrite fold_left_app. cbn [fold_left step].
  destruct (two_flushes now (mount cursors) Hq Hp) as [H1 H2]; [done|done|].
  set (s := flush a now (flush a now (mount cursors))) in *. clearbody s. cbn [mount loads length] in H2.
  enough (forall s, loading_shown s -> (2 <= length (loads s))%nat ->
    length (loads (fold_left (step a) (concat (map (fun i => [i; Flush now; Flush now]) answers)) s))
    = (length answers + length (loads s))%nat) as H by (rewrite H by (done || lia); lia).
  clear s H1 H2. induction answers as [|i answers IH]; intros s Hs Hn; [done|].
  cbn [forallb] in Ha. apply andb_split in Ha as [Hi Ha]. cbn [map concat]. rewrite fold_left_app.
  cbn [fold_left]. destruct (answered i s Hi Hs) as (L & St & Sh); [lia|].
  destruct (two_flushes now (step a s i) Hq Hp) as [H1 H2]; [rewrite Sh; congruence|done|].
  change (step a (step a (step a s i) (Flush now)) (Flush now)) with (flush a now (flush a now (step a s i))).
  rewrite IH by (done || lia). cbn [length]. lia.
Qed.
End requests.

(** ** The replayed rows *)

Section replays.
Context (a : Args).

Definition replay_team (s : state) : Prop := Forall (fun row => isTeamEvent a row = true) (teamReplayEvents s).

Lemma flush_rows now s :
  teamReplayEvents (flush a now s) = teamReplayEvents s \/ teamReplayEvents (flush a now s) = [].
Proof.
  unfold flush. set (v := current_view s). set (s0 := with_view _ v s).
  set (s1 := if changed v_status _ v then _ else s0).
  assert (H1 : teamReplayEvents s1 = teamReplayEvents s).
  { unfold s1, load_starts. destruct (changed v_status _ v); [|done]. by case_match. }
  set (s2 := if changed v_id _ v then _ else s1).
  assert (H2 : teamReplayEvents s2 = teamReplayEvents s \/ teamReplayEvents s2 = []).
  { unfold s2. destruct (changed v_id _ v); [|by left]. unfold replay_effect, replay_starts.
    destruct (negb (truthy_str _)) eqn:E; [by right|]. destruct (_ || _); by left. }
  set (s3 := if changed v_live _ v || _ then _ else s2).
  assert (H3 : teamReplayEvents s3 = teamReplayEvents s2).
  { unfold s3, live_effect. destruct (_ || _); [|done]. destruct (negb _); [done|]. cbv zeta. by case_match. }
  rewrite <- H3 in H2. by destruct (_ || changed v_map _ v).
Qed.

Lemma step_replay_team s i : replay_team s -> replay_team (step a s i).
Proof.
  intros Hs. assert (Hkeep : forall t, teamReplayEvents t = teamReplayEvents s -> replay_team t).
  { intros t Ht. unfold replay_team. by rewrite Ht. }
  destruct i; cbn [step]; try (by apply Hkeep).
  - destruct (flush_rows now s) as [H|H]; unfold replay_team; rewrite H; [done|constructor].
  - unfold load_settles. destruct (loads s !! i); [|done]. cbv zeta. destruct (load_merge _ _ _ _ _ _ _).
    case_match; by apply Hkeep.
  - unfold load_throw. destruct (loads s !! i); [by apply Hkeep|done].
  - destruct (last s); [|done]. unfold replay_starts. case_match; [done|by apply Hkeep].
  - unfold replay_settles. destruct (replays s !! i) as [q|]; [|done]. cbv zeta.
    set (rows := normalizeTeamReplayEvents events).
    assert (H : Forall (fun row => isTeamEvent a row = true) (List.filter (isTeamEvent a) rows)).
    { apply Forall_forall. by intros row [_ ?]%elem_of_filter_bool. }
    by case_match.
  - unfold replay_throw. destruct (replays s !! i); [by apply Hkeep|done].
Qed.

Lemma team_not_guidance row : isTeamEvent a row = true -> isGuidanceEvent a row = false.
Proof.
  unfold isTeamEvent, isGuidanceEvent, isEventOf. intros [Ht _]%andb_split.
  apply bool_decide_eq_true in Ht. rewrite bool_decide_false; [done|].
  assert (H : Forall (fun t => t ∉ GUIDANCE_EVENT_TYPES) TEAM_RUN_EVENT_TYPES) by by_compute.
  rewrite Forall_forall in H. by apply H.
Qed.

(** The guidance events that a replay asks for are never shown: in every
    run the guidance view has the rows of the live feed only, since the replayed
    rows it is merged from are kept only if they are team run events. *)
Theorem guidance_replay_not_shown cursors ins :
  let s := run a (mount cursors) ins in
  Forall (fun t => t ∈ REPLAY_TYPES) GUIDANCE_EVENT_TYPES
  /\ mergedGuidanceEvents a s = mergeEvents (isGuidanceEvent a) (liveEvents s) [].
Proof.
  cbn zeta. split; [by_compute|].
  assert (H : replay_team (run a (mount cursors) ins)).
  { assert (H0 : replay_team (mount cursors)) by constructor. revert H0. generalize (mount cursors).
    induction ins as [|i ins IH]; intros s Hs; [done|]. by apply IH, step_replay_team. }
  unfold mergedGuidanceEvents. rewrite !merge_fresh, List.filter_app. cbn [app]. do 3 f_equal.
  replace (List.filter (isGuidanceEvent a) (teamReplayEvents (run a (mount cursors) ins))) with (@nil BrokerEventRow); [done|].
  unfold replay_team in H. induction H as [|row rows Hr _ IH]; [done|]. cbn [List.filter].
  by rewrite team_not_guidance.
Qed.

(** *** A replay replaces the rows of the one before *)

Lemma fold_max_spec l c :
  is_nan c = false -> Forall (fun t => is_nan t = false) l ->
  let m := fold_left math_max l c in
  is_nan m = false /\ leb c m = true /\ Forall (fun t => leb t m = true) l.
Proof.
  intros Hc Hl. cbn zeta. revert c Hc. induction Hl as [|t l Ht _ IH]; intros c Hc; cbn [fold_left].
  { split_and!; [done|by apply leb_refl|constructor]. }
  assert (Hm : is_nan (math_max c t) = false /\ leb c (math_max c t) = true /\ leb t (math_max c t) = true).
  { unfold math_max. rewrite Hc, Ht. cbn [orb]. destruct (leb c t) eqn:E.
    - split_and!; [done..|by apply leb_refl].
    - split_and!; [done|by apply leb_refl|]. by destruct (leb_total c t Hc Ht) as [|]; [congruence|]. }
  destruct Hm as (H1 & H2 & H3). destruct (IH _ H1) as (I1 & I2 & I3).
  split_and!; [done|by eapply leb_trans|]. constructor; [by eapply leb_trans|done].
Qed.

Lemma later_max c row : leb (int 0) c = true -> later_cursor c row = math_max c (row_ts row).
Proof.
  intros Hc. rewrite above_max by (done || apply num_or_0_num).
  unfold later_cursor, row_ts, num_or_0. destruct (ts_unix_ms row) as [ts|].
  - destruct (num_truthy ts); [done|]. unfold gtb.
    assert (ltb c (int 0) = false) as -> by (rewrite ltb_negb_leb, Hc; [done|by destruct c|done]). done.
  - unfold gtb. assert (ltb c (int 0) = false) as -> by (rewrite ltb_negb_leb, Hc; [done|by destruct c|done]). done.
Qed.

Lemma fold_later_cursor rows c :
  leb (int 0) c = true -> fold_left later_cursor rows c = fold_left math_max (map row_ts rows) c.
Proof.
  revert c. induction rows as [|r rows IH]; intros c Hc; [done|]. cbn [fold_left map]. rewrite later_max by done.
  apply IH. destruct (fold_max_spec [row_ts r] c) as (_ & H & _); [by destruct c|by repeat constructor; apply num_or_0_num|].
  by eapply leb_trans.
Qed.

(** The broker's replay endpoint on a log: the rows of the log from a time on,
    that time included, and the largest time it has sent. *)
Definition serves (log : list BrokerEventRow) (server : number -> value) : Prop :=
  forall since row, row ∈ normalizeTeamReplayEvents (server since) <-> row ∈ log /\ leb since (row_ts row) = true.

Definition next_since (server : number -> value) (since : number) : number :=
  fold_left math_max (map row_ts (normalizeTeamReplayEvents (server since))) since.

Definition answer (server : number -> value) (since : number) : input :=
  ReplaySettles 0 (server since) (VNumber (next_since server since)).

Lemma num_or_0_id x : leb (int 0) x = true -> num_or_0 (Some x) = x.
Proof. intros Hx. unfold num_or_0. destruct x as [| | |k]; try done. cbn. by destruct (Z.eqb_spec k 0) as [->|]. Qed.

Lemma gtb_irrefl x : gtb x x = false.
Proof. unfold gtb. destruct x; cbn; try done. apply Z.ltb_irrefl. Qed.

Lemma next_since_max server since :
  is_nan since = false ->
  let m := next_since server since in
  is_nan m = false /\ leb since m = true
  /\ Forall (fun row => leb (row_ts row) m = true) (normalizeTeamReplayEvents (server since)).
Proof.
  intros Hs. unfold next_since.
  destruct (fold_max_spec (map row_ts (normalizeTeamReplayEvents (server since))) since Hs) as (H1 & H2 & H3).
  { apply List.Forall_map, Forall_forall. intros. apply num_or_0_num. }
  split_and!; [done..|]. by apply List.Forall_map in H3.
Qed.

Lemma next_cursor_answer server ref :
  leb (int 0) ref = true ->
  next_cursor ref (VNumber (next_since server ref)) (normalizeTeamReplayEvents (server ref)) = next_since server ref.
Proof.
  intros Hr. assert (Hn : is_nan ref = false) by by destruct ref.
  destruct (next_since_max server ref Hn) as (H1 & H2 & H3). set (m := next_since server ref) in *.
  pose proof (num_or_0_id ref Hr) as Href.
  assert (Hm : math_max ref m = m).
  { unfold math_max. rewrite Hn, H1. cbn [orb]. by rewrite H2. }
  unfold next_cursor. rewrite Href, Hm. rewrite fold_later_cursor by (by eapply leb_trans).
  revert H3. generalize (normalizeTeamReplayEvents (server ref)). induction 1 as [|row rows Hrow _ IH]; [done|].
  cbn [map fold_left]. replace (math_max m (row_ts row)) with m; [done|].
  unfold math_max. rewrite H1. destruct (is_nan (row_ts row)) eqn:E; [by pose proof (num_or_0_num (ts_unix_ms row)); unfold row_ts in E; congruence|].
  cbn [orb]. destruct (leb m (row_ts row)) eqn:L; [by apply leb_antisym|done].
Qed.

(** The part of a state that the replays depend on. *)
Definition core (s : state) :=
  (cursorByTeam s, cursor_id s, cursorRef s, liveEvents s, last s, teamReplayEvents s, replays s).

Lemma load_core v s : core (load_starts a v s) = core s.
Proof. unfold load_starts. by case_match. Qed.

(** What a flush does for the replays when there are no live rows. *)
Lemma flush_replays now s :
  canQuery a = true -> truthy_str (teamIdTrimmed a) = true -> liveEvents s = [] ->
  let c := team_cursor a (current_view s) in
  leb (int 0) c = true ->
  let t := flush a now s in
  cursorByTeam t = cursorByTeam s /\ cursor_id t = cursor_id s /\ cursorRef t = c /\ liveEvents t = []
  /\ v_id <$> last t = Some (cursor_id s)
  /\ teamReplayEvents t = teamReplayEvents s
  /\ replays t = replays s ++ (if changed v_id (last s) (current_view s) then [mkReplay c c] else []).
Proof.
  intros Hq Ht Hl c Hc. cbn zeta. unfold flush. set (v := current_view s).
  assert (Hcur : teamEventsCursor a v = c) by (unfold teamEventsCursor; by rewrite Ht). rewrite Hcur.
  set (s0 := with_view c v s). set (s1 := if changed v_status _ v then _ else s0).
  assert (H1 : core s1 = core s0) by (unfold s1; destruct (changed v_status _ v); [apply load_core|done]).
  set (s2 := if changed v_id _ v then _ else s1).
  assert (H2 : core s2 = (cursorByTeam s, cursor_id s, c, [], Some v, teamReplayEvents s,
    replays s ++ (if changed v_id (last s) v then [mkReplay c c] else []))).
  { unfold s2. destruct (changed v_id _ v).
    - unfold replay_effect, replay_starts. rewrite Ht, Hq. cbn [negb orb]. unfold core in *. cbn in H1 |- *.
      injection H1 as -> -> -> -> -> -> ->. rewrite Hl. fold (num_or_0 (Some c)). by rewrite num_or_0_id.
    - rewrite H1. unfold core. cbn. by rewrite Hl, app_nil_r. }
  set (s3 := if changed v_live _ v || _ then _ else s2).
  assert (H3 : core s3 = core s2).
  { unfold s3. destruct (_ || _); [|done]. unfold live_effect. rewrite Ht. cbn [negb].
    change (v_live v) with (liveEvents s). rewrite Hl. cbn [fold_left]. unfold core in H2. cbn in H2.
    injection H2 as _ _ Href _ _ _ _. rewrite Href, num_or_0_id by done. change (team_cursor a v) with c.
    by rewrite gtb_irrefl. }
  rewrite <- H3 in H2. clearbody s3.
  match goal with |- context [if ?b then scope_effect a v now s3 else s3] =>
    assert (H4 : core (if b then scope_effect a v now s3 else s3) = core s3) by (by destruct b);
    generalize dependent (if b then scope_effect a v now s3 else s3) end.
  intros t H4. rewrite H2 in H4. unfold core in H4. injection H4 as -> -> -> -> -> -> ->. by split_and!.
Qed.

Lemma fold_max_le l c b :
  leb c b = true -> Forall (fun t => leb t b = true) l -> leb (fold_left math_max l c) b = true.
Proof.
  intros Hc Hl. revert c Hc. induction Hl as [|t l Ht _ IH]; intros c Hc; [done|]. apply IH.
  unfold math_max. destruct (is_nan c) eqn:Ec; [by destruct c|]. destruct (is_nan t) eqn:Et; [by destruct t|].
  cbn [orb]. by case_match.
Qed.

(** One answered replay of the request made last. *)
Lemma replay_answered server s c :
  truthy_str (teamIdTrimmed a) = true -> cursorRef s = c -> leb (int 0) c = true -> replays s = [mkReplay c c] ->
  let t := step a s (answer server c) in
  let m := next_since server c in
  replays t = [] /\ liveEvents t = liveEvents s /\ last t = last s
  /\ teamReplayEvents t = List.filter (isTeamEvent a) (normalizeTeamReplayEvents (server c))
  /\ (cursorByTeam t, cursor_id t) = if gtb m c then (set (teamIdTrimmed a) m (cursorByTeam s), S (cursor_id s))
                                    else (cursorByTeam s, cursor_id s).
Proof.
  intros Ht Href Hc Hr. cbn zeta. unfold answer, step, replay_settles. rewrite Hr. cbn [lookup list_lookup]. cbv zeta.
  rewrite Href, next_cursor_answer, Ht by done. cbn [q_seen andb].
  by destruct (gtb (next_since server c) c).
Qed.

Lemma changed_id l v : changed v_id l v = negb (bool_decide (v_id <$> l = Some (v_id v))).
Proof.
  destruct l as [l|]; [|done]. cbn. f_equal. apply bool_decide_ext. split; [by intros ->|by intros [= ->]].
Qed.

(** The second replay, after the first has moved the cursor to [newest]. *)
Lemma second_replay log server now s newest k :
  canQuery a = true -> truthy_str (teamIdTrimmed a) = true -> serves log server ->
  leb (int 0) newest = true ->
  (forall row, row ∈ log -> leb newest (row_ts row) = true -> leb (row_ts row) newest = true) ->
  replays s = [] -> liveEvents s = [] -> team_cursor a (current_view s) = newest ->
  v_id <$> last s = Some k -> cursor_id s <> k ->
  let t := flush a now (step a (flush a now s) (answer server newest)) in
  replays t = [] /\ forall row, row ∈ teamReplayEvents t -> row ∈ log /\ row_ts row = newest.
Proof.
  intros Hq Ht Hsv N0 Hle B1 B2 Hcur B3 Hk. cbn zeta.
  destruct (flush_replays now s Hq Ht B2) as (C1 & C2 & C3 & C4 & C5 & C6 & C7); [by rewrite Hcur|].
  rewrite Hcur in C3, C7. rewrite changed_id, B3, B1, bool_decide_false in C7 by (cbn; congruence).
  generalize dependent (flush a now s). intros s3 C1 C2 C3 C4 C5 C6 C7.
  destruct (replay_answered server s3 newest Ht C3 N0 C7) as (D1 & D2 & D3 & D4 & D5).
  generalize dependent (step a s3 (answer server newest)). intros s4 D1 D2 D3 D4 D5.
  assert (Hold : gtb (next_since server newest) newest = false).
  { unfold gtb. rewrite ltb_negb_leb; [|by destruct newest|by apply next_since_max; destruct newest].
    apply negb_false_iff. apply fold_max_le; [by apply leb_refl; destruct newest|].
    apply List.Forall_map, Forall_forall. intros row [Hr Hge]%Hsv. by apply Hle. }
  rewrite Hold, C1, C2 in D5. injection D5 as D5 D6.
  assert (Hcur4 : team_cursor a (current_view s4) = newest).
  { rewrite <- Hcur. unfold team_cursor, current_view. cbn [v_cursors]. by rewrite D5. }
  destruct (flush_replays now s4 Hq Ht) as (_ & _ & _ & _ & _ & E6 & E7); [congruence|by rewrite Hcur4|]. split.
  - rewrite E7, D1, changed_id, D3, C5. cbn [v_id current_view]. rewrite D6. by rewrite bool_decide_true.
  - intros row Hr. rewrite E6, D4 in Hr. apply elem_of_filter_bool in Hr as [[Hr Hge]%Hsv _]. split; [done|].
    apply leb_antisym; [|done]. by apply Hle.
Qed.

(** The newest time of a log with a positive time is positive, and the log has
    nothing later. *)
Lemma newest_spec log server :
  serves log server -> (exists row, row ∈ log /\ gtb (row_ts row) (int 0) = true) ->
  let newest := next_since server (int 0) in
  leb (int 0) newest = true /\ gtb newest (int 0) = true
  /\ forall row, row ∈ log -> leb (int 0) (row_ts row) = true -> leb (row_ts row) newest = true.
Proof.
  intros Hsv [row0 [Hlog Hpos]]. cbn zeta.
  destruct (next_since_max server (int 0) eq_refl) as (Nn & N0 & Nmax).
  assert (Hle : forall row, row ∈ log -> leb (int 0) (row_ts row) = true -> leb (row_ts row) (next_since server (int 0)) = true).
  { intros row Hr H0. rewrite Forall_forall in Nmax. by apply Nmax, Hsv. }
  split_and!; [done| |done]. unfold gtb in *. generalize dependent (next_since server (int 0)). intros newest Nn N0 _ Hle.
  rewrite ltb_negb_leb in * by (done || apply num_or_0_num).
  assert (Hr0 : leb (int 0) (row_ts row0) = true).
  { destruct (leb_total (int 0) (row_ts row0)) as [|H]; [done|apply num_or_0_num|done|by rewrite H in Hpos]. }
  specialize (Hle row0 Hlog Hr0). destruct (leb newest (int 0)) eqn:E; [|done].
  by rewrite (leb_trans _ _ _ Hle E) in Hpos.
Qed.

Lemma step_flush now s : step a s (Flush now) = flush a now s.
Proof. done. Qed.

(** Of the events that a replay brings after the page is opened only those
    at the newest time stay: the replay moves the cursor, the moved cursor makes
    the effect ask for the events from there on, and their answer replaces the
    rows shown.  (The broker sends the events from the cursor's time on, that
    time included.) *)
Theorem replay_forgets log server now :
  canQuery a = true -> truthy_str (teamIdTrimmed a) = true -> serves log server ->
  (exists row, row ∈ log /\ gtb (row_ts row) (int 0) = true) ->
  let newest := next_since server (int 0) in
  let s := run a (mount []) [Flush now; answer server (int 0)] in
  let t := run a s [Flush now; answer server newest; Flush now] in
  teamReplayEvents s = List.filter (isTeamEvent a) (normalizeTeamReplayEvents (server (int 0)))
  /\ replays t = []
  /\ forall row, row ∈ teamReplayEvents t -> row ∈ log /\ row_ts row = newest.
Proof.
  intros Hq Ht Hsv Hlog newest. destruct (newest_spec log server Hsv Hlog) as (N0 & Hnew & Hle). fold newest in N0, Hnew, Hle.
  destruct (flush_replays now (mount []) Hq Ht eq_refl eq_refl) as (A1 & A2 & A3 & A4 & A5 & _ & A7).
  unfold run. cbn [fold_left]. rewrite !step_flush.
  generalize dependent (flush a now (mount [])). intros s1 A1 A2 A3 A4 A5 A7.
  destruct (replay_answered server s1 (int 0) Ht A3 eq_refl A7) as (B1 & B2 & B3 & B4 & B5). fold newest in B5.
  rewrite Hnew, A1, A2 in B5. generalize dependent (step a s1 (answer server (int 0))).
  intros s2 B1 B2 B3 B4 B5. injection B5 as B5 B6. split; [exact B4|].
  apply (second_replay log server now s2 newest 0 Hq Ht Hsv N0); try congruence.
  - intros row Hr Hge. apply Hle; [done|by eapply leb_trans].
  - unfold team_cursor, current_view. cbn [v_cursors]. rewrite B5, get_set_eq. by apply num_or_0_id.
  - by rewrite B3.
Qed.
End replays.

(** ** Concrete inputs *)

Definition example_args : Args := mkArgs "http://b" "k" "" true "t1".

Definition row_of (ts : Z) : BrokerEventRow :=
  mkRow "team_run_status" (Some (int ts)) None None (VObject [("team_id", VString "t1")]).

Definition event_of (row : BrokerEventRow) : value :=
  VObject [("type", VString (r_type row)); ("ts_unix_ms", VNumber (row_ts row)); ("payload", payload row)].

Definition example_log : list BrokerEventRow := [row_of 5; row_of 9].

Definition example_server (since : number) : value :=
  VArray (map event_of (List.filter (fun row => leb since (row_ts row)) example_log)).

Lemma example_serves : serves example_log example_server.
Proof.
  intros since row. unfold example_server.
  assert (H : forall l, Forall (fun row => row ∈ example_log) l -> normalizeTeamReplayEvents (VArray (map event_of l)) = l).
  { intros l Hl. unfold normalizeTeamReplayEvents. cbn [as_array default from_option id].
    induction Hl as [|r l Hr _ IH]; [done|]. cbn [map]. rewrite IH. f_equal.
    apply elem_of_cons in Hr as [->|Hr%list_elem_of_singleton]; [|subst r]; vm_compute; reflexivity. }
  rewrite H; [exact (elem_of_filter_bool (fun r => leb since (row_ts r)) example_log row)|]. apply Forall_forall. by intros r [Hr _]%elem_of_filter_bool.
Qed.

Lemma prefs_requests_never_stop_witness :
  let answers := [LoadSettles 0 VNull 0; LoadThrow 0; LoadSettles 0 (VObject []) 0] in
  length (loads (run example_args (mount [])
    ([Flush 0; Flush 0] ++ concat (map (fun i => [i; Flush 0; Flush 0]) answers)))) = 5%nat.
Proof. exact (prefs_requests_never_stop example_args [] 0 [LoadSettles 0 VNull 0; LoadThrow 0; LoadSettles 0 (VObject []) 0] eq_refl eq_refl eq_refl). Defined.

(** Both rows are shown after the first answer; the one of time 9 is left. *)
Lemma replay_forgets_witness :
  let s := run example_args (mount []) [Flush 0; answer example_server (int 0)] in
  let t := run example_args s [Flush 0; answer example_server (next_since example_server (int 0)); Flush 0] in
  teamReplayEvents s = example_log /\ teamReplayEvents t = [row_of 9]
  /\ (teamReplayEvents s = List.filter (isTeamEvent example_args) (normalizeTeamReplayEvents (example_server (int 0)))
      /\ replays t = []
      /\ forall row, row ∈ teamReplayEvents t -> row ∈ example_log /\ row_ts row = next_since example_server (int 0)).
Proof.
  intros s t. split; [vm_compute; reflexivity|]. split; [vm_compute; reflexivity|].
  apply (replay_forgets example_args example_log example_server 0 eq_refl eq_refl example_serves).
  exists (row_of 9). split; [by right; left|vm_compute; reflexivity].
Defined.
