(* ===== verification/Revisions.v ===== *)
(** Orchestrator runs in the broker panel: the revisions of a run's goal and
    role plan (src/ui/src/components/broker/brokerOrchestratorRunUtils.ts), the
    lists, filters and events shown of them, and the requests that create,
    change and keep alive a run (useBrokerOrchestratorRunState.ts). *)
From S2P Require Import Prelude JsNumber JsString JsValue JsOrder JsonUtils JsonText BrokerEvents.

(** ** Revisions *)

Record RevisionDiff := mkDiff {
  added : option (list string); removed : option (list string); changed : option (list string) }.

(** The two flags are [true] or [undefined]. *)
Record Revision := mkRevision {
  version : option number; updated_unix_ms : option number; updated_by : option string; goal : option string;
  goal_changed : bool; goal_contract_changed : bool;
  goal_contract : option (obj value); goal_contract_diff : option RevisionDiff;
  role_plan_snapshot : option (obj value); role_plan_diff : option RevisionDiff }.

#[export] Instance RevisionDiff_eq_dec : EqDecision RevisionDiff.
Proof. solve_decision. Defined.

#[export] Instance Revision_eq_dec : EqDecision Revision.
Proof. solve_decision. Defined.

Definition asRecord (v : value) : option (obj value) := match v with VObject o => Some o | _ => None end.

Definition toStringArray (v : value) : list string :=
  match v with VArray l => trimmed_nonempty (map v_to_string l) | _ => [] end.

(** [toNumber]: a finite number, or the number at the head of a text. *)
Definition toNumber (v : value) : option number :=
  match v with
  | VNumber x => if is_finite x then Some x else None
  | VString s =>
      if truthy_str (trim s)
      then let parsed := parse_float s in if is_finite parsed then Some parsed else None
      else None
  | _ => None
  end.

Definition nonempty_list (l : list string) : option (list string) := if (0 <? length l)%nat then Some l else None.

Definition normalizeRevisionDiff (raw : value) : option RevisionDiff :=
  match asRecord raw with
  | None => None
  | Some o =>
      let added := toStringArray (prop "added" o) in
      let removed := toStringArray (prop "removed" o) in
      let changed := toStringArray (prop "changed" o) in
      if (length added =? 0)%nat && (length removed =? 0)%nat && (length changed =? 0)%nat then None
      else Some (mkDiff (nonempty_list added) (nonempty_list removed) (nonempty_list changed))
  end.

Definition is_true (v : value) : bool := bool_decide (v = VBool true).

Definition normalizeRevisionEntry (raw : value) : option Revision :=
  match asRecord raw with
  | None => None
  | Some o =>
      Some (mkRevision (toNumber (prop "version" o)) (toNumber (prop "updated_unix_ms" o))
        (as_string (prop "updated_by" o)) (as_string (prop "goal" o))
        (is_true (prop "goal_changed" o)) (is_true (prop "goal_contract_changed" o))
        (asRecord (prop "goal_contract" o)) (normalizeRevisionDiff (prop "goal_contract_diff" o))
        (asRecord (prop "role_plan_snapshot" o)) (normalizeRevisionDiff (prop "role_plan_diff" o)))
  end.

Definition normalizeRevisionEntries (raw : value) : list Revision :=
  match raw with VArray l => omap normalizeRevisionEntry l | _ => [] end.

Record RevisionEvent := mkRevisionEvent {
  e_revision : Revision; e_team_id : option string; e_orchestrator_run_id : option string }.

Definition normalizeRevisionEventPayload (raw : value) : option RevisionEvent :=
  match raw with
  | VObject o =>
      match normalizeRevisionEntry raw with
      | Some r => Some (mkRevisionEvent r (as_string (prop "team_id" o)) (as_string (prop "orchestrator_run_id" o)))
      | None => None
      end
  | _ => None
  end.

Definition revisionVersion (entry : Revision) : number := default (int 0) (version entry).

Definition revision_gt (a b : Revision) : bool := gtb (sub (revisionVersion b) (revisionVersion a)) (int 0).

Definition sortRevisions (entries : list Revision) : list Revision :=
  if (length entries <=? 1)%nat then entries else sort_by revision_gt entries.

(** ** Texts *)

Definition middot : string := String " " (String "183" (String " " "")).

Definition count (l : option (list string)) : nat := length (default [] l).

Definition count_part (sign : string) (n : nat) : list string :=
  if (n =? 0)%nat then [] else [sign ++s pretty (Z.of_nat n)].

Definition diffSummary (diff : option RevisionDiff) : string :=
  match diff with
  | None => ""
  | Some d => join " " (count_part "+" (count (added d)) ++ count_part "-" (count (removed d))
                          ++ count_part "~" (count (changed d)))
  end.

Definition label_part (label : string) (l : option (list string)) : list string :=
  match default [] l with [] => [] | l => [label ++s join ", " l] end.

Definition diffKeyLabel (diff : option RevisionDiff) : string :=
  match diff with
  | None => ""
  | Some d => join middot (label_part "added: " (added d) ++ label_part "removed: " (removed d)
                             ++ label_part "changed: " (changed d))
  end.

Definition diffKeys (diff : option RevisionDiff) : list string :=
  match diff with
  | None => []
  | Some d => default [] (added d) ++ default [] (removed d) ++ default [] (changed d)
  end.

(** ** Filtering *)

Definition toLowerToken (v : value) : option string :=
  if nullish v then None
  else let str := trim (v_to_string v) in if truthy_str str then Some (to_lower str) else None.

Definition revisionChangeLabels (goalChanged contractChanged : bool) : list string :=
  (if goalChanged then ["goal changed"] else [])
  ++ (if contractChanged then ["goal contract changed"; "contract changed"] else []).

Record RevisionFilterInput := mkInput {
  i_version : value; i_updatedBy : value; i_goal : value;
  i_diffs : list (option RevisionDiff); i_changeLabels : list string }.

Definition revisionFilterTokens (input : RevisionFilterInput) : list string :=
  unique (omap toLowerToken
    ([i_version input; i_updatedBy input; i_goal input] ++ map VString (i_changeLabels input)
     ++ concat (map (fun diff => map VString (diffKeys diff)) (i_diffs input)))).

Definition matchesRevisionFilter (filterLower : string) (input : RevisionFilterInput) : bool :=
  if negb (truthy_str filterLower) then true
  else existsb (fun token => includes filterLower token) (revisionFilterTokens input).

(** ** What the panel shows *)

Inductive Scope := all | goal_only | role_only.

#[export] Instance Scope_eq_dec : EqDecision Scope.
Proof. solve_decision. Defined.

Definition read_scope (raw : string) : Scope :=
  if bool_decide (raw = "goal") then goal_only else if bool_decide (raw = "role") then role_only else all.

Definition opt_num (o : option number) : value := of_option (VNumber <$> o).
Definition opt_str (o : option string) : value := of_option (VString <$> o).

Definition revision_input (r : Revision) (diffs : list (option RevisionDiff)) (labels : list string) :
    RevisionFilterInput :=
  mkInput (opt_num (version r)) (opt_str (updated_by r)) (opt_str (goal r)) diffs labels.

Definition revisionMatches (filterLower : string) (entry : Revision) : bool :=
  matchesRevisionFilter filterLower
    (revision_input entry [goal_contract_diff entry; role_plan_diff entry]
       (revisionChangeLabels (goal_changed entry) (goal_contract_changed entry))).

(** [revisionFilter.trim().toLowerCase()]. *)
Definition filter_lower (revisionFilter : string) : string := to_lower (trim revisionFilter).

Definition goalRevisions (meta : value) : list Revision :=
  sortRevisions (normalizeRevisionEntries (vprop "goal_versions" meta)).
Definition rolePlanRevisions (meta : value) : list Revision :=
  sortRevisions (normalizeRevisionEntries (vprop "role_plan_versions" meta)).

Definition filtered (filterLower : string) (scoped : list Revision) : list Revision :=
  if truthy_str filterLower then List.filter (revisionMatches filterLower) scoped else scoped.

Definition filteredGoalRevisions (revisionFilter : string) (scope : Scope) (meta : value) : list Revision :=
  filtered (filter_lower revisionFilter) (if bool_decide (scope = role_only) then [] else goalRevisions meta).
Definition filteredRoleRevisions (revisionFilter : string) (scope : Scope) (meta : value) : list Revision :=
  filtered (filter_lower revisionFilter) (if bool_decide (scope = goal_only) then [] else rolePlanRevisions meta).

Definition GOAL_EVENT : string := "orchestrator_goal_revision".
Definition ROLE_EVENT : string := "orchestrator_role_plan_revision".

Record RevisionRow := mkRevisionRow { rr_row : BrokerEventRow; rr_event : RevisionEvent }.

(** One row of the feed as a revision event of the team and the run. *)
Definition revision_row (teamId rid filterLower : string) (scope : Scope) (row : BrokerEventRow) :
    option RevisionRow :=
  let type := r_type row in
  if negb (bool_decide (type = GOAL_EVENT)) && negb (bool_decide (type = ROLE_EVENT)) then None
  else if bool_decide (scope = goal_only) && negb (bool_decide (type = GOAL_EVENT)) then None
  else if bool_decide (scope = role_only) && negb (bool_decide (type = ROLE_EVENT)) then None
  else match normalizeRevisionEventPayload (payload row) with
       | None => None
       | Some p =>
           if truthy_str teamId && negb (bool_decide (default "" (e_team_id p) = teamId)) then None
           else if truthy_str rid && negb (bool_decide (default "" (e_orchestrator_run_id p) = rid)) then None
           else
             let r := e_revision p in
             let isGoal := bool_decide (type = GOAL_EVENT) in
             if matchesRevisionFilter filterLower
                  (revision_input r [if isGoal then goal_contract_diff r else role_plan_diff r]
                     (if isGoal then revisionChangeLabels (goal_changed r) (goal_contract_changed r) else []))
             then Some (mkRevisionRow row p) else None
       end.

Definition row_gt (a b : RevisionRow) : bool := gtb (sub (row_ts (rr_row b)) (row_ts (rr_row a))) (int 0).

Definition revisionEvents (events : list BrokerEventRow) (teamId runId revisionFilter : string) (scope : Scope) :
    list RevisionRow :=
  sort_by row_gt (omap (revision_row teamId (trim runId) (filter_lower revisionFilter) scope) events).

Definition revisionEventsDisplay (l : list RevisionRow) : list RevisionRow := take 8 l.
Definition revisionEventsOverflow (l : list RevisionRow) : bool :=
  (length (revisionEventsDisplay l) <? length l)%nat.

(** ** Requests about a run *)

(** [String(err)] for the exception of [JSON.parse] on a text. *)
Class ParseError := parse_error : string -> string.

Record Args := mkArgs { canQuery : bool; teamIdTrimmed : string }.

Record CreateForm := mkCreateForm {
  createGoal : string; createStatus : string; createGoalContractJson : string; createRolePlanJson : string;
  createMetaJson : string }.

Record UpdateForm := mkUpdateForm {
  updateStatus : string; updateGoal : string; updateGoalContractJson : string; updateRolePlanJson : string;
  updateMetaJson : string; updateExpectedOwner : string; updateExpectedOwnerEmpty : bool;
  updateExpectedStatus : string }.

Record HeartbeatForm := mkHeartbeatForm {
  heartbeatStatus : string; heartbeatExpectedOwner : string; heartbeatExpectedStatus : string }.

Definition body_text (k s : string) : obj value := if truthy_str (trim s) then [(k, VString (trim s))] else [].
Definition body_json (k : string) (v : value) : obj value := if bool_decide (v = VUndefined) then [] else [(k, v)].

Section bodies.
Context {J : Json} {PE : ParseError}.

(** [undefined] where the field is blank. *)
Definition parseJsonField (raw label : string) : result string value :=
  let trimmed := trim raw in
  if negb (truthy_str trimmed) then Ok VUndefined
  else match parse trimmed with
       | Some v => Ok v
       | None => Throw (label ++s " JSON invalid: " ++s parse_error trimmed)
       end.

(** The three JSON fields of both forms, in the order in which they are read. *)
Definition json_fields (goalContractJson rolePlanJson metaJson : string) : result string (obj value) :=
  goalContract ← parseJsonField goalContractJson "goal_contract";
  rolePlan ← parseJsonField rolePlanJson "role_plan_snapshot";
  meta ← parseJsonField metaJson "meta";
  Ok (body_json "goal_contract" goalContract ++ body_json "role_plan_snapshot" rolePlan ++ body_json "meta" meta).

Definition create_body (f : CreateForm) : result string (obj value) :=
  let goal := trim (createGoal f) in
  if negb (truthy_str goal) then Throw "goal required"
  else
    fields ← json_fields (createGoalContractJson f) (createRolePlanJson f) (createMetaJson f);
    Ok ([("goal", VString goal)] ++ body_text "status" (createStatus f) ++ fields).

Definition update_body (f : UpdateForm) : result string (obj value) :=
  fields ← json_fields (updateGoalContractJson f) (updateRolePlanJson f) (updateMetaJson f);
  let body := body_text "status" (updateStatus f) ++ body_text "goal" (updateGoal f) ++ fields
    ++ (if updateExpectedOwnerEmpty f then [("expected_owner", VString "")]
        else body_text "expected_owner" (updateExpectedOwner f))
    ++ body_text "expected_status" (updateExpectedStatus f) in
  if (length (keys body) =? 0)%nat then Throw "no update fields set" else Ok body.

Definition heartbeat_body (f : HeartbeatForm) : obj value :=
  body_text "status" (heartbeatStatus f) ++ body_text "expected_owner" (heartbeatExpectedOwner f)
  ++ body_text "expected_status" (heartbeatExpectedStatus f).
End bodies.

(** The interval of the automatic heartbeat. *)
Definition heartbeat_interval (heartbeatIntervalMs : value) : number :=
  let n := v_to_number heartbeatIntervalMs in
  math_max (int 5000) (if num_truthy n then n else int 30000).

(** ** The panel's state *)

(** The handlers that have a busy flag, an error and a note of their own. *)
Inductive Kind := KCreate | KUpdate | KHeartbeat.

#[export] Instance Kind_eq_dec : EqDecision Kind.
Proof. solve_decision. Defined.

(** A request in flight; a list request may be the end of a handler. *)
Inductive Pending := PAction (k : Kind) | PList (after : option Kind) | PGet.

#[export] Instance Pending_eq_dec : EqDecision Pending.
Proof. solve_decision. Defined.

Inductive Request :=
  | RCreate (body : obj value)
  | RUpdate (rid : string) (body : obj value)
  | RHeartbeat (rid : string) (body : obj value)
  | RList (status : option string)
  | RGet (rid : string).

Record Flags := mkFlags { busy : bool; err : option string; note : option string }.

Record state := mkState {
  listBusy : bool; listError : option string; runs : list value;
  runId : string; runLookupByTeam : obj string;
  runBusy : bool; runError : option string; runResult : value;
  flags : Kind -> Flags;
  lastEventKey : string;
  inFlight : list Pending }.

Inductive input :=
  | LoadRuns (statusFilter : string)
  | LoadRun (targetId : string)
  | SetRunId (next : string)
  | Create (f : CreateForm)
  | Update (f : UpdateForm)
  | Heartbeat (f : HeartbeatForm)
  | Events (rows : list BrokerEventRow) (statusFilter : string)
  | Settles (i : nat) (answer : string + value) (statusFilter : string).

Section panel.
Context {J : Json} {PE : ParseError} (a : Args).

Definition mount (lookup : obj string) : state :=
  mkState false None [] (if truthy_str (teamIdTrimmed a) then default "" (get (teamIdTrimmed a) lookup) else "") lookup
    false None VNull (fun _ => mkFlags false None None) "" [].

Definition with_list (b : bool) (e : option string) (l : list value) (s : state) : state :=
  mkState b e l (runId s) (runLookupByTeam s) (runBusy s) (runError s) (runResult s) (flags s) (lastEventKey s) (inFlight s).
Definition with_run (b : bool) (e : option string) (r : value) (s : state) : state :=
  mkState (listBusy s) (listError s) (runs s) (runId s) (runLookupByTeam s) b e r (flags s) (lastEventKey s) (inFlight s).
Definition with_flags (k : Kind) (f : Flags) (s : state) : state :=
  mkState (listBusy s) (listError s) (runs s) (runId s) (runLookupByTeam s) (runBusy s) (runError s) (runResult s)
    (fun k' => if bool_decide (k' = k) then f else flags s k') (lastEventKey s) (inFlight s).
Definition with_flight (l : list Pending) (s : state) : state :=
  mkState (listBusy s) (listError s) (runs s) (runId s) (runLookupByTeam s) (runBusy s) (runError s) (runResult s)
    (flags s) (lastEventKey s) l.
Definition with_event_key (k : string) (s : state) : state :=
  mkState (listBusy s) (listError s) (runs s) (runId s) (runLookupByTeam s) (runBusy s) (runError s) (runResult s)
    (flags s) k (inFlight s).

Definition setRunId (next : string) (s : state) : state :=
  mkState (listBusy s) (listError s) (runs s) next
    (if truthy_str (teamIdTrimmed a) then set (teamIdTrimmed a) next (runLookupByTeam s) else runLookupByTeam s)
    (runBusy s) (runError s) (runResult s) (flags s) (lastEventKey s) (inFlight s).

Definition may_query : bool := canQuery a && truthy_str (teamIdTrimmed a).

(** [loadRuns]; [after] is the handler that awaits it. *)
Definition load_runs (after : option Kind) (statusFilter : string) (s : state) : state * list Request :=
  if negb may_query then (s, [])
  else (with_flight (inFlight s ++ [PList after]) (with_list true None (runs s) s),
        [RList (if truthy_str (trim statusFilter) then Some (trim statusFilter) else None)]).

Definition load_run (targetId : string) (s : state) : state * list Request :=
  let rid := trim (str_or targetId (runId s)) in
  if negb may_query || negb (truthy_str rid) then (s, [])
  else (with_flight (inFlight s ++ [PGet]) (with_run true None (runResult s) s), [RGet rid]).

(** A handler with its checked body: an error ends it, a body is sent. *)
Definition begin_action (k : Kind) (body : result string (obj value)) (send : obj value -> Request) (s : state) :
    state * list Request :=
  match body with
  | Throw e => (with_flags k (mkFlags false (Some e) None) s, [])
  | Ok b => (with_flight (inFlight s ++ [PAction k]) (with_flags k (mkFlags true None None) s), [send b])
  end.

Definition handleCreate (f : CreateForm) (s : state) : state * list Request :=
  if negb may_query then (s, []) else begin_action KCreate (create_body f) RCreate s.

(** [setError("run id required")] leaves the busy flag and the note. *)
Definition need_run (k : Kind) (s : state) : state :=
  with_flags k (mkFlags (busy (flags s k)) (Some "run id required") (note (flags s k))) s.

Definition handleUpdate (f : UpdateForm) (s : state) : state * list Request :=
  let rid := trim (runId s) in
  if negb may_query then (s, [])
  else if negb (truthy_str rid) then (need_run KUpdate s, [])
  else begin_action KUpdate (update_body f) (RUpdate rid) s.

Definition handleHeartbeat (f : HeartbeatForm) (s : state) : state * list Request :=
  let rid := trim (runId s) in
  if negb may_query then (s, [])
  else if negb (truthy_str rid) then (need_run KHeartbeat s, [])
  else begin_action KHeartbeat (Ok (heartbeat_body f)) (RHeartbeat rid) s.

(** The [finally] of a handler. *)
Definition release (k : Kind) (s : state) : state :=
  with_flags k (mkFlags false (err (flags s k)) (note (flags s k))) s.

Definition set_note (k : Kind) (n : string) (s : state) : state :=
  with_flags k (mkFlags (busy (flags s k)) (err (flags s k)) (Some n)) s.

(** What the answer's run changes, before the list is loaded again. *)
Definition action_done (k : Kind) (run : value) (s : state) : state :=
  let newRun := run ??? VNull in
  match k with
  | KCreate =>
      let id := vprop "orchestrator_run_id" newRun in
      if truthy id
      then set_note KCreate ("created " ++s v_to_string id)
             (with_run (runBusy s) (runError s) newRun (setRunId (v_to_string id) s))
      else s
  | KUpdate => set_note KUpdate "updated" (with_run (runBusy s) (runError s) newRun s)
  | KHeartbeat => set_note KHeartbeat "heartbeat ok" (with_run (runBusy s) (runError s) newRun s)
  end.

(** An answer: [inl e], the text of an error, or the [run] or [runs] field. *)
Definition settles (i : nat) (answer : string + value) (statusFilter : string) (s : state) : state * list Request :=
  match inFlight s !! i with
  | None => (s, [])
  | Some p =>
      let s := with_flight (delete i (inFlight s)) s in
      match p, answer with
      | PAction k, inl e => (release k (with_flags k (mkFlags true (Some e) (note (flags s k))) s), [])
      | PAction k, inr run => load_runs (Some k) statusFilter (action_done k run s)
      | PList after, _ =>
          let s := match answer with
                   | inl e => with_list false (Some e) (runs s) s
                   | inr l => with_list false (listError s) (default [] (as_array l)) s
                   end in
          (match after with Some k => release k s | None => s end, [])
      | PGet, inl e => (with_run false (Some e) (runResult s) s, [])
      | PGet, inr run => (with_run false (runError s) (run ??? VNull) s, [])
      end
  end.

(** The effect on the team's orchestrator events. *)
Definition on_events (rows : list BrokerEventRow) (statusFilter : string) (s : state) : state * list Request :=
  if negb may_query then (s, [])
  else match list.last rows with
       | None => (s, [])
       | Some row =>
           let key := buildEventKey row in
           if bool_decide (lastEventKey s = key) then (s, [])
           else
             let '(s, r1) := load_runs None statusFilter (with_event_key key s) in
             let id := vprop "orchestrator_run_id" (payload row) in
             let rid := if truthy id then v_to_string id else "" in
             if truthy_str rid && bool_decide (rid = trim (runId s))
             then let '(s, r2) := load_run rid s in (s, r1 ++ r2) else (s, r1)
       end.

Definition step (s : state) (i : input) : state * list Request :=
  match i with
  | LoadRuns statusFilter => load_runs None statusFilter s
  | LoadRun targetId => load_run targetId s
  | SetRunId next => (setRunId next s, [])
  | Create f => handleCreate f s
  | Update f => handleUpdate f s
  | Heartbeat f => handleHeartbeat f s
  | Events rows statusFilter => on_events rows statusFilter s
  | Settles i answer statusFilter => settles i answer statusFilter s
  end.

(** The final state and the requests made, in order. *)
Definition run (s : state) (ins : list input) : state * list Request :=
  fold_left (fun '(s, rs) i => let '(s, r) := step s i in (s, rs ++ r)) ins (s, []).
End panel.

(** ** Normalizing *)

Definition opt_strings (o : option (list string)) : value := of_option ((fun l => VArray (map VString l)) <$> o).

Definition diff_value (o : option RevisionDiff) : value :=
  of_option ((fun d => VObject [("added", opt_strings (added d)); ("removed", opt_strings (removed d));
                                ("changed", opt_strings (changed d))]) <$> o).

Definition flag_value (b : bool) : value := if b then VBool true else VUndefined.

(** A revision as the object it is in the page. *)
Definition revision_value (r : Revision) : value :=
  VObject [("version", opt_num (version r)); ("updated_unix_ms", opt_num (updated_unix_ms r));
           ("updated_by", opt_str (updated_by r)); ("goal", opt_str (goal r));
           ("goal_changed", flag_value (goal_changed r)); ("goal_contract_changed", flag_value (goal_contract_changed r));
           ("goal_contract", of_option (VObject <$> goal_contract r));
           ("goal_contract_diff", diff_value (goal_contract_diff r));
           ("role_plan_snapshot", of_option (VObject <$> role_plan_snapshot r));
           ("role_plan_diff", diff_value (role_plan_diff r))].

Lemma toNumber_back v : toNumber (opt_num (toNumber v)) = toNumber v.
Proof.
  assert (H : forall x, toNumber v = Some x -> is_finite x = true).
  { intros x. destruct v; cbn [toNumber]; try done.
    - destruct (is_finite x0) eqn:E; [|done]. by intros [= <-].
    - case_match; [|done]. cbv zeta. destruct (is_finite (parse_float s)) eqn:E; [|done]. by intros [= <-]. }
  destruct (toNumber v) as [x|]; [|done]. change (toNumber (opt_num (Some x))) with (toNumber (VNumber x)).
  cbn [toNumber]. by rewrite (H x eq_refl).
Qed.

Lemma toStringArray_back l : toStringArray (opt_strings (nonempty_list (trimmed_nonempty l))) = trimmed_nonempty l.
Proof.
  unfold nonempty_list. destruct (Nat.ltb_spec 0 (length (trimmed_nonempty l))) as [|H].
  - change (toStringArray (opt_strings (Some ?l))) with (trimmed_nonempty (map v_to_string (map VString l))).
    rewrite map_map. cbn [v_to_string]. rewrite map_id. apply trimmed_nonempty_idem.
  - by destruct (trimmed_nonempty l); [|cbn in H; lia].
Qed.

Lemma toStringArray_trimmed v : exists l, toStringArray v = trimmed_nonempty l.
Proof. destruct v as [| | | | |l|]; cbn [toStringArray]; [by exists []..|by eexists|by exists []]. Qed.

Lemma diff_back v : normalizeRevisionDiff (diff_value (normalizeRevisionDiff v)) = normalizeRevisionDiff v.
Proof.
  unfold normalizeRevisionDiff at 2 3. destruct (asRecord v) as [o|]; [|done]. cbv zeta.
  destruct (toStringArray_trimmed (prop "added" o)) as [l1 ->].
  destruct (toStringArray_trimmed (prop "removed" o)) as [l2 ->].
  destruct (toStringArray_trimmed (prop "changed" o)) as [l3 ->].
  destruct (_ && _) eqn:E; [done|].
  set (d := mkDiff _ _ _).
  change (diff_value (Some d)) with
    (VObject [("added", opt_strings (added d)); ("removed", opt_strings (removed d)); ("changed", opt_strings (changed d))]).
  unfold normalizeRevisionDiff. cbn [asRecord]. cbv zeta. rewrite !prop_cons. simpl bool_decide. cbv iota.
  unfold d. cbn [added removed changed]. by rewrite !toStringArray_back, E.
Qed.

Lemma flag_back b : is_true (flag_value b) = b.
Proof. by destruct b. Qed.

(** A normalized revision is read back as it is, so normalizing twice is
    normalizing once; entries that are no records are dropped, no other is. *)
Theorem revisions_normalized raw :
  map normalizeRevisionEntry (map revision_value (normalizeRevisionEntries (VArray raw)))
    = map Some (normalizeRevisionEntries (VArray raw))
  /\ length (normalizeRevisionEntries (VArray raw)) = length (List.filter (fun v => bool_decide (is_Some (asRecord v))) raw).
Proof.
  split.
  - rewrite map_map. apply map_ext_in. intros r Hr%list_elem_of_In. cbn [normalizeRevisionEntries] in Hr.
    apply list_elem_of_omap in Hr as (v & _ & Hv). unfold normalizeRevisionEntry in Hv.
    destruct (asRecord v) as [o|]; [|done]. injection Hv as <-.
    unfold normalizeRevisionEntry, revision_value. cbn [asRecord]. rewrite !prop_cons. simpl bool_decide. cbv iota.
    cbn [version updated_unix_ms updated_by goal goal_changed goal_contract_changed goal_contract goal_contract_diff
         role_plan_snapshot role_plan_diff].
    rewrite !toNumber_back, !diff_back, !flag_back.
    f_equal. f_equal; by destruct (prop _ o).
  - cbn [normalizeRevisionEntries]. induction raw as [|v raw IH]; [done|].
    unfold omap in *. cbn [list_omap List.filter]. unfold normalizeRevisionEntry at 1.
    destruct (asRecord v) as [o|]; cbn [length]; by rewrite IH.
Qed.

(** ** The lists *)

Lemma version_finite_entry raw r : normalizeRevisionEntry raw = Some r -> is_finite (revisionVersion r) = true.
Proof.
  unfold normalizeRevisionEntry. destruct (asRecord raw) as [o|]; [|done]. intros [= <-].
  unfold revisionVersion. cbn [version]. unfold toNumber. destruct (prop "version" o); try done.
  - by case_match eqn:E.
  - case_match; [|done]. cbv zeta. by case_match eqn:E.
Qed.

Definition newer (a b : Revision) : Prop := leb (revisionVersion b) (revisionVersion a) = true.

Lemma sort_revisions l :
  Forall (fun r => is_finite (revisionVersion r) = true) l ->
  StronglySorted newer (sortRevisions l) /\ Permutation.Permutation (sortRevisions l) l
  /\ forall x, List.filter (fun r => bool_decide (revisionVersion r = x)) (sortRevisions l)
             = List.filter (fun r => bool_decide (revisionVersion r = x)) l.
Proof.
  intros Hf. destruct (sort_by_number_desc revisionVersion l Hf) as [H1 H2].
  assert (Hs : sortRevisions l = sort_by revision_gt l).
  { unfold sortRevisions. by destruct l as [|r [|r' l]]. }
  rewrite Hs. split_and!; [exact H1|apply sort_by_perm|exact H2].
Qed.

Lemma entries_finite raw : Forall (fun r => is_finite (revisionVersion r) = true) (normalizeRevisionEntries raw).
Proof.
  destruct raw as [| | | | |l|]; cbn [normalizeRevisionEntries]; try constructor. apply Forall_forall.
  intros r (v & _ & Hv)%list_elem_of_omap. by eapply version_finite_entry.
Qed.

(** ** Filters *)

Lemma prefix_iff p s : String.prefix p s = true <-> exists t, s = p ++s t.
Proof.
  revert s. induction p as [|c p IH]; intros s; [destruct s; (split; [by eexists|done])|].
  destruct s as [|d s]; [split; [done|by intros [t ?]]|]. simpl.
  destruct (Ascii.ascii_dec c d) as [->|Hne].
  - split.
    + intros [t ->]%IH. by exists t.
    + intros [t Ht]. apply IH. exists t. by injection Ht.
  - split; [done|]. intros [t [= -> _]]. done.
Qed.

Lemma includes_iff p s : includes p s = true <-> exists u v, s = u ++s p ++s v.
Proof.
  unfold includes. rewrite bool_decide_eq_true. split.
  - induction s as [|c s IH]; cbn [index_of].
    + destruct p; cbn; [|by intros [? ?]]. intros _. by exists "", "".
    + destruct (String.prefix p (String c s)) eqn:E.
      * intros _. apply prefix_iff in E as [t E]. by exists "", t.
      * intros [i (j & Hj & _)%fmap_Some]. destruct IH as (u & v & ->); [by rewrite Hj|]. by exists (String c u), v.
  - intros (u & v & ->). induction u as [|c u IH].
    + cbn. assert (H : String.prefix p (p ++s v) = true) by (apply prefix_iff; by eexists).
      destruct p as [|d p]; [by destruct v|]. cbn [index_of String.append] in *. by rewrite H.
    + change ((String c u) ++s p ++s v) with (String c (u ++s p ++s v)). cbn [index_of].
      case_match; [done|]. destruct IH as [i ->]. done.
Qed.

Lemma includes_trans p q s : includes p q = true -> includes q s = true -> includes p s = true.
Proof.
  rewrite !includes_iff. intros (u & v & ->) (u' & v' & ->). exists (u' ++s u), (v ++s v'). by rewrite !append_assoc.
Qed.

Lemma matches_narrow f g input :
  includes f g = true -> matchesRevisionFilter g input = true -> matchesRevisionFilter f input = true.
Proof.
  intros Hfg. unfold matchesRevisionFilter. destruct (truthy_str f) eqn:Ef; [|done]. cbn [negb].
  destruct (truthy_str g) eqn:Eg; cbn [negb].
  - rewrite !existsb_elem_of. intros (t & Ht & Hg). exists t. split; [done|]. by eapply includes_trans.
  - apply truthy_str_false in Eg as ->. apply includes_iff in Hfg as (u & v & H).
    destruct u; [|done]. destruct f; [done|done].
Qed.


Lemma filtered_narrow f g l :
  includes f g = true -> filtered g l = List.filter (revisionMatches g) (filtered f l).
Proof.
  intros Hfg. unfold filtered.
  assert (Hall : forall h, truthy_str h = false -> List.filter (revisionMatches h) l = l).
  { intros h Hh. apply filter_bool_id. intros r _. unfold revisionMatches, matchesRevisionFilter. by rewrite Hh. }
  assert (Hg : (if truthy_str g then List.filter (revisionMatches g) l else l) = List.filter (revisionMatches g) l).
  { destruct (truthy_str g) eqn:E; [done|]. by rewrite Hall. }
  rewrite Hg. destruct (truthy_str f); [|done]. rewrite filter_filter. apply filter_ext. intros r.
  destruct (revisionMatches g r) eqn:E; [|by rewrite andb_false_r].
  unfold revisionMatches in *. by rewrite (matches_narrow f g _ Hfg E).
Qed.

(** The goal revisions and the role plan revisions of a run are listed with
    the largest version first, entries of one version in the order of the run,
    none lost; a filter that contains another shows those of the other's rows
    that match it, in the same order; and a blank filter shows all. *)
Theorem revisions_shown meta f g scope :
  includes (filter_lower f) (filter_lower g) = true ->
  StronglySorted newer (goalRevisions meta)
  /\ Permutation.Permutation (goalRevisions meta) (normalizeRevisionEntries (vprop "goal_versions" meta))
  /\ (forall x, List.filter (fun r => bool_decide (revisionVersion r = x)) (goalRevisions meta)
             = List.filter (fun r => bool_decide (revisionVersion r = x)) (normalizeRevisionEntries (vprop "goal_versions" meta)))
  /\ filteredGoalRevisions g scope meta
     = List.filter (revisionMatches (filter_lower g)) (filteredGoalRevisions f scope meta)
  /\ filteredRoleRevisions g scope meta
     = List.filter (revisionMatches (filter_lower g)) (filteredRoleRevisions f scope meta)
  /\ filteredGoalRevisions "" all meta = goalRevisions meta
  /\ filteredRoleRevisions "" all meta = rolePlanRevisions meta.
Proof.
  intros Hfg. destruct (sort_revisions _ (entries_finite (vprop "goal_versions" meta))) as (H1 & H2 & H3).
  split_and!; [exact H1|exact H2|exact H3| | |done|done]; by apply filtered_narrow.
Qed.

(** ** The revision events *)

Definition newer_row (a b : RevisionRow) : Prop := leb (row_ts (rr_row b)) (row_ts (rr_row a)) = true.

Lemma row_gt_later a b : row_gt a b = later (rr_row b) (rr_row a).
Proof. done. Qed.

Lemma sort_rows_newer l : StronglySorted newer_row (sort_by row_gt l).
Proof.
  assert (E : forall x y, ngt row_gt x y <-> newer_row x y) by (intros x y; exact (ngt_later (rr_row y) (rr_row x))).
  eapply StronglySorted_impl; [intros x y _ _; apply E|]. apply sort_by_sorted.
  - intros x y. rewrite !row_gt_later, !later_ltb, !ltb_negb_leb by apply num_or_0_num.
    rewrite negb_true_iff, negb_false_iff. intros H.
    destruct (leb_total (row_ts (rr_row x)) (row_ts (rr_row y))) as [|H']; [apply num_or_0_num..| |]; congruence.
  - intros x y z. rewrite !E. unfold newer_row. intros H1 H2. by eapply leb_trans.
Qed.

Lemma revision_row_some teamId rid f scope row e :
  revision_row teamId rid f scope row = Some e ->
  rr_row e = row /\ normalizeRevisionEventPayload (payload row) = Some (rr_event e)
  /\ (r_type row = GOAL_EVENT /\ scope <> role_only \/ r_type row = ROLE_EVENT /\ scope <> goal_only)
  /\ (teamId <> "" -> e_team_id (rr_event e) = Some teamId)
  /\ (rid <> "" -> e_orchestrator_run_id (rr_event e) = Some rid).
Proof.
  unfold revision_row. cbv zeta.
  destruct (negb (bool_decide (r_type row = GOAL_EVENT)) && negb (bool_decide (r_type row = ROLE_EVENT))) eqn:E1; [done|].
  destruct (bool_decide (scope = goal_only) && negb (bool_decide (r_type row = GOAL_EVENT))) eqn:E2; [done|].
  destruct (bool_decide (scope = role_only) && negb (bool_decide (r_type row = ROLE_EVENT))) eqn:E3; [done|].
  destruct (normalizeRevisionEventPayload (payload row)) as [p|]; [|done].
  destruct (truthy_str teamId && negb (bool_decide (default "" (e_team_id p) = teamId))) eqn:E4; [done|].
  destruct (truthy_str rid && negb (bool_decide (default "" (e_orchestrator_run_id p) = rid))) eqn:E5; [done|].
  case_match; [|done]. intros [= <-]. cbn [rr_row rr_event].
  assert (Hid : forall (x : option string) y, truthy_str y && negb (bool_decide (default "" x = y)) = false ->
    y <> "" -> x = Some y).
  { intros x y Hx Hy. rewrite (proj2 (truthy_str_true y) Hy) in Hx. apply negb_false_iff, bool_decide_eq_true in Hx.
    destruct x; cbn in Hx; congruence. }
  split_and!; [done|done| |by apply Hid|by apply Hid].
  destruct (decide (r_type row = GOAL_EVENT)) as [Hg|Hg]; [left|right]; rewrite ?Hg in *.
  - split; [done|]. by intros ->.
  - rewrite (bool_decide_false _ Hg) in E1, E2. apply negb_false_iff, bool_decide_eq_true in E1. split; [done|]. by intros ->.
Qed.

(** The revision events shown are at most the 8 newest, in the order of
    their times; all of the feed's rows that count are listed and no other: rows
    of the two revision types that the scope admits, of the team and of the
    run where one is given, that the filter matches. *)
Theorem revision_events_shown events teamId runId f scope :
  let l := revisionEvents events teamId runId f scope in
  let shown := revisionEventsDisplay l in
  StronglySorted newer_row l /\ (length shown <= 8)%nat
  /\ (revisionEventsOverflow l = false -> shown = l)
  /\ (forall e e', e ∈ shown -> e' ∈ drop 8 l -> newer_row e e')
  /\ (forall e, e ∈ l <-> exists row, row ∈ events /\ revision_row teamId (trim runId) (filter_lower f) scope row = Some e)
  /\ (forall e, e ∈ l ->
        (r_type (rr_row e) = GOAL_EVENT /\ scope <> role_only \/ r_type (rr_row e) = ROLE_EVENT /\ scope <> goal_only)
        /\ (teamId <> "" -> e_team_id (rr_event e) = Some teamId)
        /\ (trim runId <> "" -> e_orchestrator_run_id (rr_event e) = Some (trim runId))).
Proof.
  intros l shown.
  assert (Hin : forall e, e ∈ l <-> exists row, row ∈ events /\ revision_row teamId (trim runId) (filter_lower f) scope row = Some e).
  { intros e. unfold l, revisionEvents. rewrite elem_of_sort_by. apply list_elem_of_omap. }
  pose proof (sort_rows_newer (omap (revision_row teamId (trim runId) (filter_lower f) scope) events)) as Hs.
  change (StronglySorted newer_row l) in Hs. split_and!; [done|..].
  - unfold shown, revisionEventsDisplay. rewrite length_take. lia.
  - unfold revisionEventsOverflow. fold shown. rewrite Nat.ltb_ge. unfold shown, revisionEventsDisplay.
    rewrite length_take. intros H. apply take_ge. lia.
  - intros e e' He He'. rewrite <- (take_drop 8 l) in Hs. by eapply StronglySorted_app_rel.
  - done.
  - intros e (row & _ & He)%Hin. apply revision_row_some in He as (-> & _ & H). done.
Qed.


(** ** The requests made *)

Section requests.
Context {J : Json} {PE : ParseError} (a : Args).

Definition text_ok (s : string) : Prop := trim s = s /\ s <> "".

(** A body names no field twice and has no field that is [undefined]. *)
Definition body_ok (b : obj value) : Prop := wf b /\ Forall (fun p => snd p <> VUndefined) b.

Definition request_ok (r : Request) : Prop :=
  match r with
  | RCreate b => body_ok b /\ exists g, get "goal" b = Some (VString g) /\ text_ok g
  | RUpdate rid b => text_ok rid /\ body_ok b /\ b <> []
  | RHeartbeat rid b => text_ok rid /\ body_ok b
  | RList status => forall s, status = Some s -> text_ok s
  | RGet rid => text_ok rid
  end.

Lemma text_trimmed s : truthy_str (trim s) = true -> text_ok (trim s).
Proof. intros H%truthy_str_true. split; [apply trim_idem|done]. Qed.

Lemma body_text_keys k s : sublist (keys (body_text k s)) [k].
Proof. unfold body_text. case_match; [done|apply sublist_nil_l]. Qed.

Lemma body_json_keys k v : sublist (keys (body_json k v)) [k].
Proof. unfold body_json. case_match; [apply sublist_nil_l|done]. Qed.

Lemma body_text_defined k s : Forall (fun p => snd p <> VUndefined) (body_text k s).
Proof. unfold body_text. case_match; by repeat constructor. Qed.

Lemma body_json_defined k v : Forall (fun p => snd p <> VUndefined) (body_json k v).
Proof. unfold body_json. case_bool_decide; by repeat constructor. Qed.

#[local] Hint Resolve body_text_keys body_json_keys body_text_defined body_json_defined : core.

(** A part of a body: fields among [ks], none [undefined]. *)
Definition part (ks : list string) (b : obj value) : Prop :=
  sublist (keys b) ks /\ Forall (fun p => snd p <> VUndefined) b.

Lemma part_app ks1 ks2 b1 b2 : part ks1 b1 -> part ks2 b2 -> part (ks1 ++ ks2) (b1 ++ b2).
Proof.
  intros [H1 H2] [H3 H4]. split; [|by apply Forall_app]. unfold keys in *. rewrite map_app. by apply sublist_app.
Qed.

Lemma part_ok ks b : NoDup ks -> part ks b -> body_ok b.
Proof. intros Hn [H1 H2]. split; [|done]. by eapply sublist_NoDup. Qed.

Lemma part_text k s : part [k] (body_text k s).
Proof. by split. Qed.

Lemma json_fields_part x y z b :
  json_fields x y z = Ok b -> part ["goal_contract"; "role_plan_snapshot"; "meta"] b.
Proof.
  unfold json_fields. destruct (parseJsonField x _) as [v1|]; [|done]. cbn [mbind result_bind].
  destruct (parseJsonField y _) as [v2|]; [|done]. cbn [mbind result_bind].
  destruct (parseJsonField z _) as [v3|]; [|done]. intros [= <-].
  change ["goal_contract"; "role_plan_snapshot"; "meta"] with (["goal_contract"] ++ ["role_plan_snapshot"] ++ ["meta"]).
  repeat apply part_app; by split.
Qed.

Lemma create_body_ok f b : create_body f = Ok b -> request_ok (RCreate b).
Proof.
  unfold create_body. cbv zeta. destruct (truthy_str (trim (createGoal f))) eqn:Eg; [|done]. cbn [negb].
  destruct (json_fields _ _ _) as [fields|] eqn:Ef; [|done]. cbn [mbind result_bind]. intros [= <-].
  apply json_fields_part in Ef. split; [|by exists (trim (createGoal f)); split; [|apply text_trimmed]].
  apply (part_ok (["goal"] ++ ["status"] ++ ["goal_contract"; "role_plan_snapshot"; "meta"])); [by_compute|].
  apply (part_app _ _ [_]); [by split; [|repeat constructor]|]. by apply part_app; [apply part_text|].
Qed.

Lemma update_body_ok f b rid : update_body f = Ok b -> text_ok rid -> request_ok (RUpdate rid b).
Proof.
  unfold update_body. destruct (json_fields _ _ _) as [fields|] eqn:Ef; [|done]. cbn [mbind result_bind]. cbv zeta.
  set (body := body_text "status" _ ++ _). destruct (Nat.eqb_spec (length (keys body)) 0) as [|Hn]; [done|].
  intros [= <-] Hr. apply json_fields_part in Ef. split_and!; [done| |by intros E; rewrite E in Hn].
  apply (part_ok (["status"] ++ ["goal"] ++ ["goal_contract"; "role_plan_snapshot"; "meta"] ++ ["expected_owner"] ++ ["expected_status"]));
    [by_compute|]. unfold body.
  apply part_app; [apply part_text|]. apply part_app; [apply part_text|]. apply part_app; [exact Ef|].
  apply part_app; [|apply part_text]. case_match; [|apply part_text]. split; [done|by repeat constructor].
Qed.

Lemma heartbeat_body_ok f rid : text_ok rid -> request_ok (RHeartbeat rid (heartbeat_body f)).
Proof.
  intros Hr. split; [done|].
  apply (part_ok (["status"] ++ ["expected_owner"] ++ ["expected_status"])); [by_compute|].
  unfold heartbeat_body. repeat apply part_app; apply part_text.
Qed.

(** What is in flight for the flags that are set. *)
Definition shown_busy (s : state) : Prop :=
  (listBusy s = true -> exists after, PList after ∈ inFlight s)
  /\ (runBusy s = true -> PGet ∈ inFlight s)
  /\ (forall k, busy (flags s k) = true -> PAction k ∈ inFlight s \/ PList (Some k) ∈ inFlight s)
  /\ (inFlight s <> [] -> may_query a = true).

Lemma load_runs_ok after f s :
  shown_busy s -> shown_busy (fst (load_runs a after f s)) /\ Forall request_ok (snd (load_runs a after f s)).
Proof.
  intros Hs. unfold load_runs. destruct (may_query a) eqn:Eq; cbn [negb fst snd]; [|by split].
  destruct Hs as (H1 & H2 & H3 & H4).
  split.
  - split_and!; cbn; [intros _; exists after; set_solver|intros H; specialize (H2 H); set_solver| |done].
    intros k H. destruct (H3 k H); set_solver.
  - constructor; [|done]. cbn. intros st. case_match eqn:E; [|done]. intros [= <-]. by apply text_trimmed.
Qed.

Lemma load_run_ok t s :
  shown_busy s -> shown_busy (fst (load_run a t s)) /\ Forall request_ok (snd (load_run a t s)).
Proof.
  intros Hs. unfold load_run. cbv zeta. destruct (may_query a) eqn:Eq; cbn [negb orb fst snd]; [|by split].
  destruct (truthy_str (trim (str_or t (runId s)))) eqn:Er; cbn [negb fst snd]; [|by split].
  destruct Hs as (H1 & H2 & H3 & H4).
  split.
  - split_and!; cbn; [intros H; destruct (H1 H) as [x Hx]; exists x; set_solver|set_solver| |done].
    intros k H. destruct (H3 k H); set_solver.
  - constructor; [|done]. by apply text_trimmed.
Qed.

Definition good (p : state * list Request) : Prop := shown_busy (fst p) /\ Forall request_ok (snd p).

Lemma begin_ok k body send s :
  shown_busy s -> may_query a = true -> (forall b, body = Ok b -> request_ok (send b)) -> good (begin_action k body send s).
Proof.
  intros (H1 & H2 & H3 & H4) Hq Hb. unfold begin_action. destruct body as [b|e]; split; cbn.
  - split_and!; cbn; [intros H; destruct (H1 H) as [x Hx]; exists x; set_solver|set_solver| |done].
    intros k'. case_bool_decide as E; [subst; intros _; left; set_solver|]. intros H. destruct (H3 k' H); set_solver.
  - by repeat constructor; apply Hb.
  - split_and!; cbn; try done. intros k'. by case_bool_decide; [|apply H3].
  - done.
Qed.

(** Flags changed without setting a busy flag. *)
Lemma flags_ok k f s : shown_busy s -> (busy f = true -> busy (flags s k) = true) -> shown_busy (with_flags k f s).
Proof.
  intros (H1 & H2 & H3 & H4) Hf. split_and!; cbn; try done. intros k'.
  case_bool_decide as E; [subst; intros Hb; by apply H3, Hf|apply H3].
Qed.

(** The rest of a state, once the request [p] is no longer in flight. *)
Definition settled_of (p : Pending) (s : state) : Prop :=
  (listBusy s = true -> (exists after, p = PList after) \/ exists after, PList after ∈ inFlight s)
  /\ (runBusy s = true -> p = PGet \/ PGet ∈ inFlight s)
  /\ (forall k, busy (flags s k) = true ->
        p = PAction k \/ p = PList (Some k) \/ PAction k ∈ inFlight s \/ PList (Some k) ∈ inFlight s)
  /\ may_query a = true.

Lemma settled_start i p s : inFlight s !! i = Some p -> shown_busy s -> settled_of p (with_flight (delete i (inFlight s)) s).
Proof.
  intros Hi (H1 & H2 & H3 & H4). pose proof (delete_Permutation (inFlight s) i p Hi) as Hp.
  split_and!; cbn.
  - intros H. destruct (H1 H) as [x Hx]. rewrite Hp in Hx. apply elem_of_cons in Hx as [<-|]; eauto 6.
  - intros H. specialize (H2 H). rewrite Hp in H2. apply elem_of_cons in H2 as [<-|]; eauto 6.
  - intros k H. destruct (H3 k H) as [Hx|Hx]; rewrite Hp in Hx; apply elem_of_cons in Hx as [<-|]; eauto 6.
  - apply H4. intros E. by rewrite E in Hi.
Qed.

Lemma settled_frame p s t :
  settled_of p s -> (listBusy t = true -> listBusy s = true) -> (runBusy t = true -> runBusy s = true) ->
  (forall k, busy (flags t k) = true -> busy (flags s k) = true) -> inFlight t = inFlight s -> settled_of p t.
Proof.
  intros (H1 & H2 & H3 & H4) F1 F2 F3 Fl. unfold settled_of. rewrite Fl. split_and!; auto.
Qed.

Lemma action_done_frame p k v s : settled_of p s -> settled_of p (action_done a k v s).
Proof.
  intros Hs. assert (Hn : forall k n u, settled_of p u -> settled_of p (set_note k n u)).
  { intros k' n u Hu. eapply settled_frame; [exact Hu|done|done| |done]. intros k''. cbn. case_bool_decide; by subst. }
  unfold action_done. cbv zeta. destruct k; [case_match; [|done]|..]; apply Hn; (eapply settled_frame; [exact Hs|done..]).
Qed.

(** The list is loaded again at the end of a handler, whose flag it holds. *)
Lemma reload_ok k f s : settled_of (PAction k) s -> good (load_runs a (Some k) f s).
Proof.
  intros (H1 & H2 & H3 & H4). unfold good, load_runs. rewrite H4. cbn [negb fst snd]. split.
  - split_and!; cbn; [intros _; exists (Some k); set_solver| | |done].
    + intros H. destruct (H2 H); [done|set_solver].
    + intros k' H. destruct (H3 k' H) as [[= ->]|[?|[?|?]]]; [right; set_solver|done|left; set_solver|right; set_solver].
  - constructor; [|done]. cbn. intros st. case_match eqn:E; [|done]. intros [= <-]. by apply text_trimmed.
Qed.

Lemma list_done after e l s :
  settled_of (PList after) s ->
  shown_busy (match after with Some k => release k (with_list false e l s) | None => with_list false e l s end).
Proof.
  intros (H1 & H2 & H3 & H4).
  assert (Hk : forall k, after <> Some k -> busy (flags s k) = true ->
    PAction k ∈ inFlight s \/ PList (Some k) ∈ inFlight s).
  { intros k Hne H. by destruct (H3 k H) as [|[[= ->]|?]]. }
  destruct after as [k|]; (split_and!; cbn; [done| | |done]).
  - intros H. by destruct (H2 H).
  - intros k'. case_bool_decide as E; [done|]. apply Hk. congruence.
  - intros H. by destruct (H2 H).
  - intros k'. by apply Hk.
Qed.

Lemma get_done e v s : settled_of PGet s -> shown_busy (with_run false e v s).
Proof.
  intros (H1 & H2 & H3 & H4). split_and!; cbn; try done.
  - intros H. by destruct (H1 H) as [[? ?]|].
  - intros k H. by destruct (H3 k H) as [|[|]].
Qed.

Lemma settles_ok i answer f s : shown_busy s -> good (settles a i answer f s).
Proof.
  intros Hs. unfold settles. destruct (inFlight s !! i) as [p|] eqn:Hi; [|by split].
  pose proof (settled_start i p s Hi Hs) as Hp. cbv zeta. set (u := with_flight _ s) in *. clearbody u.
  destruct p as [k|after|], answer as [e|v].
  - split; [|done]. destruct Hp as (H1 & H2 & H3 & H4). split_and!; cbn.
    + intros H. destruct (H1 H) as [[? ?]|]; done.
    + intros H. destruct (H2 H); done.
    + intros k'. case_bool_decide as E; [done|]. intros H. by destruct (H3 k' H) as [[= ->]|[?|?]].
    + done.
  - by apply reload_ok, action_done_frame.
  - split; [by apply list_done|done].
  - split; [by apply list_done|done].
  - split; [by apply get_done|done].
  - split; [by apply get_done|done].
Qed.

Lemma step_ok i s : shown_busy s -> good (step a s i).
Proof.
  intros Hs. assert (Hstay : good (s, [])) by by split.
  destruct i as [st|t|next|f|f|f|rows st|i answer st]; cbn [step].
  - by apply load_runs_ok.
  - by apply load_run_ok.
  - split; [|done]. exact Hs.
  - unfold handleCreate. destruct (may_query a) eqn:Eq; [|done]. apply begin_ok; [done..|]. apply create_body_ok.
  - unfold handleUpdate, need_run. cbv zeta. destruct (may_query a) eqn:Eq; [|done]. cbn [negb].
    destruct (truthy_str _) eqn:Er; cbn [negb]; [|split; [by apply flags_ok|done]].
    apply begin_ok; [done..|]. intros b Hb. by apply (update_body_ok f); [|apply text_trimmed].
  - unfold handleHeartbeat, need_run. cbv zeta. destruct (may_query a) eqn:Eq; [|done]. cbn [negb].
    destruct (truthy_str _) eqn:Er; cbn [negb]; [|split; [by apply flags_ok|done]].
    apply begin_ok; [done..|]. intros b [= <-]. by apply heartbeat_body_ok, text_trimmed.
  - unfold on_events. destruct (may_query a); [|done]. cbn [negb]. destruct (list.last rows) as [row|]; [|done].
    cbv zeta. case_bool_decide; [done|].
    assert (H0 : shown_busy (with_event_key (buildEventKey row) s)) by exact Hs.
    destruct (load_runs_ok None st _ H0) as [H1 R1]. destruct (load_runs a None st _) as [s1 r1]. cbn [fst snd] in *.
    set (rid := if truthy _ then _ else ""). clearbody rid. destruct (_ && _); [|by split].
    destruct (load_run_ok rid _ H1) as [H2 R2]. destruct (load_run a rid s1) as [s2 r2]. cbn [fst snd] in *.
    split; [done|]. by apply Forall_app.
  - by apply settles_ok.
Qed.

(** In every run of the panel every request is well formed: a run is created
    with a goal, changed with at least one field and under an identifier, no
    field is sent twice or without a value; and every busy flag that is set has
    its request in flight, so none stays set when all have been answered. *)
Theorem panel_requests lookup ins :
  let '(s, requests) := run a (mount a lookup) ins in
  Forall request_ok requests /\ shown_busy s
  /\ (inFlight s = [] -> listBusy s = false /\ runBusy s = false /\ forall k, busy (flags s k) = false).
Proof.
  assert (H : forall ins s rs, shown_busy s -> Forall request_ok rs ->
    good (fold_left (fun '(s, rs) i => let '(s, r) := step a s i in (s, rs ++ r)) ins (s, rs))).
  { clear ins. intros ins. induction ins as [|i ins IH]; intros s rs Hs Hr; [by split|]. cbn [fold_left].
    destruct (step_ok i s Hs) as [H1 H2]. destruct (step a s i) as [s' r]. apply IH; [done|by apply Forall_app]. }
  destruct (H ins (mount a lookup) []) as [H1 H2]; [by split_and!|constructor|]. clear H.
  unfold run. destruct (fold_left _ ins _) as [s rs]. cbn [fst snd] in *. split_and!; [done|apply H1..|].
  intros E. destruct H1 as (B1 & B2 & B3 & _). rewrite E in *. split_and!.
  - destruct (listBusy s); [|done]. by destruct (B1 eq_refl) as [x Hx%not_elem_of_nil].
  - destruct (runBusy s); [|done]. by pose proof (B2 eq_refl) as Hx%not_elem_of_nil.
  - intros k. destruct (busy (flags s k)) eqn:Eb; [|done]. by destruct (B3 k Eb) as [Hx%not_elem_of_nil|Hx%not_elem_of_nil].
Qed.
End requests.

(** ** Concrete inputs *)

Definition example_revision (v : Z) (goal : string) : value :=
  VObject [("version", VNumber (int v)); ("goal", VString goal)].

Definition example_meta : value :=
  VObject [("goal_versions", VArray [example_revision 1 "first plan"; VNull; example_revision 3 "Final plan";
                                     example_revision 2 "second"])].

(** Versions 3 and 1 match the longer filter, [revision]s in the order shown. *)
Lemma revisions_shown_witness :
  includes (filter_lower " PL") (filter_lower "Plan ") = true
  /\ map revisionVersion (goalRevisions example_meta) = [int 3; int 2; int 1]
  /\ map revisionVersion (filteredGoalRevisions "Plan " all example_meta) = [int 3; int 1]
  /\ filteredGoalRevisions "Plan " all example_meta
     = List.filter (revisionMatches (filter_lower "Plan ")) (filteredGoalRevisions " PL" all example_meta).
Proof.
  split; [vm_compute; reflexivity|]. split; [vm_compute; reflexivity|]. split; [vm_compute; reflexivity|].
  assert (H : includes (filter_lower " PL") (filter_lower "Plan ") = true) by (vm_compute; reflexivity).
  destruct (revisions_shown example_meta " PL" "Plan " all H) as (_ & _ & _ & Hg & _). exact Hg.
Defined.
