(* ===== verification/TeamActions.v ===== *)
(** The actions of the team chat, src/ui/src/hooks/useTeamChatActionState.ts and
    teamChatOrchestrationUtils.ts: starting a team run, giving guidance, setting
    a goal, sharing files, and the queue of actions that wait for the one in
    progress.  An action is a program ([Programs]); [step] interleaves the
    answers to its requests with what the user and React do.  The queue is kept
    in the browser's storage ([LocalStorage]). *)
From S2P Require Import Prelude JsNumber JsString JsValue Programs LocalStorage.

(** ** Data (teamChatOrchestrationTypes.ts) *)

Record Attachment := mkAttachment {
  path : string; name : option string; mime : option string; data_base64 : option string }.

Inductive TeamActionKind := ARun | AGuidance | AGoal.

#[export] Instance TeamActionKind_eq_dec : EqDecision TeamActionKind.
Proof. solve_decision. Defined.

Definition action_text (action : TeamActionKind) : string :=
  match action with ARun => "run" | AGuidance => "guidance" | AGoal => "goal" end.

Record TeamRunRequest := mkRequest { prompt : string; attachments : list Attachment }.

Record TeamQueuedAction := mkQueued {
  q_prompt : string; q_attachments : list Attachment; queued_unix_ms : number; q_action : TeamActionKind }.

(** [a_payload] is [undefined] where the activity has none. *)
Record TeamActivity := mkActivity {
  ts : number; a_prompt : string; run_id : option string; kind : string; a_payload : value }.

Record GoalContract := mkContract { goal : string; success_criteria : option (list string) }.

(** The arguments that a render passes to the hook. *)
Record Args := mkArgs {
  brokerAgentId : string; brokerBaseTrimmed : string; brokerChatAvailable : bool; latestTeamRunId : string;
  selectedTeamIdTrimmed : string }.

(** [text.split(/\r?\n/)]. *)
Fixpoint split_lines (s : string) : list string :=
  match s with
  | "" => [""]
  | String c s' =>
      if is_char "010" c then "" :: split_lines s'
      else if is_char "013" c && starts_with nl s' then split_lines s'
      else match split_lines s' with
           | h :: t => String c h :: t
           | [] => [String c ""]
           end
  end.

Definition buildGoalContractFromPrompt (promptRaw : string) : option GoalContract :=
  match trimmed_nonempty (split_lines promptRaw) with
  | [] => None
  | goal :: rest => Some (mkContract goal (match rest with [] => None | _ => Some rest end))
  end.

Definition contract_value (c : GoalContract) : obj value :=
  ("goal", VString (goal c))
  :: match success_criteria c with None => [] | Some l => [("success_criteria", VArray (map VString l))] end.

Definition collectTeamUploadFiles (attachments : list Attachment) : list Attachment :=
  List.filter (fun f => truthy_str (default "" (data_base64 f))) attachments.

Definition or_undefined (s : string) : option string := if truthy_str s then Some s else None.

Definition opt_text (o : option string) : value := of_option (VString <$> o).

(** ** What an action asks of its environment *)

Inductive Call :=
  | GoalUpdate (team run : string) (contract : GoalContract)
  | GuidanceCreate (team : string) (body : obj value)
  | RunCreate (team prompt : string)
  | RunGet (team run : string)
  | Upload (agent : string) (deployment : option string) (body : obj value).

(** Changes of the page's state; [AddActivity] is [addTeamActivity] of the
    render whose team is [team]. *)
Inductive effect :=
  | Notice (s : string) | ClearPrompt | NextComposer | AddActivity (team : string) (a : TeamActivity)
  | RefetchRuns | RefetchGuidance | SetBusy (b : bool).

Inductive teamE : Type -> Type :=
  | Remote (base : string) (c : Call) : teamE (outcome value)
  | Sleep (ms : Z) : teamE unit
  | Now : teamE number
  | Local (e : effect) : teamE unit.

Abbreviation io := (prog teamE).

Definition local (e : effect) : io unit := ask (Local e).
Definition notice (s : string) : io unit := local (Notice s).

(** ** An action *)

(** The first truthy of the fields, or a text. *)
Fixpoint first_of (fields : list string) (resp : value) (d : string) : value :=
  match fields with
  | [] => VString d
  | k :: fields => vprop k resp |||| first_of fields resp d
  end.

(** [if (!resp?.ok) throw new Error(...)]. *)
Definition require_ok (resp : value) (fields : list string) (d : string) : io unit :=
  if truthy (vprop "ok" resp) then Ret tt
  else let message := v_to_string (first_of fields resp d) in
       Throw (if truthy_str message then "Error: " ++s message else "Error").

Section action.
Context (a : Args).

Definition remote (c : Call) : io value := call (Remote (brokerBaseTrimmed a) c).
Definition team : string := selectedTeamIdTrimmed a.

Definition activity (text : string) (runId : option string) (kind : string) (payload : value) : io unit :=
  now ← ask Now; local (AddActivity team (mkActivity now text runId kind payload)).

(** The number of own enumerable properties of an object or array. *)
Definition key_count (v : value) : nat :=
  match v with VObject o => length o | VArray l => length l | _ => 0 end.

(** [waitForTeamMemberSessions]: [attempts] more requests. *)
Fixpoint wait_sessions (attempts : nat) (runId : string) (lastStatus : value) : io value :=
  match attempts with
  | O => Ret lastStatus
  | S n =>
      status ← remote (RunGet team runId);
      if (0 <? key_count (vprop "member_sessions" status))%nat then Ret status
      else ask (Sleep 750) ;; wait_sessions n runId status
  end.

Definition waitForTeamMemberSessions (runId : string) : io value := wait_sessions 10 runId VNull.

(** The agent and the deployment of a member. *)
Record Meta := mkMeta { agent_id : option string; deployment_id : option string }.

Definition add_member (meta : obj Meta) (member : value) : obj Meta :=
  let id := str_trim (vprop "member_id" member) in
  if negb (truthy_str id) then meta
  else set id (mkMeta (or_undefined (str_trim (vprop "agent_id" member)))
                 (or_undefined (str_trim (vprop "deployment_id" member)))) meta.

Definition add_job (meta : obj Meta) (job : value) : obj Meta :=
  let id := str_trim (vprop "member_id" job) in
  if negb (truthy_str id) then meta
  else
    let old f := opt_text (get id meta ≫= f) in
    set id (mkMeta (or_undefined (str_trim (vprop "agent_id" job |||| old agent_id)))
              (or_undefined (str_trim (vprop "deployment_id" job |||| old deployment_id)))) meta.

Definition list_of (v : value) : list value := default [] (as_array v).

Definition member_meta (status : value) : obj Meta :=
  fold_left add_job (list_of (vprop "member_jobs" status))
    (fold_left add_member (list_of (vprop "members" status)) []).

(** [Object.entries] of an object or array. *)
Definition entries (v : value) : obj value :=
  match v with
  | VObject o => o
  | VArray l => imap (fun i x => (pretty (Z.of_nat i), x)) l
  | _ => []
  end.

Definition file_value (f : Attachment) : value :=
  VObject [("name", VString (str_or (default "" (name f)) "upload.bin")); ("mime", opt_text (mime f));
           ("data_base64", opt_text (data_base64 f))].

Definition upload_body (sid : string) (uploads : list Attachment) : obj value :=
  [("session_id", VString sid); ("files", VArray (map file_value uploads))].

(** The loop of [broadcastTeamUploads]: what was uploaded and the errors. *)
Fixpoint broadcast (meta : obj Meta) (uploads : list Attachment) (sessions : obj value)
    (done : list value) (errors : list string) : io (list value * list string) :=
  match sessions with
  | [] => Ret (done, errors)
  | (memberIdRaw, sessionIdRaw) :: sessions =>
      let memberId := trim memberIdRaw in
      let sid := str_trim sessionIdRaw in
      if negb (truthy_str memberId) || negb (truthy_str sid) then broadcast meta uploads sessions done errors
      else
        let agentId := str_or (default "" (get memberId meta ≫= agent_id)) (brokerAgentId a) in
        if negb (truthy_str agentId)
        then broadcast meta uploads sessions done (errors ++ ["missing agent_id for member " ++s memberId])
        else
          let depId := get memberId meta ≫= deployment_id in
          resp ← remote (Upload agentId depId (upload_body sid uploads));
          let data := vprop "data" resp in
          if negb (truthy (vprop "ok" data))
          then broadcast meta uploads sessions done (errors ++ ["upload failed for member " ++s memberId])
          else broadcast meta uploads sessions
                 (done ++ [VObject [("member_id", VString memberId); ("session_id", VString sid);
                                    ("agent_id", VString agentId); ("deployment_id", opt_text depId);
                                    ("files", VArray (list_of (vprop "files" data)))]]) errors
  end.

Definition broadcastTeamUploads (status : value) (attachments : list Attachment) : io (list value * list string) :=
  match collectTeamUploadFiles attachments with
  | [] => Ret ([], [])
  | uploads => broadcast (member_meta status) uploads (entries (vprop "member_sessions" status)) [] []
  end.

Definition uploads_value (done : list value) : value := VObject [("uploads", VArray done)].

Definition succeeded (text : string) : io unit :=
  local ClearPrompt ;; local NextComposer ;; notice text.

Definition goal_action (trimmed : string) : io unit :=
  match buildGoalContractFromPrompt trimmed with
  | None => notice "goal required"
  | Some contract =>
      catch
        (resp ← remote (GoalUpdate team (latestTeamRunId a) contract);
         require_ok resp ["error"; "err"] "goal update failed" ;;
         activity trimmed (Some (latestTeamRunId a)) "goal" (VObject (contract_value contract)) ;;
         succeeded "goal updated")
        (fun e => notice ("goal update failed: " ++s e))
  end.

(** [None]: the action ends, with its notice. *)
Definition share_first (runId : string) (uploads : list Attachment) : io (option value) :=
  match uploads with
  | [] => Ret (Some VNull)
  | _ =>
      if negb (truthy_str runId) then notice "start a team run before attaching files" ;; Ret None
      else
        notice "sharing attachments with the team..." ;;
        status ← waitForTeamMemberSessions runId;
        result ← broadcastTeamUploads status uploads;
        match snd result with [] => Ret tt | e :: _ => notice ("shared with errors: " ++s e) end ;;
        Ret (Some (uploads_value (fst result)))
  end.

Definition guidance_body (message runId : string) (payload : value) : obj value :=
  [("kind", VString "note"); ("priority", VString "normal"); ("message", VString message)]
  ++ (if truthy_str runId then [("team_run_id", VString runId)] else [])
  ++ (if truthy payload then [("payload", payload)] else []).

Definition guidance_action (trimmed : string) (files : list Attachment) : io unit :=
  catch
    (let runId := latestTeamRunId a in
     shared ← share_first runId (collectTeamUploadFiles files);
     match shared with
     | None => Ret tt
     | Some payload =>
         resp ← remote (GuidanceCreate team (guidance_body trimmed runId payload));
         require_ok resp ["error"; "err"] "guidance failed" ;;
         activity trimmed (or_undefined runId) "guidance" payload ;;
         succeeded "guidance sent" ;;
         local RefetchGuidance
     end)
    (fun e => notice ("guidance failed: " ++s e)).

(** The mutation function of [teamRunCreate]. *)
Definition create_run (promptRaw : string) : io value :=
  let trimmed := trim promptRaw in
  if negb (truthy_str trimmed) then throw_error "prompt required"
  else if negb (brokerChatAvailable a) then throw_error "team chat unavailable"
  else if negb (truthy_str (brokerBaseTrimmed a)) then throw_error "missing broker base"
  else if negb (truthy_str team) then throw_error "missing team_id"
  else remote (RunCreate team trimmed).

Definition resource_body (runId : string) (uploads : list Attachment) (done : list value) : obj value :=
  [("kind", VString "resource"); ("priority", VString "normal");
   ("message", VString ("Shared files: " ++s join ", " (map (fun f => str_or (default "" (name f)) "file") uploads)));
   ("team_run_id", VString runId); ("payload", uploads_value done)].

(** Sharing the files of a run that was started. *)
Definition share_after (runId : string) (uploads : list Attachment) : io unit :=
  match uploads with
  | [] => Ret tt
  | _ =>
      if negb (truthy_str runId) then notice "team run id missing; attachments not shared"
      else
        notice "sharing attachments with the team..." ;;
        status ← waitForTeamMemberSessions runId;
        result ← broadcastTeamUploads status uploads;
        let body := resource_body runId uploads (fst result) in
        resp ← remote (GuidanceCreate team body);
        (if truthy (vprop "ok" resp)
         then activity (str_or_empty (prop "message" body)) (Some runId) "guidance" (prop "payload" body)
         else Ret tt) ;;
        match snd result with [] => notice "attachments shared" | e :: _ => notice ("shared with errors: " ++s e) end ;;
        local NextComposer ;; local RefetchGuidance
  end.

Definition run_action (trimmed : string) (files : list Attachment) : io unit :=
  catch
    (resp ← create_run trimmed;
     require_ok resp ["error"; "err"; "code"] "team run failed" ;;
     let runId := str_trim (vprop "team_run_id" resp) in
     activity trimmed (or_undefined runId) "prompt" VUndefined ;;
     succeeded (if truthy_str runId then "team run " ++s runId ++s " started" else "team run started") ;;
     local RefetchRuns ;;
     share_after runId (collectTeamUploadFiles files))
    (fun e => notice ("team run failed: " ++s e)).

Definition action_body (trimmed : string) (files : list Attachment) (action : TeamActionKind) : io unit :=
  match action with
  | AGoal => goal_action trimmed
  | AGuidance => guidance_action trimmed files
  | ARun => run_action trimmed files
  end.

Definition runTeamAction (vars : TeamRunRequest) (action : TeamActionKind) : io unit :=
  let trimmed := trim (prompt vars) in
  if negb (truthy_str trimmed) then notice "prompt required"
  else if bool_decide (action = AGoal) && negb (truthy_str (latestTeamRunId a))
  then notice "start a team run before setting a goal"
  else if bool_decide (action = AGuidance) && (0 <? length (collectTeamUploadFiles (attachments vars)))%nat
          && negb (truthy_str (latestTeamRunId a))
  then notice "start a team run before attaching files"
  else
    local (SetBusy true) ;;
    finally (action_body trimmed (attachments vars) action) (local (SetBusy false)).
End action.

(** ** The hook as a machine *)

(** A promise of [runTeamAction]: what is left of the program, and the queue
    entry whose [catch] it has. *)
Definition promise : Type := option TeamQueuedAction * io unit.

(** What was done to the queue, in order. *)
Inductive queue_op :=
  | Pushed (q : TeamQueuedAction) | Popped (q : TeamQueuedAction) | PutBack (q : TeamQueuedAction) | Cleared.

Inductive sent := Sent (base : string) (c : Call) | Refetched (guidance : bool).

Record state := mkState {
  teamQueue : hook (list TeamQueuedAction);
  busy : bool;                         (* teamQueueBusyRef *)
  promptText : string; composerNonce : nat; jobNotice : option string;
  history : obj (list TeamActivity);   (* teamPromptHistory *)
  flying : list promise;               (* waiting for an answer or a timer *)
  ops : list queue_op; log : list sent (* what happened, for the theorems *)
}.

Inductive input :=
  | Request (a : Args) (isPending : bool) (now : number) (vars : TeamRunRequest) (action : TeamActionKind)
  | Commit (a : Args) (key : string) (quota : bool) (now : number)
  | Clear
  | Typed (text : string)
  | Answer (i : nat) (r : outcome value) (now : number).

Section machine.
Context `{Stored (list TeamQueuedAction)}.

Definition with_queue (q : hook (list TeamQueuedAction)) (o : list queue_op) (s : state) : state :=
  mkState q (busy s) (promptText s) (composerNonce s) (jobNotice s) (history s) (flying s) (ops s ++ o) (log s).
Definition with_flying (l : list promise) (s : state) : state :=
  mkState (teamQueue s) (busy s) (promptText s) (composerNonce s) (jobNotice s) (history s) l (ops s) (log s).
Definition with_log (l : list sent) (s : state) : state :=
  mkState (teamQueue s) (busy s) (promptText s) (composerNonce s) (jobNotice s) (history s) (flying s) (ops s) l.
Definition with_page (p : string) (n : nat) (j : option string) (h : obj (list TeamActivity)) (b : bool) (s : state) : state :=
  mkState (teamQueue s) b p n j h (flying s) (ops s) (log s).

Definition setTeamQueue (f : list TeamQueuedAction -> list TeamQueuedAction) (o : queue_op) (s : state) : state :=
  with_queue (setValue f (teamQueue s)) [o] s.

Definition apply (e : effect) (s : state) : state :=
  let '(p, n, j, h, b) := (promptText s, composerNonce s, jobNotice s, history s, busy s) in
  match e with
  | Notice t => with_page p n (Some t) h b s
  | ClearPrompt => with_page "" n j h b s
  | NextComposer => with_page p (S n) j h b s
  | AddActivity team x =>
      if truthy_str team then with_page p n j (set team (default [] (get team h) ++ [x]) h) b s else s
  | SetBusy b => with_page p n j h b s
  | RefetchRuns => with_log (log s ++ [Refetched false]) s
  | RefetchGuidance => with_log (log s ++ [Refetched true]) s
  end.

(** What the page does at once, with the answer; a request or a timer is waited for. *)
Definition perform (now : number) {R} (e : teamE R) : option (state -> state) * option R :=
  match e in teamE R return option (state -> state) * option R with
  | Local e => (Some (apply e), Some tt)
  | Now => (None, Some now)
  | Remote base c => (Some (fun s => with_log (log s ++ [Sent base c]) s), None)
  | Sleep _ => (None, None)
  end.

(** The [catch] of the effect. *)
Definition rejected (origin : option TeamQueuedAction) (e : string) (s : state) : state :=
  match origin with
  | None => s
  | Some next =>
      setTeamQueue (cons next) (PutBack next)
        (apply (Notice ("queued team " ++s action_text (q_action next) ++s " failed: " ++s e)) s)
  end.

(** The code of a program up to its next wait. *)
Fixpoint advance (now : number) (origin : option TeamQueuedAction) (p : io unit) (s : state) : state :=
  match p with
  | Ret _ => s
  | Throw e => rejected origin e s
  | Act e k =>
      let s := default id (fst (perform now e)) s in
      match snd (perform now e) with
      | Some r => advance now origin (k r) s
      | None => with_flying (flying s ++ [(origin, p)]) s
      end
  end.

(** The program after the answer; a timer has none. *)
Definition resume (r : outcome value) (p : io unit) : io unit :=
  match p with
  | Act e k =>
      match e in teamE R return (R -> io unit) -> io unit with
      | Remote _ _ => fun k => k r
      | Sleep _ => fun k => k tt
      | Now => fun k => p
      | Local _ => fun k => p
      end k
  | _ => p
  end.

Definition enqueueTeamAction (now : number) (vars : TeamRunRequest) (action : TeamActionKind) (s : state) : state :=
  let trimmed := trim (prompt vars) in
  if negb (truthy_str trimmed) && (length (attachments vars) =? 0)%nat
  then apply (Notice "prompt or attachment required") s
  else
    let q := mkQueued trimmed (attachments vars) now action in
    apply (Notice ("queued team " ++s action_text action))
      (apply NextComposer (apply ClearPrompt (setTeamQueue (fun prev => prev ++ [q]) (Pushed q) s))).

Definition handleTeamRunRequest (a : Args) (isPending : bool) (now : number) (vars : TeamRunRequest)
    (action : TeamActionKind) (s : state) : state :=
  if busy s || isPending then enqueueTeamAction now vars action s
  else advance now None (runTeamAction a vars action) s.

(** The effect that takes the next action off the queue. *)
Definition queue_effect (a : Args) (now : number) (s : state) : state :=
  if negb (brokerChatAvailable a) || busy s then s
  else
    match current (teamQueue s) with
    | [] => s
    | next :: _ =>
        if negb (bool_decide (q_action next = ARun)) && negb (truthy_str (latestTeamRunId a)) then s
        else
          advance now (Some next) (runTeamAction a (mkRequest (q_prompt next) (q_attachments next)) (q_action next))
            (setTeamQueue (drop 1) (Popped next) s)
    end.

Definition clearTeamQueue (s : state) : state := setTeamQueue (fun _ => []) Cleared s.

Definition settle (i : nat) (r : outcome value) (now : number) (s : state) : state :=
  match flying s !! i with
  | None => s
  | Some (origin, p) => advance now origin (resume r p) (with_flying (delete i (flying s)) s)
  end.

(** A commit writes the queue, then runs the queue's effect. *)
Definition step (s : state) (i : input) : state :=
  match i with
  | Request a isPending now vars action => handleTeamRunRequest a isPending now vars action s
  | Commit a key quota now => queue_effect a now (with_queue (commit key quota (teamQueue s)) [] s)
  | Clear => clearTeamQueue s
  | Typed text => with_page text (composerNonce s) (jobNotice s) (history s) (busy s) s
  | Answer i r now => settle i r now s
  end.

Definition run (s : state) (ins : list input) : state := fold_left step ins s.

Definition mount (key : string) (storage : obj string) (h : obj (list TeamActivity)) : state :=
  mkState (LocalStorage.mount key [] storage) false "" 0 None h [] [] [].
End machine.

(** The key of the queue (useTeamChatConversationState.ts). *)
Definition teamQueueKey (a : Args) : string :=
  "agentui.teamQueue:" ++s str_or (brokerBaseTrimmed a) "default" ++s "::" ++s str_or (selectedTeamIdTrimmed a) "none".

(** ** Programs: what they ask, and that they do not throw *)

(** Requests are addressed to the broker and the team of the render, a goal and
    guidance to its latest run, and programs do not touch the busy flag. *)
Definition addressed (a : Args) : allowed teamE := fun R e =>
  match e with
  | Remote base c =>
      base = brokerBaseTrimmed a
      /\ match c with
         | GoalUpdate t r _ => t = selectedTeamIdTrimmed a /\ r = latestTeamRunId a
         | GuidanceCreate t _ | RunCreate t _ | RunGet t _ => t = selectedTeamIdTrimmed a
         | Upload agent _ _ => agent <> ""
         end
  | Local (SetBusy _) => False
  | Local (AddActivity t _) => t = selectedTeamIdTrimmed a
  | _ => True
  end.

Section programs.
Context (a : Args).

Lemma addressed_remote c :
  addressed a _ (Remote (brokerBaseTrimmed a) c) -> always (addressed a) (remote a c).
Proof. intros Hc. by apply always_call. Qed.

Lemma addressed_wait n runId last : always (addressed a) (wait_sessions a n runId last).
Proof.
  revert last. induction n as [|n IH]; intros last; cbn [wait_sessions]; [done|].
  apply always_bind; [by apply addressed_remote|]. intros status. case_match; [done|].
  by apply always_bind.
Qed.

Lemma addressed_broadcast meta uploads l done errors :
  always (addressed a) (broadcast a meta uploads l done errors).
Proof.
  revert done errors. induction l as [|[m v] l IH]; intros done errors; [by unfold broadcast|]. cbn [broadcast]. cbv zeta.
  destruct (_ || _); [apply IH|]. destruct (truthy_str (str_or _ _)) eqn:E; cbn [negb]; [|apply IH].
  apply always_bind; [|intros resp; case_match; apply IH].
  apply addressed_remote. split; [done|]. by apply truthy_str_true.
Qed.

Lemma addressed_share status files : always (addressed a) (broadcastTeamUploads a status files).
Proof. unfold broadcastTeamUploads. case_match; [done|apply addressed_broadcast]. Qed.

Lemma addressed_ok resp fields d : always (addressed a) (require_ok resp fields d).
Proof. unfold require_ok. by case_match. Qed.

Lemma addressed_activity text runId kind payload : always (addressed a) (activity a text runId kind payload).
Proof. by split. Qed.

Lemma addressed_notice s : always (addressed a) (notice s).
Proof. by split. Qed.

Lemma addressed_succeeded s : always (addressed a) (succeeded s).
Proof. by repeat split. Qed.

Lemma addressed_local e : addressed a _ (Local e) -> always (addressed a) (local e).
Proof. by split. Qed.
End programs.

#[export] Hint Resolve addressed_wait addressed_share addressed_ok addressed_activity addressed_notice
  addressed_succeeded : team.

(** Go through a program: its parts are looked up, its cases taken in turn. *)
Ltac addressed_tac :=
  repeat first
    [ progress intros
    | solve [auto with team]
    | apply always_catch
    | apply addressed_remote; by repeat split
    | apply addressed_local; by repeat split
    | apply always_bind
    | match goal with |- always _ (match ?x with _ => _ end) => destruct x eqn:? end
    | by repeat split ].

Lemma action_addressed a trimmed files action : always (addressed a) (action_body a trimmed files action).
Proof.
  destruct action; cbn [action_body]; unfold run_action, guidance_action, goal_action, create_run, share_after,
    share_first, waitForTeamMemberSessions, throw_error; cbv zeta; addressed_tac.
Qed.

Lemma never_throws_local e : never_throws (local e).
Proof. done. Qed.

Lemma action_never_throws a trimmed files action : never_throws (action_body a trimmed files action).
Proof.
  destruct action; cbn [action_body]; unfold run_action, guidance_action, goal_action; try case_match;
    by repeat first [apply never_throws_catch; intros|apply never_throws_local].
Qed.

(** No action throws: the [catch] of the queue's effect has nothing to do. *)
Lemma run_never_throws a vars action : never_throws (runTeamAction a vars action).
Proof.
  unfold runTeamAction. cbv zeta. do 3 (case_match; [done|]).
  apply never_throws_bind; [done|]. intros _. apply never_throws_finally; [apply action_never_throws|done].
Qed.

(** ** The busy flag *)

Definition waits {R} (e : teamE R) : bool := match e with Remote _ _ | Sleep _ => true | _ => false end.

Definition busy_after {R} (e : teamE R) (b : bool) : bool :=
  match e with Local (SetBusy b') => b' | _ => b end.

(** Started with the flag [b], the program waits only while the flag is set,
    and clears it before it ends. *)
Fixpoint disciplined (b : bool) (p : io unit) : Prop :=
  match p with
  | Ret _ | Throw _ => b = false
  | Act e k => (waits e = true -> b = true) /\ forall r, disciplined (busy_after e b) (k r)
  end.

Lemma disciplined_finally a p : always (addressed a) p -> disciplined true (finally p (local (SetBusy false))).
Proof.
  induction p as [u|e|R e k IH]; intros Hp; [by split|by split|]. destruct Hp as [He Hk]. split; [done|].
  intros r. assert (Hb : busy_after e true = true) by (by destruct e as [| | |[]]).
  rewrite Hb. by apply IH.
Qed.

Lemma run_disciplined a vars action : disciplined false (runTeamAction a vars action).
Proof.
  unfold runTeamAction. cbv zeta. do 3 (case_match; [by split|]).
  split; [done|]. intros r. change (busy_after (Local (SetBusy true)) false) with true.
  eapply disciplined_finally, action_addressed.
Qed.

(** ** The invariant *)

#[export] Instance Attachment_eq_dec : EqDecision Attachment.
Proof. solve_decision. Defined.

#[export] Instance TeamQueuedAction_eq_dec : EqDecision TeamQueuedAction.
Proof. solve_decision. Defined.

(** A queue as its specification: a list, first in, first out. *)
Definition replay_op (l : option (list TeamQueuedAction)) (o : queue_op) : option (list TeamQueuedAction) :=
  match o, l with
  | Pushed q, Some l => Some (l ++ [q])
  | Popped q, Some (x :: l) => if bool_decide (x = q) then Some l else None
  | Cleared, Some _ => Some []
  | _, _ => None
  end.

Definition replay_ops (initial : list TeamQueuedAction) (l : list queue_op) : option (list TeamQueuedAction) :=
  fold_left replay_op l (Some initial).

(** A program waiting for an answer. *)
Definition waiting (p : io unit) : Prop :=
  match p with Act e _ => waits e = true | _ => False end /\ disciplined true p /\ never_throws p.

Section invariant.
Context `{Stored (list TeamQueuedAction)}.

Definition one_flying (s : state) : Prop :=
  (flying s = [] /\ busy s = false) \/ (exists o p, flying s = [(o, p)] /\ busy s = true /\ waiting p).

(** Parts of the state that only certain steps change. *)
Definition same_queue (s t : state) : Prop := teamQueue t = teamQueue s /\ ops t = ops s.

Lemma apply_flying e s : flying (apply e s) = flying s.
Proof. destruct e; try done. cbn. by case_match. Qed.

Lemma apply_queue e s : same_queue s (apply e s).
Proof. destruct e; try done. cbn. by case_match. Qed.

Lemma apply_busy e s : busy (apply e s) = busy_after (Local e) (busy s).
Proof. destruct e; try done. cbn. by case_match. Qed.

(** What a request or effect does to the state before the program goes on. *)
Definition performed (now : number) {R} (e : teamE R) (s : state) : state := default id (fst (perform now e)) s.

Lemma performed_spec now {R} (e : teamE R) s :
  flying (performed now e s) = flying s /\ same_queue s (performed now e s)
  /\ busy (performed now e s) = busy_after e (busy s).
Proof.
  destruct e as [base c|ms| |e]; try done. cbn. split_and!; [apply apply_flying|apply apply_queue|apply apply_busy].
Qed.

Lemma perform_waits now {R} (e : teamE R) : snd (perform now e) = None <-> waits e = true.
Proof. by destruct e. Qed.

Lemma waits_busy {R} (e : teamE R) b : waits e = true -> busy_after e b = b.
Proof. by destruct e. Qed.

Lemma advance_ok now o p s :
  flying s = [] -> disciplined (busy s) p -> never_throws p ->
  one_flying (advance now o p s) /\ same_queue s (advance now o p s).
Proof.
  revert s. induction p as [u|e|R e k IH]; intros s Hf Hd Hn; [by split; [left|]|done|].
  destruct Hd as [Hb Hk]. cbn [advance]. fold (performed now e s).
  destruct (performed_spec now e s) as (F & [Q O] & B).
  destruct (snd (perform now e)) as [r|] eqn:E.
  - destruct (IH r (performed now e s)) as [H1 [H2 H3]]; [by rewrite F|by rewrite B|by apply Hn|].
    split; [done|]. split; congruence.
  - apply perform_waits in E. split; [|done]. right. exists o, (Act e k). cbn. rewrite F, Hf. split; [done|].
    rewrite B, waits_busy by done. split; [by apply Hb|]. split; [done|]. split; [|done]. split; [done|].
    intros r. specialize (Hk r). by rewrite waits_busy in Hk |- *; rewrite ?Hb in Hk.
Qed.

Lemma resume_ok r p : waiting p -> disciplined true (resume r p) /\ never_throws (resume r p).
Proof.
  intros (Hw & Hd & Hn). destruct p as [u|e|R e k]; [done..|]. destruct Hd as [_ Hd].
  destruct e; try done; by split; [apply Hd|apply Hn].
Qed.

Lemma settle_ok i r now s :
  one_flying s -> one_flying (settle i r now s) /\ same_queue s (settle i r now s).
Proof.
  intros Hs. unfold settle. destruct (flying s !! i) as [[o p]|] eqn:Ei; [|done].
  destruct Hs as [[Hf _]|(o' & p' & Hf & Hb & Hp)]; rewrite Hf in Ei; [done|].
  destruct i as [|i]; [|by destruct i]. injection Ei as -> ->. rewrite Hf. cbn [delete list_delete].
  destruct (resume_ok r p Hp) as [Hd Hn].
  apply (advance_ok now o (resume r p) (with_flying [] s)); [done|cbn; by rewrite Hb|done].
Qed.

Lemma start_ok a now o vars action s :
  one_flying s -> busy s = false ->
  one_flying (advance now o (runTeamAction a vars action) s) /\ same_queue s (advance now o (runTeamAction a vars action) s).
Proof.
  intros [[Hf Hb]|(? & ? & _ & Hb & _)] Hb'; [|congruence].
  apply advance_ok; [done|rewrite Hb; apply run_disciplined|apply run_never_throws].
Qed.

(** The history of the queue is a run of the specification, and what it ends
    with is the queue. *)
Definition faithful (initial : list TeamQueuedAction) (s : state) : Prop :=
  replay_ops initial (ops s) = Some (current (teamQueue s)).

Lemma faithful_same initial s t : same_queue s t -> faithful initial s -> faithful initial t.
Proof. unfold faithful. by intros [-> ->]. Qed.

Lemma faithful_op initial f o s :
  faithful initial s -> replay_op (Some (current (teamQueue s))) o = Some (f (current (teamQueue s))) ->
  faithful initial (setTeamQueue f o s).
Proof.
  unfold faithful, replay_ops. intros Hs Ho. cbn. rewrite fold_left_app. cbn [fold_left]. by rewrite Hs.
Qed.

Lemma one_flying_frame s t : flying t = flying s -> busy t = busy s -> one_flying s -> one_flying t.
Proof. unfold one_flying. by intros -> ->. Qed.

Definition good initial s : Prop := one_flying s /\ faithful initial s.

Lemma enqueue_ok initial now vars action s : good initial s -> good initial (enqueueTeamAction now vars action s).
Proof.
  intros [H1 H2]. unfold enqueueTeamAction. cbv zeta. case_match; [done|]. split; [done|].
  set (q := mkQueued _ _ _ _). exact (faithful_op initial (fun prev => prev ++ [q]) (Pushed q) s H2 eq_refl).
Qed.

Lemma take_ok initial a now s : good initial s -> good initial (queue_effect a now s).
Proof.
  intros [H1 H2]. unfold queue_effect. destruct (negb _ || busy s) eqn:E; [done|].
  apply orb_false_iff in E as [_ Hb]. destruct (current (teamQueue s)) as [|next l] eqn:Eq; [done|].
  destruct (_ && _); [done|].
  assert (H3 : faithful initial (setTeamQueue (drop 1) (Popped next) s)).
  { apply faithful_op; [done|]. rewrite Eq. cbn. by rewrite bool_decide_true. }
  destruct (start_ok a now (Some next) (mkRequest (q_prompt next) (q_attachments next)) (q_action next)
    (setTeamQueue (drop 1) (Popped next) s)) as [H4 H5]; [done|done|]. split; [done|].
  by eapply faithful_same.
Qed.

Lemma input_ok initial s i : good initial s -> good initial (step s i).
Proof.
  intros [H1 H2]. destruct i as [a pending now vars action|a key quota now| |text|i r now]; cbn [step].
  - unfold handleTeamRunRequest. destruct (busy s || pending) eqn:E; [by apply enqueue_ok|].
    apply orb_false_iff in E as [Hb _]. destruct (start_ok a now None vars action s H1 Hb) as [H3 H4].
    split; [done|]. by eapply faithful_same.
  - apply take_ok. split; [done|]. unfold faithful in *. cbn. by rewrite app_nil_r, commit_current.
  - split; [done|]. by apply faithful_op.
  - done.
  - destruct (settle_ok i r now s H1) as [H3 H4]. split; [done|]. by eapply faithful_same.
Qed.

Lemma inputs_ok initial ins s : good initial s -> good initial (run s ins).
Proof. revert s. induction ins as [|i ins IH]; intros s Hs; [done|]. by apply IH, input_ok. Qed.

Lemma mount_ok key storage h : good (current (LocalStorage.mount key [] storage)) (mount key storage h).
Proof. split; [by left|done]. Qed.

(** C5: the team's actions happen one at a time, and the queue is first in,
    first out.  In every run at most one action is waiting for an answer, exactly
    while the busy flag is set; and what was done to the queue is a run of the
    list specification that ends with the queue: every action taken is the oldest
    one, none is taken twice, and none is put back, not even one that failed. *)
Theorem team_actions_in_order key storage h ins :
  let s := run (mount key storage h) ins in
  (length (flying s) <= 1)%nat
  /\ (busy s = true <-> flying s <> [])
  /\ replay_ops (current (LocalStorage.mount key [] storage)) (ops s) = Some (current (teamQueue s)).
Proof.
  intros s. destruct (inputs_ok _ ins _ (mount_ok key storage h)) as [H1 H2]. fold s in H1, H2.
  clearbody s. split_and!; [| |exact H2]; destruct H1 as [[Hf Hb]|(o & p & Hf & Hb & _)]; rewrite ?Hb, Hf; by cbn; try lia.
Qed.
End invariant.

(** ** What an action does *)

(** The request of an action without files. *)
Definition the_call (a : Args) (trimmed : string) (action : TeamActionKind) : option Call :=
  match action with
  | AGoal => GoalUpdate (team a) (latestTeamRunId a) <$> buildGoalContractFromPrompt trimmed
  | AGuidance => Some (GuidanceCreate (team a) (guidance_body trimmed (latestTeamRunId a) VNull))
  | ARun => Some (RunCreate (team a) trimmed)
  end.

(** The action can be carried out with what the render has. *)
Definition feasible (a : Args) (action : TeamActionKind) : bool :=
  match action with
  | AGoal => truthy_str (latestTeamRunId a)
  | AGuidance => true
  | ARun => brokerChatAvailable a && truthy_str (brokerBaseTrimmed a) && truthy_str (team a)
  end.

Definition error_fields (action : TeamActionKind) : list string :=
  match action with ARun => ["error"; "err"; "code"] | _ => ["error"; "err"] end.

Definition failed_text (action : TeamActionKind) : string :=
  match action with AGoal => "goal update failed" | AGuidance => "guidance failed" | ARun => "team run failed" end.

(** The text of what went wrong, if something did. *)
Definition failure (action : TeamActionKind) (answer : outcome value) : option string :=
  match answer with
  | inr e => Some e
  | inl resp =>
      if truthy (vprop "ok" resp) then None
      else let message := v_to_string (first_of (error_fields action) resp (failed_text action)) in
           Some (if truthy_str message then "Error: " ++s message else "Error")
  end.

Definition success (a : Args) (trimmed : string) (action : TeamActionKind) (resp : value) (now : number) : list effect :=
  let record runId kind payload := AddActivity (team a) (mkActivity now trimmed runId kind payload) in
  let done text := [ClearPrompt; NextComposer; Notice text] in
  match action with
  | AGoal =>
      record (Some (latestTeamRunId a)) "goal"
        (VObject (default [] (contract_value <$> buildGoalContractFromPrompt trimmed))) :: done "goal updated"
  | AGuidance =>
      record (or_undefined (latestTeamRunId a)) "guidance" VNull :: done "guidance sent" ++ [RefetchGuidance]
  | ARun =>
      let runId := str_trim (vprop "team_run_id" resp) in
      record (or_undefined runId) "prompt" VUndefined
      :: done (if truthy_str runId then "team run " ++s runId ++s " started" else "team run started") ++ [RefetchRuns]
  end.

Definition consequences (a : Args) (trimmed : string) (action : TeamActionKind) (answer : outcome value) (now : number) :
    list effect :=
  match failure action answer, answer with
  | None, inl resp => success a trimmed action resp now
  | e, _ => [Notice (failed_text action ++s ": " ++s default "" e)]
  end ++ [SetBusy false].

Definition apply_all (l : list effect) (s : state) : state := fold_left (fun s e => apply e s) l s.

(** *** A prompt that is not blank has a goal *)

Definition black (s : string) : string := filter_str (fun c => negb (is_ws c)) s.

Lemma black_cons c s : black (String c s) = if is_ws c then black s else String c (black s).
Proof. unfold black. cbn [filter_str]. by destruct (is_ws c). Qed.

Lemma black_trim_start s : black (trim_start s) = black s.
Proof.
  unfold trim_start. induction s as [|c s IH]; [done|]. cbn [trim_start_by]. rewrite black_cons.
  destruct (is_ws c) eqn:E; [done|]. by rewrite black_cons, E.
Qed.

Lemma trim_end_empty s : trim_end s = "" -> black s = "".
Proof.
  unfold trim_end. induction s as [|c s IH]; [done|]. cbn [trim_end_by]. rewrite black_cons.
  destruct (trim_end_by is_ws s) as [|d r]; [|done]. destruct (is_ws c); [|done]. auto.
Qed.

Lemma trim_empty s : trim s = "" <-> black s = "".
Proof.
  split; [intros H; rewrite <- black_trim_start; by apply trim_end_empty|].
  intros H. enough (trim_start s = "") as E by (unfold trim; by rewrite E).
  revert H. unfold trim_start. induction s as [|c s IH]; [done|]. rewrite black_cons. cbn [trim_start_by].
  by destruct (is_ws c).
Qed.

Lemma black_lines s : Forall (fun l => black l = "") (split_lines s) -> black s = "".
Proof.
  induction s as [|c s IH]; [done|]. cbn [split_lines]. rewrite black_cons. unfold is_char.
  case_bool_decide as E1; [subst; intros [_ H]%List.Forall_cons_iff; cbn; auto|].
  destruct (_ && _) eqn:E2; [apply andb_true_iff in E2 as [E2%bool_decide_eq_true _]; subst; cbn; auto|].
  destruct (split_lines s) as [|h t]; intros H.
  - apply List.Forall_cons_iff in H as [H _]. rewrite black_cons in H. destruct (is_ws c); [by apply IH|done].
  - apply List.Forall_cons_iff in H as [H Ht]. rewrite black_cons in H.
    destruct (is_ws c); [|done]. apply IH. by apply List.Forall_cons.
Qed.

Lemma goal_nonblank s : buildGoalContractFromPrompt s = None -> trim s = "".
Proof.
  unfold buildGoalContractFromPrompt. destruct (trimmed_nonempty (split_lines s)) as [|g l] eqn:E; [|done]. intros _.
  apply trim_empty, black_lines, Forall_forall. intros l Hl. apply trim_empty.
  destruct (truthy_str (trim l)) eqn:Et; [|by apply truthy_str_false].
  assert (Hin : trim l ∈ trimmed_nonempty (split_lines s)).
  { unfold trimmed_nonempty. apply elem_of_filter_bool. split; [|done]. by apply list_elem_of_In, in_map, list_elem_of_In. }
  rewrite E in Hin. by apply not_elem_of_nil in Hin.
Qed.

Section outcome.
Context `{Stored (list TeamQueuedAction)}.

(** The page while the request of an action is under way. *)
Definition under_way (a : Args) (c : Call) (s : state) : state :=
  with_log (log s ++ [Sent (brokerBaseTrimmed a) c]) (apply (SetBusy true) s).

Lemma advance_call now o base c k s :
  flying s = [] ->
  advance now o (Act (Local (SetBusy true)) (fun _ => Act (Remote base c) k)) s
  = with_flying [(o, Act (Remote base c) k)] (with_log (log s ++ [Sent base c]) (apply (SetBusy true) s)).
Proof. intros Hs. cbn. by rewrite Hs. Qed.

(** An action without files, once its guards have passed. *)
Lemma plain_body a o trimmed files action s now :
  truthy_str trimmed = true -> trim trimmed = trimmed -> collectTeamUploadFiles files = [] ->
  feasible a action = true -> flying s = [] ->
  exists c k, the_call a trimmed action = Some c
    /\ advance now o (local (SetBusy true) ;; finally (action_body a trimmed files action) (local (SetBusy false))) s
       = with_flying [(o, Act (Remote (brokerBaseTrimmed a) c) k)] (under_way a c s)
    /\ forall answer now' t, advance now' o (k answer) t = apply_all (consequences a trimmed action answer now') t.
Proof.
  intros Hp Ht Hu Hf Hs. destruct action; cbn [feasible the_call action_body] in *.
  - apply andb_true_iff in Hf as [[H1 H2]%andb_true_iff H3].
    unfold run_action, create_run. cbv zeta. rewrite H1, H2, H3, Ht, Hp, Hu. cbn [negb].
    eexists _, _. split; [done|]. split; [by apply (advance_call now o (brokerBaseTrimmed a) (RunCreate (team a) trimmed))|].
    intros answer now' t. unfold consequences, failure. destruct answer as [resp|e]; [|done].
    cbn [mbind prog_bind catch finally]. unfold require_ok. by destruct (truthy (vprop "ok" resp)).
  - unfold guidance_action. rewrite Hu. eexists _, _. split; [done|].
    split; [by apply (advance_call now o (brokerBaseTrimmed a) (GuidanceCreate (team a) (guidance_body trimmed (latestTeamRunId a) VNull)))|].
    intros answer now' t. unfold consequences, failure. destruct answer as [resp|e]; [|done].
    cbn [mbind prog_bind catch finally]. unfold require_ok. by destruct (truthy (vprop "ok" resp)).
  - unfold goal_action. destruct (buildGoalContractFromPrompt trimmed) as [contract|] eqn:Ec.
    + eexists _, _. split; [done|].
      split; [by apply (advance_call now o (brokerBaseTrimmed a) (GoalUpdate (team a) (latestTeamRunId a) contract))|].
      intros answer now' t. unfold consequences, failure, success. rewrite Ec. destruct answer as [resp|e]; [|done].
      cbn [mbind prog_bind catch finally]. unfold require_ok. by destruct (truthy (vprop "ok" resp)).
    + apply goal_nonblank in Ec. by rewrite Ht in Ec; subst.
Qed.

(** The guards of an action pass. *)
Lemma guards_pass a vars action :
  truthy_str (trim (prompt vars)) = true -> collectTeamUploadFiles (attachments vars) = [] -> feasible a action = true ->
  runTeamAction a vars action
  = (local (SetBusy true) ;; finally (action_body a (trim (prompt vars)) (attachments vars) action) (local (SetBusy false))).
Proof.
  intros Hp Hu Hf. unfold runTeamAction. cbv zeta. rewrite Hp, Hu. destruct action; cbn in *; [done|done|]. by rewrite Hf.
Qed.

(** Between the start of an action without files and its answer. *)
Lemma action_settles a o vars action s now :
  truthy_str (trim (prompt vars)) = true -> collectTeamUploadFiles (attachments vars) = [] -> feasible a action = true ->
  flying s = [] ->
  let s1 := advance now o (runTeamAction a vars action) s in
  exists c, the_call a (trim (prompt vars)) action = Some c
    /\ log s1 = log s ++ [Sent (brokerBaseTrimmed a) c] /\ busy s1 = true /\ length (flying s1) = 1%nat
    /\ forall answer now', step s1 (Answer 0 answer now')
         = apply_all (consequences a (trim (prompt vars)) action answer now') (under_way a c s).
Proof.
  intros Hp Hu Hf Hs s1. subst s1. rewrite guards_pass by done.
  destruct (plain_body a o (trim (prompt vars)) (attachments vars) action s now Hp (trim_idem _) Hu Hf Hs) as (c & k & Hc & -> & Hk).
  exists c. split_and!; [done..|]. intros answer now'. cbn [step]. unfold settle. cbn [flying with_flying lookup list_lookup].
  cbn [resume]. rewrite Hk. f_equal. unfold under_way, with_flying, with_log. cbn. by rewrite Hs.
Qed.

(** What an action without files does.  It makes one request, addressed to
    the broker, the team and the run of its render.  When the answer says that it
    worked, the activity is recorded, the prompt cleared and the notice set, once
    and in this order; on every other answer and on every exception only the
    notice says so, and the prompt stays.  The busy flag is cleared last. *)
Theorem team_action_outcome a vars action s now :
  truthy_str (trim (prompt vars)) = true -> collectTeamUploadFiles (attachments vars) = [] -> feasible a action = true ->
  flying s = [] -> busy s = false ->
  let s1 := step s (Request a false now vars action) in
  exists c, the_call a (trim (prompt vars)) action = Some c
    /\ log s1 = log s ++ [Sent (brokerBaseTrimmed a) c] /\ busy s1 = true /\ length (flying s1) = 1%nat
    /\ forall answer now', step s1 (Answer 0 answer now')
         = apply_all (consequences a (trim (prompt vars)) action answer now') (under_way a c s).
Proof.
  intros Hp Hu Hf Hs Hb. cbn [step]. unfold handleTeamRunRequest. rewrite Hb. by apply action_settles.
Qed.

(** A commit takes the oldest action of the queue. *)
Lemma commit_takes a key quota now s x rest :
  busy s = false -> brokerChatAvailable a = true -> current (teamQueue s) = x :: rest ->
  q_action x = ARun \/ truthy_str (latestTeamRunId a) = true ->
  let t := setTeamQueue (drop 1) (Popped x) (with_queue (commit key quota (teamQueue s)) [] s) in
  step s (Commit a key quota now)
  = advance now (Some x) (runTeamAction a (mkRequest (q_prompt x) (q_attachments x)) (q_action x)) t.
Proof.
  intros Hb Hc Hq Ha. cbn [step]. unfold queue_effect. rewrite Hc.
  change (busy (with_queue _ _ s)) with (busy s). rewrite Hb. cbn [negb orb].
  change (teamQueue (with_queue ?q _ s)) with q. rewrite commit_current, Hq.
  destruct Ha as [Ha|Ha]; rewrite Ha; [done|]. by rewrite andb_false_r.
Qed.

(** C8: a queued action that fails is lost.  It leaves the queue when it is taken
    up; whatever the answer, the queue stays what is left of it, and after a
    failure nothing but the notice tells of the action: the prompt that was typed
    is not brought back, nor is the action put back. *)
Theorem queued_failure_lost a key quota now s x rest answer now' e :
  flying s = [] -> busy s = false -> brokerChatAvailable a = true -> current (teamQueue s) = x :: rest ->
  q_action x = ARun \/ truthy_str (latestTeamRunId a) = true ->
  truthy_str (trim (q_prompt x)) = true -> collectTeamUploadFiles (q_attachments x) = [] ->
  feasible a (q_action x) = true -> failure (q_action x) answer = Some e ->
  let s2 := step (step s (Commit a key quota now)) (Answer 0 answer now') in
  current (teamQueue s2) = rest /\ ops s2 = ops s ++ [Popped x] /\ flying s2 = [] /\ busy s2 = false
  /\ promptText s2 = promptText s /\ history s2 = history s
  /\ jobNotice s2 = Some (failed_text (q_action x) ++s ": " ++s e).
Proof.
  intros Hf Hb Hc Hq Ha Hp Hu He Hx s2. subst s2.
  rewrite (commit_takes a key quota now s x rest Hb Hc Hq Ha). set (t := setTeamQueue _ _ _).
  destruct (action_settles a (Some x) (mkRequest (q_prompt x) (q_attachments x)) (q_action x) t now Hp Hu He Hf)
    as (c & _ & _ & _ & _ & H2). cbv zeta in H2. rewrite H2. unfold consequences. rewrite Hx.
  cbn. rewrite commit_current, Hq, app_nil_r. by destruct s.
Qed.

(** Files without a prompt are accepted while an action is in progress, and
    dropped when their turn comes: the commit that takes such an entry off the
    queue asks nothing of the broker. *)
Theorem queued_files_dropped a key quota now s x rest vars action :
  (busy s = true -> trim (prompt vars) = "" -> attachments vars <> [] ->
   current (teamQueue (step s (Request a false now vars action)))
   = current (teamQueue s) ++ [mkQueued "" (attachments vars) now action])
  /\ (busy s = false -> brokerChatAvailable a = true -> current (teamQueue s) = x :: rest ->
      q_action x = ARun \/ truthy_str (latestTeamRunId a) = true -> trim (q_prompt x) = "" ->
      let s1 := step s (Commit a key quota now) in
      current (teamQueue s1) = rest /\ log s1 = log s /\ flying s1 = flying s /\ jobNotice s1 = Some "prompt required").
Proof.
  split.
  - intros Hb Hp Ha. cbn [step]. unfold handleTeamRunRequest. rewrite Hb. cbn [orb]. unfold enqueueTeamAction. cbv zeta.
    rewrite Hp. destruct (attachments vars) as [|f l]; [done|]. done.
  - intros Hb Hc Hq Ha Hp s1. subst s1. rewrite (commit_takes a key quota now s x rest Hb Hc Hq Ha).
    unfold runTeamAction. cbn [prompt]. cbv zeta. rewrite Hp.
    change (truthy_str "") with false. cbn. by rewrite commit_current, Hq.
Qed.

(** C7: another team's render takes the queue along.  When the selected team or
    broker changes, the stored queue of the new one is overwritten by the queue of
    the former, which is also still stored there, and its oldest action runs
    against the new team. *)
Theorem queue_follows_team a b s x rest now :
  teamQueueKey b <> teamQueueKey a -> in_step (teamQueue s) ->
  written (teamQueue s) = Some (teamQueueKey a, version (teamQueue s)) ->
  flying s = [] -> busy s = false -> current (teamQueue s) = x :: rest ->
  q_action x = ARun -> truthy_str (trim (q_prompt x)) = true -> collectTeamUploadFiles (q_attachments x) = [] ->
  feasible b ARun = true ->
  let s1 := step s (Commit b (teamQueueKey b) false now) in
  get (teamQueueKey b) (storage (teamQueue s1)) = Some (write (x :: rest))
  /\ get (teamQueueKey a) (storage (teamQueue s1)) = Some (write (x :: rest))
  /\ current (teamQueue s1) = rest
  /\ log s1 = log s ++ [Sent (brokerBaseTrimmed b) (RunCreate (selectedTeamIdTrimmed b) (trim (q_prompt x)))].
Proof.
  intros Hk Hs Hw Hf Hb Hq Ha Hp Hu He s1. subst s1.
  assert (Hc : brokerChatAvailable b = true) by (by cbn in He; destruct (brokerChatAvailable b)).
  rewrite (commit_takes b (teamQueueKey b) false now s x rest Hb Hc Hq (or_introl Ha)). rewrite Ha. set (t := setTeamQueue _ _ _).
  destruct (key_change_replaces (teamQueueKey a) (teamQueueKey b) (teamQueue s) Hk Hs Hw) as (_ & K1 & K2).
  rewrite Hq in K1, K2.
  destruct (action_settles b (Some x) (mkRequest (q_prompt x) (q_attachments x)) ARun t now Hp Hu He Hf)
    as (c & [= <-] & H2 & _). cbv zeta in H2. rewrite H2.
  destruct (advance_ok now (Some x) (runTeamAction b (mkRequest (q_prompt x) (q_attachments x)) ARun) t) as [_ [Q _]];
    [done|unfold t; cbn [busy setTeamQueue with_queue]; rewrite Hb; apply run_disciplined|apply run_never_throws|].
  rewrite Q. split_and!; [exact K1|exact K2| |done]. unfold t. cbn. by rewrite commit_current, Hq.
Qed.
End outcome.

(** ** Progress *)

Section progress.
Context `{Stored (list TeamQueuedAction)} (a : Args) (key : string) (answers : nat -> outcome value * number).

(** A commit, then the answer to the request in progress, if there is one. *)
Definition round (i : nat) (s : state) : state :=
  let '(r, now) := answers i in step (step s (Commit a key false now)) (Answer 0 r now).

Fixpoint rounds (n i : nat) (s : state) : state :=
  match n with O => s | S n => rounds n (S i) (round i s) end.

Definition drains (i : nat) (s : state) : Prop :=
  exists n, current (teamQueue (rounds n i s)) = [] /\ flying (rounds n i s) = [].

Lemma drains_round i s : drains (S i) (round i s) -> drains i s.
Proof. intros [n Hn]. by exists (S n). Qed.

Context (Hchat : brokerChatAvailable a = true) (Hrun : truthy_str (latestTeamRunId a) = true).

(** While an action waits, a round is its answer. *)
Lemma round_waiting i s o {R} (e : teamE R) k :
  flying s = [(o, Act e k)] -> busy s = true ->
  let '(r, now) := answers i in
  round i s = advance now o (resume r (Act e k)) (with_flying [] (with_queue (commit key false (teamQueue s)) [] s)).
Proof.
  intros Hf Hb. unfold round. destruct (answers i) as [r now]. cbn [step]. unfold queue_effect.
  change (busy (with_queue _ _ s)) with (busy s). rewrite Hb, orb_true_r. unfold settle.
  change (flying (with_queue _ _ s)) with (flying s). by rewrite Hf.
Qed.

(** When no action waits, a round takes one off the queue. *)
Lemma round_idle i s x rest :
  one_flying s -> busy s = false -> current (teamQueue s) = x :: rest ->
  one_flying (round i s) /\ current (teamQueue (round i s)) = rest.
Proof.
  intros Hs Hb Hq. unfold round. destruct (answers i) as [r now].
  rewrite (commit_takes a key false now s x rest Hb Hchat Hq (or_intror Hrun)). set (t := setTeamQueue _ _ _).
  destruct (start_ok a now (Some x) (mkRequest (q_prompt x) (q_attachments x)) (q_action x) t) as [H1 [Q1 _]];
    [exact Hs|exact Hb|].
  cbn [step]. destruct (settle_ok 0 r now _ H1) as [H2 [Q2 _]]. split; [done|]. rewrite Q2, Q1. unfold t. cbn.
  by rewrite commit_current, Hq.
Qed.

Definition idle_drains (n : nat) : Prop := forall i s,
  flying s = [] -> busy s = false -> length (current (teamQueue s)) = n -> drains i s.

(** From a program on, under every sequence of answers: by induction on it. *)
Lemma program_drains n p : idle_drains n -> forall o now i s,
  flying s = [] -> disciplined (busy s) p -> never_throws p -> length (current (teamQueue s)) = n ->
  drains i (advance now o p s).
Proof.
  intros Hidle. induction p as [u|e|R e k IH]; intros o now i s Hf Hd Hn Hl; [by apply Hidle|done|].
  destruct Hd as [Hb Hk]. cbn [advance]. fold (performed now e s). destruct (performed_spec now e s) as (F & [Q _] & B).
  destruct (snd (perform now e)) as [r|] eqn:E.
  - apply IH; [by rewrite F|by rewrite B|done|by rewrite Q].
  - apply perform_waits in E. specialize (Hb E). rewrite (waits_busy e) in B, Hk by done. set (t := with_flying _ _).
    apply drains_round. pose proof (round_waiting i t o e k) as Hr. destruct (answers i) as [r now'].
    rewrite Hr; [|unfold t; cbn; by rewrite F, Hf|unfold t; cbn; by rewrite B].
    assert (Hbt : busy t = true) by (unfold t; cbn; by rewrite B). rewrite Hb in Hk.
    assert (Hlt : length (current (commit key false (teamQueue t))) = n) by (rewrite commit_current; unfold t; cbn; by rewrite Q).
    clearbody t.
    destruct e; try done; cbn [resume]; (apply IH; [done|cbn; rewrite Hbt; apply Hk|apply Hn|exact Hlt]).
Qed.

Lemma idle_all n : (forall m, (m < n)%nat -> forall i s, one_flying s -> length (current (teamQueue s)) = m -> drains i s) ->
  idle_drains n.
Proof.
  intros Hless i s Hf Hb Hl. destruct (current (teamQueue s)) as [|x rest] eqn:Eq; [by exists 0%nat|].
  apply drains_round. destruct (round_idle i s x rest) as [H1 H2]; [by left|done|done|].
  apply (Hless (length rest)); [cbn in Hl; lia|done|by rewrite H2].
Qed.

Lemma drains_all n : forall i s, one_flying s -> length (current (teamQueue s)) = n -> drains i s.
Proof.
  induction n as [n IHn] using lt_wf_ind. pose proof (idle_all n IHn) as Hidle.
  intros i s [[Hf Hb]|(o & p & Hf & Hb & Hp)] Hl; [by apply Hidle|].
  apply drains_round. destruct p as [u|e|R e k]; [by destruct Hp..|].
  pose proof (round_waiting i s o e k Hf Hb) as Hr. destruct (answers i) as [r now]. rewrite Hr.
  destruct (resume_ok r _ Hp) as [Hd Hn].
  apply (program_drains n); [done|done|cbn; by rewrite Hb|done|cbn; by rewrite commit_current].
Qed.

Lemma rounds_good initial n i s : good initial s -> good initial (rounds n i s).
Proof.
  revert i s. induction n as [|n IH]; intros i s Hs; [done|]. cbn [rounds]. apply IH. unfold round.
  destruct (answers i) as [r now]. by do 2 apply input_ok.
Qed.

(** C6: the queue runs dry.  From every state that a run of the hook reaches,
    when the team chat is available and the team has a run, commits and answers
    in turn empty the queue and leave no action in progress, whatever the answers
    are: no answer, refusal or exception blocks the actions behind it. *)
Theorem team_queue_drains key0 storage h ins :
  exists n, let s := rounds n 0 (run (mount key0 storage h) ins) in
  current (teamQueue s) = [] /\ flying s = [] /\ busy s = false.
Proof.
  pose proof (inputs_ok _ ins _ (mount_ok key0 storage h)) as Hg. set (s := run _ ins) in *. clearbody s.
  destruct (drains_all _ 0 s (proj1 Hg) eq_refl) as (n & Hq & Hf). exists n.
  destruct (rounds_good _ n 0 s Hg) as [[[_ Hb]|(o & p & Hf' & _)] _]; [done|]. by rewrite Hf in Hf'.
Qed.
End progress.

(** ** Sharing files *)

(** A session that can be uploaded to. *)
Definition usable (p : string * value) : bool := truthy_str (trim (fst p)) && truthy_str (str_trim (snd p)).

Lemma broadcast_accounts a meta uploads sessions done errors t done' errors' :
  runs (broadcast a meta uploads sessions done errors) t (inl (done', errors')) ->
  (length done' + length errors' = length done + length errors + length (List.filter usable sessions))%nat.
Proof.
  revert done errors t. induction sessions as [|[m v] l IH]; intros done errors t.
  - cbn. intros [_ [= -> ->]]. lia.
  - cbn [broadcast]. cbv zeta. cbn [List.filter]. unfold usable at 1. cbn [fst snd].
    destruct (truthy_str (trim m)); [|apply IH]. destruct (truthy_str (str_trim v)); [|apply IH]. cbn [negb orb andb].
    destruct (negb _); [intros H%IH; rewrite length_app in H; cbn in *; lia|].
    unfold remote, call. cbn. intros (r & t' & _ & H). destruct r as [resp|e]; [|by destruct H].
    cbn [mbind prog_bind] in H. destruct (truthy (vprop "ok" (vprop "data" resp))); cbn [negb] in H; apply IH in H; rewrite length_app in H; cbn in *; lia.
Qed.

Definition asks_status (ev : answered teamE) : bool := match ev with Ev (Remote _ (RunGet _ _)) _ => true | _ => false end.

Lemma wait_bounded a n runId last t o :
  runs (wait_sessions a n runId last) t o -> (length (List.filter asks_status t) <= n)%nat.
Proof.
  revert last t. induction n as [|n IH]; intros last t; cbn [wait_sessions]; [by intros [-> _]|].
  unfold remote, call. cbn. intros (r & t' & -> & H). cbn. apply le_n_S. destruct r as [status|e]; cbn in H.
  - case_match; [destruct H as [-> _]; cbn; lia|]. destruct H as (u & t'' & -> & H). cbn. by eapply IH.
  - destruct H as [-> _]. cbn. lia.
Qed.

(** Sharing files accounts for every session of the run: each that has a member
    and an identifier is uploaded to or reported as an error.  The status is
    asked for at most ten times before. *)
Theorem shares_accounted a status files t done errors runId t' o :
  runs (broadcastTeamUploads a status files) t (inl (done, errors)) ->
  runs (waitForTeamMemberSessions a runId) t' o ->
  (length done + length errors
   = match collectTeamUploadFiles files with
     | [] => 0
     | _ => length (List.filter usable (entries (vprop "member_sessions" status)))
     end)%nat
  /\ (length (List.filter asks_status t') <= 10)%nat.
Proof.
  intros H1 H2. split; [|exact (wait_bounded a 10 runId VNull t' o H2)]. unfold broadcastTeamUploads in H1.
  destruct (collectTeamUploadFiles files) as [|f l]; [by destruct H1 as [_ [= -> ->]]|].
  by apply broadcast_accounts in H1.
Qed.

(** ** Concrete inputs *)

#[local] Instance stored_prompts : Stored (list TeamQueuedAction) :=
  {| write l := "[" ++s join "," (map q_prompt l) ++s "]"; read s := Some [] |}.

Definition example_args (team latest : string) : Args := mkArgs "agent" "https://broker" true latest team.

Definition example_ask (text : string) : TeamRunRequest := mkRequest text [].

Definition accepted_answer : outcome value := inl (VObject [("ok", VBool true); ("team_run_id", VString "r1")]).
Definition refused_answer : outcome value := inl (VObject [("ok", VBool false); ("error", VString "busy")]).

(** Of two prompts the second waits in the queue of the team [red]. *)
Definition example_waiting : state :=
  let a := example_args "red" "r0" in
  run (mount (teamQueueKey a) [] [])
    [Request a false (int 1) (example_ask "first") ARun; Request a false (int 2) (example_ask "second") ARun;
     Commit a (teamQueueKey a) false (int 3)].

(** The first has been answered, and the commit that follows is due. *)
Definition example_idle : state := step example_waiting (Answer 0 accepted_answer (int 4)).

Lemma team_action_outcome_witness :
  let a := example_args "red" "r0" in
  let s := mount (teamQueueKey a) [] [] in
  let s2 := step (step s (Request a false (int 1) (example_ask " go ") AGuidance)) (Answer 0 accepted_answer (int 2)) in
  log s2 = [Sent "https://broker" (GuidanceCreate "red" (guidance_body "go" "r0" VNull)); Refetched true]
  /\ jobNotice s2 = Some "guidance sent".
Proof.
  intros a s s2.
  destruct (team_action_outcome a (example_ask " go ") AGuidance s (int 1)) as (c & [= <-] & _ & _ & _ & H);
    [by vm_compute|by vm_compute|by vm_compute|by vm_compute|by vm_compute|].
  unfold s2. rewrite H. split; vm_compute; reflexivity.
Defined.

Lemma queued_failure_lost_witness :
  let a := example_args "red" "r0" in
  let s2 := step (step example_idle (Commit a (teamQueueKey a) false (int 5))) (Answer 0 refused_answer (int 6)) in
  map q_prompt (current (teamQueue example_idle)) = ["second"]
  /\ current (teamQueue s2) = [] /\ promptText s2 = "" /\ jobNotice s2 = Some "team run failed: Error: busy".
Proof.
  intros a s2. split; [vm_compute; reflexivity|].
  destruct (queued_failure_lost a (teamQueueKey a) false (int 5) example_idle (mkQueued "second" [] (int 2) ARun) []
    refused_answer (int 6) "Error: busy") as (H1 & _ & _ & _ & H2 & _ & H3);
    [vm_compute; reflexivity|vm_compute; reflexivity|vm_compute; reflexivity|vm_compute; reflexivity|by left|vm_compute; reflexivity
    |vm_compute; reflexivity|vm_compute; reflexivity|vm_compute; reflexivity|].
  split; [exact H1|]. split; [exact H2|exact H3].
Defined.

(** The prompt for the team [red] starts a run of the team [blue]. *)
Lemma queue_follows_team_witness :
  let b := example_args "blue" "" in
  let s1 := step example_idle (Commit b (teamQueueKey b) false (int 5)) in
  get (teamQueueKey b) (storage (teamQueue s1)) = Some "[second]"
  /\ log s1 = log example_idle ++ [Sent "https://broker" (RunCreate "blue" "second")].
Proof.
  intros b s1.
  destruct (queue_follows_team (example_args "red" "r0") b example_idle (mkQueued "second" [] (int 2) ARun) [] (int 5))
    as (H1 & _ & _ & H2);
    [by vm_compute|intros k E; vm_compute in E; injection E as <-; vm_compute; reflexivity|vm_compute; reflexivity
    |vm_compute; reflexivity|vm_compute; reflexivity|vm_compute; reflexivity|vm_compute; reflexivity|vm_compute; reflexivity
    |vm_compute; reflexivity|vm_compute; reflexivity|].
  split; [exact H1|exact H2].
Defined.

Lemma team_queue_drains_witness :
  let a := example_args "red" "r0" in
  exists n, let s := rounds a (teamQueueKey a) (fun i => (refused_answer, int (Z.of_nat i))) n 0
    (run (mount (teamQueueKey a) [] []) [Request a false (int 1) (example_ask "first") ARun;
                                          Request a false (int 2) (example_ask "second") AGoal]) in
  current (teamQueue s) = [] /\ flying s = [] /\ busy s = false.
Proof.
  intros a.
  exact (team_queue_drains a (teamQueueKey a) (fun i => (refused_answer, int (Z.of_nat i))) eq_refl eq_refl
    (teamQueueKey a) [] [] _).
Defined.
