(* ===== verification/TeamConversation.v ===== *)
(** The conversation of the team chat,
    src/ui/src/hooks/useTeamChatConversationState.ts: the messages of the
    members of the latest run, guidance and what the user sent, as one list in
    the order of their times, and its copy in the browser's storage. *)
From S2P Require Import Prelude JsNumber JsString JsValue Programs LocalStorage TeamActions.

(** ** Data (teamChatOrchestrationTypes.ts) *)

Record Message := mkMessage {
  m_role : string; content : string; created_unix_ms : option number; content_truncated : bool;
  mm_json : option string; mm_bytes : option number }.

Record MemberMeta := mkMember { role : option string; agent : option string; deployment : option string }.

Record ItemMeta := mkMeta {
  of_member : MemberMeta; member_id : option string; session_id : option string; run : option string;
  guidance_id : option string; g_kind : option string; priority : option string; status : option string;
  payload : value }.

Inductive Kind := KMessage | KGuidance | KGoal | KPrompt.

Record Item := mkItem { i_kind : Kind; i_ts : number; message : Message; meta : ItemMeta }.

Definition no_member : MemberMeta := mkMember None None None.
Definition no_meta : ItemMeta := mkMeta no_member None None None None None None None VUndefined.

Definition kind_text (k : Kind) : string :=
  match k with KMessage => "message" | KGuidance => "guidance" | KGoal => "goal" | KPrompt => "prompt" end.

Definition option_list {A} (o : option A) : list A := match o with Some x => [x] | None => [] end.

(** ** Readers *)

Definition asTrimmedString (v : value) : option string :=
  match v with VString s => or_undefined (trim s) | _ => None end.

Definition asFiniteNumber (v : value) : option number :=
  match v with
  | VNumber x => if is_finite x then Some x else None
  | VString s =>
      if truthy_str (trim s)
      then let parsed := str_to_number s in if is_finite parsed then Some parsed else None
      else None
  | _ => None
  end.

Definition toConversationPayload (v : value) : value :=
  match v with VNull => VNull | VObject _ => v | _ => VUndefined end.

Definition nonzero (o : option number) : option number :=
  match o with Some x => if num_truthy x then Some x else None | None => None end.

Definition plain_message (role content : string) : Message := mkMessage role content None false None None.

Definition toConversationMessage (v : value) : option Message :=
  match v with
  | VObject o =>
      match nonzero (asFiniteNumber (prop "created_unix_ms" o)) with
      | None => None
      | Some created =>
          Some (mkMessage (default "message" (asTrimmedString (prop "role" o))) (default "" (as_string (prop "content" o)))
                  (Some created) (bool_decide (prop "content_truncated" o = VBool true))
                  (as_string (prop "mm_json" o)) (asFiniteNumber (prop "mm_bytes" o)))
      end
  | _ => None
  end.

Definition toConversationMeta (v : value) : ItemMeta :=
  match v with
  | VObject o =>
      let text k := asTrimmedString (prop k o) in
      mkMeta (mkMember (text "role") (text "agent_id") (text "deployment_id")) (text "member_id") (text "session_id")
        (text "run_id") (text "guidance_id") (text "kind") (text "priority") (text "status")
        (toConversationPayload (prop "payload" o))
  | _ => no_meta
  end.

Definition read_kind (s : string) : Kind :=
  if bool_decide (s = "guidance") then KGuidance else if bool_decide (s = "goal") then KGoal
  else if bool_decide (s = "prompt") then KPrompt else KMessage.

Definition normalizeCachedTeamConversationItem (v : value) : option Item :=
  match v with
  | VObject o =>
      match nonzero (asFiniteNumber (prop "ts" o)), toConversationMessage (prop "message" o) with
      | Some ts, Some m =>
          Some (mkItem (read_kind (default "message" (asTrimmedString (prop "kind" o)))) ts m (toConversationMeta (prop "meta" o)))
      | _, _ => None
      end
  | _ => None
  end.

Definition normalizeCachedTeamConversationItems (v : value) : list Item :=
  match v with VArray l => omap normalizeCachedTeamConversationItem l | _ => [] end.

(** ** Runs *)

(** [Number(run?.created_unix_ms || 0) || 0]. *)
Definition created_of (r : value) : number :=
  let x := v_to_number (vprop "created_unix_ms" r |||| VNumber (int 0)) in if num_truthy x then x else int 0.

Definition sortRunsByCreatedDesc (runs : list value) : list value :=
  sort_by (fun a b => gtb (sub (created_of b) (created_of a)) (int 0)) runs.

Definition recentTeamRuns (data : value) : list value :=
  if truthy (vprop "ok" data) then sortRunsByCreatedDesc (list_of (vprop "runs" data)) else [].

Definition first_run (data : value) : value := of_option (head (recentTeamRuns data)).

Definition latestTeamRunId (data : value) : string := str_trim (vprop "team_run_id" (first_run data)).
Definition latestTeamRunCreatedMs (data : value) : number := created_of (first_run data).

(** ** The messages of a run's members *)

Definition add_member (o : obj MemberMeta) (member : value) : obj MemberMeta :=
  let id := str_trim (vprop "member_id" member) in
  if negb (truthy_str id) then o
  else set id (mkMember (asTrimmedString (vprop "role" member)) (asTrimmedString (vprop "agent_id" member))
                 (asTrimmedString (vprop "deployment_id" member))) o.

Definition or_else {A} (o o' : option A) : option A := match o with Some _ => o | None => o' end.

Definition add_job (o : obj MemberMeta) (job : value) : obj MemberMeta :=
  let id := str_trim (vprop "member_id" job) in
  if negb (truthy_str id) then o
  else
    let previous := default no_member (get id o) in
    set id (mkMember (role previous) (or_else (asTrimmedString (vprop "agent_id" job)) (agent previous))
              (or_else (asTrimmedString (vprop "deployment_id" job)) (deployment previous))) o.

Definition buildMemberMeta (members memberJobs : list value) : obj MemberMeta :=
  fold_left add_job memberJobs (fold_left add_member members []).

Definition extractProxyDbMessages (v : value) : list Message :=
  match v with
  | VObject o =>
      match prop "ok" o, prop "messages" o with
      | VBool true, VArray l => omap toConversationMessage l
      | _, _ => []
      end
  | _ => []
  end.

(** What is kept of a run's members; the stored copy is taken at its declared
    type, as the code does. *)
Record Snapshot := mkSnapshot { sessions : obj value; members : obj MemberMeta }.

(** The snapshot in use, and the one to store, if any. *)
Definition choose_snapshot (status : value) (stored : option Snapshot) : Snapshot * option Snapshot :=
  let rawSessions := entries (vprop "member_sessions" status) in
  let rows := list_of (vprop "members" status) in
  let jobs := list_of (vprop "member_jobs" status) in
  let hasMembers := (0 <? length rows)%nat || (0 <? length jobs)%nat in
  let hasSessions := (0 <? length rawSessions)%nat in
  let chosen := mkSnapshot
    (if hasSessions then rawSessions else default [] (sessions <$> stored))
    (if hasMembers then buildMemberMeta rows jobs else default [] (members <$> stored)) in
  (chosen, if hasSessions || hasMembers then Some chosen else None).

(** A request for the messages of one member. *)
Record Fetch := mkFetch { f_member : string; f_meta : MemberMeta; f_agent : string; f_session : string }.

(** What the code does for a member before it waits: nothing, a warning or a
    request. *)
Definition plan_member (brokerAgentId : string) (meta : obj MemberMeta) (p : string * value) : option (string + Fetch) :=
  let sid := str_trim (snd p) in
  if negb (truthy_str sid) then None
  else
    let m := default no_member (get (trim (fst p)) meta) in
    let agentId := str_or (default "" (agent m)) brokerAgentId in
    if negb (truthy_str agentId) then Some (inl ("missing agent_id for member " ++s fst p))
    else Some (inr (mkFetch (fst p) m agentId sid)).

Definition plan (brokerAgentId : string) (s : Snapshot) : list (string + Fetch) :=
  omap (plan_member brokerAgentId (members s)) (sessions s).

Definition plan_warnings (l : list (string + Fetch)) : list string :=
  omap (fun x => match x with inl w => Some w | inr _ => None end) l.
Definition plan_fetches (l : list (string + Fetch)) : list Fetch :=
  omap (fun x => match x with inl _ => None | inr f => Some f end) l.

(** The query until it waits for the members: it ends with warnings, or fetches
    and stores a snapshot.  [sessionKey] is where snapshots are kept. *)
Inductive chat_start :=
  | Finished (warnings : list string)
  | Fetching (warnings : list string) (fetches : list Fetch) (store : option Snapshot).

Definition start_chat (brokerAgentId runId sessionKey : string) (status : value) (stored : option Snapshot) : chat_start :=
  if negb (truthy_str runId) then Finished []
  else if negb (truthy (vprop "ok" status))
  then Finished [v_to_string (first_of ["error"; "err"; "code"] status "team run failed")]
  else
    let '(chosen, store) := choose_snapshot status stored in
    let l := plan brokerAgentId chosen in
    Fetching (plan_warnings l) (plan_fetches l) (if truthy_str sessionKey then store else None).

Definition message_item (runId : string) (f : Fetch) (m : Message) : Item :=
  mkItem KMessage (default (int 0) (created_unix_ms m)) m
    (mkMeta (mkMember (role (f_meta f)) (Some (f_agent f)) None) (Some (f_member f)) (Some (f_session f))
       (or_undefined runId) None None None None VUndefined).

(** An answer: the proxied response, or the text of an exception. *)
Definition arrival : Type := Fetch * (value + string).

Definition arrival_items (runId : string) (x : arrival) : list Item :=
  match snd x with
  | inl resp => map (message_item runId (fst x)) (extractProxyDbMessages (vprop "data" resp))
  | inr _ => []
  end.

Definition arrival_warning (x : arrival) : option string :=
  match snd x with
  | inl _ => None
  | inr e => Some ("failed to load messages for " ++s f_member (fst x) ++s ": " ++s e)
  end.

(** [a.ts - b.ts], positive. *)
Definition item_gt (x y : Item) : bool := gtb (sub (i_ts x) (i_ts y)) (int 0).

(** The query's result, the answers taken in the order of their arrival. *)
Definition team_chat (runId : string) (warnings : list string) (arrivals : list arrival) : list Item * list string :=
  (sort_by item_gt (concat (map (arrival_items runId) arrivals)), warnings ++ omap arrival_warning arrivals).

(** ** The items shown *)

Definition guidance_item (guidance : value) : option Item :=
  let ts := default (int 0) (as_number (vprop "created_unix_ms" guidance)) in
  let text := default "" (as_string (vprop "message" guidance)) in
  if negb (num_truthy ts) || negb (truthy_str text) then None
  else
    let field k := asTrimmedString (vprop k guidance) in
    Some (mkItem KGuidance ts (plain_message "guidance" text)
            (mkMeta no_member None None (field "team_run_id") (field "guidance_id") (field "kind") (field "priority")
               (field "status") (toConversationPayload (vprop "payload" guidance)))).

Definition run_meta (runId : option string) (payload : value) : ItemMeta :=
  mkMeta no_member None None runId None None None None payload.

Definition toPromptConversationItem (entry : TeamActivity) : option Item :=
  let text := trim (a_prompt entry) in
  if negb (num_truthy (ts entry)) || negb (truthy_str text) then None
  else
    let runId := or_undefined (trim (default "" (run_id entry))) in
    Some (if bool_decide (kind entry = "guidance")
          then mkItem KGuidance (ts entry) (plain_message "guidance" text) (run_meta runId (a_payload entry))
          else if bool_decide (kind entry = "goal")
          then mkItem KGoal (ts entry) (plain_message "goal" text) (run_meta runId (a_payload entry))
          else mkItem KPrompt (ts entry) (plain_message "user" text) (run_meta runId VUndefined)).

(** The key under which a prompt is shown once. *)
Definition prompt_key (i : Item) : option string :=
  if bool_decide (m_role (message i) = "user") && truthy_str (content (message i))
  then Some (stake 200 (content (message i))) else None.

(** One item of the loop; the state is the items kept and the keys seen. *)
Definition dedupe_step (s : list Item * list string) (i : Item) : list Item * list string :=
  let '(kept, seen) := s in
  match prompt_key i with
  | None => (kept ++ [i], seen)
  | Some key => if bool_decide (key ∈ seen) then s else (kept ++ [i], seen ++ [key])
  end.

Definition dedupe (l : list Item) : list Item := fst (fold_left dedupe_step l ([], [])).

Definition live_items (chat : list Item) (guidance : list value) (prompts : list TeamActivity) : list Item :=
  dedupe (sort_by item_gt (chat ++ omap guidance_item guidance ++ omap toPromptConversationItem prompts)).

Definition teamConversationItems (cached chat : list Item) (guidance : list value) (prompts : list TeamActivity) :
    list Item :=
  match live_items chat guidance prompts with [] => cached | l => l end.

Definition teamConversationLiveCount (chat : list Item) (guidance : list value) (prompts : list TeamActivity) : nat :=
  length chat + length guidance + length prompts.

(** ** What is shown of it *)

Record Recent := mkRecent { r_index : nat; r_ts : number; label : string; preview : string }.

Definition recent_of (i : nat) (item : Item) : option Recent :=
  let role := str_or (trim (m_role (message item))) "message" in
  let text := trim (content (message item)) in
  if negb (truthy_str text) then None
  else Some (mkRecent i (i_ts item)
    (if bool_decide (role = "guidance") then "guidance" else if bool_decide (role = "goal") then "goal"
     else if bool_decide (role = "user") then "you" else str_or (default "" (agent (of_member (meta item)))) role)
    (if (140 <? String.length text)%nat then stake 140 text ++s "..." else text)).

(** The loop from the end: at most three. *)
Definition teamRecentActivity (items : list Item) : list Recent :=
  take 3 (omap (fun p => recent_of (fst p) (snd p)) (rev (imap pair items))).

Definition teamQueueNeedsRun (queue : list TeamQueuedAction) (latestRun : string) : bool :=
  (0 <? length queue)%nat && negb (truthy_str latestRun)
  && existsb (fun q => negb (bool_decide (q_action q = ARun))) queue.

(** [data?.ok && Array.isArray(data?.guidance) ? data.guidance : []]. *)
Definition teamGuidanceRows (data : value) : list value :=
  if truthy (vprop "ok" data) then list_of (vprop "guidance" data) else [].

Definition teamPromptEntries (history : obj (list TeamActivity)) (team : string) : list TeamActivity :=
  default [] (get team history).

Definition teamStatus (status : value) : string :=
  match vprop "status" status, vprop "code" status with
  | VString s, _ => s
  | _, VString s => s
  | _, _ => ""
  end.

Definition teamConversationWarnings (warnings : list string) (guidanceError : option string) (data : value) : list string :=
  List.filter truthy_str
    (warnings ++ option_list guidanceError
     ++ if bool_decide (vprop "ok" data = VBool false)
        then [v_to_string (first_of ["error"; "err"; "code"] data "guidance error")] else []).

(** ** The stored copy *)

Definition message_value (m : Message) : value :=
  VObject [("role", VString (m_role m)); ("content", VString (content m));
           ("created_unix_ms", of_option (VNumber <$> created_unix_ms m));
           ("content_truncated", if content_truncated m then VBool true else VUndefined);
           ("mm_json", opt_text (mm_json m)); ("mm_bytes", of_option (VNumber <$> mm_bytes m))].

Definition meta_value (x : ItemMeta) : value :=
  VObject [("role", opt_text (role (of_member x))); ("agent_id", opt_text (agent (of_member x)));
           ("deployment_id", opt_text (deployment (of_member x))); ("member_id", opt_text (member_id x));
           ("session_id", opt_text (session_id x)); ("run_id", opt_text (run x));
           ("guidance_id", opt_text (guidance_id x)); ("kind", opt_text (g_kind x));
           ("priority", opt_text (priority x)); ("status", opt_text (status x)); ("payload", payload x)].

Definition item_value (i : Item) : value :=
  VObject [("kind", VString (kind_text (i_kind i))); ("ts", VNumber (i_ts i));
           ("message", message_value (message i)); ("meta", meta_value (meta i))].

Definition cache_value (items : list Item) (now : number) : value :=
  VObject [("items", VArray (map item_value (last_n 200 items))); ("updated_ms", VNumber now)].

(** The data of a render; the numbers are the identities of the three lists. *)
Record View := mkView {
  chat : list Item; chat_id : nat; guidance : list value; g_id : nat; prompts : list TeamActivity; p_id : nat }.

(** [last] is what the effect depended on when it last ran. *)
Record state := mkState { cache : hook value; last : option (nat * option (nat * nat * nat) * nat) }.

Section cache.
Context `{Stored value}.

Definition cached_items (s : state) : list Item :=
  normalizeCachedTeamConversationItems (vprop "items" (current (cache s))).

Definition shown (v : View) (s : state) : list Item :=
  teamConversationItems (cached_items s) (chat v) (guidance v) (prompts v).

Definition live_count (v : View) : nat := teamConversationLiveCount (chat v) (guidance v) (prompts v).

(** The identity of the list shown: the memo builds a new one whenever one of
    the lists or the cached items is new, and returns the cached items when
    there is nothing else. *)
Definition items_id (v : View) (s : state) : nat * option (nat * nat * nat) :=
  (version (cache s), match live_items (chat v) (guidance v) (prompts v) with
                      | [] => None
                      | _ => Some (chat_id v, g_id v, p_id v)
                      end).

Definition effect_deps (v : View) (s : state) : nat * option (nat * nat * nat) * nat := (items_id v s, live_count v).

Definition cache_effect (v : View) (now : number) (s : state) : state :=
  if bool_decide (last s = Some (effect_deps v s)) then s
  else
    let s' := mkState (cache s) (Some (effect_deps v s)) in
    if (live_count v =? 0)%nat || (length (shown v s) =? 0)%nat then s'
    else mkState (setValue (fun _ => cache_value (shown v s) now) (cache s)) (last s').

(** A render is committed: the storage's effect, then the cache's. *)
Definition render (key : string) (quota : bool) (v : View) (now : number) (s : state) : state :=
  cache_effect v now (mkState (commit key quota (cache s)) (last s)).

(** React renders again when the state has changed. *)
Definition renders_again (s s' : state) : bool := negb (bool_decide (version (cache s') = version (cache s))).

Definition usingCache (v : View) (s : state) : bool :=
  (live_count v =? 0)%nat && (0 <? length (cached_items s))%nat.
End cache.

(** The key of the copy. *)
Definition teamConversationCacheKey (base team : string) : string :=
  "agentui.teamChatCache:" ++s str_or base "default" ++s "::" ++s str_or team "none".

(** ** The list shown *)

Definition unkeyed (i : Item) : bool := negb (bool_decide (is_Some (prompt_key i))).

Lemma unkeyed_false i key : prompt_key i = Some key -> unkeyed i = false.
Proof. unfold unkeyed. intros ->. by rewrite bool_decide_true. Qed.

Lemma dedupe_snoc_spec (l : list Item) :
  let '(kept, seen) := fold_left dedupe_step l ([], []) in
  sublist kept l /\ seen = omap prompt_key kept /\ NoDup seen
  /\ List.filter unkeyed kept = List.filter unkeyed l
  /\ (forall i, i ∈ l -> exists j, j ∈ kept /\ prompt_key j = prompt_key i).
Proof.
  induction l as [|i l IH] using rev_ind.
  { split_and!; [done|done|constructor|done|]. by intros i Hi%not_elem_of_nil. }
  rewrite fold_left_app. cbn [fold_left]. destruct (fold_left dedupe_step l ([], [])) as [kept seen].
  destruct IH as (H1 & H2 & H3 & H4 & H5). unfold dedupe_step.
  destruct (prompt_key i) as [key|] eqn:E; [case_bool_decide as Hk|].
  - split_and!; [by apply sublist_inserts_r|done|done| |].
    + rewrite H4, List.filter_app. cbn [List.filter]. by rewrite (unkeyed_false i key E), app_nil_r.
    + intros j [Hj| ->%list_elem_of_singleton]%elem_of_app; [by apply H5|]. subst seen.
      apply list_elem_of_omap in Hk as (x & Hx & Ex). exists x. by rewrite E.
  - subst seen. split_and!.
    + by apply sublist_app.
    + rewrite omap_app. cbn [omap list_omap]. by rewrite E.
    + apply NoDup_app. split_and!; [done| |apply NoDup_singleton]. intros x Hx ->%list_elem_of_singleton. done.
    + rewrite !List.filter_app, H4. done.
    + intros j [Hj| ->%list_elem_of_singleton]%elem_of_app; [|exists i; set_solver].
      destruct (H5 j Hj) as (x & Hx & Ex). exists x. set_solver.
  - subst seen. split_and!.
    + by apply sublist_app.
    + rewrite omap_app. cbn [omap list_omap]. by rewrite E, app_nil_r.
    + done.
    + rewrite !List.filter_app, H4. done.
    + intros j [Hj| ->%list_elem_of_singleton]%elem_of_app; [|exists i; set_solver].
      destruct (H5 j Hj) as (x & Hx & Ex). exists x. set_solver.
Qed.

Lemma dedupe_spec (l : list Item) :
  sublist (dedupe l) l /\ NoDup (omap prompt_key (dedupe l))
  /\ List.filter unkeyed (dedupe l) = List.filter unkeyed l
  /\ (forall i, i ∈ l -> exists j, j ∈ dedupe l /\ prompt_key j = prompt_key i).
Proof.
  pose proof (dedupe_snoc_spec l) as H. unfold dedupe. destruct (fold_left _ l _) as [kept seen].
  destruct H as (H1 & -> & H3 & H4 & H5). done.
Qed.

Lemma filter_comm {A} (p q : A -> bool) (l : list A) :
  List.filter q (List.filter p l) = List.filter p (List.filter q l).
Proof. rewrite !filter_filter. apply List.filter_ext. intros x. apply andb_comm. Qed.

Lemma StronglySorted_sublist {A} (R : A -> A -> Prop) l1 l2 : sublist l1 l2 -> StronglySorted R l2 -> StronglySorted R l1.
Proof.
  induction 1 as [|x l1 l2 Hs IH|x l1 l2 Hs IH]; [done|..]; intros [H1 H2]%StronglySorted_inv; [|by apply IH].
  constructor; [by apply IH|]. rewrite Forall_forall in H2 |- *. intros y Hy. apply H2. by eapply sublist_subseteq.
Qed.

(** C9: the conversation of a team is the messages of its members, the guidance
    and what the user sent, in the order of their times.  Everything but prompts
    of the user is shown, in the order of the sources where times are equal.  Of
    the prompts with the same first 200 characters exactly one is shown: a
    message that the user sends again is hidden. *)
Theorem team_conversation_shown cached chat guidance prompts :
  let all := chat ++ omap guidance_item guidance ++ omap toPromptConversationItem prompts in
  let items := teamConversationItems cached chat guidance prompts in
  Forall (fun i => is_finite (i_ts i) = true) all ->
  (all = [] -> items = cached)
  /\ (all <> [] ->
      StronglySorted (fun x y => leb (i_ts x) (i_ts y) = true) items
      /\ (forall i, i ∈ items -> i ∈ all)
      /\ (forall t, List.filter (fun i => bool_decide (i_ts i = t)) (List.filter unkeyed items)
                    = List.filter (fun i => bool_decide (i_ts i = t)) (List.filter unkeyed all))
      /\ NoDup (omap prompt_key items)
      /\ (forall i, i ∈ all -> exists j, j ∈ items /\ prompt_key j = prompt_key i)).
Proof.
  intros all items Hf. unfold items, teamConversationItems, live_items. fold all.
  destruct (sort_by_number i_ts all Hf) as [Hs Ht]. change (sort_by (fun x y => _) all) with (sort_by item_gt all) in Hs, Ht.
  destruct (dedupe_spec (sort_by item_gt all)) as (D1 & D2 & D3 & D4). split.
  - intros ->. done.
  - intros Hne. assert (Hn : dedupe (sort_by item_gt all) <> []).
    { destruct all as [|i l] eqn:E; [done|]. destruct (D4 i) as (j & Hj & _); [apply elem_of_sort_by; by left|].
      intros E'. rewrite E' in Hj. by apply not_elem_of_nil in Hj. }
    destruct (dedupe (sort_by item_gt all)) as [|x l] eqn:E; [done|]. rewrite <- E in *. split_and!.
    + by eapply StronglySorted_sublist.
    + intros i Hi. apply (elem_of_sort_by item_gt). by eapply sublist_subseteq.
    + intros t. by rewrite D3, filter_comm, Ht, filter_comm.
    + done.
    + intros i Hi. apply D4. by apply elem_of_sort_by.
Qed.

(** ** The cache's effect *)

Section settling.
Context `{Stored value} (key : string) (quota : bool) (v : View) (now : nat -> number).

(** The renders that follow when no data changes, oldest first. *)
Fixpoint renders (n : nat) (s : state) : state :=
  match n with O => s | S n => let s' := renders n s in render key quota v (now n) s' end.

Definition fresh (s : state) : Prop := last s <> Some (effect_deps v s).

Lemma live_shown s :
  live_items (chat v) (guidance v) (prompts v) <> [] -> (0 < live_count v)%nat /\ (0 < length (shown v s))%nat.
Proof.
  intros Hl. split.
  - unfold live_count, teamConversationLiveCount.
    destruct (chat v) as [|c l] eqn:E1; [|cbn; lia]. destruct (guidance v) as [|g l'] eqn:E2; [|cbn; lia].
    destruct (prompts v); [done|cbn; lia].
  - unfold shown, teamConversationItems. destruct (live_items _ _ _); [done|]. cbn. lia.
Qed.

Lemma render_fresh n s :
  live_items (chat v) (guidance v) (prompts v) <> [] -> fresh s ->
  let s' := render key quota v n s in
  fresh s' /\ version (cache s') = S (version (cache s))
  /\ current (cache s') = cache_value (live_items (chat v) (guidance v) (prompts v)) n.
Proof.
  intros Hl Hf. set (t := mkState (commit key quota (cache s)) (last s)).
  assert (Hd : effect_deps v t = effect_deps v s).
  { unfold effect_deps, items_id, t. cbn. by rewrite commit_version. }
  unfold render. fold t. unfold cache_effect. rewrite Hd, bool_decide_false by done.
  destruct (live_shown t Hl) as [H1 H2].
  destruct (Nat.eqb_spec (live_count v) 0); [lia|]. destruct (Nat.eqb_spec (length (shown v t)) 0); [lia|]. cbn [orb].
  set (s' := mkState _ _).
  assert (Hv : version (cache s') = S (version (cache s))) by (unfold s', t; cbn; by rewrite commit_version).
  split_and!; [|done|].
  - unfold fresh. change (last s') with (Some (effect_deps v s)). intros [= E].
    rewrite commit_version in E. lia.
  - unfold s'. cbn. unfold shown, teamConversationItems. by destruct (live_items _ _ _).
Qed.

(** While there is anything to show, the page never comes to rest.  The
    effect that stores the conversation replaces the cached copy; the list shown
    is rebuilt from it, so the effect runs again: with no new data at all every
    render stores the same items once more and makes the next render. *)
Theorem cache_never_settles s n :
  live_items (chat v) (guidance v) (prompts v) <> [] -> fresh s ->
  let s1 := renders n s in
  let s2 := renders (S n) s in
  renders_again s1 s2 = true /\ version (cache s2) = (version (cache s) + S n)%nat
  /\ current (cache s2) = cache_value (live_items (chat v) (guidance v) (prompts v)) (now n).
Proof.
  intros Hl Hf s1 s2. assert (H1 : fresh s1 /\ version (cache s1) = (version (cache s) + n)%nat).
  { subst s1 s2. induction n as [|n IH]; [cbn; split; [done|lia]|]. destruct IH as [F V].
    destruct (render_fresh (now n) (renders n s) Hl F) as (H1 & H2 & _). split; [exact H1|]. cbn [renders]. rewrite H2, V. lia. }
  destruct H1 as [F V]. destruct (render_fresh (now n) s1 Hl F) as (_ & H2 & H3).
  unfold s2. cbn [renders]. fold s1. split_and!; [|rewrite H2, V; lia|exact H3].
  unfold renders_again. rewrite H2, bool_decide_false by lia. done.
Qed.

(** Without anything to show it does. *)
Theorem cache_settles s n :
  live_count v = 0%nat ->
  current (cache (renders n s)) = current (cache s) /\ version (cache (renders n s)) = version (cache s).
Proof.
  intros Hl. induction n as [|n [IH1 IH2]]; [done|]. cbn [renders]. unfold render, cache_effect.
  rewrite Hl. cbn [Nat.eqb orb]. case_bool_decide; cbn; by rewrite commit_current, commit_version.
Qed.
End settling.

(** ** Reading the copy *)

Definition trimmed_text (o : option string) : Prop := forall s, o = Some s -> trim s = s /\ s <> "".

Lemma trimmed_or_undefined s : trimmed_text (or_undefined (trim s)).
Proof.
  intros t. unfold or_undefined. destruct (truthy_str (trim s)) eqn:E; [|done]. intros [= <-].
  split; [apply trim_idem|by apply truthy_str_true].
Qed.

Lemma trimmed_string v : trimmed_text (asTrimmedString v).
Proof. destruct v; try done. apply trimmed_or_undefined. Qed.

Lemma text_back o : trimmed_text o -> asTrimmedString (opt_text o) = o.
Proof.
  intros Ho. destruct o as [s|]; [|done]. destruct (Ho s eq_refl) as [Ht Hn]. cbn. rewrite Ht.
  unfold or_undefined. by rewrite (proj2 (truthy_str_true s)).
Qed.

Lemma payload_back v : toConversationPayload (toConversationPayload v) = toConversationPayload v.
Proof. by destruct v. Qed.

Lemma finite_number v x : asFiniteNumber v = Some x -> asFiniteNumber (VNumber x) = Some x.
Proof.
  intros H. assert (is_finite x = true) as Hx.
  { destruct v; try done; cbn in H.
    - destruct (is_finite x0) eqn:E; [|done]. by injection H as <-.
    - destruct (truthy_str _); [|done]. cbv zeta in H. destruct (is_finite (str_to_number s)) eqn:E; [|done]. by injection H as <-. }
  cbn. by rewrite Hx.
Qed.

Lemma message_back v m : toConversationMessage v = Some m -> toConversationMessage (message_value m) = Some m.
Proof.
  destruct v as [| | | | | |o]; try done. unfold toConversationMessage at 1.
  destruct (asFiniteNumber (prop "created_unix_ms" o)) as [x|] eqn:Ex; [|done]. cbn [nonzero].
  destruct (num_truthy x) eqn:Nx; [|done]. intros [= <-].
  unfold message_value. cbn [m_role content created_unix_ms content_truncated mm_json mm_bytes toConversationMessage].
  rewrite !prop_cons. simpl bool_decide. cbv iota.
  change (of_option (VNumber <$> Some x)) with (VNumber x). rewrite (finite_number _ _ Ex). cbn [nonzero]. rewrite Nx.
  f_equal. f_equal.
  - destruct (asTrimmedString (prop "role" o)) as [s|] eqn:E; [|done].
    change (default "message" (Some s)) with s.
    assert (Hs : asTrimmedString (VString s) = Some s).
    { apply (text_back (Some s)). rewrite <- E. apply trimmed_string. }
    by rewrite Hs.
  - by destruct (bool_decide (prop "content_truncated" o = VBool true)).
  - by destruct (prop "mm_json" o).
  - destruct (asFiniteNumber (prop "mm_bytes" o)) as [y|] eqn:E; [|done]. by apply finite_number in E.
Qed.

Definition trimmed_meta (x : ItemMeta) : Prop :=
  Forall trimmed_text [role (of_member x); agent (of_member x); deployment (of_member x); member_id x; session_id x;
                       run x; guidance_id x; g_kind x; priority x; status x]
  /\ toConversationPayload (payload x) = payload x.

Lemma meta_back x : trimmed_meta x -> toConversationMeta (meta_value x) = x.
Proof.
  intros [Ht Hp]. destruct x as [[r a d] m s rn g k p st pl]. cbn in Ht, Hp.
  repeat (apply Forall_cons in Ht as [? Ht]).
  unfold meta_value, toConversationMeta. cbn [of_member role agent deployment member_id session_id run guidance_id g_kind
    priority status payload]. cbv zeta. rewrite !prop_cons. simpl bool_decide. cbv iota. by rewrite !text_back, Hp.
Qed.

Lemma kind_back k : read_kind (kind_text k) = k.
Proof. by destruct k. Qed.

Lemma kind_trimmed k : asTrimmedString (VString (kind_text k)) = Some (kind_text k).
Proof. by destruct k. Qed.

(** An item as the effect stores it: what has no creation time is dropped. *)
Lemma item_back i :
  normalizeCachedTeamConversationItem (item_value i)
  = match nonzero (asFiniteNumber (VNumber (i_ts i))), toConversationMessage (message_value (message i)) with
    | Some ts, Some m => Some (mkItem (i_kind i) ts m (toConversationMeta (meta_value (meta i))))
    | _, _ => None
    end.
Proof.
  unfold item_value. cbn [normalizeCachedTeamConversationItem]. rewrite !prop_cons. simpl bool_decide. cbv iota.
  rewrite kind_trimmed. change (default "message" (Some (kind_text (i_kind i)))) with (kind_text (i_kind i)).
  by rewrite kind_back.
Qed.

Lemma plain_dropped i : created_unix_ms (message i) = None -> normalizeCachedTeamConversationItem (item_value i) = None.
Proof.
  intros Hc. rewrite item_back. unfold message_value. cbn [toConversationMessage]. rewrite !prop_cons. simpl bool_decide.
  cbv iota. rewrite Hc. cbn. by repeat case_match.
Qed.

(** A fetched member: identifiers without blanks around them. *)
Definition tidy_fetch (f : Fetch) : Prop :=
  trimmed_text (role (f_meta f)) /\ trimmed_text (Some (f_agent f)) /\ trimmed_text (Some (f_member f))
  /\ trimmed_text (Some (f_session f)).

Lemma message_item_back runId f v m :
  trim runId = runId -> tidy_fetch f -> toConversationMessage v = Some m ->
  normalizeCachedTeamConversationItem (item_value (message_item runId f m)) = Some (message_item runId f m)
  /\ i_kind (message_item runId f m) = KMessage.
Proof.
  intros Hr (H1 & H2 & H3 & H4) Hm. split; [|done]. rewrite item_back. cbn [message_item i_ts message meta i_kind].
  rewrite (message_back v m Hm), meta_back.
  - destruct v as [| | | | | |o]; try done. unfold toConversationMessage in Hm.
    destruct (asFiniteNumber (prop "created_unix_ms" o)) as [x|] eqn:Ex; [|done]. cbn [nonzero] in Hm.
    destruct (num_truthy x) eqn:Nx; [|done]. injection Hm as <-. cbn [created_unix_ms default].
    unfold message_item. cbn [created_unix_ms default].
    unfold id. rewrite (finite_number _ _ Ex). cbn [nonzero]. by rewrite Nx.
  - split; [|done]. cbn. repeat (apply Forall_cons; split); try done.
    rewrite <- Hr. apply trimmed_or_undefined.
Qed.

Definition is_message (i : Item) : bool := match i_kind i with KMessage => true | _ => false end.

Lemma guidance_plain g i : guidance_item g = Some i -> created_unix_ms (message i) = None /\ is_message i = false.
Proof. unfold guidance_item. cbv zeta. case_match; [done|]. by intros [= <-]. Qed.

Lemma prompt_plain p i : toPromptConversationItem p = Some i -> created_unix_ms (message i) = None /\ is_message i = false.
Proof. unfold toPromptConversationItem. cbv zeta. case_match; [done|]. intros [= <-]. by repeat case_bool_decide. Qed.

Lemma omap_cons_match {A B} (f : A -> option B) x l :
  omap f (x :: l) = match f x with Some y => y :: omap f l | None => omap f l end.
Proof. done. Qed.

(** The copy forgets what the user said.  Read back, the conversation that
    the effect stored consists of the messages of the members alone: guidance,
    goals and prompts, for which the reader has cases of their own, are stored
    without a creation time and dropped. *)
Theorem cache_restores_messages_only runId warnings arrivals guidance prompts :
  trim runId = runId -> Forall (fun x => tidy_fetch (fst x)) arrivals ->
  let items := live_items (fst (team_chat runId warnings arrivals)) guidance prompts in
  normalizeCachedTeamConversationItems (VArray (map item_value items)) = List.filter is_message items.
Proof.
  intros Hr Ha items. cbn [normalizeCachedTeamConversationItems].
  assert (Hi : Forall (fun i => normalizeCachedTeamConversationItem (item_value i) = if is_message i then Some i else None) items).
  { unfold items, live_items. destruct (dedupe_spec (sort_by item_gt (fst (team_chat runId warnings arrivals)
      ++ omap guidance_item guidance ++ omap toPromptConversationItem prompts))) as [Hs _].
    apply Forall_forall. intros i Hi. eapply sublist_subseteq in Hi; [|exact Hs]. apply elem_of_sort_by in Hi.
    apply elem_of_app in Hi as [Hi|[Hi|Hi]%elem_of_app].
    - cbn in Hi. apply elem_of_sort_by, list_elem_of_In, in_concat in Hi as (l & (x & <- & Hx)%in_map_iff & Hi).
      rewrite Forall_forall in Ha. specialize (Ha x (proj2 (list_elem_of_In _ _) Hx)).
      unfold arrival_items in Hi. destruct (snd x) as [resp|e]; [|done]. apply in_map_iff in Hi as (m & <- & Hm).
      assert (Hv : exists v, toConversationMessage v = Some m).
      { apply list_elem_of_In in Hm. unfold extractProxyDbMessages in Hm.
        repeat case_match; try (by apply not_elem_of_nil in Hm). apply list_elem_of_omap in Hm as (v & _ & Hv). by exists v. }
      destruct Hv as [v Hv]. by destruct (message_item_back runId (fst x) v m Hr Ha Hv) as [-> _].
    - apply list_elem_of_omap in Hi as (g & _ & Hg). destruct (guidance_plain g i Hg) as [Hc ->]. by apply plain_dropped.
    - apply list_elem_of_omap in Hi as (p & _ & Hp). destruct (prompt_plain p i Hp) as [Hc ->]. by apply plain_dropped. }
  clearbody items. induction Hi as [|i l Hi _ IH]; [done|]. cbn [map List.filter]. rewrite omap_cons_match, Hi.
  destruct (is_message i); by rewrite IH.
Qed.

(** ** Fetching *)

Definition has_session (p : string * value) : bool := truthy_str (str_trim (snd p)).

Lemma plan_member_session brokerAgentId m p :
  bool_decide (is_Some (plan_member brokerAgentId m p)) = has_session p.
Proof.
  unfold plan_member, has_session. cbv zeta. by destruct (truthy_str (str_trim (snd p))); [destruct (truthy_str (str_or _ _))|].
Qed.

Lemma plan_counts brokerAgentId s :
  (length (plan_warnings (plan brokerAgentId s)) + length (plan_fetches (plan brokerAgentId s))
   = length (List.filter has_session (sessions s)))%nat
  /\ Forall (fun f => f_agent f <> "" /\ f_session f <> "" /\ is_Some (get (f_member f) (sessions s))) (plan_fetches (plan brokerAgentId s)).
Proof.
  unfold plan. split.
  - induction (sessions s) as [|p l IH]; [done|]. rewrite omap_cons_match. cbn [List.filter].
    rewrite <- (plan_member_session brokerAgentId (members s) p).
    destruct (plan_member brokerAgentId (members s) p) as [x|]; [|exact IH]. rewrite bool_decide_true by done.
    unfold plan_warnings, plan_fetches in *. rewrite !omap_cons_match. destruct x; cbn [length]; lia.
  - apply Forall_forall. intros f (x & Hx & Hf)%list_elem_of_omap. destruct x as [w|f']; [done|]. injection Hf as ->.
    apply list_elem_of_omap in Hx as (p & Hp & Hf). unfold plan_member in Hf. destruct (truthy_str (str_trim (snd p))) eqn:Es; [|done].
    cbn [negb] in Hf. cbv zeta in Hf. destruct (truthy_str (str_or _ _)) eqn:Ea; [|done]. injection Hf as <-.
    split_and!; [by apply truthy_str_true|by apply truthy_str_true|]. apply in_keys. apply list_elem_of_fmap. by exists p.
Qed.

(** Every session of the run is fetched from an agent or warned about; when the
    status lists sessions or members, they are what is used and stored, and the
    stored copy is what is used of what it does not list. *)
Theorem chat_covers brokerAgentId runId sessionKey status stored warnings fetches store :
  start_chat brokerAgentId runId sessionKey status stored = Fetching warnings fetches store ->
  let chosen := fst (choose_snapshot status stored) in
  (length warnings + length fetches = length (List.filter has_session (sessions chosen)))%nat
  /\ Forall (fun f => f_agent f <> "" /\ f_session f <> "" /\ is_Some (get (f_member f) (sessions chosen))) fetches
  /\ (entries (vprop "member_sessions" status) <> [] -> sessions chosen = entries (vprop "member_sessions" status))
  /\ (forall new, store = Some new -> new = chosen)
  /\ (store = None -> sessionKey = "" \/ sessions chosen = default [] (sessions <$> stored)).
Proof.
  unfold start_chat. destruct (truthy_str runId); [|done]. destruct (truthy (vprop "ok" status)); [|done]. cbn [negb].
  destruct (choose_snapshot status stored) as [chosen new] eqn:Ec. intros [= <- <- <-]. cbn [fst].
  destruct (plan_counts brokerAgentId chosen) as [H1 H2]. split_and!; [exact H1|exact H2|..];
    unfold choose_snapshot in Ec; cbv zeta in Ec; injection Ec as <- <-; cbn [sessions].
  - intros Hn. destruct (entries _); [done|reflexivity].
  - intros c Hc. destruct (truthy_str sessionKey); [|done]. destruct ((0 <? length (entries _))%nat || _) in Hc; [by injection Hc as <-|done].
  - destruct (truthy_str sessionKey) eqn:Ek; [|left; by apply truthy_str_false]. right.
    destruct (entries _); [done|]. cbn in *. done.
Qed.

(** ** The order of arrival *)

(** The order in which the members answer does not change which messages are
    shown, and they are sorted in either case. *)
Theorem arrival_order runId warnings arrivals arrivals' :
  arrivals ≡ₚ arrivals' ->
  fst (team_chat runId warnings arrivals) ≡ₚ fst (team_chat runId warnings arrivals')
  /\ snd (team_chat runId warnings arrivals) ≡ₚ snd (team_chat runId warnings arrivals').
Proof.
  intros H. cbn [team_chat fst snd]. rewrite !sort_by_perm. split.
  - induction H as [|x l l' _ IH|x y l|l l' l'' _ IH1 _ IH2]; cbn [map concat]; [done|by rewrite IH| |by etransitivity].
    rewrite !app_assoc. by rewrite (Permutation_app_comm (arrival_items runId y)).
  - apply Permutation_app_head. by apply omap_Permutation.
Qed.

(** Of the runs listed the latest is one with the largest creation time. *)
Theorem latest_run_newest data r :
  Forall (fun r => is_finite (created_of r) = true) (list_of (vprop "runs" data)) ->
  truthy (vprop "ok" data) = true -> r ∈ list_of (vprop "runs" data) ->
  first_run data ∈ list_of (vprop "runs" data) /\ leb (created_of r) (created_of (first_run data)) = true.
Proof.
  intros Hf Hok Hr. unfold first_run, recentTeamRuns. rewrite Hok.
  destruct (sort_by_number_desc created_of _ Hf) as [Hs _]. fold (sortRunsByCreatedDesc (list_of (vprop "runs" data))) in Hs.
  assert (Hin : forall x, x ∈ sortRunsByCreatedDesc (list_of (vprop "runs" data)) <-> x ∈ list_of (vprop "runs" data))
    by (intros x; apply elem_of_sort_by).
  destruct (sortRunsByCreatedDesc _) as [|x l] eqn:E.
  { apply Hin in Hr. by apply not_elem_of_nil in Hr. }
  cbn [head of_option]. change (of_option (Some x)) with x. split; [apply Hin; by left|].
  assert (Hr' : r ∈ x :: l) by (by apply Hin). apply elem_of_cons in Hr' as [Hx|Hr'].
  - subst r. apply leb_refl. rewrite Forall_forall in Hf. assert (Hx : is_finite (created_of x) = true) by (by apply Hf).
    by destruct (created_of x).
  - apply StronglySorted_inv in Hs as [_ Hs]. rewrite Forall_forall in Hs. by apply Hs.
Qed.

(** ** Another team *)

(** Another team's render takes the copy along.  The copy of the former team
    is shown as the conversation of the new one until it has something to show,
    and replaces the copy that was stored for it. *)
Theorem cache_follows_team `{Stored value} key key' v now s :
  key' <> key -> in_step (cache s) -> written (cache s) = Some (key, version (cache s)) -> live_count v = 0%nat ->
  let s' := render key' false v now s in
  cached_items s' = cached_items s
  /\ (live_items (chat v) (guidance v) (prompts v) = [] -> shown v s' = cached_items s)
  /\ get key' (storage (cache s')) = Some (write (current (cache s))).
Proof.
  intros Hk Hs Hw Hl s'.
  assert (E : cache s' = commit key' false (cache s)).
  { unfold s', render, cache_effect. rewrite Hl. cbn [Nat.eqb orb]. by case_bool_decide. }
  assert (Hc : cached_items s' = cached_items s) by (unfold cached_items; by rewrite E, commit_current).
  split_and!; [exact Hc| |].
  - intros Hn. unfold shown, teamConversationItems. by rewrite Hn.
  - rewrite E. by apply (key_change_replaces key key' (cache s)).
Qed.

(** ** Concrete inputs *)

Definition example_prompt (time : Z) (text : string) : TeamActivity := mkActivity (int time) text None "prompt" VUndefined.

Definition example_fetch : Fetch := mkFetch "m1" (mkMember (Some "builder") None None) "agent" "s1".

Definition example_answer (time : Z) (text : string) : arrival :=
  (example_fetch,
   inl (VObject [("data", VObject [("ok", VBool true);
     ("messages", VArray [VObject [("role", VString "assistant"); ("content", VString text);
                                   ("created_unix_ms", VNumber (int time))]])])])).

Definition example_chat : list Item := fst (team_chat "r1" [] [example_answer 20 "done"]).

(** The second of two equal prompts is not shown. *)
Lemma team_conversation_shown_witness :
  let items := teamConversationItems [] example_chat [] [example_prompt 10 "continue"; example_prompt 30 "continue"] in
  map (fun i => content (message i)) items = ["continue"; "done"]
  /\ StronglySorted (fun x y => leb (i_ts x) (i_ts y) = true) items.
Proof.
  intros items. split; [vm_compute; reflexivity|].
  destruct (team_conversation_shown [] example_chat [] [example_prompt 10 "continue"; example_prompt 30 "continue"]) as [_ H];
    [by_compute|]. apply H. by vm_compute.
Defined.

#[local] Instance stored_value : Stored value := {| write := v_to_string; read s := Some (VString s) |}.

Definition example_view : View := mkView example_chat 1 [] 1 [] 1.
Definition example_page : state := mkState (LocalStorage.mount "red" (VObject []) []) None.

Lemma cache_never_settles_witness :
  let s2 := renders "red" false example_view (fun n => int (Z.of_nat n)) 1 example_page in
  let s3 := renders "red" false example_view (fun n => int (Z.of_nat n)) 2 example_page in
  renders_again s2 s3 = true.
Proof.
  intros s2 s3. apply (cache_never_settles "red" false example_view (fun n => int (Z.of_nat n)) example_page 1); by vm_compute.
Defined.

(** The copy of a conversation of a prompt and an answer holds the answer. *)
Lemma cache_restores_messages_only_witness :
  let items := live_items example_chat [] [example_prompt 10 "go"] in
  map (fun i => content (message i)) items = ["go"; "done"]
  /\ map (fun i => content (message i)) (normalizeCachedTeamConversationItems (VArray (map item_value items))) = ["done"].
Proof.
  intros items. split; [vm_compute; reflexivity|].
  assert (E : normalizeCachedTeamConversationItems (VArray (map item_value items)) = List.filter is_message items).
  { apply (cache_restores_messages_only "r1" [] [example_answer 20 "done"] [] [example_prompt 10 "go"]); [done|].
    apply List.Forall_cons; [|constructor]. split_and!; intros t [= <-]; by vm_compute. }
  rewrite E. vm_compute. reflexivity.
Defined.

(** What the team [red] said is shown to, and stored for, the team [blue]. *)
Lemma cache_follows_team_witness :
  let v := mkView [] 2 [] 2 [] 2 in
  let page := renders "red" false example_view (fun n => int (Z.of_nat n)) 3 example_page in
  let s := mkState (commit "red" false (cache page)) (last page) in
  map (fun i => content (message i)) (shown v (render "blue" false v (int 9) s)) = ["done"].
Proof.
  intros v page s.
  assert (E : shown v (render "blue" false v (int 9) s) = cached_items s).
  { apply (cache_follows_team "red" "blue" v (int 9) s); [done| |by vm_compute|done|done].
    intros k Ek. vm_compute in Ek. injection Ek as <-. vm_compute. reflexivity. }
  rewrite E. vm_compute. reflexivity.
Defined.
