(* ===== verification/SceneViews.v ===== *)
(** The views of a scene's entities that run a script (src/ui/src/components/
    scene/SceneEntityCard.tsx, DomEntityView.tsx, Canvas2DEntityView.tsx and the
    helpers of sceneViewUtils.ts): which script an entity has, the text of the
    function that is run in the page, and what becomes of the function that the
    script gives back to clean up after itself. *)
From S2P Require Import Prelude JsNumber JsString JsValue JsonUtils.

(** ** The script of an entity *)

Definition safeString (v : value) : string := default "" (as_string v).

(** [s.length > limit ? s.slice(0, limit) : s]. *)
Definition cut_at (limit : Z) (s : string) : string :=
  if limit <? Z.of_nat (String.length s) then stake (Z.to_nat limit) s else s.

Definition dom_html (props : obj value) : string :=
  cut_at 1000000 (safeString (prop "html" props ??? (prop "markup" props ??? (prop "inner_html" props ??? prop "innerHTML" props)))).
Definition dom_script (props : obj value) : string :=
  cut_at 1000000 (safeString (prop "script" props ??? (prop "js" props ??? prop "code" props))).
Definition canvas_script (props : obj value) : string :=
  cut_at 100000 (safeString (prop "script" props |||| (prop "js" props |||| prop "code" props))).

(** [safeObject(props.script_args ?? props.args)]. *)
Definition script_args (props : obj value) : obj value := safeObject (prop "script_args" props ??? prop "args" props).

(** ** The function that is run *)

Definition backslash_char : ascii := "092"%char.

(** [/^[a-zA-Z_$][\\w$]*\\s*=>/], as it is written: in a regular expression two
    backslashes are one, so that the class has a backslash, a [w] and a dollar,
    and what follows it is a backslash and then letters [s]. *)
Definition starts_name (c : ascii) : bool :=
  (let n := code c in ((97 <=? n) && (n <=? 122)) || ((65 <=? n) && (n <=? 90)))%N || is_char "_" c || is_char "$" c.
Definition in_class (c : ascii) : bool := is_char backslash_char c || is_char "w" c || is_char "$" c.

Fixpoint after_class (escaped : bool) (s : string) : bool :=
  let arrow := escaped && starts_with "=>" (trim_start_by (is_char "s") s) in
  match s with
  | String c rest => if in_class c then after_class (is_char backslash_char c) rest else arrow
  | "" => arrow
  end.

Definition arrow_match (s : string) : bool :=
  match s with String c rest => starts_name c && after_class false rest | "" => false end.

Definition looksLikeFnExpr (script : string) : bool :=
  let trimmed := trim script in
  starts_with "function" trimmed || starts_with "async function" trimmed || starts_with "(" trimmed
  || starts_with "async (" trimmed || starts_with "async(" trimmed || arrow_match trimmed.

Definition nl : string := String "010" "".
Definition dq : string := String "034" "".

(** The function is called when the script is one. *)
Definition fn_body (script : string) : string :=
  nl ++s "const __fn = (" ++s script ++s ");" ++s nl
  ++s "if (typeof __fn === " ++s dq ++s "function" ++s dq ++s ") return await __fn(api, args);" ++s nl ++s "return __fn;" ++s nl.

Definition dom_body (script : string) : string := if looksLikeFnExpr script then fn_body script else script.

Definition canvas_body (script : string) : string :=
  if looksLikeFnExpr script then fn_body script
  else nl ++s "with ({ api, args, ctx: api.ctx, canvas: api.root, width: api.width, height: api.height, props: api.props, artifact: api.artifact, daemon: api.daemon }) {"
       ++s nl ++s "  " ++s script ++s nl ++s "}" ++s nl.

(** The last argument of [new Function]. *)
Definition dom_function (script : string) : string :=
  dq ++s "use strict" ++s dq ++s "; const console = __console; return (async function() {" ++s nl ++s dom_body script ++s nl ++s "})();".
Definition canvas_function (script : string) : string :=
  "const console = __console; return (async function() {" ++s nl ++s canvas_body script ++s nl ++s "})();".

(** What the card of an entity runs.  A document's view needs the address of the
    daemon and a value of [yolo]; a canvas has a drawing context. *)
Definition card_runs (expanded : bool) (baseUrl : string) (yolo : option bool) (entity : obj value) : option string :=
  let props := safeObject (prop "props" entity) in
  if negb expanded then None
  else if bool_decide (prop "kind" entity = VString "canvas2d") then
    if truthy_str (trim (canvas_script props)) then Some (canvas_function (canvas_script props)) else None
  else if bool_decide (prop "kind" entity = VString "dom") then
    if negb (truthy_str baseUrl) || bool_decide (yolo = None) then None
    else if truthy_str (trim (dom_script props)) then Some (dom_function (dom_script props)) else None
  else None.

Lemma cut_short limit s : Z.of_nat (String.length s) <= limit -> cut_at limit s = s.
Proof. intros H. unfold cut_at. by rewrite (proj2 (Z.ltb_ge limit _)). Qed.

(** A script that is not too long is run as it is, whatever the client's
    settings: they are no argument of the card. *)
Lemma script_runs baseUrl b entity props script :
  truthy_str baseUrl = true -> prop "kind" entity = VString "dom" -> prop "props" entity = VObject props ->
  prop "script" props = VString script -> trim script <> "" -> Z.of_nat (String.length script) <= 1000000 ->
  card_runs true baseUrl (Some b) entity = Some (dom_function script).
Proof.
  intros Hb Hk Hp Hs Ht%truthy_str_true Hl. unfold card_runs. rewrite Hk, Hp, Hb. change (safeObject (VObject props)) with props.
  cbv zeta. cbn [negb orb].
  rewrite (bool_decide_false (VString "dom" = VString "canvas2d")), (bool_decide_true (VString "dom" = VString "dom")) by done.
  unfold dom_script. rewrite Hs. change (safeString (VString script ??? _)) with script. by rewrite cut_short, Ht.
Qed.

(** An arrow function of one parameter without parentheses is not seen as one:
    its text is the body itself, an expression that does nothing. *)
Example arrow_not_called :
  map looksLikeFnExpr ["(api) => draw(api)"; "async (api) => draw(api)"; "function f(api) {}"; "api => draw(api)"; "x=>1"]
    = [true; true; true; false; false]
  /\ dom_body "api => draw(api)" = "api => draw(api)".
Proof. split; vm_compute; reflexivity. Qed.

(** ** Running and cleaning up *)

(** The view of one entity.  A run of the script is named by a number; [kept] is
    the run whose function cleans up ([cleanupRef]), [live] the runs that have
    not settled, with whether their effect was cleaned up meanwhile; [cleaned]
    are the runs whose function was called and [reported] the errors shown. *)
Record view := mkView {
  runs : nat; live : list (nat * bool); kept : option nat; cleaned : list nat; reported : list string }.

Definition new_view : view := mkView 0 [] None [] [].

Inductive event :=
  | Effect (script : bool)                   (* the effect runs; with a script? *)
  | Cleanup                                  (* the function the effect returned *)
  | Settle (i : nat) (r : bool + string).    (* a run ends: with a function to clean up, or an error *)

(** [cleanupRef.current?.(); cleanupRef.current = null]. *)
Definition call_kept (v : view) : view :=
  mkView (runs v) (live v) None (cleaned v ++ option_list (kept v)) (reported v).

Definition cancel_all (l : list (nat * bool)) : list (nat * bool) := map (fun p => (fst p, true)) l.

Definition step (v : view) (e : event) : view :=
  match e with
  | Effect script =>
      let v := call_kept v in
      if script then mkView (S (runs v)) (live v ++ [(runs v, false)]) (kept v) (cleaned v) (reported v) else v
  | Cleanup =>
      let v := call_kept v in mkView (runs v) (cancel_all (live v)) (kept v) (cleaned v) (reported v)
  | Settle i r =>
      match live v !! i with
      | None => v
      | Some (n, cancelled) =>
          let rest := delete i (live v) in
          match r with
          | inr e => mkView (runs v) rest (kept v) (cleaned v) (if (cancelled : bool) then reported v else reported v ++ [e])
          | inl cleanup =>
              mkView (runs v) rest (if (cancelled : bool) then kept v else if cleanup : bool then Some n else None) (cleaned v) (reported v)
          end
      end
  end.

Definition play (v : view) (es : list event) : view := fold_left step es v.

(** React calls the function that an effect returned before its next run; an
    effect without a script returns none. *)
Fixpoint alternating (mounted : bool) (es : list event) : Prop :=
  match es with
  | [] => True
  | Effect script :: es => mounted = false /\ alternating script es
  | Cleanup :: es => mounted = true /\ alternating false es
  | Settle _ _ :: es => alternating mounted es
  end.

Definition uncancelled (p : nat * bool) : bool := negb (snd p).

(** Every run is in one place: under way, kept, or cleaned up; and one run at
    most is not cancelled. *)
Record view_ok (mounted : bool) (v : view) : Prop := {
  ok_once : NoDup (map fst (live v) ++ option_list (kept v) ++ cleaned v);
  ok_new : Forall (fun n => (n < runs v)%nat) (map fst (live v) ++ option_list (kept v) ++ cleaned v);
  ok_active : (length (List.filter uncancelled (live v)) <= (if mounted then 1 else 0))%nat;
  ok_kept : kept v <> None -> List.filter uncancelled (live v) = [] }.

Lemma cancel_fst l : map fst (cancel_all l) = map fst l.
Proof. unfold cancel_all. rewrite map_map. done. Qed.

Lemma cancel_none l : List.filter uncancelled (cancel_all l) = [].
Proof. induction l as [|[n b] l IH]; [done|]. exact IH. Qed.

Lemma NoDup_moved (l k c : list nat) : NoDup (l ++ k ++ c) -> NoDup (l ++ c ++ k).
Proof. apply NoDup_Permutation_proper. by rewrite (Permutation_app_comm k c). Qed.

Lemma call_kept_ok m v : view_ok m v -> view_ok m (call_kept v) /\ kept (call_kept v) = None.
Proof.
  intros [H1 H2 H3 H4]. split; [|done]. split; cbn; [by apply NoDup_moved| |done|done].
  apply Forall_app in H2 as [Ha [Hb Hc]%Forall_app]. by repeat (apply Forall_app; split).
Qed.

Lemma active_delete (l : list (nat * bool)) i n (c : bool) : l !! i = Some (n, c) ->
  length (List.filter uncancelled l) = (length (List.filter uncancelled (delete i l)) + (if c then 0 else 1))%nat.
Proof.
  intros H. rewrite delete_take_drop, <-(take_drop_middle _ _ _ H) at 1.
  rewrite !List.filter_app, !length_app. cbn [List.filter]. unfold uncancelled at 2. cbn [snd]. destruct c; cbn [negb length]; lia.
Qed.

Lemma fst_delete (l : list (nat * bool)) i n (c : bool) : l !! i = Some (n, c) -> Permutation.Permutation (map fst l) (n :: map fst (delete i l)).
Proof.
  intros H. apply (Permutation.Permutation_map fst (l := l) (l' := (n, c) :: delete i l)). by apply delete_Permutation.
Qed.

Lemma view_step_ok m v e es :
  view_ok m v -> alternating m (e :: es) -> exists m', view_ok m' (step v e) /\ alternating m' es.
Proof.
  intros Hv Ha. destruct e as [script| |i r]; cbn [alternating step] in *.
  - destruct Ha as [-> Ha]. exists script. split; [|done]. destruct (call_kept_ok _ _ Hv) as [[H1 H2 H3 H4] Hk].
    set (w := call_kept v) in *. clearbody w. destruct script; [|by split].
    split; cbn [live runs kept cleaned].
    + rewrite Hk in *. cbn [option_list app] in *. rewrite map_app, <-app_assoc. cbn [map app fst].
      rewrite <-Permutation.Permutation_middle. constructor; [|done]. intros Hin. rewrite Forall_forall in H2. specialize (H2 _ Hin). lia.
    + rewrite Hk in *. cbn [option_list app] in *. rewrite map_app, <-app_assoc. apply Forall_app in H2 as [Ha1 Ha2].
      apply Forall_app; split; [eapply Forall_impl; [exact Ha1|]; cbn beta; lia|].
      apply Forall_cons; split; [cbn; lia|]. eapply Forall_impl; [exact Ha2|]. cbn beta. lia.
    + rewrite List.filter_app, length_app. cbn. cbn in H3. lia.
    + by rewrite Hk.
  - destruct Ha as [-> Ha]. exists false. split; [|done]. destruct (call_kept_ok _ _ Hv) as [[H1 H2 H3 H4] Hk].
    split; cbn [live runs kept cleaned]; rewrite ?cancel_fst; [done|done| |]; by rewrite cancel_none.
  - exists m. split; [|done]. destruct (live v !! i) as [[n c]|] eqn:Hi; [|done]. destruct Hv as [H1 H2 H3 H4].
    pose proof (fst_delete _ _ _ _ Hi) as Hp. pose proof (active_delete _ _ _ _ Hi) as Hl.
    rewrite Hp in H1, H2. cbn [app] in H1, H2. apply NoDup_cons in H1 as [Hn H1]. apply Forall_cons in H2 as [Hn2 H2].
    assert (Hact : forall k, (k <> None -> List.filter uncancelled (delete i (live v)) = []) ->
      NoDup (map fst (delete i (live v)) ++ option_list k ++ cleaned v) ->
      Forall (fun n => (n < runs v)%nat) (map fst (delete i (live v)) ++ option_list k ++ cleaned v) ->
      forall rep, view_ok m (mkView (runs v) (delete i (live v)) k (cleaned v) rep)).
    { intros k Hk1 Hk2 Hk3 rep. split; cbn [live runs kept cleaned]; [done|done| |done]. destruct c; lia. }
    assert (Hkeep : kept v <> None -> List.filter uncancelled (delete i (live v)) = []).
    { intros Hk. specialize (H4 Hk). rewrite H4 in Hl. apply length_zero_iff_nil. cbn in Hl. destruct c; lia. }
    destruct r as [cleanup|e]; [|by apply Hact]. destruct c; [by apply Hact|].
    assert (Hnone : kept v = None).
    { destruct (kept v) eqn:Hk; [|done]. rewrite H4 in Hl by done. cbn in Hl. lia. }
    assert (Hempty : List.filter uncancelled (delete i (live v)) = []).
    { apply length_zero_iff_nil. destruct m; lia. }
    rewrite Hnone in *. change (option_list None) with (@nil nat) in *. cbn [app] in *.
    destruct cleanup; apply Hact; try done; change (option_list (Some n)) with [n]; cbn [app];
      rewrite <-Permutation.Permutation_middle; by constructor.
Qed.

Lemma view_play_ok es v m : view_ok m v -> alternating m es -> exists m', view_ok m' (play v es).
Proof.
  revert v m. induction es as [|e es IH]; intros v m Hv Ha; [by exists m|].
  destruct (view_step_ok _ _ _ _ Hv Ha) as (m' & Hv' & Ha'). by apply (IH _ m').
Qed.

(** The function that a script gives back is called at most once, and not while
    a newer run is under way: a function is kept only when no run is. *)
Theorem cleaned_once es : alternating false es ->
  NoDup (cleaned (play new_view es))
  /\ (kept (play new_view es) <> None -> List.filter uncancelled (live (play new_view es)) = []).
Proof.
  intros Ha. destruct (view_play_ok es new_view false) as [m [H1 _ _ H4]]; [|done|].
  - split; cbn; [apply NoDup_nil_2|constructor|lia|done].
  - split; [|done]. apply NoDup_app in H1 as (_ & _ & H1). by apply NoDup_app in H1 as (_ & _ & H1).
Qed.

(** But it is dropped when the script ends after the view has gone on: what the
    script set up stays. *)
Example late_function_dropped :
  let v := play new_view [Effect true; Cleanup; Settle 0 (inl true); Effect true; Settle 0 (inl true); Cleanup] in
  cleaned v = [1%nat] /\ live v = [] /\ kept v = None.
Proof. done. Qed.

(** A document's entity is run wherever its card is shown. *)
Definition demo_entity : obj value :=
  [("id", VString "e"); ("kind", VString "dom"); ("props", VObject [("script", VString "api.root.textContent = 1")])].

Lemma cleaned_once_witness :
  NoDup (cleaned (play new_view [Effect true; Settle 0 (inl true); Cleanup; Effect true])).
Proof. apply cleaned_once. repeat split. Defined.
