(* ===== verification/SceneSession.v ===== *)
(** The scenes of the sessions (src/ui/src/hooks/useRuntimeClientEffects.ts):
    the operations on a scene, the daemon's answers to them and its snapshots.
    (Identifiers that are names of [Object.prototype], such as [constructor],
    which the code finds in every scene, are not modelled.) *)
From S2P Require Import Prelude JsNumber JsString JsValue JsOrder Shapes JsonUtils Caches History Conversation.
From S2P Require Import Browser ClientRpc ConversationView.

(** ** Scenes *)

Module Scene.

(** An entity is an object with [id], [kind], [title], [props], [created_ms]
    and [updated_ms]; a scene maps identifiers to entities. *)
Abbreviation entity := (obj value).
Abbreviation scene := (obj entity).

(** [String(op[k] ?? "").trim()]. *)
Definition text_of (k : string) (op : obj value) : string := trim (v_to_string (prop k op ??? VString "")).

(** [typeof op[a] === "string" ? op[a] : typeof op[b] === "string" ? op[b] : ""], trimmed. *)
Definition first_text (a b : string) (op : obj value) : string :=
  trim (match prop a op with
        | VString s => s
        | _ => match prop b op with VString s => s | _ => "" end
        end).

Definition getOpKind : obj value -> string := first_text "op" "kind".
Definition getCreateKind : obj value -> string := first_text "entity_kind" "entityKind".

(** [suffix] is [Math.random().toString(16).slice(2)]. *)
Definition genId (now : number) (suffix : string) : string := "ent-" ++s num_to_string now ++s "-" ++s suffix.

Definition err {A} (message : string) : A + string := inr ("Error: " ++s message).

Definition done_op (op id : string) : obj value := [("ok", VBool true); ("op", VString op); ("id", VString id)].

Definition new_entity (now : number) (id kind : string) (op : obj value) : entity :=
  [("id", VString id); ("kind", VString kind); ("title", pick is_string (prop "title" op));
   ("props", VObject (record "props" op)); ("created_ms", VNumber now); ("updated_ms", VNumber now)].

Definition with_props (now : number) (props : obj value) (existing : entity) : entity :=
  set "updated_ms" (VNumber now) (set "props" (VObject props) existing).

(** One operation: the scene and the result, or the text of the exception. *)
Definition op_effect (now : number) (suffix : string) (store : scene) (op : obj value) : (scene * obj value) + string :=
  let kind := getOpKind op in
  let id := text_of "id" op in
  if negb (truthy_str kind) then err "missing op"
  else if bool_decide (kind = "create") then
    let id := str_or id (genId now suffix) in
    let entityKind := getCreateKind op in
    if negb (truthy_str entityKind) then err "create requires entity_kind"
    else inl (set id (new_entity now id entityKind op) store, done_op "create" id)
  else if bool_decide (kind = "update") then
    if negb (truthy_str id) then err "update requires id"
    else match get id store with
         | None => err "entity not found"
         | Some existing =>
             inl (set id (with_props now (spread (record "props" existing) (record "props" op)) existing) store,
                  done_op "update" id)
         end
  else if bool_decide (kind = "delete") || bool_decide (kind = "remove") then
    if negb (truthy_str id) then err "delete requires id"
    else inl (remove id store, done_op "delete" id ++ [("existed", VBool (has id store))])
  else if bool_decide (kind = "clear") then
    inl (store, [("ok", VBool false); ("op", VString "clear"); ("error", VString "scene clear is disabled in WebUI")])
  else if bool_decide (kind = "action") then
    let action := text_of "action" op in
    if negb (truthy_str id) then err "action requires id"
    else if negb (truthy_str action) then err "action requires action"
    else match get id store with
         | None => err "entity not found"
         | Some existing =>
             let last_action := VObject [("name", VString action); ("args", prop "args" op); ("ts_unix_ms", VNumber now)] in
             inl (set id (with_props now (spread (record "props" existing) [("last_action", last_action)]) existing) store,
                  done_op "action" id ++ [("action", VString action)])
         end
  else err ("unsupported op: " ++s kind).

(** One pass of the loop. *)
Definition op_step (now : number) (suffix : string) (store : scene) (op : obj value) : scene * obj value :=
  match op_effect now suffix store op with
  | inl r => r
  | inr e => (store, [("ok", VBool false); ("error", VString e)])
  end.

(** The loop; [random i] is the suffix drawn for the operation [i]. *)
Fixpoint apply_ops (now : number) (random : nat -> string) (i : nat) (store : scene) (ops : list (obj value))
    : scene * list (obj value) :=
  match ops with
  | [] => (store, [])
  | op :: ops =>
      let '(store, result) := op_step now (random i) store op in
      let '(store, results) := apply_ops now random (S i) store ops in (store, result :: results)
  end.

(** The scenes of the sessions, the order of their use, the times of the
    daemon's versions ([cache]); the number of changes shown; and the keys of
    the operations whose answers are awaited. *)
Record state := mkState { cache : SceneCache scene; sceneVersion : nat; awaited : list string }.

Definition initial : state := mkState (mkSceneCache scene [] [] []) 0 [].

Definition touchSceneStore (key : string) (c : SceneCache scene) : SceneCache scene :=
  touchSceneStoreKey c key SCENE_STORE_MAX.

Definition scene_of (key : string) (c : SceneCache scene) : scene := default [] (get key (store c)).

Definition sceneEntities (key : string) (st : state) : list entity := map snd (scene_of key (cache st)).

Definition store_key (scope sid : string) : string := scope ++s "::" ++s sid.

Definition put_scene (key : string) (s : scene) (c : SceneCache scene) : SceneCache scene :=
  mkSceneCache scene (set key s (store c)) (order c) (updated c).

Definition put_updated (key : string) (t : number) (c : SceneCache scene) : SceneCache scene :=
  mkSceneCache scene (store c) (order c) (set key t (updated c)).

Definition not_clear (op : obj value) : bool := negb (bool_decide (prop "op" op = VString "clear")).

(** The result, the state, and the request to the daemon: the session and the
    operations. *)
Definition applySceneOps (scope : string) (now : number) (random : nat -> string) (sid : string)
    (ops : list (obj value)) (st : state) : outcome value * state * option (string * list (obj value)) :=
  let trimmedSessionId := trim sid in
  if negb (truthy_str trimmedSessionId) then (err "missing session_id for scene ops", st, None)
  else
    let storeKey := store_key scope trimmedSessionId in
    let c := if has storeKey (store (cache st)) then cache st else put_scene storeKey [] (cache st) in
    let c := touchSceneStore storeKey c in
    let opList := take 100 ops in
    let persistOps := List.filter not_clear opList in
    let '(s, results) := apply_ops now random 0 (scene_of storeKey c) opList in
    let c := put_scene storeKey s c in
    let posted := (0 <? length persistOps)%nat in
    (inl (VObject [("ok", VBool true); ("results", VArray (map VObject results));
                   ("count", VNumber (int (Z.of_nat (length s))))]),
     mkState c (S (sceneVersion st)) (if posted then awaited st ++ [storeKey] else awaited st),
     if posted then Some (trimmedSessionId, persistOps) else None).

(** The answer to operations of [storeKey]. *)
Definition scene_answer (storeKey : string) (resp : value) (st : state) : state :=
  if negb (bool_decide (vprop "ok" resp = VBool true)) then st
  else
    let t := match vprop "updated_unix_ms" resp with VNumber x => x | _ => int 0 end in
    let c := cache st in
    let c := if gtb t (int 0)
             then put_updated storeKey (math_max (or_0 (default NaN (get storeKey (updated c)))) t) c else c in
    match vprop "scene" resp with
    | VObject o =>
        mkState (touchSceneStore storeKey (put_scene storeKey (normalizeSceneEntityStore (VObject o)) c))
          (S (sceneVersion st)) (awaited st)
    | _ => mkState c (sceneVersion st) (awaited st)
    end.

(** The effect that follows the daemon's snapshot of the session. *)
Definition snapshot_effect (scope sessionId : string) (data : value) (st : state) : state :=
  if negb (truthy_str (trim sessionId)) then st
  else match normalizeSessionSceneSnapshot data with
       | None => st
       | Some (t, s) =>
           let updated_ms := match t with VNumber x => x | _ => int 0 end in
           let key := store_key scope sessionId in
           let prev := or_0 <$> get key (updated (cache st)) in
           if match prev with Some p => leb updated_ms p | None => false end then st
           else mkState (touchSceneStore key (put_updated key updated_ms (put_scene key s (cache st))))
                  (S (sceneVersion st)) (awaited st)
       end.

(** What happens: operations, the answer to the [i]-th awaited request
    ([None] when it fails), and a render with the query's data. *)
Inductive event :=
  | Apply (scope : string) (now : number) (random : nat -> string) (sid : string) (ops : list (obj value))
  | Answer (i : nat) (resp : option value)
  | Snapshot (scope sessionId : string) (data : value).

Definition step (st : state) (e : event) : state :=
  match e with
  | Apply scope now random sid ops => snd (fst (applySceneOps scope now random sid ops st))
  | Answer i resp =>
      match awaited st !! i with
      | None => st
      | Some key =>
          let st' := match resp with Some v => scene_answer key v st | None => st end in
          mkState (cache st') (sceneVersion st') (delete i (awaited st'))
      end
  | Snapshot scope sessionId data => snapshot_effect scope sessionId data st
  end.

Definition run (st : state) (es : list event) : state := fold_left step es st.

(** ** What is asked of a scene, on a finite map *)

Definition scene_map (s : scene) : gmap string entity := list_to_map s.

Definition created (now : number) (id kind : string) (title : option string) (props : obj value) : entity :=
  [("id", VString id); ("kind", VString kind); ("title", of_option (VString <$> title));
   ("props", VObject props); ("created_ms", VNumber now); ("updated_ms", VNumber now)].

Definition edited (now : number) (props : obj value) (e : entity) : entity :=
  with_props now (spread (record "props" e) props) e.

Definition acted (now : number) (action : string) (args : obj value) : entity -> entity :=
  edited now [("last_action", VObject [("name", VString action); ("args", VObject args); ("ts_unix_ms", VNumber now)])].

(** The scene after an operation, and whether it succeeds; [fresh] is the
    identifier that is made up. *)
Definition spec_op (now : number) (fresh : string) (m : gmap string entity) (op : SceneEntityMutationOp)
    : gmap string entity * bool :=
  let change (id : string) (f : entity -> entity) :=
    match m !! id with Some e => (<[id := f e]> m, true) | None => (m, false) end in
  match op with
  | OpCreate id kind title props => let id := default fresh id in (<[id := created now id kind title props]> m, true)
  | OpUpdate id props => change id (edited now props)
  | OpDelete id | OpRemove id => (delete id m, true)
  | OpAction id action args => change id (acted now action args)
  | OpClear _ => (m, false)
  end.

Fixpoint spec_ops (now : number) (fresh : nat -> string) (i : nat) (m : gmap string entity)
    (ops : list SceneEntityMutationOp) : gmap string entity * list bool :=
  match ops with
  | [] => (m, [])
  | op :: ops =>
      let '(m, ok) := spec_op now (fresh i) m op in
      let '(m, oks) := spec_ops now fresh (S i) m ops in (m, ok :: oks)
  end.

(** The operation as the object that the page passes on. *)
Definition op_record (op : SceneEntityMutationOp) : obj value := safeObject (op_value op).

Lemma lookup_scene_map s id : scene_map s !! id = get id s.
Proof.
  unfold scene_map. induction s as [|[k e] s IH]; [done|]. cbn [list_to_map fold_right get uncurry].
  case_bool_decide as H; [subst; by rewrite lookup_insert_eq|]. rewrite lookup_insert_ne; [done|by apply not_eq_sym].
Qed.

Lemma scene_map_set id e s : scene_map (set id e s) = <[id := e]> (scene_map s).
Proof.
  apply map_eq. intros k. rewrite lookup_scene_map, get_set, lookup_insert, lookup_scene_map.
  repeat case_bool_decide; repeat case_decide; congruence.
Qed.

Lemma scene_map_remove id s : scene_map (remove id s) = delete id (scene_map s).
Proof.
  apply map_eq. intros k. rewrite lookup_scene_map, get_remove, lookup_delete, lookup_scene_map.
  repeat case_bool_decide; repeat case_decide; congruence.
Qed.

Lemma effect_create now suffix s op :
  getOpKind op = "create" -> getCreateKind op <> "" ->
  let id := str_or (text_of "id" op) (genId now suffix) in
  op_effect now suffix s op = inl (set id (new_entity now id (getCreateKind op) op) s, done_op "create" id).
Proof. intros H Hk%truthy_str_true. unfold op_effect. rewrite H, Hk. reflexivity. Qed.

Lemma effect_update now suffix s op :
  getOpKind op = "update" -> text_of "id" op <> "" ->
  op_effect now suffix s op =
    match get (text_of "id" op) s with
    | None => err "entity not found"
    | Some e => inl (set (text_of "id" op) (edited now (record "props" op) e) s, done_op "update" (text_of "id" op))
    end.
Proof. intros H Hi%truthy_str_true. unfold op_effect. rewrite H, Hi. reflexivity. Qed.

Lemma effect_delete now suffix s op :
  getOpKind op = "delete" \/ getOpKind op = "remove" -> text_of "id" op <> "" ->
  op_effect now suffix s op =
    inl (remove (text_of "id" op) s, done_op "delete" (text_of "id" op) ++ [("existed", VBool (has (text_of "id" op) s))]).
Proof. intros H Hi%truthy_str_true. unfold op_effect. rewrite Hi. by destruct H as [-> | ->]. Qed.

Lemma effect_action now suffix s op :
  getOpKind op = "action" -> text_of "id" op <> "" -> text_of "action" op <> "" ->
  op_effect now suffix s op =
    match get (text_of "id" op) s with
    | None => err "entity not found"
    | Some e =>
        let last_action := VObject [("name", VString (text_of "action" op)); ("args", prop "args" op); ("ts_unix_ms", VNumber now)] in
        inl (set (text_of "id" op) (edited now [("last_action", last_action)] e) s,
             done_op "action" (text_of "id" op) ++ [("action", VString (text_of "action" op))])
    end.
Proof. intros H Hi%truthy_str_true Ha%truthy_str_true. unfold op_effect. rewrite H, Hi, Ha. reflexivity. Qed.

Lemma create_record id kind title props :
  let o := op_record (OpCreate id kind title props) in
  readable (OpCreate id kind title props) ->
  text_of "id" o = default "" id /\ getCreateKind o = kind
  /\ forall now i, new_entity now i kind o = created now i kind title props.
Proof.
  intros o [_ (Hi & Hk & Ht)]. split_and!.
  - unfold text_of. destruct id as [id|]; [apply Hi|by destruct title].
  - unfold getCreateKind, first_text. destruct id, title; apply Hk.
  - intros now i. by destruct id, title.
Qed.

Lemma op_step_spec now suffix s op :
  readable op ->
  let '(m, ok) := spec_op now (genId now suffix) (scene_map s) op in
  let '(s', result) := op_step now suffix s (op_record op) in
  scene_map s' = m /\ prop "ok" result = VBool ok.
Proof.
  intros Hop. pose proof Hop as [Hu Hr]. unfold op_step. cbn [usable] in *.
  destruct op as [id kind title props|id props|id|id|id action args|color]; cbn [spec_op];
    [set (o := op_record _)..|].
  - destruct (create_record id kind title props Hop) as (Hi & Hk & He). fold o in Hi, Hk, He.
    rewrite effect_create by (done || (rewrite Hk; apply Hu)). rewrite Hi, Hk, He. cbv zeta.
    replace (str_or (default "" id) (genId now suffix)) with (default (genId now suffix) id).
    { split; [|done]. apply scene_map_set. }
    destruct id as [id|]; [|done]. unfold str_or. change (default "" (Some id)) with id.
    destruct Hr as [[_ Hid] _]. by rewrite (proj2 (truthy_str_true id)).
  - assert (Hi : text_of "id" o = id) by exact Hr. rewrite effect_update by (done || by rewrite Hi).
    rewrite Hi, lookup_scene_map. change (record "props" o) with props.
    destruct (get id s); [|done]. split; [apply scene_map_set|done].
  - assert (Hi : text_of "id" o = id) by exact Hr. rewrite effect_delete by (by left || by rewrite Hi). rewrite Hi.
    split; [apply scene_map_remove|done].
  - assert (Hi : text_of "id" o = id) by exact Hr. rewrite effect_delete by (by right || by rewrite Hi). rewrite Hi.
    split; [apply scene_map_remove|done].
  - assert (Hi : text_of "id" o = id) by apply Hr. assert (Ha : text_of "action" o = action) by apply Hr.
    rewrite effect_action by (done || (rewrite ?Hi, ?Ha; apply Hu)). rewrite Hi, Ha, lookup_scene_map.
    change (prop "args" o) with (VObject args). destruct (get id s); [|done]. split; [apply scene_map_set|done].
  - split; [done|]. by destruct color.
Qed.

Lemma apply_ops_spec now random ops i s :
  Forall readable ops ->
  let '(m, oks) := spec_ops now (fun i => genId now (random i)) i (scene_map s) ops in
  let '(s', results) := apply_ops now random i s (map op_record ops) in
  scene_map s' = m /\ map (prop "ok") results = map VBool oks.
Proof.
  intros H. revert i s. induction H as [|op ops Hop _ IH]; intros i s; [done|].
  cbn [spec_ops map apply_ops]. pose proof (op_step_spec now (random i) s op Hop) as Hs.
  destruct (spec_op _ _ _ _) as [m ok], (op_step _ _ _ _) as [s1 r]. destruct Hs as [Hm Hok].
  specialize (IH (S i) s1). rewrite Hm in IH.
  destruct (spec_ops _ _ _ _ _) as [m2 oks], (apply_ops _ _ _ _ _) as [s2 rs]. destruct IH as [H1 H2].
  split; [done|]. cbn [map]. by f_equal.
Qed.

(** ** What holds of every state *)

Definition entity_named (p : string * entity) : Prop :=
  fst p <> "" /\ prop "id" (snd p) = VString (fst p)
  /\ exists kind, prop "kind" (snd p) = VString kind /\ trim kind = kind /\ kind <> "".

Definition scene_ok (s : scene) : Prop := wf s /\ ordered s /\ Forall entity_named s.

Record state_ok (st : state) : Prop := {
  ok_cache : cache_ok (cache st);
  ok_bound : (length (order (cache st)) <= 12)%nat;
  ok_wf : wf (store (cache st));
  ok_scenes : Forall (fun p => scene_ok (snd p)) (store (cache st));
  ok_awaited : Forall (fun k => k <> "") (awaited st) }.

Lemma scene_ok_nil : scene_ok [].
Proof. split_and!; [apply NoDup_nil_2|constructor..]. Qed.

Lemma normalized_ok v : scene_ok (normalizeSceneEntityStore v).
Proof.
  destruct (scene_store_ok v) as (H1 & H2 & H3). split_and!; [done..|].
  eapply Forall_impl; [exact H3|]. by intros p (_ & Hne & Hid & Hk & _).
Qed.

Lemma scene_ok_set id e s : entity_named (id, e) -> scene_ok s -> scene_ok (set id e s).
Proof.
  intros He (H1 & H2 & H3). split_and!; [by apply wf_set|by apply ordered_set|].
  apply Forall_forall. intros p [->|Hp]%elem_of_set; [done| |done]. rewrite Forall_forall in H3. by apply H3.
Qed.

Lemma scene_ok_remove id s : scene_ok s -> scene_ok (remove id s).
Proof. intros (H1 & H2 & H3). split_and!; [by apply wf_remove|by apply ordered_remove|by apply Forall_filter]. Qed.

Lemma prop_set_ne k k' v (o : obj value) : k <> k' -> prop k (set k' v o) = prop k o.
Proof. intros H. unfold prop. by rewrite get_set_ne. Qed.

Lemma edited_named now props id e s : scene_ok s -> get id s = Some e -> entity_named (id, edited now props e).
Proof.
  intros (_ & _ & H) Hg%get_in. rewrite Forall_forall in H. specialize (H _ Hg). revert H.
  unfold entity_named, edited, with_props. cbn [fst snd]. by rewrite !(prop_set_ne "id"), !(prop_set_ne "kind").
Qed.

Lemma op_step_ok now suffix s op : scene_ok s -> scene_ok (fst (op_step now suffix s op)).
Proof.
  intros Hs. unfold op_step, op_effect. set (id := text_of "id" op).
  destruct (truthy_str (getOpKind op)); [|done]. cbn [negb].
  case_bool_decide.
  { destruct (truthy_str (getCreateKind op)) eqn:Hk; [|done]. cbn [negb fst]. apply truthy_str_true in Hk.
    apply scene_ok_set; [|done]. split_and!; cbn [fst snd].
    - unfold str_or. destruct (truthy_str id) eqn:E; [by apply truthy_str_true|done].
    - done.
    - exists (getCreateKind op). split_and!; [done| |done]. apply trim_idem. }
  case_bool_decide.
  { destruct (truthy_str id); [|done]. cbn [negb]. destruct (get id s) as [e|] eqn:Hg; [|done].
    apply scene_ok_set; [|done]. by eapply (edited_named now _ id e). }
  destruct (_ || _); [destruct (truthy_str id); [by apply scene_ok_remove|done]|].
  case_bool_decide; [done|]. case_bool_decide; [|done].
  destruct (truthy_str id); [|done]. destruct (truthy_str (text_of "action" op)); [|done]. cbn [negb].
  destruct (get id s) as [e|] eqn:Hg; [|done]. apply scene_ok_set; [|done]. by eapply (edited_named now _ id e).
Qed.

Lemma apply_ops_ok now random ops i s : scene_ok s -> scene_ok (fst (apply_ops now random i s ops)).
Proof.
  revert i s. induction ops as [|op ops IH]; intros i s Hs; [done|]. cbn [apply_ops].
  pose proof (op_step_ok now (random i) s op Hs) as H1. destruct (op_step _ _ _ _) as [s1 r].
  specialize (IH (S i) s1 H1). by destruct (apply_ops _ _ _ _ _).
Qed.

(** A touch of the cache. *)
Lemma get_fold_remove {V} ks (o : obj V) k : k ∉ ks -> get k (fold_left (fun s k => remove k s) ks o) = get k o.
Proof.
  revert o. induction ks as [|j ks IH]; intros o; [done|]. intros [Hne Hk]%not_elem_of_cons. cbn [fold_left].
  rewrite IH, get_remove by done. by rewrite bool_decide_false.
Qed.

Lemma wf_fold_remove {V} ks (o : obj V) : wf o -> wf (fold_left (fun s k => remove k s) ks o).
Proof. revert o. induction ks as [|k ks IH]; intros o Ho; [done|]. cbn [fold_left]. by apply IH, wf_remove. Qed.

Lemma Forall_fold_remove {V} (P : string * V -> Prop) ks (o : obj V) :
  Forall P o -> Forall P (fold_left (fun s k => remove k s) ks o).
Proof. revert o. induction ks as [|k ks IH]; intros o Ho; [done|]. cbn [fold_left]. by apply IH, Forall_filter. Qed.

Lemma touch_keeps key c k :
  NoDup (order c) -> key <> "" -> k ∈ order (touchSceneStore key c) ->
  get k (store (touchSceneStore key c)) = get k (store c)
  /\ get k (updated (touchSceneStore key c)) = get k (updated c).
Proof.
  intros Hnd Hkey. unfold touchSceneStore, touchSceneStoreKey. rewrite (proj2 (truthy_str_true key) Hkey). cbn [negb].
  pose proof (touch_order_NoDup key (order c) Hnd) as Ho. set (o1 := remove_first key (order c) ++ [key]) in *.
  destruct (_ || _); cbn [store order updated]; [done|]. set (n := (length o1 - Z.to_nat SCENE_STORE_MAX)%nat).
  intros Hk. rewrite <- (take_drop n o1) in Ho. apply NoDup_app in Ho as (_ & Hd & _).
  assert (k ∉ take n o1) by (intros Ht; by apply (Hd k)). by rewrite !get_fold_remove.
Qed.

Lemma touch_latest key c : key <> "" -> key ∈ order (touchSceneStore key c).
Proof.
  intros Hkey. unfold touchSceneStore. rewrite touch_order by done. unfold last_n. rewrite length_app.
  rewrite drop_app_le by (cbn [length]; unfold SCENE_STORE_MAX; lia). apply elem_of_app. right. by left.
Qed.

Lemma touch_ok key c :
  key <> "" -> NoDup (order c) ->
  (forall k, k ∈ keys (store c) -> k ∈ order c \/ k = key) -> (forall k, k ∈ keys (updated c) -> k ∈ order c \/ k = key) ->
  wf (store c) -> Forall (fun p => scene_ok (snd p)) (store c) ->
  let c' := touchSceneStore key c in
  cache_ok c' /\ (length (order c') <= 12)%nat /\ wf (store c') /\ Forall (fun p => scene_ok (snd p)) (store c').
Proof.
  intros Hk Hnd Hs Hu Hw Hf c'.
  destruct (touchSceneStoreKey_invariant c key SCENE_STORE_MAX) as (H1 & H2 & _); [done..|].
  split_and!; [exact H1|apply Nat2Z.inj_le; exact H2|..];
    unfold c', touchSceneStore, touchSceneStoreKey; rewrite (proj2 (truthy_str_true key) Hk); cbn [negb];
    destruct (_ || _); cbn [store]; [done|by apply wf_fold_remove|done|by apply Forall_fold_remove].
Qed.

Lemma Forall_set {V} (P : string * V -> Prop) k v (o : obj V) : wf o -> P (k, v) -> Forall P o -> Forall P (set k v o).
Proof.
  intros Hw Hp Ho. apply Forall_forall. intros p [->|H]%elem_of_set; [done| |done]. rewrite Forall_forall in Ho. by apply Ho.
Qed.

Lemma store_key_nonempty scope sid : store_key scope sid <> "".
Proof. unfold store_key. by destruct scope. Qed.

(** An answer that carries the scene; the daemon's schema leaves it optional. *)
Definition with_scene (e : event) : Prop :=
  match e with
  | Answer _ (Some v) => is_record (vprop "scene" v) = true
  | _ => True
  end.

(** Storing a scene under a key, then touching it. *)
Lemma stored_ok key s (c : SceneCache scene) :
  key <> "" -> scene_ok s -> cache_ok c -> wf (store c) -> Forall (fun p => scene_ok (snd p)) (store c) ->
  (forall u, (forall k, k ∈ keys u -> k ∈ keys (updated c) \/ k = key) ->
     let c' := touchSceneStore key (mkSceneCache scene (set key s (store c)) (order c) u) in
     cache_ok c' /\ (length (order c') <= 12)%nat /\ wf (store c') /\ Forall (fun p => scene_ok (snd p)) (store c')
     /\ get key (store c') = Some s).
Proof.
  intros Hk Hs (Hnd & H1 & H2) Hw Hf u Hu c'.
  destruct (touch_ok key (mkSceneCache scene (set key s (store c)) (order c) u)) as (A & B & C & D); cbn [store order updated].
  - done.
  - done.
  - intros k [->|H]%in_keys_set; [by right|left; by apply H1].
  - intros k [H|H]%Hu; [left; by apply H2|by right].
  - by apply wf_set.
  - by apply Forall_set.
  - split_and!; [done..|]. unfold c'. set (c1 := mkSceneCache _ _ _ _).
    rewrite (proj1 (touch_keeps key c1 key Hnd Hk (touch_latest _ _ Hk))). apply get_set_eq.
Qed.

Lemma put_ok key s c :
  scene_ok s -> cache_ok c -> key ∈ order c -> wf (store c) -> Forall (fun p => scene_ok (snd p)) (store c) ->
  let c' := put_scene key s c in
  cache_ok c' /\ wf (store c') /\ Forall (fun p => scene_ok (snd p)) (store c').
Proof.
  intros Hs (Hnd & H1 & H2) Hk Hw Hf. split_and!; [|by apply wf_set|by apply Forall_set].
  split_and!; [done| |done]. intros k [->|H]%in_keys_set; [done|by apply H1].
Qed.

Lemma scene_of_ok key c : wf (store c) -> Forall (fun p => scene_ok (snd p)) (store c) -> scene_ok (scene_of key c).
Proof.
  intros Hw Hf. unfold scene_of. destruct (get key (store c)) as [s|] eqn:Hg; [|apply scene_ok_nil].
  rewrite Forall_forall in Hf. by apply (Hf (key, s)), get_in.
Qed.

(** The cache of [applySceneOps] before the operations. *)
Definition opened (key : string) (c : SceneCache scene) : SceneCache scene :=
  touchSceneStore key (if has key (store c) then c else put_scene key [] c).

Lemma opened_ok key st :
  key <> "" -> state_ok st ->
  let c := opened key (cache st) in
  cache_ok c /\ (length (order c) <= 12)%nat /\ wf (store c) /\ Forall (fun p => scene_ok (snd p)) (store c)
  /\ key ∈ order c
  /\ (forall k, k ∈ order c -> scene_of k c = scene_of k (cache st)).
Proof.
  intros Hk [Hc Hb Hw Hf Ha] c. pose proof (touch_latest key (if has key (store (cache st)) then cache st else put_scene key [] (cache st)) Hk) as Hin.
  unfold c, opened in *. destruct (has key (store (cache st))) eqn:Hh.
  - destruct (touch_ok key (cache st)) as (A & B & C & D); [done|apply Hc|intros k H; left; by apply (proj1 (proj2 Hc))
      |intros k H; left; by apply (proj2 (proj2 Hc))|done|done|].
    split_and!; [done..|]. intros k Hin'. unfold scene_of. by rewrite (proj1 (touch_keeps key _ k (proj1 Hc) Hk Hin')).
  - destruct (stored_ok key [] (cache st) Hk scene_ok_nil Hc Hw Hf (updated (cache st))) as (A & B & C & D & G).
    { by left. }
    split_and!; [done..|]. intros k Hin'. unfold scene_of.
    rewrite (proj1 (touch_keeps key (put_scene key [] (cache st)) k (proj1 Hc) Hk Hin')). cbn [put_scene store]. rewrite get_set. case_bool_decide; [|done]. subst k.
    apply has_false in Hh. by rewrite Hh.
Qed.

Lemma step_state_ok st e : state_ok st -> with_scene e -> state_ok (step st e).
Proof.
  intros Hok He. destruct e as [scope now random sid ops|i resp|scope sid data]; cbn [step with_scene] in *.
  - unfold applySceneOps. destruct (truthy_str (trim sid)); [|done]. cbn [negb].
    fold (opened (store_key scope (trim sid)) (cache st)).
    destruct (opened_ok (store_key scope (trim sid)) st) as (A & B & C & D & Hin & _); [apply store_key_nonempty|done|].
    generalize dependent (opened (store_key scope (trim sid)) (cache st)). intros c A B C D Hin.
    pose proof (apply_ops_ok now random (take 100 ops) 0 _ (scene_of_ok (store_key scope (trim sid)) c C D)) as Hs.
    destruct (apply_ops _ _ _ _ _) as [s rs]. cbn [fst snd].
    destruct (put_ok (store_key scope (trim sid)) s c Hs A Hin C D) as (A' & C' & D').
    constructor; cbn [cache awaited]; [done..|]. case_match; [|apply Hok].
    apply Forall_app. split; [apply Hok|]. repeat constructor. apply store_key_nonempty.
  - destruct (awaited st !! i) as [key|] eqn:Hi; [|done].
    assert (Hkey : key <> "").
    { pose proof (ok_awaited _ Hok) as H. rewrite Forall_forall in H. apply H. by eapply list_elem_of_lookup_2. }
    set (st' := match resp with Some v => scene_answer key v st | None => st end).
    assert (Hst' : state_ok st').
    { unfold st'. destruct resp as [v|]; [|done]. unfold scene_answer. destruct (bool_decide _); [|done]. cbn [negb].
      destruct (vprop "scene" v) as [| | | | | |o]; try done. destruct Hok as [Hc Hb Hw Hf Ha].
      set (t := match vprop "updated_unix_ms" v with VNumber x => x | _ => int 0 end). clearbody t.
      pose proof (stored_ok key _ (cache st) Hkey (normalized_ok (VObject o)) Hc Hw Hf) as H.
      case_match.
      - destruct (H (set key (math_max (or_0 (default NaN (get key (updated (cache st))))) t) (updated (cache st)))) as (A & B & C & D & _).
        { intros k [->|Hx]%in_keys_set; [by right|by left]. }
        by constructor.
      - destruct (H (updated (cache st))) as (A & B & C & D & _); [by left|]. by constructor. }
    clearbody st'. destruct Hst' as [A B C D F]. constructor; cbn [cache awaited]; [done..|]. by apply Forall_delete.
  - unfold snapshot_effect. destruct (truthy_str (trim sid)); [|done]. cbn [negb].
    destruct (normalizeSessionSceneSnapshot data) as [[t s]|] eqn:Hd; [|done]. case_match; [done|].
    destruct Hok as [Hc Hb Hw Hf Ha]. set (key := store_key scope sid). set (tm := match t with VNumber x => x | _ => int 0 end).
    assert (Hs : scene_ok s).
    { unfold normalizeSessionSceneSnapshot in Hd. destruct data; try done. cbn in Hd. destruct (bool_decide _); [|done]. injection Hd as _ <-. apply normalized_ok. }
    destruct (stored_ok key s (cache st) (store_key_nonempty _ _) Hs Hc Hw Hf (set key tm (updated (cache st)))) as (A & B & C & D & _).
    { intros k [->|Hx]%in_keys_set; [by right|by left]. }
    by constructor.
Qed.

Lemma run_state_ok es st : state_ok st -> Forall with_scene es -> state_ok (run st es).
Proof.
  unfold run. revert st. induction es as [|e es IH]; intros st Hst; [done|]. intros [He Hes]%Forall_cons. cbn [fold_left].
  apply IH; [by apply step_state_ok|done].
Qed.

Lemma initial_ok : state_ok initial.
Proof.
  constructor; cbn; [|lia|apply NoDup_nil_2|constructor|constructor]. split_and!; [apply NoDup_nil_2|by intros k ?%elem_of_nil..].
Qed.

(** ** The times of the versions *)

Lemma get_fold_remove_some {V} ks (o : obj V) k v :
  get k (fold_left (fun s k => remove k s) ks o) = Some v -> get k o = Some v.
Proof.
  revert o. induction ks as [|j ks IH]; intros o; [done|]. cbn [fold_left].
  intros H%IH. rewrite get_remove in H. by case_bool_decide.
Qed.

Lemma touch_updated key c k t :
  get k (updated (touchSceneStore key c)) = Some t -> get k (updated c) = Some t.
Proof.
  unfold touchSceneStore, touchSceneStoreKey. case_match; [done|]. case_match; [done|]. apply get_fold_remove_some.
Qed.

(** The number a step records for a key: none, or one that is not less. *)
Definition later (t : option number) (t' : number) : Prop :=
  is_nan t' = false /\ forall x, t = Some x -> is_nan x = false -> leb x t' = true.

Lemma leb_or_0 x : is_nan x = false -> leb x (or_0 x) = true.
Proof.
  unfold or_0. destruct x as [| | |k]; try done. intros _. cbn [num_truthy]. destruct (Z.eqb_spec k 0) as [->|]; [done|].
  cbn [negb]. by apply leb_refl.
Qed.

Lemma later_time_max t x :
  gtb x (int 0) = true -> later t (math_max (or_0 (default NaN t)) x).
Proof.
  intros Hx. assert (Hn : is_nan x = false) by (by destruct x).
  assert (Ho : forall y, is_nan (or_0 y) = false) by (intros [| | |[]]; done).
  assert (Hm : forall a, is_nan a = false -> is_nan (math_max a x) = false /\ leb a (math_max a x) = true).
  { intros a Ha. unfold math_max. rewrite Ha, Hn. cbn [orb]. destruct (leb a x) eqn:E; [done|].
    split; [done|by apply leb_refl]. }
  destruct (Hm (or_0 (default NaN t)) (Ho _)) as [H1 H2]. split; [done|].
  intros y -> Hy. eapply leb_trans; [by apply leb_or_0|exact H2].
Qed.

Lemma snapshot_time data v s :
  normalizeSessionSceneSnapshot data = Some (v, s) -> is_nan (match v with VNumber x => x | _ => int 0 end) = false.
Proof.
  unfold normalizeSessionSceneSnapshot. destruct data; try done. cbn. destruct (bool_decide _); [|done].
  intros [= <- _]. generalize (prop "updated_unix_ms" o). unfold asFiniteNumber. intros w.
  destruct w as [| | |x|t| |]; try done; [by destruct x|].
  destruct (truthy_str (trim t)); [|done]. cbv zeta. by destruct (str_to_number t).
Qed.

Lemma step_later st e key t' :
  get key (updated (cache (step st e))) = Some t' ->
  get key (updated (cache st)) = Some t' \/ later (get key (updated (cache st))) t'.
Proof.
  destruct e as [scope now random sid ops|i resp|scope sid data]; cbn [step].
  - unfold applySceneOps. destruct (truthy_str (trim sid)); [|by left]. cbn [negb].
    destruct (apply_ops _ _ _ _ _) as [s rs]. cbn [fst snd cache put_scene updated].
    intros H%touch_updated. left. by destruct (has _ _).
  - destruct (awaited st !! i) as [k|]; [|by left]. cbn [cache]. destruct resp as [v|]; [|by left].
    unfold scene_answer. destruct (negb _); [by left|].
    set (t := match vprop "updated_unix_ms" v with VNumber x => x | _ => int 0 end). clearbody t.
    set (c := if gtb t (int 0) then _ else cache st).
    assert (Hc : get key (updated c) = Some t' ->
                 get key (updated (cache st)) = Some t' \/ later (get key (updated (cache st))) t').
    { unfold c. destruct (gtb t (int 0)) eqn:Hg; [|by left]. cbn [put_updated updated]. rewrite get_set.
      case_bool_decide; [|by left]. subst k. intros [= <-]. right. by apply later_time_max. }
    clearbody c. destruct (vprop "scene" v); try exact Hc. cbn [cache]. intros H%touch_updated. by apply Hc.
  - unfold snapshot_effect. destruct (negb _); [by left|].
    destruct (normalizeSessionSceneSnapshot data) as [[v s]|] eqn:Hd; [|by left].
    apply snapshot_time in Hd. set (x := match v with VNumber x => x | _ => int 0 end) in *. clearbody x.
    destruct (match _ with Some p => leb x p | None => false end) eqn:Hp; [by left|].
    cbn [cache]. intros H%touch_updated. cbn [put_updated put_scene updated] in H. rewrite get_set in H.
    case_bool_decide; [|by left]. subst key. injection H as <-. right. split; [done|].
    intros y Hy Hn. rewrite Hy in Hp. cbn [fmap option_fmap option_map] in Hp.
    assert (Ho : is_nan (or_0 y) = false) by (by destruct y as [| | |[]]).
    eapply leb_trans; [by apply leb_or_0|].
    destruct (leb_total (or_0 y) x) as [H|H]; [done..|]. congruence.
Qed.

Lemma run_times es st key t :
  (forall k x, get k (updated (cache st)) = Some x -> is_nan x = false) ->
  get key (updated (cache (run st es))) = Some t -> is_nan t = false.
Proof.
  unfold run. revert st. induction es as [|e es IH]; intros st Hst; cbn [fold_left]; [apply Hst|]. apply IH.
  intros k x [H|[H _]]%step_later; [by eapply Hst|done].
Qed.

(** ** Theorems *)

(** C1: what an agent asks of a scene is what happens to it.  In every state that
    the page reaches, a request of at most 100 operations, written the way the
    daemon passes it on, does to the scene of the session (a finite map from
    identifiers to entities) exactly what the operations say one after another,
    and reports which of them succeeded; the other scenes that stay in the cache
    are as before; and the daemon is sent the operations for the session, in
    order, but for those that clear the scene, and nothing if none is left. *)
Theorem scene_request_refines {E : Ellipsis} (es : list event) (scope sid : string) (now : number)
    (random : nat -> string) (ops : list SceneEntityMutationOp) :
  Forall with_scene es -> Forall readable ops -> (length ops <= 100)%nat -> trim sid <> "" ->
  let st := run initial es in
  let key := store_key scope (trim sid) in
  let asked := buildEntityApplyOps (VObject [("ops", VArray (map op_value ops))]) in
  let '(m, oks) := spec_ops now (fun i => genId now (random i)) 0 (scene_map (scene_of key (cache st))) ops in
  let '(answer, st', request) := applySceneOps scope now random sid (map op_record asked) st in
  scene_map (scene_of key (cache st')) = m
  /\ (exists results, answer = inl (VObject [("ok", VBool true); ("results", VArray (map VObject results));
                                            ("count", VNumber (int (Z.of_nat (size m))))])
       /\ map (prop "ok") results = map VBool oks)
  /\ (forall k, k <> key -> k ∈ order (cache st') -> scene_of k (cache st') = scene_of k (cache st))
  /\ request = (let kept := List.filter (fun op => match op with OpClear _ => false | _ => true end) ops in
                if decide (kept = []) then None else Some (trim sid, map op_record kept)).
Proof.
  intros Hes Hops Hlen Hsid st key asked.
  assert (Hok : state_ok st) by (apply run_state_ok; [apply initial_ok|done]).
  assert (Hasked : asked = ops) by by apply omap_read_back.
  assert (Hk : key <> "") by apply store_key_nonempty.
  destruct (opened_ok key st Hk Hok) as (A & B & C & D & Hin & Hkeep).
  unfold applySceneOps. rewrite (proj2 (truthy_str_true _) Hsid). cbn [negb]. fold key. fold (opened key (cache st)).
  rewrite Hasked, take_ge by (by rewrite length_map).
  pose proof (apply_ops_spec now random ops 0 (scene_of key (opened key (cache st))) Hops) as Hspec.
  pose proof (apply_ops_ok now random (map op_record ops) 0 _ (scene_of_ok key _ C D)) as Hs.
  rewrite (Hkeep key Hin) in Hspec, Hs |- *. generalize dependent (opened key (cache st)). intros c A B C D Hin Hkeep.
  destruct (spec_ops _ _ _ _ _) as [m oks], (apply_ops _ _ _ _ _) as [s results].
  destruct Hspec as [Hm Hr]. cbn [fst] in Hs. destruct Hs as (Hws & _). cbn [cache put_scene order store].
  assert (Hget : forall k, scene_of k (put_scene key s c) = if bool_decide (k = key) then s else scene_of k c).
  { intros k. unfold scene_of. cbn [store put_scene]. rewrite get_set. by case_bool_decide. }
  split; [|split; [|split]].
  - rewrite Hget, bool_decide_true by done. exact Hm.
  - exists results. split; [|exact Hr]. rewrite <- Hm. unfold scene_map. rewrite map_size_list_to_map by exact Hws. done.
  - intros k Hne Hk'. rewrite Hget, bool_decide_false by done. by apply Hkeep.
  - assert (Hf : List.filter not_clear (map op_record ops)
                 = map op_record (List.filter (fun op => match op with OpClear _ => false | _ => true end) ops)).
    { clear. induction ops as [|op ops IH]; [done|]. cbn [map List.filter]. rewrite IH. by destruct op as [[] ? []| | | | |[]]. }
    rewrite Hf, length_map. by destruct (List.filter _ ops).
Qed.

(** The scenes of the page.  Whatever operations, answers and snapshots come,
    in any order, at most twelve scenes are kept, the last ones that were used;
    every one maps the identifiers of its entities to them, in the order of
    properties, and each entity has a name and a kind.  The daemon's version of
    a scene never goes back, and a snapshot that is not newer changes nothing. *)
Theorem scenes_kept (es : list event) (e : event) :
  Forall with_scene (es ++ [e]) ->
  let st := run initial es in
  let st' := run initial (es ++ [e]) in
  state_ok st'
  /\ (forall key t t', get key (updated (cache st)) = Some t -> get key (updated (cache st')) = Some t' -> leb t t' = true)
  /\ (forall scope sid data t t' s, e = Snapshot scope sid data -> normalizeSessionSceneSnapshot data = Some (VNumber t', s) ->
        get (store_key scope sid) (updated (cache st)) = Some t -> leb t' (or_0 t) = true -> st' = st).
Proof.
  intros Hes st st'. assert (Hst' : st' = step st e) by (unfold st', run; by rewrite fold_left_app).
  split; [apply run_state_ok; [apply initial_ok|done]|]. rewrite Hst'. split.
  - intros key t t' Ht Ht'. assert (Hn : is_nan t = false) by (by eapply (run_times es initial)).
    apply step_later in Ht' as [H|[_ H]]; [|by apply H]. rewrite Ht in H. injection H as ->. by apply leb_refl.
  - intros scope sid data t t' s -> Hd Ht Hle. cbn [step]. unfold snapshot_effect. rewrite Hd. case_match; [done|].
    rewrite Ht. cbn [fmap option_fmap option_map]. by rewrite Hle.
Qed.

Definition answer (t : number) (o : obj value) : value :=
  VObject [("ok", VBool true); ("updated_unix_ms", VNumber t); ("scene", VObject o)].

Lemma scene_answer_full key t o st :
  NoDup (order (cache st)) -> key <> "" -> 0 < t ->
  let st' := scene_answer key (answer (Fin t) o) st in
  get key (store (cache st')) = Some (normalizeSceneEntityStore (VObject o))
  /\ get key (updated (cache st')) = Some (math_max (or_0 (default NaN (get key (updated (cache st))))) (Fin t))
  /\ NoDup (order (cache st')) /\ awaited st' = awaited st.
Proof.
  intros Hnd Hk Ht. cbv zeta. unfold scene_answer. change (vprop "ok" (answer (Fin t) o)) with (VBool true).
  change (vprop "updated_unix_ms" (answer (Fin t) o)) with (VNumber (Fin t)).
  change (vprop "scene" (answer (Fin t) o)) with (VObject o). rewrite bool_decide_true by done. cbn [negb].
  replace (gtb (Fin t) (int 0)) with true by (symmetry; cbn; by apply Z.ltb_lt). cbn [cache awaited].
  match goal with |- context [touchSceneStore key ?c1] => set (c := c1) end.
  destruct (touch_keeps key c key Hnd Hk (touch_latest key c Hk)) as [-> ->].
  split_and!; [apply get_set_eq|apply get_set_eq| |done].
  unfold touchSceneStore. rewrite touch_order by done. unfold last_n.
  eapply sublist_NoDup; [exact (touch_order_NoDup key (order c) Hnd)|apply sublist_drop].
Qed.

(** C4: two requests of a session, and the answer to the first comes after the
    answer to the second: the page then shows the older scene, under the time of
    the newer one, so that the snapshots of the newer scene are taken for known
    and the older scene stays until the daemon's next change. *)
Theorem late_answer_wins (st : state) (scope sid : string) (t1 t2 : Z) (o1 o2 : obj value) :
  let key := store_key scope sid in
  NoDup (order (cache st)) -> awaited st = [key; key] -> get key (updated (cache st)) = None ->
  0 < t1 < t2 ->
  let late := run st [Answer 1 (Some (answer (Fin t2) o2)); Answer 0 (Some (answer (Fin t1) o1))] in
  scene_of key (cache late) = normalizeSceneEntityStore (VObject o1)
  /\ get key (updated (cache late)) = Some (Fin t2)
  /\ forall data t s, normalizeSessionSceneSnapshot data = Some (VNumber (Fin t), s) -> t <= t2 ->
       step late (Snapshot scope sid data) = late.
Proof.
  intros key Hnd Ha Hu Ht late. assert (Hk : key <> "") by apply store_key_nonempty.
  pose proof (scene_answer_full key t2 o2 st Hnd Hk ltac:(lia)) as H. cbv zeta in H. rewrite Hu in H.
  destruct H as (_ & H2 & Hnd' & Ha').
  set (st1 := scene_answer key (answer (Fin t2) o2) st) in *.
  assert (Hlate : late = let s2 := scene_answer key (answer (Fin t1) o1) (mkState (cache st1) (sceneVersion st1) [key])
                         in mkState (cache s2) (sceneVersion s2) []).
  { unfold late, run. cbn [fold_left step]. rewrite Ha. cbn [lookup list_lookup]. fold st1. rewrite Ha', Ha.
    cbn [delete list_delete awaited lookup list_lookup]. cbv zeta.
    by rewrite (proj2 (proj2 (proj2 (scene_answer_full key t1 o1 (mkState (cache st1) (sceneVersion st1) [key]) Hnd' Hk ltac:(lia))))). }
  clearbody late. subst late.
  destruct (scene_answer_full key t1 o1 (mkState (cache st1) (sceneVersion st1) [key]) Hnd' Hk) as (G1 & G2 & _); [lia|].
  cbv zeta. cbn [cache]. cbn [cache] in G2. rewrite H2 in G2.
  assert (Hmax : forall a b, 0 <= a -> 0 < b -> math_max (or_0 (Fin a)) (Fin b) = Fin (Z.max a b)).
  { intros a b Ha0 Hb. unfold or_0, math_max. cbn [num_truthy is_nan orb].
    change (int 0) with (Fin 0). destruct (Z.eqb_spec a 0) as [->|]; cbn [negb is_nan orb leb];
      [destruct (Z.leb_spec 0 b)|destruct (Z.leb_spec a b)]; f_equal; lia. }
  change (or_0 (default NaN None)) with (or_0 (Fin 0)) in G2. rewrite Hmax in G2 by lia.
  unfold from_option, id in G2. cbn [default] in G2. rewrite Hmax in G2 by lia.
  replace (Z.max (Z.max 0 t2) t1) with t2 in G2 by lia. clear H2.
  generalize dependent (scene_answer key (answer (Fin t1) o1) (mkState (cache st1) (sceneVersion st1) [key])).
  intros s2 G1 G2. unfold scene_of. rewrite G1. split_and!; [done|exact G2|].
  intros data t s Hd Hle. cbn [step]. unfold snapshot_effect. rewrite Hd. case_match; [done|]. cbn [cache].
  fold key. rewrite G2. cbn [fmap option_fmap option_map]. unfold or_0. cbn [num_truthy].
  rewrite (proj2 (Z.eqb_neq t2 0)) by lia. cbn [negb leb]. by rewrite (proj2 (Z.leb_le t t2)).
Qed.

(** ** Concrete inputs *)

Definition demo_ops : list SceneEntityMutationOp :=
  [OpCreate (Some "a") "note" None [("x", VNumber (int 1))]; OpUpdate "a" [("y", VNull)]; OpUpdate "b" []; OpClear None].

Definition demo_random (i : nat) : string := "f".

Lemma scene_request_refines_witness :
  Forall readable demo_ops
  /\ let '(answer, st', request) :=
       applySceneOps "p" (int 5) demo_random "s" (map op_record (buildEntityApplyOps (E := demo_dots)
         (VObject [("ops", VArray (map op_value demo_ops))]))) initial in
     size (scene_map (scene_of "p::s" (cache st'))) = 1%nat
     /\ request = Some ("s", map op_record (take 3 demo_ops)).
Proof.
  assert (Hr : Forall readable demo_ops) by by repeat constructor.
  split; [exact Hr|].
  pose proof (scene_request_refines (E := demo_dots) [] "p" "s" (int 5) demo_random demo_ops
                (List.Forall_nil _) Hr ltac:(cbn; lia) ltac:(done)) as H.
  cbv zeta in H. change (run initial []) with initial in H.
  destruct (spec_ops _ _ _ _ _) as [m oks] eqn:Hm in H. destruct (applySceneOps _ _ _ _ _ _) as [[answer st'] request].
  destruct H as (H1 & _ & _ & H4). split; [|exact H4].
  change (store_key "p" (trim "s")) with "p::s" in H1. rewrite H1.
  change m with (fst (m, oks)). rewrite <-Hm. by vm_compute.
Defined.

Definition demo_data (t : Z) : value :=
  VObject [("ok", VBool true); ("updated_unix_ms", VNumber (Fin t)); ("scene", VObject [])].

Lemma scenes_kept_witness :
  let st := run initial [Snapshot "p" "s" (demo_data 7)] in
  get "p::s" (updated (cache st)) = Some (Fin 7)
  /\ state_ok (step st (Snapshot "p" "s" (demo_data 6))) /\ step st (Snapshot "p" "s" (demo_data 6)) = st.
Proof.
  intros st. split; [by vm_compute|].
  destruct (scenes_kept [Snapshot "p" "s" (demo_data 7)] (Snapshot "p" "s" (demo_data 6))) as (H1 & _ & H3); [by repeat constructor|].
  split; [exact H1|]. apply (H3 "p" "s" (demo_data 6) (Fin 7) (Fin 6) []); by vm_compute.
Defined.

Definition demo_late : state :=
  mkState (mkSceneCache scene [] [] []) 0 ["p::s"; "p::s"].

Definition demo_scene (kind : string) : obj value := [("a", VObject [("kind", VString kind)])].

Lemma late_answer_wins_witness :
  let late := run demo_late [Answer 1 (Some (answer (Fin 2) (demo_scene "new"))); Answer 0 (Some (answer (Fin 1) (demo_scene "old")))] in
  map (prop "kind") (sceneEntities "p::s" late) = [VString "old"]
  /\ step late (Snapshot "p" "s" (answer (Fin 2) (demo_scene "new"))) = late.
Proof.
  intros late.
  destruct (late_answer_wins demo_late "p" "s" 1 2 (demo_scene "old") (demo_scene "new")) as (H1 & _ & H3);
    [apply NoDup_nil_2|done|done|lia|].
  split.
  - unfold sceneEntities. change "p::s" with (store_key "p" "s"). unfold late. rewrite H1. by vm_compute.
  - eapply H3; [by vm_compute|lia].
Defined.

End Scene.
