(* ===== verification/ClientEffects.v ===== *)
(** What the page does by itself for a session
    (src/ui/src/hooks/useRuntimeClientEffects.ts): it tells the daemon what the
    client can do, runs the calls found in the rows of the database, and
    acknowledges the files of the session.  The scenes are in SceneSession. *)
From S2P Require Import Prelude JsNumber JsString JsValue JsonUtils Conversation Browser ClientRpc ConversationView.
From S2P Require SceneViews SceneSession.

(** ** Capabilities *)

Module Capabilities.

(** A declared call: its kind, whether it has side effects, a description. *)
Record capability := mkCapability { kind : string; side_effects : bool; description : string }.

Definition rpcs : list capability :=
  [mkCapability "dom_query" false "Read-only DOM query (selector + bounded fields).";
   mkCapability "media_snapshot" false "Snapshot audio/video elements (paused/currentTime/duration).";
   mkCapability "location" false "Browser location (href/origin/path/search; query redacted).";
   mkCapability "state_snapshot" false "Combined snapshot (location + media_snapshot).";
   mkCapability "entity_query" false "Query client-side entities (scene objects).";
   mkCapability "entity_apply" true "Create/update/delete/action client-side entities (scene objects).";
   mkCapability "dom_apply" true "Apply a DOM patch (create/edit/delete/dispatch) by selector.";
   mkCapability "dom_click" true "Click a DOM element by selector (side effects).";
   mkCapability "dom_set_value" true "Set input/textarea value by selector (side effects).";
   mkCapability "media_play" true "Attempt to play audio/video by selector (browser policies apply).";
   mkCapability "media_pause" true "Pause audio/video by selector or element id.";
   mkCapability "media_observe" true "Attach media listeners and emit correlated progress events.";
   mkCapability "media_unobserve" false "Detach media listeners created by media_observe (by rpc_id or all=true).";
   mkCapability "navigate" true "Navigate the browser to a new URL (likely reloads the app).";
   mkCapability "open_url" true "Open an external URL in a new tab after explicit user confirmation.";
   mkCapability "artifact_url" false
     "Resolve a daemon-served artifact path (out/...) to a browser-usable URL. Returns blob: URL when daemon auth is enabled.";
   mkCapability "script_eval" false
     "Run agent-provided script code in a killable worker with a DOM/media/location API bridge.";
   mkCapability "page_eval" true
     "UNSAFE: run agent-provided JS on the main thread with access to DOM via an API bridge (cooperative async only)."].

(** Kind and description. *)
Definition probes : list (string * string) :=
  [("dom_query", "Read-only DOM query (selector + bounded fields).");
   ("media_snapshot", "Snapshot audio/video elements."); ("location", "Browser location.")].

Definition rpc_value (c : capability) : value :=
  VObject [("kind", VString (kind c)); ("side_effects", VBool (side_effects c)); ("description", VString (description c))].
Definition probe_value (p : string * string) : value :=
  VObject [("kind", VString (fst p)); ("description", VString (snd p))].

Definition capabilities_event (client : value) (sid : string) : value :=
  VObject [("session_id", VString sid); ("type", VString "client_capabilities"); ("client", client);
           ("data", VObject [("rpcs", VArray (map rpc_value rpcs)); ("probes", VArray (map probe_value probes))]);
           ("append_to_session", VBool false)].

(** The effect: what was posted to, and the event that is posted. *)
Definition post_capabilities (effectiveBase sessionId : string) (client : value) (posted : obj bool)
    : obj bool * option value :=
  let sid := trim sessionId in
  if negb (truthy_str sid) then (posted, None)
  else
    let key := effectiveBase ++s "::" ++s sid in
    if default false (get key posted) then (posted, None)
    else (set key true posted, Some (capabilities_event client sid)).

Definition unsupported (k : string) : io value := throw_error ("unsupported rpc.kind: " ++s k).

Section truthful.
Context {E : Ellipsis} {J : Json} {U : Urls} {C : CssApi} (i : ConversationUiActionRpcExecutorInput).

Lemma unknown_unsupported k args : k ∉ map kind rpcs -> invokeByKind i k args = unsupported k.
Proof.
  intros Hk. unfold invokeByKind.
  repeat (rewrite bool_decide_false by (intros ->; apply Hk; by_compute)). done.
Qed.

Lemma known_supported k : k ∈ map kind rpcs -> invokeByKind i k [] <> unsupported k.
Proof.
  intros Hk. cbn [map rpcs kind] in Hk.
  repeat (apply elem_of_cons in Hk as [->|Hk]; [clear|]); [..|by apply elem_of_nil in Hk].
  all: unfold unsupported, throw_error.
  all: try discriminate.
  all: try (destruct i as [? ? ? ? ? [] ? ? []]; discriminate).
Qed.

Definition handled (k : string) : Prop := exists args, invokeByKind i k args <> unsupported k.

(** What the client declares is what it does: a kind of call is declared, once,
    exactly if the executor handles it; it is declared to have side effects
    exactly if it is one of the kinds that need the permission for them; a call
    that is declared without side effects does not change the page itself; and
    the kinds of the old-style probes are declared calls without side effects. *)
Theorem capabilities_truthful :
  NoDup (map kind rpcs)
  /\ (forall k, k ∈ map kind rpcs <-> handled k)
  /\ Forall (fun c => side_effects c = bool_decide (kind c ∈ RPC_SIDE_EFFECT_KINDS)
                     /\ forall args, always (among (if side_effects c then LPageCode :: loud else quiet)) (invokeByKind i (kind c) args)) rpcs
  /\ Forall (fun p => exists c, c ∈ rpcs /\ kind c = fst p /\ side_effects c = false) probes.
Proof.
  split; [by_compute|]. split; [|split].
  - intros k. split; [intros Hk; exists []; by apply known_supported|]. intros [args H].
    destruct (decide (k ∈ map kind rpcs)); [done|]. by destruct H; apply unknown_unsupported.
  - assert (H : Forall (fun c => side_effects c = bool_decide (kind c ∈ RPC_SIDE_EFFECT_KINDS)) rpcs) by by_compute.
    eapply Forall_impl; [exact H|]. intros c Hc. split; [exact Hc|]. intros args.
    eapply always_among_sub; [|apply invokeByKind_levels]. unfold kind_levels. rewrite Hc.
    case_bool_decide; [|done]. case_bool_decide; [destruct (allowUnsafePageEval i)|case_bool_decide]; by_compute.
  - repeat (apply Forall_cons; split); [| | |apply List.Forall_nil].
    + exists (mkCapability "dom_query" false "Read-only DOM query (selector + bounded fields)."). split; [by left|done].
    + exists (mkCapability "media_snapshot" false "Snapshot audio/video elements (paused/currentTime/duration).").
      split; [by right; left|done].
    + exists (mkCapability "location" false "Browser location (href/origin/path/search; query redacted).").
      split; [by right; right; left|done].
Qed.
End truthful.

End Capabilities.

(** ** Calls that start by themselves *)

Module AutoRun.

Definition appliedUiActionLimit : nat := 2000.
Definition supportedAutoRunKinds : list string := ["entity_apply"; "media_play"; "media_pause"; "media_snapshot"].

(** The identifiers of the calls whose results are among the client's events. *)
Definition acked_id (clientEvent : obj value) : option string :=
  if bool_decide (str_or_empty (prop "type" clientEvent) = "client_rpc_result") then
    let data := record "data" clientEvent in
    or_undefined (str_or (tstr "rpc_id" data) (tstr "probe_id" data))
  else None.

Definition ackedRpcIds (dbClientEventRows : list (obj value)) : list string := omap acked_id dbClientEventRows.

Definition markApplied (now : number) (key : string) (applied : obj number) : obj number :=
  let applied := set key now applied in
  if (length applied <=? appliedUiActionLimit)%nat then applied
  else remove_all (map fst (overflowing key_ts appliedUiActionLimit applied)) applied.

Definition row_number (row : obj value) : number :=
  match prop "id" row with VNumber x => x | v => v_to_number (v ??? VNumber NaN) end.

Definition row_key (sid : string) (row : obj value) : string := sid ++s "::ui_action_id::" ++s num_to_string (row_number row).

(** The call of a row; the fields that the executor does not read are those of
    the row. *)
Definition row_call (row : obj value) : ParsedConversationUiAction :=
  let action := record "action" row in
  let toolCallId := str_or_empty (prop "tool_call_id" row) in
  let rpc := if isUnknownRecord (prop "rpc" action) then record "rpc" action else record "probe" action in
  let rpcKind := tstr "kind" rpc in
  {| raw := row; action := action; atype := tstr "type" action; title := tstr "title" row;
     toolCallId := toolCallId; queryId := toolCallId; rpc := rpc;
     rpcId := trim (v_to_string (prop "rpc_id" action ??? prop "probe_id" action ??? VString toolCallId));
     rpcKind := rpcKind;
     rpcArgs := if isUnknownRecord (prop "args" rpc) then record "args" rpc else rpc;
     sideEffectsRequested :=
       is_true (prop "side_effects" rpc) || is_true (prop "side_effects" action)
       || bool_decide (rpcKind = "entity_apply") || bool_decide (rpcKind = "media_play") || bool_decide (rpcKind = "media_pause");
     autoRunRequested := default (default true (as_bool (prop "auto" action))) (as_bool (prop "auto_run" action)) |}.

Inductive verdict := Ignore | Acked (key : string) | Start (key : string) (call : ParsedConversationUiAction).

(** One pass of the loop, up to the call. *)
Definition row_verdict (sid : string) (acked : list string) (applied : obj number) (row : obj value) : verdict :=
  let key := row_key sid row in
  let c := row_call row in
  if negb (is_finite (row_number row)) then Ignore
  else if seen key applied then Ignore
  else if negb (bool_decide (atype c ∈ RPC_TYPES)) then Ignore
  else if negb (truthy_str (rpcId c)) then Ignore
  else if bool_decide (rpcId c ∈ acked) then Acked key
  else if negb (bool_decide (rpcKind c ∈ supportedAutoRunKinds)) then Ignore
  else if negb (autoRunRequested c) then Ignore
  else Start key c.

(** The loop until its next call: the rows that are left then.  [clock n] is the
    time when [n] rows are left. *)
Fixpoint advance (clock : nat -> number) (sid : string) (acked : list string) (applied : obj number) (rows : list (obj value))
    : obj number * option (string * ParsedConversationUiAction * list (obj value)) :=
  match rows with
  | [] => (applied, None)
  | row :: rows =>
      match row_verdict sid acked applied row with
      | Ignore => advance clock sid acked applied rows
      | Acked key => advance clock sid acked (markApplied (clock (length rows)) key applied) rows
      | Start key call => (markApplied (clock (length rows)) key applied, Some (key, call, rows))
      end
  end.

(** A loop that awaits its call. *)
Record loop := mkLoop { loop_sid : string; loop_acked : list string; rest : list (obj value); cancelled : bool }.

(** What was applied, the loops, and the calls that were started, in order. *)
Record state := mkState { applied : obj number; loops : list loop; started : list (string * ParsedConversationUiAction) }.

Definition initial : state := mkState [] [] [].

Definition go (clock : nat -> number) (sid : string) (acked : list string) (rows : list (obj value)) (st : state) : state :=
  match advance clock sid acked (applied st) rows with
  | (applied, None) => mkState applied (loops st) (started st)
  | (applied, Some (key, call, rows)) =>
      mkState applied (loops st ++ [mkLoop sid acked rows false]) (started st ++ [(key, call)])
  end.

(** A run of the effect, which first cancels the one before, and the return of
    the call of a loop; [ok] tells that it did not throw. *)
Inductive event :=
  | Effect (clock : nat -> number) (allowClientRpcs allowClientEffects : bool) (sessionId : string)
      (dbClientEventRows dbUiActionRows : list (obj value))
  | Return (i : nat) (ok : bool) (clock : nat -> number).

Definition cancel (l : loop) : loop := mkLoop (loop_sid l) (loop_acked l) (rest l) true.

Definition step (st : state) (e : event) : state :=
  match e with
  | Effect clock allowClientRpcs allowClientEffects sessionId dbClientEventRows dbUiActionRows =>
      let st := mkState (applied st) (map cancel (loops st)) (started st) in
      if negb allowClientRpcs || negb allowClientEffects then st
      else
        let sid := trim sessionId in
        if negb (truthy_str sid) then st else go clock sid (ackedRpcIds dbClientEventRows) (rev dbUiActionRows) st
  | Return i ok clock =>
      match loops st !! i with
      | None => st
      | Some l =>
          let st := mkState (applied st) (delete i (loops st)) (started st) in
          if negb ok || cancelled l then st else go clock (loop_sid l) (loop_acked l) (rest l) st
      end
  end.

Definition run (st : state) (es : list event) : state := fold_left step es st.

(** The executor's input for a call of a session. *)
Definition call_input (effectiveBase : string) (yolo : bool) (sid : string) (entities : list value)
    (call : ParsedConversationUiAction) : ConversationUiActionRpcExecutorInput :=
  mkInput effectiveBase yolo (Some sid) true true false call (Some entities) true.

(** ** At most once *)

Definition clock_positive (clock : nat -> number) : Prop := forall n, exists k, clock n = Fin k /\ 0 < k.

Section once.
Context (K : list string) (K_limit : (length K <= appliedUiActionLimit)%nat).

Definition keys_in (sid : string) (rows : list (obj value)) : Prop := Forall (fun row => row_key sid row ∈ K) rows.

(** The clocks are positive, and the keys of the rows are among [K]. *)
Definition event_ok (e : event) : Prop :=
  match e with
  | Effect clock _ _ sessionId _ rows => clock_positive clock /\ keys_in (trim sessionId) rows
  | Return _ _ clock => clock_positive clock
  end.

(** A call that the executor does not refuse, and that is none of the others. *)
Definition call_ok (c : ParsedConversationUiAction) : Prop :=
  rpcKind c ∈ supportedAutoRunKinds /\ atype c ∈ RPC_TYPES /\ rpcId c <> "" /\ autoRunRequested c = true.

Record inv (st : state) : Prop := {
  inv_wf : wf (applied st);
  inv_keys : forall k, k ∈ keys (applied st) -> k ∈ K;
  inv_loops : Forall (fun l => keys_in (loop_sid l) (rest l)) (loops st);
  inv_once : NoDup (map fst (started st));
  inv_seen : Forall (fun p => seen (fst p) (applied st) = true /\ call_ok (snd p)) (started st) }.

Lemma markApplied_set now key a :
  wf a -> (forall k, k ∈ keys a -> k ∈ K) -> key ∈ K -> markApplied now key a = set key now a.
Proof.
  intros Hw Hk Hin. unfold markApplied. destruct (Nat.leb_spec (length (set key now a)) appliedUiActionLimit) as [|Hl]; [done|].
  exfalso. assert (Hs : wf (set key now a)) by (by apply wf_set).
  assert (Hsub : keys (set key now a) ⊆+ K).
  { apply NoDup_submseteq; [exact Hs|]. intros k [->|H]%in_keys_set; [done|by apply Hk]. }
  assert (H : (length (keys (set key now a)) <= length K)%nat) by (by apply submseteq_length).
  rewrite length_keys in H. lia.
Qed.

Lemma seen_set now key key' a k : now = Fin k -> 0 < k -> seen key a = true -> seen key (set key' now a) = true.
Proof.
  intros -> Hk Hs. unfold seen. rewrite get_set. case_bool_decide; [|exact Hs]. unfold default. cbn.
  apply negb_true_iff, Z.eqb_neq. lia.
Qed.

Lemma seen_set_eq now key a k : now = Fin k -> 0 < k -> seen key (set key now a) = true.
Proof. intros -> Hk. unfold seen. rewrite get_set_eq. cbn. apply negb_true_iff, Z.eqb_neq. lia. Qed.

Lemma verdict_key sid acked a row :
  match row_verdict sid acked a row with
  | Ignore => True
  | Acked key => key = row_key sid row
  | Start key call => key = row_key sid row /\ seen key a = false /\ call_ok call
  end.
Proof.
  unfold row_verdict. generalize (row_key sid row) (row_call row). intros key c.
  destruct (is_finite _); [|done]. destruct (seen key a) eqn:Hs; [done|].
  cbn [negb]. destruct (bool_decide (atype c ∈ RPC_TYPES)) eqn:H1; [|done]. destruct (truthy_str (rpcId c)) eqn:H2; [|done]. cbn [negb].
  destruct (bool_decide (rpcId c ∈ acked)); [done|]. destruct (bool_decide (rpcKind c ∈ supportedAutoRunKinds)) eqn:H3; [|done].
  destruct (autoRunRequested c) eqn:H4; [|done]. cbn [negb]. apply bool_decide_eq_true_1 in H1, H3.
  apply truthy_str_true in H2. done.
Qed.

Lemma go_inv clock sid acked rows st :
  clock_positive clock -> keys_in sid rows -> inv st -> inv (go clock sid acked rows st).
Proof.
  intros Hc. destruct st as [a ls sts]. unfold go. cbn [applied loops started].
  revert a. induction rows as [|row rows IH]; intros a Hk Hinv; [done|].
  apply Forall_cons in Hk as [Hrow Hk]. cbn [advance]. pose proof (verdict_key sid acked a row) as Hv.
  destruct Hinv as [Hw Hks Hl Ho Hs]; cbn [applied loops started] in *.
  destruct (Hc (length rows)) as (n & Hn & Hpos).
  assert (Hset : inv (mkState (set (row_key sid row) (clock (length rows)) a) ls sts)).
  { constructor; cbn [applied loops started]; [by apply wf_set| |done|done|].
    - intros k [->|H]%in_keys_set; [done|by apply Hks].
    - eapply Forall_impl; [exact Hs|]. cbn beta. intros p [H1 H2]. split; [by eapply seen_set|done]. }
  destruct (row_verdict sid acked a row) as [|key|key call].
  - by apply IH.
  - subst key. rewrite markApplied_set by done. by apply IH.
  - destruct Hv as (-> & Hunseen & Hcall). rewrite markApplied_set by done.
    destruct Hset as [Hw' Hks' Hl' Ho' Hs']; cbn [applied loops started] in *.
    constructor; cbn [applied loops started]; [done|done| | |].
    + apply Forall_app. split; [done|]. by repeat constructor.
    + rewrite map_app. apply NoDup_app. split_and!; [done| |apply NoDup_singleton].
      intros k (p & -> & Hp)%list_elem_of_fmap Hk1%list_elem_of_singleton. rewrite Forall_forall in Hs.
      destruct (Hs p Hp) as [Hseen _]. cbn [fst] in Hk1. congruence.
    + apply Forall_app. split; [done|]. apply Forall_singleton. split; [by eapply seen_set_eq|exact Hcall].
Qed.

Lemma loops_step_inv st e : event_ok e -> inv st -> inv (step st e).
Proof.
  intros He Hinv. destruct e as [clock r f sid evs rows|i ok clock]; cbn [step event_ok] in *.
  - assert (Hc : inv (mkState (applied st) (map cancel (loops st)) (started st))).
    { destruct Hinv. constructor; cbn [applied loops started]; [done..| |done|done].
      apply Forall_map. eapply Forall_impl; [done|]. by intros []. }
    destruct (_ || _); [done|]. destruct (truthy_str _); [|done]. cbn [negb]. apply go_inv; [apply He| |done].
    apply Forall_forall. intros row Hr. destruct He as [_ He]. unfold keys_in in He. rewrite Forall_forall in He. apply He.
    by apply list_elem_of_In, in_rev, list_elem_of_In.
  - destruct (loops st !! i) as [l|] eqn:Hi; [|done].
    assert (Hc : inv (mkState (applied st) (delete i (loops st)) (started st))).
    { destruct Hinv. constructor; cbn [applied loops started]; [done..| |done|done]. by apply Forall_delete. }
    destruct (_ || _); [done|]. apply go_inv; [done| |done].
    pose proof (inv_loops _ Hinv) as Hl. rewrite Forall_forall in Hl. apply Hl. by eapply list_elem_of_lookup_2.
Qed.

Lemma loops_run_inv es st : Forall event_ok es -> inv st -> inv (run st es).
Proof.
  unfold run. revert st. induction es as [|e es IH]; intros st; [done|]. intros [He Hes]%Forall_cons Hst.
  cbn [fold_left]. apply IH; [done|]. by apply loops_step_inv.
Qed.

Lemma initial_inv : inv initial.
Proof.
  constructor; cbn; [apply NoDup_nil_2|by intros k ?%elem_of_nil|constructor|apply NoDup_nil_2|constructor].
Qed.
End once.

(** A call that is started passes the executor's checks. *)
Lemma call_ok_checks base yolo sid entities c :
  trim sid <> "" -> call_ok c -> rpc_checks (call_input base yolo sid entities c) = Ret tt.
Proof.
  intros Hsid (Hk & _ & Hid & _). unfold rpc_checks, call_input. cbn [rpc_call sessionId allowClientRpcs allowClientEffects].
  rewrite (proj2 (truthy_str_true _) Hid). cbn [negb orb]. unfold session_key. change (default "" (Some sid)) with sid.
  destruct (trim sid) as [|ch s]; [done|]. cbn [String.length Nat.eqb].
  rewrite (proj2 (truthy_str_true _)); [by rewrite andb_false_r|]. intros E. rewrite E in Hk. revert Hk. by_compute.
Qed.

Lemma call_ok_levels {E : Ellipsis} {J : Json} {U : Urls} {C : CssApi} base yolo sid entities c :
  call_ok c -> always (among (LReport :: loud)) (runConversationUiActionRpc (call_input base yolo sid entities c)).
Proof.
  intros (Hk & _). apply runConversationUiActionRpc_levels; [|by_compute..]. apply checked_call_levels. intros _ _.
  unfold kind_levels. cbn [rpc_call call_input]. assert (H : rpcKind c <> "page_eval") by (intros E0; rewrite E0 in Hk; revert Hk; by_compute).
  rewrite (bool_decide_false (rpcKind c = "page_eval")) by done. repeat case_match; by_compute.
Qed.

Lemma call_quiet_levels {E : Ellipsis} {J : Json} {U : Urls} {C : CssApi} base yolo sid entities c :
  rpcKind c ∈ ["media_pause"; "media_snapshot"] ->
  always (among (LReport :: moving)) (runConversationUiActionRpc (call_input base yolo sid entities c)).
Proof.
  intros Hk. apply runConversationUiActionRpc_levels; [|by_compute..]. apply checked_call_levels. intros _ _.
  unfold kind_levels. cbn [rpc_call call_input].
  assert (Hall : Forall (fun k => k <> "page_eval" /\ k ∉ carrying_kinds) ["media_pause"; "media_snapshot"]) by by_compute.
  rewrite Forall_forall in Hall. destruct (Hall _ Hk) as [H H'].
  rewrite (bool_decide_false _ H), (bool_decide_false _ H'). case_match; by_compute.
Qed.

(** A row that asks for an entity with a script. *)
Definition script_row (code : string) : obj value :=
  [("id", VNumber (int 1)); ("tool_call_id", VString "t");
   ("action", VObject [("type", VString "client_rpc");
                       ("rpc", VObject [("kind", VString "entity_apply"); ("args", VObject (entity_args "e" "dom" code))])])].

(** The scene of session [s] after the operations of a call. *)
Definition scene_after (now : number) (ops : list SceneEntityMutationOp) : list (obj value) :=
  SceneSession.Scene.sceneEntities (SceneSession.Scene.store_key "d" "s")
    (snd (fst (SceneSession.Scene.applySceneOps "d" now (fun _ => "") "s" (map SceneSession.Scene.op_record ops)
                 SceneSession.Scene.initial))).

Lemma script_row_started clock code :
  started (run initial [Effect clock true true "s" [] [script_row code]]) = [("s::ui_action_id::1", row_call (script_row code))].
Proof. vm_compute. reflexivity. Qed.

Lemma script_row_call {E : Ellipsis} {J : Json} {U : Urls} {C : CssApi} base yolo code v :
  let c := row_call (script_row code) in
  runs (invokeByKind (call_input base yolo "s" [] c) (rpcKind c) (rpcArgs c))
    [Ev (SceneApply [OpCreate (Some "e") "dom" None [("script", VString code)]]) (inl v)] (inl v).
Proof. exact (entity_carried (call_input base yolo "s" [] (row_call (script_row code))) "e" "dom" code v eq_refl eq_refl ltac:(done) eq_refl). Qed.

Lemma script_entity_shown now code baseUrl b :
  truthy_str baseUrl = true -> trim code <> "" -> Z.of_nat (String.length code) <= 1000000 ->
  exists entity, scene_after now [OpCreate (Some "e") "dom" None [("script", VString code)]] = [entity]
    /\ SceneViews.card_runs true baseUrl (Some b) entity = Some (SceneViews.dom_function code).
Proof.
  intros Hb Ht Hl. eexists. split; [vm_compute; reflexivity|].
  by apply (SceneViews.script_runs baseUrl b _ [("script", VString code)]).
Qed.

(** C2: a call in a row of the database is started at most once, and code of the
    agent may run by itself.  However runs of the effect and returns of its
    calls follow one another, with at most 2000 different rows in all (beyond
    that the oldest are forgotten), no row's call is started twice, by the same
    loop or by another one; every call that is started is of one of four kinds
    and was not asked to wait; the executor does not refuse it; it evaluates no
    text itself, and the two kinds that pause and list media change nothing
    that could bring code into the page.  But a row with an entity that has a
    script is started, without any permission for unsafe evaluation, its
    operation puts the entity into the scene, and the entity's card, where it is
    shown, runs the function made from that script. *)
Theorem auto_runs_once {E : Ellipsis} {J : Json} {U : Urls} {C : CssApi} (K : list string) (es : list event) :
  (length K <= 2000)%nat -> Forall (event_ok K) es ->
  let st := run initial es in
  NoDup (map fst (started st))
  /\ Forall (fun p =>
       rpcKind (snd p) ∈ ["entity_apply"; "media_play"; "media_pause"; "media_snapshot"] /\ autoRunRequested (snd p) = true
       /\ forall base yolo sid entities, trim sid <> "" ->
            let i := call_input base yolo sid entities (snd p) in
            allowUnsafePageEval i = false /\ rpc_checks i = Ret tt
            /\ always (among [LReport; LCarry; LChange; LRead; LOwn; LProgress; LScript]) (runConversationUiActionRpc i)
            /\ (rpcKind (snd p) ∈ ["media_pause"; "media_snapshot"] ->
                  always (among [LReport; LChange; LRead; LOwn; LProgress; LScript]) (runConversationUiActionRpc i))) (started st)
  /\ (forall clock code, trim code <> "" -> Z.of_nat (String.length code) <= 1000000 ->
       exists c, map snd (started (run initial [Effect clock true true "s" [] [script_row code]])) = [c]
         /\ forall base yolo v now, truthy_str base = true ->
              let op := OpCreate (Some "e") "dom" None [("script", VString code)] in
              runs (invokeByKind (call_input base yolo "s" [] c) (rpcKind c) (rpcArgs c)) [Ev (SceneApply [op]) (inl v)] (inl v)
              /\ exists entity, scene_after now [op] = [entity]
                   /\ SceneViews.card_runs true base (Some yolo) entity = Some (SceneViews.dom_function code)).
Proof.
  intros HK Hes st. assert (Hi : inv K st) by (by apply loops_run_inv, initial_inv). destruct Hi as [_ _ _ Ho Hs].
  split; [exact Ho|]. split.
  - eapply Forall_impl; [exact Hs|]. intros p [_ Hc]. split; [apply Hc|]. split; [apply Hc|].
    intros base yolo sid entities Hsid. cbv zeta. split; [done|]. split; [by apply call_ok_checks|].
    split; [by apply call_ok_levels|]. intros Hk. by apply call_quiet_levels.
  - intros clock code Ht Hl. exists (row_call (script_row code)). split; [by rewrite script_row_started|].
    intros base yolo v now Hb op. split; [apply script_row_call|by apply script_entity_shown].
Qed.

(** ** Every row in turn *)

Definition eligible (sid : string) (acked : list string) (row : obj value) : option ParsedConversationUiAction :=
  match row_verdict sid acked [] row with Start _ c => Some c | _ => None end.

Lemma verdict_unseen sid acked a row :
  seen (row_key sid row) a = false -> row_verdict sid acked a row = row_verdict sid acked [] row.
Proof. intros H. unfold row_verdict. rewrite H. done. Qed.

Lemma markApplied_small now key a :
  (length a < appliedUiActionLimit)%nat -> markApplied now key a = set key now a.
Proof.
  intros H. unfold markApplied. pose proof (length_set key now a).
  by rewrite (proj2 (Nat.leb_le (length (set key now a)) appliedUiActionLimit)) by lia.
Qed.

Lemma go_cons clock sid acked row rows st :
  go clock sid acked (row :: rows) st =
    let mark key := markApplied (clock (length rows)) key (applied st) in
    match row_verdict sid acked (applied st) row with
    | Ignore => go clock sid acked rows st
    | Acked key => go clock sid acked rows (mkState (mark key) (loops st) (started st))
    | Start key call =>
        mkState (mark key) (loops st ++ [mkLoop sid acked rows false]) (started st ++ [(key, call)])
    end.
Proof. unfold go. cbn [advance]. by destruct (row_verdict sid acked (applied st) row). Qed.

(** The loop on rows that are new to it: at most one call is awaited, and the
    next one is started by a return. *)
Definition due (sid : string) (acked : list string) (rows : list (obj value)) : list ParsedConversationUiAction :=
  omap (eligible sid acked) rows.

Lemma due_cons sid acked row rows :
  due sid acked (row :: rows) =
    match row_verdict sid acked [] row with Start _ c => c :: due sid acked rows | _ => due sid acked rows end.
Proof. unfold due. cbn [omap list_omap]. unfold eligible at 1. by destruct (row_verdict sid acked [] row). Qed.

Lemma run_none clock m st : loops st = [] -> run st (replicate m (Return 0 true clock)) = st.
Proof.
  intros Hl. induction m as [|m IH]; [done|]. cbn [replicate run fold_left step]. rewrite Hl. cbn [lookup list_lookup].
  exact IH.
Qed.

Lemma go_paced clock sid acked rows a sts m :
  (length a + length rows <= appliedUiActionLimit)%nat -> NoDup (map (row_key sid) rows) ->
  (forall row, row ∈ rows -> get (row_key sid row) a = None) ->
  let st := run (go clock sid acked rows (mkState a [] sts)) (replicate m (Return 0 true clock)) in
  map snd (started st) = map snd sts ++ take (S m) (due sid acked rows)
  /\ length (loops st) = (if m <? length (due sid acked rows) then 1 else 0)%nat.
Proof.
  revert a sts m. induction rows as [|row rows IH]; intros a sts m Hl Hnd Hnew.
  { unfold go. cbn [advance applied loops started]. rewrite run_none by done. cbn. by rewrite app_nil_r. }
  cbn [map length] in *. apply NoDup_cons in Hnd as [Hrow Hnd].
  assert (Hun : seen (row_key sid row) a = false) by (unfold seen; by rewrite (Hnew row) by (by left)).
  assert (Hne : forall r, r ∈ rows -> row_key sid r <> row_key sid row).
  { intros r Hr E. apply Hrow. rewrite <-E. by apply list_elem_of_fmap_2. }
  assert (Hafter : forall t r, r ∈ rows -> get (row_key sid r) (set (row_key sid row) t a) = None).
  { intros t r Hr. rewrite get_set_ne by (by apply Hne). apply Hnew. by right. }
  pose proof (verdict_key sid acked a row) as Hv. rewrite go_cons, due_cons. cbn [applied loops started]. cbv zeta.
  rewrite (verdict_unseen sid acked a row Hun) in Hv |- *.
  destruct (row_verdict sid acked [] row) as [|key|key call].
  - apply IH; [lia|done|]. intros r Hr. apply Hnew. by right.
  - subst key. rewrite markApplied_small by lia.
    pose proof (length_set (row_key sid row) (clock (length rows)) a). apply IH; [lia|done|apply Hafter].
  - destruct Hv as (-> & _). rewrite markApplied_small by lia.
    pose proof (length_set (row_key sid row) (clock (length rows)) a).
    set (a' := set _ _ _) in *. destruct m as [|m].
    { cbn [replicate run fold_left started loops length app take]. rewrite map_app. split; [done|]. done. }
    cbn [replicate]. change (run ?s (Return 0 true clock :: ?es)) with
      (run (go clock sid acked rows (mkState a' [] (sts ++ [(row_key sid row, call)]))) es).
    destruct (IH a' (sts ++ [(row_key sid row, call)]) m) as [H1 H2]; [lia|done|apply Hafter|].
    cbv zeta in H1, H2. rewrite H1, H2, map_app, <-app_assoc. done.
Qed.

(** C3: every row is seen to, one call at a time.  When the effect runs on rows
    that are new to it, at most 2000, and is not disturbed by another run, and
    no call throws, then after [m] returns exactly the first [m + 1] of the calls
    that are due have been started, the oldest row first, and one loop waits
    exactly as long as more returns are to come: no call is started before the
    one before it has returned, and after as many returns as there are calls all
    of them have been started and no loop is left. *)
Theorem auto_runs_all (clock : nat -> number) (sid : string) (events rows : list (obj value)) (m : nat) :
  trim sid <> "" -> (length rows <= 2000)%nat -> NoDup (map (row_key (trim sid)) rows) ->
  let st := run initial (Effect clock true true sid events rows :: replicate m (Return 0 true clock)) in
  let calls := omap (eligible (trim sid) (ackedRpcIds events)) (rev rows) in
  map snd (started st) = take (S m) calls /\ length (loops st) = (if m <? length calls then 1 else 0)%nat.
Proof.
  intros Hsid Hl Hnd st calls.
  pose proof (go_paced clock (trim sid) (ackedRpcIds events) (rev rows) [] [] m) as H.
  assert (Hst : st = run (go clock (trim sid) (ackedRpcIds events) (rev rows) (mkState [] [] [])) (replicate m (Return 0 true clock))).
  { unfold st. cbn [run fold_left step negb orb]. by rewrite (proj2 (truthy_str_true _)) by done. }
  rewrite Hst. apply H.
  - cbn [length]. rewrite length_rev. unfold appliedUiActionLimit. lia.
  - rewrite map_rev. by rewrite <-(Permutation.Permutation_rev (map _ rows)).
  - done.
Qed.

(** ** Concrete inputs *)

Definition demo_clock (n : nat) : number := Fin 1.

Definition demo_row (id : Z) (kind : string) : obj value :=
  [("id", VNumber (int id)); ("tool_call_id", VString ("t" ++s pretty id));
   ("action", VObject [("type", VString "client_rpc"); ("rpc", VObject [("kind", VString kind)])])].

(** Newest first, as the daemon lists them; the second is asked for already. *)
Definition demo_rows : list (obj value) := [demo_row 3 "dom_click"; demo_row 2 "media_pause"; demo_row 1 "entity_apply"].

Definition demo_events : list event :=
  [Effect demo_clock true true " s " [] demo_rows; Effect demo_clock true true "s" [] demo_rows; Return 0 true demo_clock;
   Return 0 true demo_clock; Effect demo_clock true true "s" [] demo_rows].

Definition demo_keys : list string := map (row_key "s") demo_rows.

Lemma auto_runs_once_witness :
  Forall (event_ok demo_keys) demo_events
  /\ NoDup (map fst (started (run initial demo_events)))
  /\ map (fun p => toolCallId (snd p)) (started (run initial demo_events)) = ["t1"; "t2"].
Proof.
  assert (Hc : clock_positive demo_clock) by (intros n; by exists 1).
  assert (Hk : keys_in demo_keys "s" demo_rows) by by_compute.
  assert (He : Forall (event_ok demo_keys) demo_events).
  { repeat (apply Forall_cons; split); [| | | | |apply List.Forall_nil]; try exact Hc; split; [exact Hc|exact Hk|exact Hc|exact Hk|exact Hc|exact Hk]. }
  split; [exact He|]. split; [|by vm_compute].
  apply (auto_runs_once (E := demo_dots) (J := JsonText.text_json) (U := demo_urls) (C := demo_css) demo_keys demo_events);
    [cbn; lia|exact He].
Defined.

Definition after_returns (m : nat) : state :=
  run initial (Effect demo_clock true true "s" [] demo_rows :: replicate m (Return 0 true demo_clock)).

Lemma auto_runs_all_witness :
  map (fun p => toolCallId (snd p)) (started (after_returns 0)) = ["t1"]
  /\ map snd (started (after_returns 1)) = take 2 (omap (eligible "s" []) (rev demo_rows))
  /\ length (loops (after_returns 1)) = 1%nat /\ length (loops (after_returns 2)) = 0%nat.
Proof.
  split; [by vm_compute|].
  destruct (auto_runs_all demo_clock "s" [] demo_rows 1) as [H1 H2]; [done|cbn; lia|by_compute|].
  split; [exact H1|]. split; [etrans; [exact H2|by vm_compute]|by vm_compute].
Defined.

End AutoRun.

(** ** Files *)

Module Artifacts.

Inductive fileE : Type -> Type :=
  | GetFile (src : string) : fileE (outcome response)
  | ReadBody : fileE (outcome unit)
  | PostUiEvent (session type : string) (data : value) : fileE (outcome unit).

Definition is_letter (c : ascii) : bool :=
  let n := code (lower_char c) in ((97 <=? n) && (n <=? 122))%N.

Definition isAbsoluteLikePath (path : string) : bool :=
  match trim path with
  | String "/" _ => true
  | String "\" (String "\" _) => true
  | String c (String ":" (String d _)) => is_letter c && (is_char "/" d || is_char "\" d)
  | _ => false
  end.

(** A row of the session's files, when it names a call and has an artifact. *)
Record entry := mkEntry { artifact : obj value; toolCallId : string; kind : string; title : string; path : string; resolvedPath : string }.

Definition read_entry (row : obj value) : option entry :=
  let field k := str_or_empty (prop k row) in
  match prop "artifact" row with
  | VObject artifact =>
      if truthy_str (field "tool_call_id")
      then Some (mkEntry artifact (field "tool_call_id") (field "kind") (field "title") (field "path") (field "resolved_path"))
      else None
  | _ => None
  end.

Section acknowledge.
Context (effectiveBase sid : string) (yolo : bool).

(** What is reported of a file, and what is fetched. *)
Record job := mkJob { job_path : string; job_resolved : string; job_kind : string; job_title : string; job_call : string;
                      preferredFetchPath : string; fallbackFetchPath : string }.

Definition make_job (e : entry) : job :=
  let safe k := default "" (as_string (prop k (artifact e))) in
  let path := str_or (path e) (safe "path") in
  let resolved := str_or (resolvedPath e) (safe "resolved_path") in
  let relative := truthy_str path && negb (isAbsoluteLikePath path) in
  let preferred := if relative then path else if yolo && truthy_str resolved then resolved else path in
  mkJob path resolved (str_or (kind e) (safe "kind")) (str_or (title e) (str_or (safe "title") (str_or path "artifact")))
    (trim (toolCallId e)) preferred
    (if yolo && bool_decide (preferred = path) && relative && truthy_str resolved && isAbsoluteLikePath resolved then resolved else "").

(** The rows of a run of the effect: the jobs, and the keys of all jobs so far. *)
Definition ack_entry (acc : obj bool * list job) (e : entry) : obj bool * list job :=
  let '(acked, jobs) := acc in
  let toolCallId := trim (toolCallId e) in
  let key := effectiveBase ++s "::" ++s sid ++s "::" ++s toolCallId in
  if negb (truthy_str toolCallId) || default false (get key acked) then acc
  else (set key true acked, jobs ++ [make_job e]).

Definition ack_rows (sessionArtifactRows : list (obj value)) (acked : obj bool) : obj bool * list job :=
  fold_left ack_entry (take 8 (omap read_entry (take 32 sessionArtifactRows))) (acked, []).

Definition file_src (p : string) : string :=
  effectiveBase ++s "/api/v1/file?path=" ++s encodeURIComponent p ++s "&yolo=" ++s (if yolo then "1" else "0")
  ++s (if truthy_str sid then "&session_id=" ++s encodeURIComponent sid else "").

Definition tryPaths (j : job) : list string :=
  List.filter (fun p => truthy_str (trim p)) [preferredFetchPath j; fallbackFetchPath j].

Definition or_none (s : string) : value := if truthy_str s then VString s else VUndefined.

Definition post (type : string) (data : obj value) : prog fileE unit := call (PostUiEvent sid type (VObject data)).

Definition report (j : job) (fetch_path : value) (last : string * value) : obj value :=
  [("path", VString (job_path j)); ("resolved_path", or_none (job_resolved j)); ("fetch_path", fetch_path);
   ("kind", VString (job_kind j)); ("title", VString (job_title j)); ("tool_call_id", VString (job_call j)); last].

Definition try_path (j : job) (p : string) : prog fileE unit :=
  resp ← call (GetFile (file_src p));
  if negb (resp_ok resp) then throw_error ("file fetch failed: " ++s num_to_string (resp_status resp))
  else
    call ReadBody ;;
    post "artifact_rendered" (report j (VString p) ("content_type", or_none (trim (default "" (content_type resp))))).

Fixpoint try_all (j : job) (lastErr : string) (paths : list string) : prog fileE unit :=
  match paths with
  | [] => post "artifact_render_failed" (report j (or_none (preferredFetchPath j)) ("error", VString (str_or lastErr "failed")))
  | p :: paths =>
      failed ← catch (try_path j p ;; Ret None) (fun e => Ret (Some e));
      match failed with
      | None => Ret tt
      | Some e => try_all j e paths
      end
  end.

(** A job; what it throws at the end is ignored. *)
Definition run_job (j : job) : prog fileE unit :=
  catch (try_all j "" (tryPaths j)) (fun _ => Ret tt).
End acknowledge.

(** A run of the effect: the keys, and the jobs it starts. *)
Definition effect (artifactCatalogSupported : bool) (effectiveBase sessionId : string) (yolo : bool)
    (sessionArtifactRows : list (obj value)) (acked : obj bool) : obj bool * list job :=
  let sid := trim sessionId in
  if negb artifactCatalogSupported || negb (truthy_str sid) then (acked, [])
  else ack_rows effectiveBase sid yolo sessionArtifactRows acked.

(** ** Each file once *)

Record call_args := mkArgs { supported : bool; base : string; session : string; with_yolo : bool; rows : list (obj value) }.

Definition ack_key (effectiveBase sid toolCallId : string) : string := effectiveBase ++s "::" ++s sid ++s "::" ++s toolCallId.

(** Runs of the effect one after another: the keys of their jobs. *)
Definition run_effect (acc : obj bool * list string) (a : call_args) : obj bool * list string :=
  let '(acked, started) := acc in
  let '(acked, jobs) := effect (supported a) (base a) (session a) (with_yolo a) (rows a) acked in
  (acked, started ++ map (fun j => ack_key (base a) (trim (session a)) (job_call j)) jobs).

Definition run_effects (l : list call_args) : obj bool * list string := fold_left run_effect l ([], []).

(** The keys that were started are marked, and are no two alike. *)
Definition marked (acked : obj bool) (started : list string) : Prop :=
  NoDup started /\ Forall (fun k => get k acked = Some true) started.

Lemma ack_entry_marked b sid yolo e acked jobs (started : list string) :
  let keys l := started ++ map (fun j => ack_key b sid (job_call j)) l in
  marked acked (keys jobs) -> let r := ack_entry b sid yolo (acked, jobs) e in marked (fst r) (keys (snd r)).
Proof.
  intros keys Hm r. subst r. unfold ack_entry. fold (ack_key b sid (trim (toolCallId e))).
  set (key := ack_key b sid (trim (toolCallId e))). destruct (negb _); [exact Hm|]. cbn [orb].
  destruct (get key acked) as [[]|] eqn:Hg; [exact Hm|..]; change (default false _) with false; cbv iota; cbn [fst snd];
    destruct Hm as [Hnd Hf]; unfold keys; rewrite map_app, app_assoc; change (job_call (make_job yolo e)) with (trim (toolCallId e));
    fold key; (split;
    [apply NoDup_app; split_and!; [exact Hnd| |apply NoDup_singleton];
     intros k Hk ->%list_elem_of_singleton; rewrite Forall_forall in Hf; specialize (Hf key Hk); congruence
    |apply Forall_app; split; [|apply Forall_singleton, get_set_eq];
     eapply Forall_impl; [exact Hf|]; cbn beta; intros k Hk; rewrite get_set; by case_bool_decide]).
Qed.

Lemma ack_fold b sid yolo es acked jobs started :
  let keys l := started ++ map (fun j => ack_key b sid (job_call j)) l in
  marked acked (keys jobs) -> let r := fold_left (ack_entry b sid yolo) es (acked, jobs) in marked (fst r) (keys (snd r)).
Proof.
  intros keys. revert acked jobs. induction es as [|e es IH]; intros acked jobs Hm; [exact Hm|]. cbn [fold_left].
  pose proof (ack_entry_marked b sid yolo e acked jobs started Hm) as He. cbv zeta in He.
  destruct (ack_entry b sid yolo (acked, jobs) e) as [acked' jobs']. by apply IH.
Qed.

Lemma ack_length b sid yolo es acc :
  (length (snd (fold_left (ack_entry b sid yolo) es acc)) <= length (snd acc) + length es)%nat.
Proof.
  revert acc. induction es as [|e es IH]; intros [acked jobs]; cbn [fold_left length snd]; [lia|].
  etransitivity; [apply IH|]. unfold ack_entry. case_match; cbn [snd]; [lia|]. rewrite length_app. cbn. lia.
Qed.

Lemma run_effect_marked acked started a :
  marked acked started -> let r := run_effect (acked, started) a in marked (fst r) (snd r).
Proof.
  intros Hm. cbv zeta. unfold run_effect, effect. destruct (_ || _); cbn [fst snd map].
  { by rewrite app_nil_r. }
  unfold ack_rows. set (es := take 8 _). clearbody es.
  pose proof (ack_fold (base a) (trim (session a)) (with_yolo a) es acked [] started) as H. cbn [map] in H. rewrite app_nil_r in H.
  specialize (H Hm).
  cbv zeta in H. by destruct (fold_left _ es (acked, [])).
Qed.

(** Each file is acknowledged once: whatever rows the runs of the effect are
    given, for whatever sessions, no two of the jobs they start are for the same
    call of the same session of the same daemon, and a run starts at most eight. *)
Theorem artifacts_once (l : list call_args) :
  NoDup (snd (run_effects l))
  /\ forall sup b s yolo rs acked, (length (snd (effect sup b s yolo rs acked)) <= 8)%nat.
Proof.
  split.
  - assert (H : forall acc, marked (fst acc) (snd acc) -> let r := fold_left run_effect l acc in marked (fst r) (snd r)).
    { induction l as [|a l IH]; intros acc Hm; [exact Hm|]. cbn [fold_left]. apply IH. destruct acc. by apply run_effect_marked. }
    apply (H ([], [])). split; [apply NoDup_nil_2|constructor].
  - intros. unfold effect. destruct (_ || _); cbn [snd length]; [lia|]. unfold ack_rows.
    etransitivity; [apply ack_length|]. cbn [snd length]. rewrite length_take. lia.
Qed.

(** ** What a job does *)

(** Only the given files are fetched. *)
Definition fetches (b sid : string) (yolo : bool) (paths : list string) : allowed fileE := fun R e =>
  match e with GetFile src => exists p, p ∈ paths /\ src = file_src b sid yolo p | _ => True end.

(** The reports that the daemon took, and whether it took all. *)
Definition accepted_one (ev : answered fileE) : list string :=
  match ev with Ev e r =>
    match e in fileE R return R -> list string with
    | PostUiEvent _ type _ => fun r => match r with inl _ => [type] | inr _ => [] end
    | _ => fun _ => []
    end r
  end.
Definition accepted (t : list (answered fileE)) : list string := mjoin (map accepted_one t).

Definition report_taken (ev : answered fileE) : Prop :=
  match ev with Ev e r =>
    match e in fileE R return R -> Prop with
    | PostUiEvent _ _ _ => fun r => exists u, r = inl u
    | _ => fun _ => True
    end r
  end.

(** A file was read to its end. *)
Definition served_one (ev : answered fileE) : bool :=
  match ev with Ev e r =>
    match e in fileE R return R -> bool with
    | ReadBody => fun r => match r with inl _ => true | inr _ => false end
    | _ => fun _ => false
    end r
  end.
Definition served (t : list (answered fileE)) : bool := existsb served_one t.

Section jobs.
Context (b sid : string) (yolo : bool).

Lemma try_path_fetches j p paths : p ∈ paths -> always (fetches b sid yolo paths) (try_path b sid yolo j p).
Proof.
  intros Hp. unfold try_path. apply always_bind; [apply always_call; by exists p|]. intros resp.
  destruct (negb _); [exact I|]. apply always_bind; [by apply always_call|]. intros _. by apply always_call.
Qed.

Lemma try_all_fetches j paths all last : paths ⊆ all -> always (fetches b sid yolo all) (try_all b sid yolo j last paths).
Proof.
  revert last. induction paths as [|p paths IH]; intros last Hs; cbn [try_all]; [by apply always_call|].
  apply always_bind.
  - apply always_catch; [|done]. apply always_bind; [|done]. apply try_path_fetches. set_solver.
  - intros [e|]; [|exact I]. apply IH. set_solver.
Qed.

Lemma call_runs {A} (e : fileE (outcome A)) t o :
  runs (call e) t o -> exists r, t = [Ev e r] /\ o = r.
Proof. intros (r & t' & -> & H). exists r. destruct r; destruct H as [-> ->]; done. Qed.

(** A path: the report of the file is taken, or nothing is. *)
Lemma try_path_runs j p t o :
  runs (try_path b sid yolo j p) t o ->
  match o with
  | inl _ => accepted t = ["artifact_rendered"] /\ served t = true
  | inr _ => accepted t = [] /\ (Forall report_taken t -> served t = false)
  end.
Proof.
  unfold try_path.
  intros [(e & H & ->)|(resp & t1 & t2 & -> & H1 & H2)]%runs_bind; [by apply call_runs in H as (r & -> & <-)|].
  apply call_runs in H1 as (r & -> & <-). destruct (negb _); [destruct H2 as [-> ->]; done|].
  apply runs_bind in H2 as [(e & H & ->)|([] & t3 & t4 & -> & H3 & H4)]; [by apply call_runs in H as (r & -> & <-)|].
  apply call_runs in H3 as (r & -> & <-). apply call_runs in H4 as (r & -> & ->).
  destruct r as [u|e]; [done|]. split; [done|]. intros [_ [_ [[u [=]] _]%Forall_cons]%Forall_cons]%Forall_cons.
Qed.

Lemma accepted_app t1 t2 : accepted (t1 ++ t2) = accepted t1 ++ accepted t2.
Proof. unfold accepted. rewrite map_app. generalize (map accepted_one t2). induction (map accepted_one t1) as [|l ls IH]; intros k; [done|]. cbn. by rewrite IH, app_assoc. Qed.

Lemma served_app t1 t2 : served (t1 ++ t2) = served t1 || served t2.
Proof. apply existsb_app. Qed.

Lemma try_all_runs j paths last t o :
  runs (try_all b sid yolo j last paths) t o ->
  ((length (accepted t) <= 1)%nat /\ (accepted t <> [] -> o = inl tt))
  /\ (Forall report_taken t ->
       accepted t = [if served t then "artifact_rendered" else "artifact_render_failed"] /\ o = inl tt).
Proof.
  revert last t. induction paths as [|p paths IH]; intros last t; cbn [try_all].
  { intros (r & -> & ->)%call_runs. destruct r as [[]|e]; [done|]. split; [by split; [cbn; lia|]|].
    by intros [[u [=]] _]%Forall_cons. }
  intros [(e & H & ->)|(failed & t1 & t2 & -> & H1 & H2)]%runs_bind.
  { exfalso. apply runs_catch in H as [(a & _ & [=])|(e' & t1 & t2 & _ & _ & _ & [=])]. }
  apply runs_catch in H1 as [(a & H1 & [= ->])|(e & ta & tb & -> & H1 & -> & [= ->])].
  - apply runs_bind in H1 as [(e & _ & [=])|([] & ta & tb & -> & H1 & -> & [= ->])].
    apply try_path_runs in H1 as [Ha Hs]. destruct H2 as [-> ->]. rewrite !app_nil_r, Ha, Hs. done.
  - apply runs_bind in H1 as [(e' & H1 & [= <-])|(u & ta' & tb & -> & _ & _ & [=])]. rewrite app_nil_r.
    apply try_path_runs in H1 as [Ha Hs]. apply IH in H2 as [G1 G2]. rewrite accepted_app, served_app, Ha. cbn [app].
    split; [exact G1|]. intros [F1 F2]%Forall_app. rewrite Hs by done. by apply G2.
Qed.
End jobs.

(** Acknowledging a file.  A job fetches nothing but the files of its preferred
    path and its second path, and without the permission to leave the session's
    directory only the path that the artifact names; it ends without an
    exception, and the daemon takes at most one report of it; when the daemon
    takes every report it is sent, it is exactly one: that the file was
    rendered, if a file could be read to its end, or that it was not. *)
Theorem artifact_reported (b sid : string) (yolo : bool) (e : entry) (t : list (answered fileE)) o :
  let j := make_job yolo e in
  runs (run_job b sid yolo j) t o ->
  Forall (on_event (fetches b sid yolo (tryPaths j))) t
  /\ (length (tryPaths j) <= 2)%nat
  /\ (yolo = false -> tryPaths j = List.filter (fun p => truthy_str (trim p)) [job_path j])
  /\ o = inl tt
  /\ (length (accepted t) <= 1)%nat
  /\ (Forall report_taken t -> accepted t = [if served t then "artifact_rendered" else "artifact_render_failed"]).
Proof.
  intros j H. split; [|split; [|split]].
  - eapply always_runs; [|exact H]. apply always_catch; [|done]. by apply try_all_fetches.
  - apply filter_length_le.
  - intros ->. unfold tryPaths, j, make_job. cbn [preferredFetchPath fallbackFetchPath job_path andb].
    set (path := str_or _ _). clearbody path. cbn [andb]. destruct (_ && _); cbn [List.filter]; by case_match.
  - unfold run_job in H. apply runs_catch in H as [(a & H & ->)|(e' & t1 & t2 & -> & H & -> & ->)].
    + destruct a. apply try_all_runs in H as [[H1 _] H2]. split; [done|]. split; [done|]. intros Hf. by apply H2.
    + rewrite app_nil_r. apply try_all_runs in H as [[H1 _] H2]. split; [done|]. split; [done|]. intros Hf.
      by destruct (H2 Hf) as [_ [=]].
Qed.

Definition demo_artifact : obj value :=
  [("artifact", VObject [("path", VString "out/a.png")]); ("tool_call_id", VString "t"); ("resolved_path", VString "/w/out/a.png")].

Definition demo_entry : entry := default (mkEntry [] "" "" "" "" "") (read_entry demo_artifact).

(** The file is not found in the session's directory. *)
Definition demo_trace : list (answered fileE) :=
  [Ev (GetFile (file_src "http://d" "s" false "out/a.png")) (inl (mkResponse false (int 404) None));
   Ev (PostUiEvent "s" "artifact_render_failed"
         (VObject (report (make_job false demo_entry) (VString "out/a.png") ("error", VString "Error: file fetch failed: 404")))) (inl tt)].

Lemma artifact_reported_witness :
  runs (run_job "http://d" "s" false (make_job false demo_entry)) demo_trace (inl tt)
  /\ (length (accepted demo_trace) <= 1)%nat /\ accepted demo_trace = ["artifact_render_failed"].
Proof.
  assert (H : runs (run_job "http://d" "s" false (make_job false demo_entry)) demo_trace (inl tt)).
  { eexists _, _. split; [vm_compute; reflexivity|]. eexists _, _. split; [vm_compute; reflexivity|]. done. }
  split; [exact H|].
  destruct (artifact_reported "http://d" "s" false demo_entry demo_trace (inl tt) H) as (_ & _ & _ & _ & H1 & H2).
  split; [exact H1|]. apply H2. repeat (apply Forall_cons; split); [exact I|by exists tt|apply List.Forall_nil].
Defined.

End Artifacts.
