(* ===== verification/Http.v ===== *)
(** Requests to the daemon and the broker: addresses, query strings, headers and
    answers (src/ui/src/api/auth.ts, query.ts, and what the other files of
    src/ui/src/api share).  The functions that name the endpoints are in
    ApiSession, ApiBroker and ApiDaemon. *)
From S2P Require Import Prelude JsNumber JsString JsValue JsonUtils Caches ClientRpc.
From S2P Require Export Programs.

(** ** Addresses *)

(** A path after a base; the segments that the source writes out consist of
    unreserved characters, which [encodeURIComponent] leaves as they are. *)
Fixpoint path (segments : list string) : string :=
  match segments with
  | [] => ""
  | s :: segments => "/" ++s encodeURIComponent s ++s path segments
  end.

(** A character of [application/x-www-form-urlencoded]. *)
Definition is_form_char (c : ascii) : bool :=
  is_upper_alpha c || is_lower_alpha c || is_digit c || existsb (is_char c) ["*"; "-"; "."; "_"]%char.

Definition form_char (c : ascii) : string :=
  if is_form_char c then String c ""
  else if is_char " " c then "+"
  else if (code c <? 128)%N then percent (code c)
  else percent (192 + code c / 64) ++s percent (128 + code c mod 64).

Fixpoint form_encode (s : string) : string :=
  match s with "" => "" | String c s => form_char c ++s form_encode s end.

(** [URLSearchParams]: the entries in order, [set] and [toString]. *)
Abbreviation params := (list (string * string)).

Definition qs_set (k v : string) (qs : params) : params := if has k qs then replace k v qs else qs ++ [(k, v)].

Definition pair_string (encode : string -> string) (p : string * string) : string :=
  encode (fst p) ++s "=" ++s encode (snd p).

Definition qs_string (qs : params) : string := join "&" (map (pair_string form_encode) qs).

(** What [addQueryParam] takes, besides [undefined]. *)
Inductive param := PString (s : string) | PNumber (x : number) | PBool (b : bool).

Definition param_text (v : param) : string :=
  match v with PString s => trim s | PNumber x => num_to_string x | PBool b => if b then "true" else "false" end.

Definition addQueryParam (k : string) (v : option param) (qs : params) : params :=
  match v with
  | None => qs
  | Some v => let s := param_text v in if truthy_str s then qs_set k s qs else qs
  end.

(** [if (s) qs.set(k, s)], [if (typeof x === "number") qs.set(k, String(x))]. *)
Definition set_text (k s : string) (qs : params) : params := if truthy_str s then qs_set k s qs else qs.
Definition set_number (k : string) (x : option number) (qs : params) : params :=
  match x with Some x => qs_set k (num_to_string x) qs | None => qs end.

(** [qs ? `?${qs}` : ""]. *)
Definition query (qs : params) : string := let s := qs_string qs in if truthy_str s then "?" ++s s else "".

(** A query string that the source writes out, with [encodeURIComponent]; the
    names consist of unreserved characters. *)
Definition plain_query (qs : params) : string := "?" ++s join "&" (map (pair_string encodeURIComponent) qs).

(** ** Credentials *)

Inductive ApiAuth :=
  | Direct (token : option string)
  | Broker (token agentdToken deploymentId : option string) (useCookieAuth : bool).

Definition auth_token (auth : ApiAuth) : option string := match auth with Direct t => t | Broker t _ _ _ => t end.

(** [/^bearer\s+/i]: what follows the match. *)
Definition after_bearer (s : string) : option string :=
  match sdrop 6 s with
  | String c _ as rest =>
      if bool_decide (to_lower (stake 6 s) = "bearer") && is_ws c then Some (trim_start rest) else None
  | "" => None
  end.

Definition normalizeBearerHeader (raw : option string) : option string :=
  let s := trim (default "" raw) in
  if negb (truthy_str s) then None
  else match after_bearer s with
       | Some rest => Some ("Bearer " ++s trim rest)
       | None => Some ("Bearer " ++s s)
       end.

Abbreviation headers := (obj string).

Definition set_some (k : string) (v : option string) (h : headers) : headers :=
  match v with Some v => set k v h | None => h end.

(** [s.trim() || undefined] of an optional string. *)
Definition trimmed_some (s : option string) : option string :=
  let t := trim (default "" s) in if truthy_str t then Some t else None.

Definition daemonHeaders (auth : option ApiAuth) (extra : headers) : headers :=
  let h := of_entries extra in
  let h := set_some "Authorization" (normalizeBearerHeader (auth ≫= auth_token)) h in
  match auth with
  | Some (Broker _ agentdToken deploymentId _) =>
      let h := set_some "X-Agentd-Authorization" (normalizeBearerHeader agentdToken) h in
      set_some "X-Agentd-Deployment" (trimmed_some deploymentId) h
  | _ => h
  end.

(** ** Requests and answers *)

(** [body] is the value whose JSON text is sent. *)
Record Request := mkRequest {
  req_url : string; req_method : string; req_headers : headers; req_body : option value; include_credentials : bool }.

(** [fetch(url, daemonFetchInit(auth, { method, body }, extra))]; the names of
    headers do not depend on case. *)
Definition daemonFetchInit (auth : option ApiAuth) (method : string) (body : option value) (extra : headers) (url : string)
    : Request :=
  {| req_url := url; req_method := method;
     req_headers := fold_left (fun h p => set (to_lower (fst p)) (snd p) h) (daemonHeaders auth extra) [];
     req_body := body;
     include_credentials := match auth with Some (Broker _ _ _ true) => true | _ => false end |}.

Definition json_type : headers := [("Content-Type", "application/json")].

Definition get_request (auth : option ApiAuth) (url : string) : Request := daemonFetchInit auth "GET" None [] url.
Definition bare_request (auth : option ApiAuth) (method url : string) : Request := daemonFetchInit auth method None [] url.
Definition json_request (auth : option ApiAuth) (method url : string) (body : value) : Request :=
  daemonFetchInit auth method (Some body) json_type url.

(** What the functions ask for: an answer, by its status, and then its text. *)
Inductive netE : Type -> Type :=
  | Send (r : Request) : netE (outcome Z)
  | ReadText : netE (outcome string)
  | Now : netE number
  | Sleep (ms : number) : netE unit
  | TraceId : netE string.

Abbreviation net := (prog netE).

(** [response.ok]. *)
Definition is_ok (status : Z) : bool := (200 <=? status) && (status <=? 299).

(** [schema.parse(v)] of the schema with that name: a value, or the text of the
    exception. *)
Class Schemas := parse_schema : string -> value -> outcome value.

Definition lift {A} (r : outcome A) : net A := match r with inl a => Ret a | inr e => Throw e end.

Section answers.
Context {J : Json} {Z : Schemas}.

(** [await response.json()]. *)
Definition read_json : net value :=
  t ← call ReadText; match parse t with Some v => Ret v | None => Throw "SyntaxError" end.

(** The three lines most functions end with. *)
Definition fetch_json (schema : string) (r : Request) : net value :=
  call (Send r) ;; j ← read_json; lift (parse_schema schema j).

(** [parseJsonOrThrow]. *)
Definition parseJsonOrThrow (status : BinNums.Z) : net value :=
  t ← call ReadText;
  match parse t with
  | Some v => Ret v
  | None => throw_error (if truthy_str t then "HTTP " ++s pretty status ++s ": " ++s t else "HTTP " ++s pretty status)
  end.

Definition fetch_or_throw (schema : string) (r : Request) : net value :=
  status ← call (Send r); j ← parseJsonOrThrow status; lift (parse_schema schema j).

(** [const id = String(x || "").trim(); if (!id) throw new Error(`missing ${name}`)]. *)
Definition require (name x : string) : net string :=
  let id := trim x in if truthy_str id then Ret id else throw_error ("missing " ++s name).
End answers.

(** ** Reading an address *)

Definition hex_value (c : ascii) : N :=
  let n := code c in if (n <? 58)%N then (n - 48)%N else (n - 55)%N.

(** The bytes of a percent-encoded text, as UTF-8; [space] is the character
    that stands for a blank. *)
Fixpoint decode (space : ascii) (s : string) : string :=
  match s with
  | "" => ""
  | String c s' =>
      if is_char "%" c then
        match s' with
        | String a (String b s1) =>
            let n := (hex_value a * 16 + hex_value b)%N in
            if (n <? 128)%N then String (Ascii.ascii_of_N n) (decode space s1)
            else match s1 with
                 | String _ (String a2 (String b2 s2)) =>
                     String (Ascii.ascii_of_N ((n - 192) * 64 + (hex_value a2 * 16 + hex_value b2 - 128))) (decode space s2)
                 | _ => ""
                 end
        | _ => ""
        end
      else String (if is_char space c then " "%char else c) (decode space s')
  end.

(** What stands before and after the first occurrence of a character. *)
Fixpoint cut (p : ascii) (s : string) : string * option string :=
  match s with
  | "" => ("", None)
  | String c s => if is_char p c then ("", Some s) else let '(a, b) := cut p s in (String c a, b)
  end.

Definition read_param (s : string) : string * string :=
  let '(k, v) := cut "="%char s in (decode "+"%char k, decode "+"%char (default "" v)).

(** The segments and the parameters of an address after its base. *)
Definition read_address (base url : string) : list string * params :=
  let '(p, q) := cut "?"%char (sdrop (String.length base) url) in
  (match p with "" => [] | String _ p => map (decode " "%char) (split_on (is_char "/") p) end,
   match q with None => [] | Some q => map read_param (split_on (is_char "&") q) end).

Fixpoint free_of (p : ascii -> bool) (s : string) : bool :=
  match s with "" => true | String c s => negb (p c) && free_of p s end.

Lemma free_of_app p a b : free_of p (a ++s b) = free_of p a && free_of p b.
Proof. induction a as [|c a IH]; [done|]. cbn. by rewrite IH, andb_assoc. Qed.

(** The characters with a meaning in an address. *)
Definition is_delimiter (c : ascii) : bool := existsb (is_char c) ["/"; "?"; "#"; "&"; "="; "+"; " "]%char.

Lemma encode_free s : free_of is_delimiter (encodeURIComponent s) = true.
Proof.
  induction s as [|c s IH]; [done|]. cbn [encodeURIComponent]. rewrite free_of_app, IH, andb_true_r.
  by destruct c as [[] [] [] [] [] [] [] []].
Qed.

Definition is_param_delimiter (c : ascii) : bool := existsb (is_char c) ["/"; "?"; "#"; "&"; "="]%char.

Lemma form_free s : free_of is_param_delimiter (form_encode s) = true.
Proof.
  induction s as [|c s IH]; [done|]. cbn [form_encode]. rewrite free_of_app, IH, andb_true_r.
  by destruct c as [[] [] [] [] [] [] [] []].
Qed.

Lemma decode_encode s : decode " "%char (encodeURIComponent s) = s.
Proof.
  assert (H : forall c rest, decode " "%char (encode_char c ++s rest) = String c (decode " "%char rest)).
  { intros c rest. by destruct c as [[] [] [] [] [] [] [] []]. }
  induction s as [|c s IH]; [done|]. cbn [encodeURIComponent]. by rewrite H, IH.
Qed.

Lemma decode_form s : decode "+"%char (form_encode s) = s.
Proof.
  assert (H : forall c rest, decode "+"%char (form_char c ++s rest) = String c (decode "+"%char rest)).
  { intros c rest. by destruct c as [[] [] [] [] [] [] [] []]. }
  induction s as [|c s IH]; [done|]. cbn [form_encode]. by rewrite H, IH.
Qed.

Lemma split_on_cons (p : ascii -> bool) a rest :
  free_of p a = true -> split_on p (a ++s rest) = match split_on p rest with h :: t => (a ++s h) :: t | [] => [a] end.
Proof.
  intros Ha. induction a as [|c a IH]; cbn [String.append split_on free_of] in *.
  - destruct (split_on p rest) eqn:E; [|done]. destruct rest as [|c rest]; cbn in E; [done|]. by repeat case_match.
  - apply andb_split in Ha as [Hc Ha]. rewrite IH by done. destruct (p c); [done|]. by destruct (split_on p rest).
Qed.

Lemma split_on_sep (p : ascii -> bool) a c rest :
  free_of p a = true -> p c = true -> split_on p (a ++s String c rest) = a :: split_on p rest.
Proof. intros Ha Hc. rewrite split_on_cons by done. cbn [split_on]. rewrite Hc. by rewrite append_nil_r. Qed.

Lemma split_on_free (p : ascii -> bool) a : free_of p a = true -> split_on p a = [a].
Proof. intros Ha. rewrite <-(append_nil_r a), split_on_cons by done. cbn. by rewrite append_nil_r. Qed.

Lemma cut_free p a rest : free_of (is_char p) a = true -> cut p (a ++s rest) = (a ++s fst (cut p rest), snd (cut p rest)).
Proof.
  intros Ha. induction a as [|c a IH]; cbn [String.append cut free_of] in *; [by destruct (cut p rest)|].
  apply andb_split in Ha as [Hc Ha]. apply negb_true_iff in Hc. rewrite Hc, IH by done. done.
Qed.

Lemma free_weaken (p q : ascii -> bool) s :
  (forall c, q c = true -> p c = true) -> free_of p s = true -> free_of q s = true.
Proof.
  intros H. induction s as [|c s IH]; [done|]. cbn [free_of]. intros [Hc Hs]%andb_split.
  rewrite IH by done. destruct (q c) eqn:E; [|done]. by rewrite (H c E) in Hc.
Qed.

Lemma free_char (p : ascii -> bool) c s : p c = true -> free_of p s = true -> free_of (is_char c) s = true.
Proof. intros Hp. apply free_weaken. intros d Hd. by apply bool_decide_eq_true in Hd as <-. Qed.

Lemma sdrop_append a b : sdrop (String.length a) (a ++s b) = b.
Proof. by induction a. Qed.

Lemma path_free segments : free_of (is_char "?") (path segments) = true.
Proof.
  induction segments as [|s segments IH]; [done|]. cbn [path]. rewrite !free_of_app, IH, andb_true_r.
  by rewrite (free_char is_delimiter "?"%char (encodeURIComponent s) eq_refl (encode_free s)).
Qed.

Lemma path_split s segments :
  map (decode " "%char) (split_on (is_char "/") (encodeURIComponent s ++s path segments)) = s :: segments.
Proof.
  revert s. induction segments as [|s' segments IH]; intros s; cbn [path].
  - rewrite append_nil_r, split_on_free by (by apply (free_char is_delimiter); [|apply encode_free]).
    cbn [map]. by rewrite decode_encode.
  - change ("/" ++s ?x) with (String "/" x).
    rewrite split_on_sep by (done || (apply (free_char is_delimiter); [done|apply encode_free])).
    cbn [map]. by rewrite decode_encode, IH.
Qed.

Lemma decode_plus s : decode "+"%char (encodeURIComponent s) = s.
Proof.
  assert (H : forall c rest, decode "+"%char (encode_char c ++s rest) = String c (decode "+"%char rest)).
  { intros c rest. by destruct c as [[] [] [] [] [] [] [] []]. }
  induction s as [|c s IH]; [done|]. cbn [encodeURIComponent]. by rewrite H, IH.
Qed.

(** Both ways to write a query string. *)
Section queries.
Context (encode : string -> string).
Hypothesis encode_delimiters : forall s, free_of is_param_delimiter (encode s) = true.
Hypothesis decode_back : forall s, decode "+"%char (encode s) = s.

Lemma read_pair p : read_param (pair_string encode p) = p.
Proof.
  destruct p as [k v]. unfold read_param, pair_string. cbn [fst snd].
  rewrite cut_free by (apply (free_char is_param_delimiter); [done|apply encode_delimiters]).
  cbn [String.append cut fst snd]. rewrite (bool_decide_true ("="%char = "="%char) eq_refl : is_char "=" "=" = true).
  cbn [fst snd]. rewrite append_nil_r. change (default "" (Some ?x)) with x. by rewrite !decode_back.
Qed.

Lemma pair_free p : free_of (is_char "&") (pair_string encode p) = true.
Proof.
  unfold pair_string. rewrite !free_of_app. rewrite (free_char is_param_delimiter "&"%char _ eq_refl (encode_delimiters (fst p))).
  by rewrite (free_char is_param_delimiter "&"%char _ eq_refl (encode_delimiters (snd p))).
Qed.

Lemma query_split p (qs : params) :
  map read_param (split_on (is_char "&") (join "&" (map (pair_string encode) (p :: qs)))) = p :: qs.
Proof.
  revert p. induction qs as [|q qs IH]; intros p; unfold join in *; cbn [map String.concat] in *.
  - rewrite split_on_free by apply pair_free. cbn [map]. by rewrite read_pair.
  - change ("&" ++s ?x) with (String "&" x). rewrite split_on_sep by (done || apply pair_free).
    cbn [map]. by rewrite read_pair, IH.
Qed.

Lemma read_address_with base segments p (qs : params) :
  read_address base (base ++s path segments ++s "?" ++s join "&" (map (pair_string encode) (p :: qs))) = (segments, p :: qs).
Proof.
  unfold read_address. rewrite sdrop_append, cut_free by apply path_free.
  set (q := join "&" _). replace (cut "?"%char ("?" ++s q)) with ("", Some q) by done. cbn [fst snd]. rewrite append_nil_r.
  unfold q. rewrite query_split. f_equal.
  destruct segments as [|s segments]; [done|]. cbn [path]. change ("/" ++s ?x) with (String "/" x). apply path_split.
Qed.
End queries.

Lemma encode_param_free s : free_of is_param_delimiter (encodeURIComponent s) = true.
Proof.
  eapply free_weaken; [|apply encode_free]. intros c. unfold is_delimiter, is_param_delimiter. cbn [existsb].
  intros H. repeat (apply orb_true_iff in H as [H|H]; [apply bool_decide_eq_true in H as ->; reflexivity|]). done.
Qed.

(** An address, with either kind of query string, reads back as what it names. *)
Lemma read_address_path base segments (qs : params) :
  read_address base (base ++s path segments ++s query qs) = (segments, qs)
  /\ (qs <> [] -> read_address base (base ++s path segments ++s plain_query qs) = (segments, qs)).
Proof.
  split.
  - unfold query. destruct (truthy_str (qs_string qs)) eqn:E.
    + destruct qs as [|p qs]; [done|]. apply read_address_with; [apply form_free|apply decode_form].
    + destruct qs as [|p qs].
      * rewrite append_nil_r. unfold read_address. rewrite sdrop_append, <-(append_nil_r (path segments)).
        rewrite cut_free by apply path_free. cbn [cut fst snd]. rewrite append_nil_r. f_equal.
        destruct segments as [|s segments]; [done|]. cbn [path]. change ("/" ++s ?x) with (String "/" x). apply path_split.
      * exfalso. apply truthy_str_false in E. revert E. unfold qs_string, join, pair_string. cbn [map String.concat].
        destruct (map _ qs); by destruct (form_encode (fst p)).
  - destruct qs as [|p qs]; [done|]. intros _. apply read_address_with; [apply encode_param_free|apply decode_plus].
Qed.

(** C22: an address names its arguments.  A request's address reads back as its
    path segments and parameters, so that no identifier or parameter, whatever
    characters it has, can be taken for another one, for another path or for a
    parameter: two addresses are the same only for the same arguments. *)
Theorem address_names_arguments base segments segments' (qs qs' : params) :
  read_address base (base ++s path segments ++s query qs) = (segments, qs)
  /\ (base ++s path segments ++s query qs = base ++s path segments' ++s query qs' <-> segments = segments' /\ qs = qs').
Proof.
  split; [apply read_address_path|]. split; [|by intros [-> ->]]. intros H.
  pose proof (proj1 (read_address_path base segments qs)) as H1. rewrite H in H1.
  rewrite (proj1 (read_address_path base segments' qs')) in H1. by injection H1.
Qed.

(** ** Headers *)

Lemma trim_end_drop a b : trim_end b = "" -> trim_end (a ++s b) = trim_end a.
Proof.
  intros Hb. unfold trim_end in *. induction a as [|c a IH]; [exact Hb|]. cbn [String.append trim_end_by]. by rewrite IH.
Qed.

Lemma stake_sdrop n s : (stake n s ++s sdrop n s) = s.
Proof. revert s. induction n as [|n IH]; intros s; [done|]. destruct s as [|c s]; [done|]. cbn. by rewrite IH. Qed.

(** What a bearer header carries: a trimmed text that is not empty. *)
Lemma bearer_value raw h :
  normalizeBearerHeader raw = Some h -> exists t, h = "Bearer " ++s t /\ trim t = t /\ t <> "".
Proof.
  unfold normalizeBearerHeader. set (s := trim (default "" raw)).
  assert (Hs : trim s = s) by apply trim_idem. clearbody s.
  destruct (truthy_str s) eqn:Ht; [|done]. apply truthy_str_true in Ht. cbn [negb].
  destruct (after_bearer s) as [rest|] eqn:Hb.
  - intros [= <-]. exists (trim rest). split; [done|]. split; [apply trim_idem|]. intros E.
    unfold after_bearer in Hb. destruct (sdrop 6 s) as [|c tail] eqn:Hd; [done|].
    destruct (bool_decide _) eqn:Hl; [|done]. destruct (is_ws c) eqn:Hc; [|done]. injection Hb as <-.
    apply bool_decide_eq_true in Hl. apply trim_fixed in Hs as [_ Hs].
    assert (He : trim_end (String c tail) = "").
    { unfold trim, trim_start, trim_end in *. cbn [trim_start_by] in E. rewrite Hc in E.
      rewrite trim_start_by_idem in E. cbn [trim_end_by].
      enough (trim_end_by is_ws tail = "") as -> by (by rewrite Hc).
      clear -E. induction tail as [|d tail IH]; [done|]. cbn [trim_start_by trim_end_by] in *.
      destruct (is_ws d) eqn:Hd; [by rewrite IH|]. exfalso. revert E. cbn [trim_end_by]. rewrite Hd. by destruct (trim_end_by is_ws tail). }
    rewrite <-(stake_sdrop 6 s), Hd, trim_end_drop in Hs by done.
    assert (Hlen : String.length (trim_end (stake 6 s)) = (String.length (stake 6 s) + S (String.length tail))%nat).
    { rewrite Hs, length_append. done. }
    assert (Hle : forall p x, (String.length (trim_end_by p x) <= String.length x)%nat).
    { clear. intros p. induction x as [|d x IH]; [done|]. cbn [trim_end_by]. destruct (trim_end_by p x); [by destruct (p d); cbn; lia|cbn in *; lia]. }
    specialize (Hle is_ws (stake 6 s)). unfold trim_end in Hlen. lia.
  - intros [= <-]. by exists s.
Qed.

(** Writing a token as a header is the same whether or not the token is written
    with the word in front. *)
Lemma bearer_again raw : normalizeBearerHeader (normalizeBearerHeader raw) = normalizeBearerHeader raw.
Proof.
  destruct (normalizeBearerHeader raw) as [h|] eqn:E; [|done].
  destruct (bearer_value raw h E) as (t & -> & Ht & Hne). unfold normalizeBearerHeader.
  change (default "" (Some ?x)) with x. destruct (trim_fixed t Ht) as [Hs He].
  assert (Htr : trim ("Bearer " ++s t) = "Bearer " ++s t).
  { unfold trim. change (trim_start ("Bearer " ++s t)) with ("Bearer " ++s t). by apply trim_end_app. }
  rewrite Htr. change (negb (truthy_str ("Bearer " ++s t))) with false. cbv iota.
  change (after_bearer ("Bearer " ++s t)) with (Some (trim_start (" " ++s t))). cbv iota.
  change (trim_start (" " ++s t)) with (trim_start t). by rewrite Hs, Ht.
Qed.

Lemma lower_headers (h : headers) k :
  wf h -> NoDup (map (fun p => to_lower (fst p)) h) ->
  forall acc, get (to_lower k) (fold_left (fun h p => set (to_lower (fst p)) (snd p) h) h acc)
    = match List.find (fun p => bool_decide (to_lower (fst p) = to_lower k)) h with Some p => Some (snd p) | None => get (to_lower k) acc end.
Proof.
  intros _. induction h as [|[k' v] h IH]; intros Hnd acc; [done|]. cbn [map fold_left fst snd List.find] in *.
  apply NoDup_cons in Hnd as [Hk Hnd]. rewrite IH by done. rewrite get_set.
  destruct (decide (to_lower k' = to_lower k)) as [E|E].
  - rewrite (bool_decide_true (to_lower k' = to_lower k)), (bool_decide_true (to_lower k = to_lower k')) by done.
    destruct (List.find _ h) as [q|] eqn:Hf; [|done]. exfalso. apply Hk. apply find_some in Hf as [Hin Hq].
    apply bool_decide_eq_true in Hq. rewrite E, <-Hq. apply list_elem_of_In, in_map_iff. by exists q.
  - rewrite (bool_decide_false (to_lower k' = to_lower k)), (bool_decide_false (to_lower k = to_lower k')) by congruence. done.
Qed.

(** ** The requests of a program *)

(** The requests that are sent. *)
Definition sends (P : Request -> Prop) : allowed netE := fun R e => match e with Send r => P r | _ => True end.

(** How many requests an effect and an execution send. *)
Definition cost {R} (e : netE R) : nat := match e with Send _ => 1 | _ => 0 end.
Definition sent (t : list (answered netE)) : nat := list_sum (map (fun ev => match ev with Ev e _ => cost e end) t).

(** Every request satisfies [P], and there are at most [n], whatever the answers. *)
Fixpoint within (P : Request -> Prop) (n : nat) {A} (p : net A) : Prop :=
  match p with
  | Ret _ | Throw _ => True
  | Act e k => (cost e <= n)%nat /\ sends P _ e /\ forall r, within P (n - cost e) (k r)
  end.

Lemma within_runs P n {A} (p : net A) t o :
  within P n p -> runs p t o -> (sent t <= n)%nat /\ Forall (on_event (sends P)) t.
Proof.
  revert n t. induction p as [a|e|R e k IH]; cbn [within runs]; intros n t.
  1, 2: intros _ [-> _]; cbn; auto with lia.
  intros (Hn & He & Hk) (r & t' & -> & H). destruct (IH r _ t' (Hk r) H) as [Hs Ht].
  split; [change (sent (Ev e r :: t')) with (cost e + sent t')%nat; lia|by constructor].
Qed.

Section within.
Context (P : Request -> Prop).

Lemma within_mono n m {A} (p : net A) : (n <= m)%nat -> within P n p -> within P m p.
Proof.
  revert n m. induction p as [a|e|R e k IH]; cbn [within]; intros n m Hnm; [done..|].
  intros (Hn & He & Hk). split; [lia|]. split; [done|]. intros r. apply (IH r (n - cost e)%nat); [lia|apply Hk].
Qed.

Lemma within_bind n m {A B} (p : net A) (f : A -> net B) :
  within P n p -> (forall a, within P m (f a)) -> within P (n + m) (p ≫= f).
Proof.
  intros Hp Hf. revert n Hp. induction p as [a|e|R e k IH]; intros n Hp.
  - change (Ret a ≫= f) with (f a). by apply (within_mono m); [lia|].
  - done.
  - destruct Hp as (Hn & He & Hk). split; [lia|]. split; [done|]. intros r.
    replace (n + m - cost e)%nat with ((n - cost e) + m)%nat by lia. by apply IH.
Qed.

(** One of the two makes no request, as in most functions. *)
Lemma within_bind_0 n {A B} (p : net A) (f : A -> net B) :
  within P 0 p -> (forall a, within P n (f a)) -> within P n (p ≫= f).
Proof. apply (within_bind 0 n). Qed.

Lemma within_bind_last n {A B} (p : net A) (f : A -> net B) :
  within P n p -> (forall a, within P 0 (f a)) -> within P n (p ≫= f).
Proof. intros Hp Hf. rewrite <-(Nat.add_0_r n). by apply within_bind. Qed.

Lemma within_catch n m {A} (p : net A) h :
  within P n p -> (forall e, within P m (h e)) -> within P (n + m) (catch p h).
Proof.
  intros Hp Hh. revert n Hp. induction p as [a|e|R e k IH]; intros n Hp; [done|apply (within_mono m); [lia|apply Hh]|].
  destruct Hp as (Hn & He & Hk). split; [lia|]. split; [done|]. intros r.
  replace (n + m - cost e)%nat with ((n - cost e) + m)%nat by lia. by apply IH.
Qed.

Lemma within_call {R} (e : netE (outcome R)) n : (cost e <= n)%nat -> sends P _ e -> within P n (call e).
Proof. intros Hn He. split; [done|]. split; [done|]. by intros [?|?]. Qed.

Context {J : Json} {S : Schemas}.

Lemma within_lift {A} n (r : outcome A) : within P n (lift r).
Proof. by destruct r. Qed.

Lemma within_read_json n : within P n read_json.
Proof. apply within_bind_last; [apply within_call; [apply Nat.le_0_l|done]|]. intros t. by destruct (parse t). Qed.

Lemma within_parseJsonOrThrow n status : within P n (parseJsonOrThrow status).
Proof. apply within_bind_last; [apply within_call; [apply Nat.le_0_l|done]|]. intros t. by destruct (parse t). Qed.

Lemma within_send n r : (1 <= n)%nat -> P r -> within P n (call (Send r)).
Proof. intros Hn Hr. by apply within_call. Qed.

Lemma within_fetch_json schema r : P r -> within P 1 (fetch_json schema r).
Proof.
  intros Hr. apply within_bind_last; [by apply within_send|]. intros _.
  apply within_bind_last; [apply within_read_json|]. intros j. apply within_lift.
Qed.

Lemma within_fetch_or_throw schema r : P r -> within P 1 (fetch_or_throw schema r).
Proof.
  intros Hr. apply within_bind_last; [by apply within_send|]. intros status.
  apply within_bind_last; [apply within_parseJsonOrThrow|]. intros j. apply within_lift.
Qed.

(** An identifier that is not blank, or the end. *)
Lemma within_require n name x {A} (f : string -> net A) :
  (trim x <> "" -> within P n (f (trim x))) -> within P n (require name x ≫= f).
Proof. intros Hf. unfold require. destruct (truthy_str (trim x)) eqn:E; [|done]. apply Hf. by apply truthy_str_true. Qed.
End within.

Create HintDb net.
#[export] Hint Resolve within_lift within_read_json within_parseJsonOrThrow within_fetch_json within_fetch_or_throw : net.
