(* ===== verification/ApiBroker.v ===== *)
(** The broker's interface (src/ui/src/api/broker.ts and apiBrokerTrace of
    trace.ts): for every function its request, or requests, and what it makes of
    the answer.  Bodies are passed on as they are; what the schemas accept is a
    parameter ([Schemas]). *)
From S2P Require Import Prelude JsNumber JsString JsValue JsonUtils Caches Http.

Definition withDeploymentIds (body : obj value) (deploymentIds : list string) : obj value :=
  match deploymentIds with
  | [] => body
  | _ => set "deployment_ids" (VArray (map VString deploymentIds)) body
  end.

Definition readBrokerError (v : value) (fallback : string) : string :=
  let record := safeObject v in
  match prop "error" record ??? prop "err" record with
  | VString message => if truthy_str (trim message) then message else fallback
  | _ => fallback
  end.

(** [typeof x === "number" && Number.isFinite(x)], and the texts of such numbers. *)
Definition finite (x : option number) : option number :=
  match x with Some x => if is_finite x then Some x else None | None => None end.
Definition at_least (lo : Z) (x : option number) : option number :=
  (fun x => math_max (int lo) (math_floor x)) <$> finite x.

Definition set_ids (deploymentIds : list string) (qs : params) : params :=
  match deploymentIds with [] => qs | _ => qs_set "deployment_ids" (join "," deploymentIds) qs end.

(** The parameters of two of the memory's lists, as memory.ts uses them too. *)
Definition add_number (k : string) (x : option number) : params -> params := addQueryParam k (PNumber <$> x).
Definition add_bool (k : string) (b : option bool) : params -> params := addQueryParam k (PBool <$> b).
Definition add_text (k : string) (s : option string) : params -> params := addQueryParam k (PString <$> s).

Record MemorySalienceParams := mkSalience {
  includeStructured : option bool; includeDaily : option bool; dailyDays : option number; maxItems : option number;
  maxStructuredItems : option number; maxDailyItems : option number; halfLifeDays : option number; importanceWeight : option number }.

Definition salience_params (p : MemorySalienceParams) : params :=
  add_number "importance_weight" (importanceWeight p) (add_number "half_life_days" (halfLifeDays p)
    (add_number "max_daily_items" (maxDailyItems p) (add_number "max_structured_items" (maxStructuredItems p)
      (add_number "max_items" (maxItems p) (add_number "daily_days" (dailyDays p)
        (add_bool "include_daily" (includeDaily p) (add_bool "include_structured" (includeStructured p) []))))))).

Record MemoryRecapsListParams := mkRecaps { recaps_limit : option number; includeSummary : option bool; kind : option string }.

Definition recaps_params (p : MemoryRecapsListParams) : params :=
  add_text "kind" (kind p) (add_bool "include_summary" (includeSummary p) (add_number "limit" (recaps_limit p) [])).

Section broker.
Context {J : Json} {S : Schemas}.
Context (brokerBase : string) (auth : option ApiAuth).

Definition base : string := strip_slashes brokerBase.
Definition at_v1 (segments : list string) : string := base ++s path ("v1" :: segments).

Definition get_v1 (schema : string) (segments : list string) (qs : params) : net value :=
  fetch_json schema (get_request auth (at_v1 segments ++s query qs)).
Definition plain_v1 (schema : string) (segments : list string) (qs : params) : net value :=
  fetch_json schema (get_request auth (at_v1 segments ++s plain_query qs)).
Definition bare_v1 (schema method : string) (segments : list string) : net value :=
  fetch_json schema (bare_request auth method (at_v1 segments)).
(** [JSON.stringify(body ?? {})]. *)
Definition body_or_empty (body : value) : value := body ??? VObject [].
Definition json_v1 (schema method : string) (segments : list string) (body : value) : net value :=
  fetch_json schema (json_request auth method (at_v1 segments) (body_or_empty body)).

(** The same with [daemonHeaders(auth, ...)] as further headers. *)
Definition twice_request (method url : string) (body : value) : Request :=
  daemonFetchInit auth method (Some body) (daemonHeaders auth json_type) url.

Definition parseOptionalJsonRecord : net (option (obj value)) :=
  catch (j ← read_json; Ret (Some (safeObject j))) (fun _ => Ret None).

(** [{ status, data }]. *)
Definition status_json (r : Request) : net value :=
  status ← call (Send r);
  data ← parseOptionalJsonRecord;
  Ret (VObject [("status", VNumber (int status)); ("data", match data with Some o => VObject o | None => VNull end)]).

(** ** Agents, sessions, connectors *)

Definition apiBrokerListAgents : net value := get_v1 "BrokerAgentsRespSchema" ["agents"] [].
Definition apiBrokerCreateAuthSession : net value := bare_v1 "BrokerAuthSessionRespSchema" "POST" ["auth"; "session"].
Definition apiBrokerDeleteAuthSession : net value := bare_v1 "BrokerAuthSessionRespSchema" "DELETE" ["auth"; "session"].

Definition apiBrokerListAudioSessions (agentId deploymentId : string) : net value :=
  get_v1 "BrokerAudioSessionListRespSchema" ["audio"; "sessions"]
    (set_text "deployment_id" (trim deploymentId) (set_text "agent_id" (trim agentId) [])).

Definition apiBrokerCreateAudioSession (body : obj value) : net value :=
  fetch_json "BrokerAudioSessionCreateRespSchema" (twice_request "POST" (at_v1 ["audio"; "sessions"]) (VObject body)).

Definition apiBrokerGetAudioSession (sessionId : string) : net value :=
  sid ← require "session_id" sessionId; get_v1 "BrokerAudioSessionGetRespSchema" ["audio"; "sessions"; sid] [].
Definition apiBrokerDeleteAudioSession (sessionId : string) : net value :=
  sid ← require "session_id" sessionId; bare_v1 "BrokerAudioSessionDeleteRespSchema" "DELETE" ["audio"; "sessions"; sid].
Definition apiBrokerSendAudioSignal (sessionId : string) (body : obj value) : net value :=
  sid ← require "session_id" sessionId;
  fetch_json "BrokerAudioSignalRespSchema"
    (twice_request "POST" (at_v1 ["audio"; "sessions"; sid; "signal"]) (VObject body)).

Definition apiBrokerListConnectors : net value := get_v1 "BrokerConnectorsRespSchema" ["connectors"] [].
Definition apiBrokerExportConnectors : net value := get_v1 "BrokerConnectorsRespSchema" ["connectors"; "export"] [].
Definition apiBrokerListDeployments (agentId : string) : net value :=
  id ← require "agent_id" agentId; get_v1 "BrokerDeploymentsRespSchema" ["agents"; id; "deployments"] [].

(** ** An agent through the broker *)

(** The request of a proxied call; the path is passed on as it is. *)
Definition proxy_request (id p method : string) (body : option value) (deploymentId : option string) : Request :=
  let p := if starts_with "/" p then p else "/" ++s p in
  let h := daemonHeaders auth json_type in
  let dep := trim (default "" deploymentId) in
  let h := if truthy_str dep then set "X-Agentd-Deployment" dep h else h in
  daemonFetchInit auth method body h (at_v1 ["agents"; id; "proxy"] ++s p).

Definition apiBrokerProxyJson (agentId p method : string) (body : option value) (deploymentId : option string) : net value :=
  id ← require "agent_id" agentId; status_json (proxy_request id p method body deploymentId).

Definition apiBrokerOtaUpdate (agentId : string) (body : obj value) (deploymentId : option string) : net value :=
  apiBrokerProxyJson agentId "/api/v1/ota/update" "POST" (Some (VObject body)) deploymentId.
Definition apiBrokerOtaStatus (agentId : string) (deploymentId : option string) : net value :=
  apiBrokerProxyJson agentId "/api/v1/ota/status" "GET" None deploymentId.

(** The calls for several deployments at once. *)
Definition bulk_post (agentId : string) (segments : list string) (body : obj value) (deploymentIds : list string) : net value :=
  id ← require "agent_id" agentId;
  status_json (twice_request "POST" (at_v1 ("agents" :: id :: segments)) (VObject (withDeploymentIds body deploymentIds))).
Definition bulk_get (agentId : string) (segments : list string) (qs : params) (deploymentIds : list string) : net value :=
  id ← require "agent_id" agentId;
  status_json (get_request auth (at_v1 ("agents" :: id :: segments) ++s query (set_ids deploymentIds qs))).

Definition apiBrokerOtaUpdateBulk (agentId : string) (body : obj value) (deploymentIds : list string) : net value :=
  bulk_post agentId ["ota"; "update"] body deploymentIds.
Definition apiBrokerOtaStatusBulk (agentId : string) (deploymentIds : list string) : net value :=
  bulk_get agentId ["ota"; "status"] [] deploymentIds.
Definition apiBrokerMemoryRetentionBulk (agentId : string) (body : obj value) (deploymentIds : list string) : net value :=
  bulk_post agentId ["memory"; "retention"; "enforce"] body deploymentIds.
Definition apiBrokerMemoryRecapsListBulk (agentId : string) (p : MemoryRecapsListParams) (deploymentIds : list string) : net value :=
  bulk_get agentId ["memory"; "recaps"] (recaps_params p) deploymentIds.
Definition apiBrokerMemorySalienceBulk (agentId : string) (p : MemorySalienceParams) (deploymentIds : list string) : net value :=
  bulk_get agentId ["memory"; "salience"] (salience_params p) deploymentIds.
Definition apiBrokerMemoryRecapsCreateBulk (agentId : string) (body : obj value) (deploymentIds : list string) : net value :=
  bulk_post agentId ["memory"; "recaps"] body deploymentIds.

(** ** Members *)

Definition apiBrokerGetMembers (agentId : string) : net value :=
  id ← require "agent_id" agentId; get_v1 "BrokerMembersRespSchema" ["agents"; id; "members"] [].

(** [{ ok, error }] of a change of a member. *)
Definition mutation_result (j : value) : net value :=
  let j := safeObject j in
  if (length j =? 0)%nat then throw_error "bad json"
  else if bool_decide (prop "ok" j = VBool true) then Ret (VObject [("ok", VBool true)])
  else Ret (VObject [("ok", VBool false); ("error", VString (readBrokerError (VObject j) "request failed"))]).

Definition apiBrokerUpsertMember (agentId user_sub role : string) : net value :=
  id ← require "agent_id" agentId;
  call (Send (json_request auth "POST" (at_v1 ["agents"; id; "members"])
                (VObject [("user_sub", VString (trim user_sub)); ("role", VString (trim role))]))) ;;
  j ← read_json; mutation_result j.
Definition apiBrokerDeleteMember (agentId userSub : string) : net value :=
  id ← require "agent_id" agentId; sub ← require "user_sub" userSub;
  call (Send (bare_request auth "DELETE" (at_v1 ["agents"; id; "members"; sub]))) ;;
  j ← read_json; mutation_result j.
Definition apiBrokerGetMembershipAudit (agentId : string) (limit : number) : net value :=
  id ← require "agent_id" agentId;
  let lim := if is_finite limit then math_max (int 1) (math_min limit (int 500)) else int 200 in
  plain_v1 "BrokerMembershipAuditRespSchema" ["agents"; id; "membership_audit"] [("limit", num_to_string lim)].

Definition apiBrokerEventsReplay (sinceTs limit : option number) (types : list string) : net value :=
  let qs := set_number "limit" (at_least 1 limit) (set_number "since_ts" (at_least 0 sinceTs) []) in
  let qs := match types with [] => qs | _ => qs_set "types" (join "," (List.filter truthy_str (map trim types))) qs end in
  get_v1 "BrokerEventsReplayRespSchema" ["events"; "replay"] qs.

(** ** The orchestrator *)

Definition page (limit offset : option number) (status : string) : params :=
  set_text "status" (trim status) (set_number "offset" (at_least 0 offset) (set_number "limit" (at_least 1 limit) [])).

Definition apiBrokerOrchestratorRunsList (teamId : string) (limit offset : option number) (status : string) : net value :=
  tid ← require "team_id" teamId;
  get_v1 "BrokerOrchestratorRunListRespSchema" ["teams"; tid; "orchestrator"; "runs"] (page limit offset status).
Definition apiBrokerOrchestratorRunCreate (teamId : string) (body : value) : net value :=
  tid ← require "team_id" teamId;
  json_v1 "BrokerOrchestratorRunRespSchema" "POST" ["teams"; tid; "orchestrator"; "runs"] body.

(** [if (!a || !b) throw new Error(message)]. *)
Definition require2 (message a b : string) : net (string * string) :=
  let a := trim a in let b := trim b in
  if negb (truthy_str a) || negb (truthy_str b) then throw_error message else Ret (a, b).

Definition run_ids := require2 "missing team_id or run id".
Definition spawn_ids := require2 "missing team_id or spawn_request_id".

Definition apiBrokerOrchestratorRunGet (teamId runId : string) : net value :=
  ids ← run_ids teamId runId;
  get_v1 "BrokerOrchestratorRunRespSchema" ["teams"; fst ids; "orchestrator"; "runs"; snd ids] [].
Definition apiBrokerOrchestratorRunUpdate (teamId runId : string) (body : value) : net value :=
  ids ← run_ids teamId runId;
  json_v1 "BrokerOrchestratorRunRespSchema" "PATCH" ["teams"; fst ids; "orchestrator"; "runs"; snd ids] body.
Definition apiBrokerOrchestratorRunHeartbeat (teamId runId : string) (body : value) : net value :=
  ids ← run_ids teamId runId;
  json_v1 "BrokerOrchestratorRunRespSchema" "POST" ["teams"; fst ids; "orchestrator"; "runs"; snd ids; "heartbeat"] body.
Definition apiBrokerOrchestratorSpawnRequestsList (teamId : string) (limit offset : option number) (status orchestratorRunId : string)
    : net value :=
  tid ← require "team_id" teamId;
  get_v1 "BrokerOrchestratorSpawnRequestListRespSchema" ["teams"; tid; "orchestrator"; "spawn_requests"]
    (set_text "orchestrator_run_id" (trim orchestratorRunId) (page limit offset status)).
Definition apiBrokerOrchestratorSpawnRequestCreate (teamId : string) (body : value) : net value :=
  tid ← require "team_id" teamId;
  json_v1 "BrokerOrchestratorSpawnRequestRespSchema" "POST" ["teams"; tid; "orchestrator"; "spawn_requests"] body.
Definition apiBrokerOrchestratorSpawnRequestGet (teamId spawnRequestId : string) : net value :=
  ids ← spawn_ids teamId spawnRequestId;
  get_v1 "BrokerOrchestratorSpawnRequestRespSchema" ["teams"; fst ids; "orchestrator"; "spawn_requests"; snd ids] [].
Definition apiBrokerOrchestratorSpawnRequestUpdate (teamId spawnRequestId : string) (body : value) : net value :=
  ids ← spawn_ids teamId spawnRequestId;
  json_v1 "BrokerOrchestratorSpawnRequestRespSchema" "PATCH" ["teams"; fst ids; "orchestrator"; "spawn_requests"; snd ids] body.

(** ** Preferences *)

Definition apiBrokerGetClientPrefs (clientId clientKind : string) : net value :=
  get_v1 "ClientPrefsSchema" ["client_prefs"] [("client_id", clientId); ("client_kind", clientKind)].
Definition apiBrokerPostClientPrefs (req : value) : net value :=
  payload ← lift (parse_schema "ClientPrefsUpdateReqSchema" req);
  fetch_json "ClientPrefsSchema" (json_request auth "POST" (at_v1 ["client_prefs"]) payload).

(** ** Teams *)

Definition apiBrokerTeamList : net value := get_v1 "BrokerTeamListRespSchema" ["teams"] [].
Definition apiBrokerTeamCreate (body : value) : net value := json_v1 "BrokerTeamCreateRespSchema" "POST" ["teams"] body.
Definition apiBrokerTeamUpdate (teamId : string) (body : value) : net value :=
  id ← require "team_id" teamId; json_v1 "BrokerTeamGetRespSchema" "PATCH" ["teams"; id] body.
Definition apiBrokerTeamGet (teamId : string) : net value :=
  tid ← require "team_id" teamId; get_v1 "BrokerTeamGetRespSchema" ["teams"; tid] [].
Definition apiBrokerTeamDelete (teamId : string) : net value :=
  tid ← require "team_id" teamId; bare_v1 "BrokerTeamDeleteRespSchema" "DELETE" ["teams"; tid].

Definition apiBrokerTeamMembersList (teamId : string) : net value :=
  tid ← require "team_id" teamId; get_v1 "BrokerTeamMemberListRespSchema" ["teams"; tid; "members"] [].
Definition apiBrokerTeamMembersUpsert (teamId : string) (body : value) : net value :=
  tid ← require "team_id" teamId; json_v1 "BrokerTeamMemberUpsertRespSchema" "POST" ["teams"; tid; "members"] body.

(** Both identifiers are trimmed first, then tested in turn. *)
Definition require_both (name name' x x' : string) : net (string * string) :=
  a ← require name x; b ← require name' x'; Ret (a, b).

Definition apiBrokerTeamMemberUpdate (teamId memberId : string) (body : value) : net value :=
  ids ← require_both "team_id" "member_id" teamId memberId;
  json_v1 "BrokerTeamMemberUpsertRespSchema" "PATCH" ["teams"; fst ids; "members"; snd ids] body.
Definition apiBrokerTeamMembersDelete (teamId memberId : string) : net value :=
  ids ← require_both "team_id" "member_id" teamId memberId;
  bare_v1 "BrokerTeamDeleteRespSchema" "DELETE" ["teams"; fst ids; "members"; snd ids].

Definition apiBrokerTeamGuidanceList (teamId teamRunId status : string) (sinceTs limit offset : option number) : net value :=
  tid ← require "team_id" teamId;
  get_v1 "BrokerGuidanceListRespSchema" ["teams"; tid; "guidance"]
    (set_number "offset" (finite offset) (set_number "limit" (finite limit) (set_number "since_ts" (finite sinceTs)
      (set_text "status" (trim status) (set_text "team_run_id" (trim teamRunId) []))))).
Definition apiBrokerTeamGuidanceCreate (teamId : string) (body : value) : net value :=
  tid ← require "team_id" teamId; json_v1 "BrokerGuidanceCreateRespSchema" "POST" ["teams"; tid; "guidance"] body.
Definition apiBrokerTeamGuidanceAck (teamId guidanceId : string) (body : value) : net value :=
  ids ← require_both "team_id" "guidance_id" teamId guidanceId;
  json_v1 "BrokerGuidanceAckRespSchema" "POST" ["teams"; fst ids; "guidance"; snd ids; "ack"] body.
Definition apiBrokerTeamGuidanceReceiptsList (teamId guidanceId : string) (limit : option number) : net value :=
  ids ← require_both "team_id" "guidance_id" teamId guidanceId;
  get_v1 "BrokerGuidanceReceiptListRespSchema" ["teams"; fst ids; "guidance"; snd ids; "receipts"] (set_number "limit" (finite limit) []).

Definition apiBrokerTeamQuorumList (teamId : string) : net value :=
  tid ← require "team_id" teamId; get_v1 "BrokerTeamQuorumRuleListRespSchema" ["teams"; tid; "quorum"] [].
Definition apiBrokerTeamQuorumUpsert (teamId : string) (body : value) : net value :=
  tid ← require "team_id" teamId; json_v1 "BrokerTeamQuorumRuleUpsertRespSchema" "POST" ["teams"; tid; "quorum"] body.
Definition apiBrokerTeamQuorumDelete (teamId ruleId : string) : net value :=
  ids ← require_both "team_id" "rule_id" teamId ruleId;
  bare_v1 "BrokerTeamDeleteRespSchema" "DELETE" ["teams"; fst ids; "quorum"; snd ids].

(** ** Runs of a team *)

Definition apiBrokerTeamRunCreate (teamId : string) (body : value) : net value :=
  tid ← require "team_id" teamId; json_v1 "BrokerTeamRunRespSchema" "POST" ["teams"; tid; "runs"] body.
Definition apiBrokerTeamRunList (teamId : string) (limit offset : option number) (status : string) : net value :=
  tid ← require "team_id" teamId;
  get_v1 "BrokerTeamRunListRespSchema" ["teams"; tid; "runs"]
    (set_text "status" (trim status) (set_number "offset" offset (set_number "limit" limit []))).

Definition team_run := require_both "team_id" "team_run_id".

Definition apiBrokerTeamRunGet (teamId teamRunId : string) : net value :=
  ids ← team_run teamId teamRunId; get_v1 "BrokerTeamRunStatusRespSchema" ["teams"; fst ids; "runs"; snd ids] [].
Definition apiBrokerTeamRunCancel (teamId teamRunId : string) : net value :=
  ids ← team_run teamId teamRunId; bare_v1 "BrokerTeamRunStatusRespSchema" "POST" ["teams"; fst ids; "runs"; snd ids; "cancel"].
Definition apiBrokerTeamRunGoalUpdate (teamId teamRunId : string) (body : value) : net value :=
  ids ← team_run teamId teamRunId;
  json_v1 "BrokerTeamRunGoalUpdateRespSchema" "POST" ["teams"; fst ids; "runs"; snd ids; "goal"] body.
Definition apiBrokerTeamRunHandoff (teamId teamRunId : string) (body : value) : net value :=
  ids ← team_run teamId teamRunId;
  json_v1 "BrokerTeamRunHandoffRespSchema" "POST" ["teams"; fst ids; "runs"; snd ids; "handoff"] body.
Definition apiBrokerTeamRunModeratorDirective (teamId teamRunId : string) (body : value) : net value :=
  ids ← team_run teamId teamRunId;
  json_v1 "BrokerTeamRunModeratorRespSchema" "POST" ["teams"; fst ids; "runs"; snd ids; "moderator"; "directive"] body.
Definition apiBrokerTeamRunModeratorTask (teamId teamRunId : string) (body : value) : net value :=
  ids ← team_run teamId teamRunId;
  json_v1 "BrokerTeamRunModeratorRespSchema" "POST" ["teams"; fst ids; "runs"; snd ids; "moderator"; "task"] body.

Record ModeratorEventsOpts := mkModeratorEvents {
  types : string; maxBytes : option number; limit : option number; roles : string; memberIds : string; agentIds : string;
  maxConcurrency : option number; timeoutMs : option number }.

Definition moderator_params (o : ModeratorEventsOpts) : params :=
  set_number "timeout_ms" (timeoutMs o) (set_number "max_concurrency" (maxConcurrency o) (set_text "agent_ids" (agentIds o)
    (set_text "member_ids" (memberIds o) (set_text "roles" (roles o) (set_number "limit" (limit o)
      (set_number "max_bytes" (maxBytes o) (set_text "types" (types o) []))))))).

Definition apiBrokerTeamRunModeratorEvents (teamId teamRunId : string) (opts : ModeratorEventsOpts) : net value :=
  ids ← team_run teamId teamRunId;
  get_v1 "BrokerTeamRunModeratorEventsRespSchema" ["teams"; fst ids; "runs"; snd ids; "moderator"; "events"] (moderator_params opts).
Definition apiBrokerTeamRunApprovalsList (teamId teamRunId : string) : net value :=
  ids ← team_run teamId teamRunId; get_v1 "BrokerTeamRunApprovalListRespSchema" ["teams"; fst ids; "runs"; snd ids; "approvals"] [].
Definition apiBrokerTeamRunApprovalsCreate (teamId teamRunId : string) (body : value) : net value :=
  ids ← team_run teamId teamRunId;
  json_v1 "BrokerTeamRunApprovalListRespSchema" "POST" ["teams"; fst ids; "runs"; snd ids; "approvals"] body.
Definition apiBrokerTeamRunRuntimeMembersUpdate (teamId teamRunId : string) (body : value) : net value :=
  ids ← team_run teamId teamRunId;
  json_v1 "BrokerTeamRunStatusRespSchema" "PATCH" ["teams"; fst ids; "runs"; snd ids; "runtime_members"] body.

Definition apiBrokerTrace (traceId : string) : net value :=
  tid ← require "trace_id" traceId;
  plain_v1 "BrokerTraceRespSchema" ["trace"] [("trace_id", tid); ("limit", "200"); ("fanout", "1")].

(** ** What the functions request *)

(** A route: the method, the segments of the path after [v1], the query and the body. *)
Record route := mkRoute { r_method : string; r_segments : list string; r_query : params; r_body : option value }.

Definition GET (segments : list string) (qs : params) : route := mkRoute "GET" segments qs None.
Definition BARE (method : string) (segments : list string) : route := mkRoute method segments [] None.
Definition JSON (method : string) (segments : list string) (body : value) : route := mkRoute method segments [] (Some body).

(** Parameters that are left out when they are empty. *)
Definition opt (k s : string) : params := if truthy_str s then [(k, s)] else [].
Definition opt_num (k : string) (x : option number) : params := match x with Some x => [(k, num_to_string x)] | None => [] end.
Definition opt_param (k : string) (v : option param) : params := match v with Some v => opt k (param_text v) | None => [] end.
Definition opt_ids (l : list string) : params := match l with [] => [] | _ => [("deployment_ids", join "," l)] end.
Definition opt_types (l : list string) : params :=
  match l with [] => [] | _ => [("types", join "," (List.filter truthy_str (map trim l)))] end.

(** The body of a call for several deployments. *)
Definition for_deployments (o : obj value) (l : list string) : value :=
  VObject (match l with [] => o | _ => set "deployment_ids" (VArray (map VString l)) o end).

(** An optional number, not less than a bound, without a fraction. *)
Definition whole (lo : Z) (x : option number) : option number :=
  match x with Some x => if is_finite x then Some (math_max (int lo) (math_floor x)) else None | None => None end.
Definition given (x : option number) : option number :=
  match x with Some x => if is_finite x then Some x else None | None => None end.

Definition paged (n n1 : option number) (status : string) : params :=
  opt_num "limit" (whole 1 n) ++ opt_num "offset" (whole 0 n1) ++ opt "status" (trim status).

Definition or_empty (body : value) : value := match body with VUndefined | VNull => VObject [] | v => v end.

(** Every function, applied to arguments, with the route that it is to take;
    [apiBrokerProxyJson], whose path is an argument, is treated apart. *)
Definition broker_routes (a b s s' : string) (n n1 n2 : option number) (x : number) (o : obj value) (body : value) (l : list string)
    (dep : option string) (recaps : MemoryRecapsListParams) (salience : MemorySalienceParams) (events : ModeratorEventsOpts)
    : list (route * net value) :=
  let A := trim a in let B := trim b in
  let agent rest := "agents" :: A :: rest in
  let team rest := "teams" :: A :: rest in
  let team_run rest := "teams" :: A :: "runs" :: B :: rest in
  let json := or_empty body in
  [(GET ["agents"] [], apiBrokerListAgents);
   (BARE "POST" ["auth"; "session"], apiBrokerCreateAuthSession);
   (BARE "DELETE" ["auth"; "session"], apiBrokerDeleteAuthSession);
   (GET ["audio"; "sessions"] (opt "agent_id" (trim s) ++ opt "deployment_id" (trim s')), apiBrokerListAudioSessions s s');
   (JSON "POST" ["audio"; "sessions"] (VObject o), apiBrokerCreateAudioSession o);
   (GET ["audio"; "sessions"; A] [], apiBrokerGetAudioSession a);
   (BARE "DELETE" ["audio"; "sessions"; A], apiBrokerDeleteAudioSession a);
   (JSON "POST" ["audio"; "sessions"; A; "signal"] (VObject o), apiBrokerSendAudioSignal a o);
   (GET ["connectors"] [], apiBrokerListConnectors);
   (GET ["connectors"; "export"] [], apiBrokerExportConnectors);
   (GET (agent ["deployments"]) [], apiBrokerListDeployments a);
   (JSON "POST" (agent ["proxy"; "api"; "v1"; "ota"; "update"]) (VObject o), apiBrokerOtaUpdate a o dep);
   (GET (agent ["proxy"; "api"; "v1"; "ota"; "status"]) [], apiBrokerOtaStatus a dep);
   (JSON "POST" (agent ["ota"; "update"]) (for_deployments o l), apiBrokerOtaUpdateBulk a o l);
   (GET (agent ["ota"; "status"]) (opt_ids l), apiBrokerOtaStatusBulk a l);
   (JSON "POST" (agent ["memory"; "retention"; "enforce"]) (for_deployments o l), apiBrokerMemoryRetentionBulk a o l);
   (GET (agent ["memory"; "recaps"])
      (opt_param "limit" (PNumber <$> recaps_limit recaps) ++ opt_param "include_summary" (PBool <$> includeSummary recaps)
       ++ opt_param "kind" (PString <$> kind recaps) ++ opt_ids l), apiBrokerMemoryRecapsListBulk a recaps l);
   (GET (agent ["memory"; "salience"])
      (opt_param "include_structured" (PBool <$> includeStructured salience) ++ opt_param "include_daily" (PBool <$> includeDaily salience)
       ++ opt_param "daily_days" (PNumber <$> dailyDays salience) ++ opt_param "max_items" (PNumber <$> maxItems salience)
       ++ opt_param "max_structured_items" (PNumber <$> maxStructuredItems salience)
       ++ opt_param "max_daily_items" (PNumber <$> maxDailyItems salience)
       ++ opt_param "half_life_days" (PNumber <$> halfLifeDays salience)
       ++ opt_param "importance_weight" (PNumber <$> importanceWeight salience) ++ opt_ids l), apiBrokerMemorySalienceBulk a salience l);
   (JSON "POST" (agent ["memory"; "recaps"]) (for_deployments o l), apiBrokerMemoryRecapsCreateBulk a o l);
   (GET (agent ["members"]) [], apiBrokerGetMembers a);
   (JSON "POST" (agent ["members"]) (VObject [("user_sub", VString (trim s)); ("role", VString (trim s'))]), apiBrokerUpsertMember a s s');
   (BARE "DELETE" (agent ["members"; B]), apiBrokerDeleteMember a b);
   (GET (agent ["membership_audit"])
      [("limit", num_to_string (if is_finite x then math_max (int 1) (math_min x (int 500)) else int 200))], apiBrokerGetMembershipAudit a x);
   (GET ["events"; "replay"] (opt_num "since_ts" (whole 0 n2) ++ opt_num "limit" (whole 1 n) ++ opt_types l), apiBrokerEventsReplay n2 n l);
   (GET (team ["orchestrator"; "runs"]) (paged n n1 s), apiBrokerOrchestratorRunsList a n n1 s);
   (JSON "POST" (team ["orchestrator"; "runs"]) json, apiBrokerOrchestratorRunCreate a body);
   (GET (team ["orchestrator"; "runs"; B]) [], apiBrokerOrchestratorRunGet a b);
   (JSON "PATCH" (team ["orchestrator"; "runs"; B]) json, apiBrokerOrchestratorRunUpdate a b body);
   (JSON "POST" (team ["orchestrator"; "runs"; B; "heartbeat"]) json, apiBrokerOrchestratorRunHeartbeat a b body);
   (GET (team ["orchestrator"; "spawn_requests"]) (paged n n1 s ++ opt "orchestrator_run_id" (trim s')),
      apiBrokerOrchestratorSpawnRequestsList a n n1 s s');
   (JSON "POST" (team ["orchestrator"; "spawn_requests"]) json, apiBrokerOrchestratorSpawnRequestCreate a body);
   (GET (team ["orchestrator"; "spawn_requests"; B]) [], apiBrokerOrchestratorSpawnRequestGet a b);
   (JSON "PATCH" (team ["orchestrator"; "spawn_requests"; B]) json, apiBrokerOrchestratorSpawnRequestUpdate a b body);
   (GET ["client_prefs"] [("client_id", s); ("client_kind", s')], apiBrokerGetClientPrefs s s');
   (mkRoute "POST" ["client_prefs"] [] (match parse_schema "ClientPrefsUpdateReqSchema" body with inl v => Some v | inr _ => None end),
      apiBrokerPostClientPrefs body);
   (GET ["teams"] [], apiBrokerTeamList);
   (JSON "POST" ["teams"] json, apiBrokerTeamCreate body);
   (JSON "PATCH" (team []) json, apiBrokerTeamUpdate a body);
   (GET (team []) [], apiBrokerTeamGet a);
   (BARE "DELETE" (team []), apiBrokerTeamDelete a);
   (GET (team ["members"]) [], apiBrokerTeamMembersList a);
   (JSON "POST" (team ["members"]) json, apiBrokerTeamMembersUpsert a body);
   (JSON "PATCH" (team ["members"; B]) json, apiBrokerTeamMemberUpdate a b body);
   (BARE "DELETE" (team ["members"; B]), apiBrokerTeamMembersDelete a b);
   (GET (team ["guidance"])
      (opt "team_run_id" (trim s) ++ opt "status" (trim s') ++ opt_num "since_ts" (given n2) ++ opt_num "limit" (given n)
       ++ opt_num "offset" (given n1)), apiBrokerTeamGuidanceList a s s' n2 n n1);
   (JSON "POST" (team ["guidance"]) json, apiBrokerTeamGuidanceCreate a body);
   (JSON "POST" (team ["guidance"; B; "ack"]) json, apiBrokerTeamGuidanceAck a b body);
   (GET (team ["guidance"; B; "receipts"]) (opt_num "limit" (given n)), apiBrokerTeamGuidanceReceiptsList a b n);
   (GET (team ["quorum"]) [], apiBrokerTeamQuorumList a);
   (JSON "POST" (team ["quorum"]) json, apiBrokerTeamQuorumUpsert a body);
   (BARE "DELETE" (team ["quorum"; B]), apiBrokerTeamQuorumDelete a b);
   (JSON "POST" (team ["runs"]) json, apiBrokerTeamRunCreate a body);
   (GET (team ["runs"]) (opt_num "limit" n ++ opt_num "offset" n1 ++ opt "status" (trim s)), apiBrokerTeamRunList a n n1 s);
   (GET (team_run []) [], apiBrokerTeamRunGet a b);
   (BARE "POST" (team_run ["cancel"]), apiBrokerTeamRunCancel a b);
   (JSON "POST" (team_run ["goal"]) json, apiBrokerTeamRunGoalUpdate a b body);
   (JSON "POST" (team_run ["handoff"]) json, apiBrokerTeamRunHandoff a b body);
   (JSON "POST" (team_run ["moderator"; "directive"]) json, apiBrokerTeamRunModeratorDirective a b body);
   (JSON "POST" (team_run ["moderator"; "task"]) json, apiBrokerTeamRunModeratorTask a b body);
   (GET (team_run ["moderator"; "events"])
      (opt "types" (types events) ++ opt_num "max_bytes" (maxBytes events) ++ opt_num "limit" (limit events) ++ opt "roles" (roles events)
       ++ opt "member_ids" (memberIds events) ++ opt "agent_ids" (agentIds events)
       ++ opt_num "max_concurrency" (maxConcurrency events) ++ opt_num "timeout_ms" (timeoutMs events)),
      apiBrokerTeamRunModeratorEvents a b events);
   (GET (team_run ["approvals"]) [], apiBrokerTeamRunApprovalsList a b);
   (JSON "POST" (team_run ["approvals"]) json, apiBrokerTeamRunApprovalsCreate a b body);
   (JSON "PATCH" (team_run ["runtime_members"]) json, apiBrokerTeamRunRuntimeMembersUpdate a b body);
   (GET ["trace"] [("trace_id", trim s); ("limit", "200"); ("fanout", "1")], apiBrokerTrace s)].

(** The request carries the credentials of the connection, and says so when it
    has a body. *)
Definition signed (r : Request) : Prop :=
  get "authorization" (req_headers r) = normalizeBearerHeader (auth ≫= auth_token)
  /\ include_credentials r = match auth with Some (Broker _ _ _ c) => c | _ => false end
  /\ (req_body r <> None -> get "content-type" (req_headers r) = Some "application/json").

(** The request is the one of the route, at this broker; no segment is blank. *)
Definition on_route (rt : route) (r : Request) : Prop :=
  req_method r = r_method rt
  /\ req_url r = base ++s sdrop (String.length base) (req_url r)
  /\ read_address base (req_url r) = ("v1" :: r_segments rt, r_query rt)
  /\ Forall (fun s => s <> "") (r_segments rt)
  /\ req_body r = r_body rt
  /\ signed r.

(** The program begins with a request. *)
Definition opens {A} (p : net A) : bool :=
  match p with Act e _ => match e with Send _ => true | _ => false end | _ => false end.

Lemma opens_sent {A} (p : net A) t out : opens p = true -> runs p t out -> (1 <= sent t)%nat.
Proof.
  destruct p as [?|?|R e k]; [done..|]. intros He (r & t' & -> & _). change (1 <= cost e + sent t')%nat.
  destruct e; try done. cbn. lia.
Qed.

(** Whatever further headers of its own a request has, the connection's come last. *)
Lemma signed_init method body extra url :
  (extra = [] /\ body = None) \/ extra = json_type \/ extra = daemonHeaders auth json_type ->
  signed (daemonFetchInit auth method body extra url).
Proof.
  intros H. split; [|split; [by destruct auth as [[|x y z []]|]|]];
    destruct H as [[-> ->] | [-> | ->]]; unfold daemonFetchInit, daemonHeaders; try done;
    destruct auth as [[t|t t' d c]|]; cbn [req_headers req_body auth_token mbind option_bind]; try reflexivity; try (intros _; reflexivity);
    destruct (normalizeBearerHeader t); try reflexivity; try (intros _; reflexivity);
    destruct (normalizeBearerHeader t'), (trimmed_some d); try reflexivity; intros _; reflexivity.
Qed.

Lemma signed_proxy id p method body dep : signed (proxy_request id p method body dep).
Proof.
  split; [|split; [by unfold proxy_request; destruct auth as [[|x y z []]|]|]];
  unfold proxy_request, daemonFetchInit, daemonHeaders; cbn [req_headers req_body];
  destruct auth as [[t|t t' d c]|]; cbn [req_headers auth_token mbind option_bind]; destruct (truthy_str _);
    try reflexivity; try (intros _; reflexivity);
    destruct (normalizeBearerHeader t); try reflexivity; try (intros _; reflexivity);
    destruct (normalizeBearerHeader t'), (trimmed_some d); try reflexivity; intros _; reflexivity.
Qed.

Lemma route_at method segments qs body extra b :
  (extra = [] /\ body = None) \/ extra = json_type \/ extra = daemonHeaders auth json_type ->
  body = b -> Forall (fun s => s <> "") segments ->
  on_route (mkRoute method segments qs b) (daemonFetchInit auth method body extra (at_v1 segments ++s query qs))
  /\ (qs <> [] -> on_route (mkRoute method segments qs b) (daemonFetchInit auth method body extra (at_v1 segments ++s plain_query qs))).
Proof.
  intros He Hb Hs. destruct (read_address_path base ("v1" :: segments) qs) as [H1 H2]. unfold on_route.
  split; [|intros Hq]; cbn [req_method req_url req_body daemonFetchInit r_method r_segments r_query r_body]; unfold at_v1;
    rewrite !append_assoc; (split; [done|]); (split; [by rewrite sdrop_append|]); (split; [by auto|]); (split; [done|]);
    (split; [done|]); by apply signed_init.
Qed.

Lemma route_query method segments qs qs' body extra b :
  (extra = [] /\ body = None) \/ extra = json_type \/ extra = daemonHeaders auth json_type ->
  body = b -> Forall (fun s => s <> "") segments -> qs' = qs ->
  on_route (mkRoute method segments qs b) (daemonFetchInit auth method body extra (at_v1 segments ++s query qs')).
Proof. intros He Hb Hs ->. by apply route_at. Qed.

Lemma route_plain method segments p qs qs' body extra b :
  (extra = [] /\ body = None) \/ extra = json_type \/ extra = daemonHeaders auth json_type ->
  body = b -> Forall (fun s => s <> "") segments -> qs' = p :: qs ->
  on_route (mkRoute method segments (p :: qs) b) (daemonFetchInit auth method body extra (at_v1 segments ++s plain_query qs')).
Proof. intros He Hb Hs ->. by apply route_at. Qed.

Lemma route_bare method segments body extra b :
  (extra = [] /\ body = None) \/ extra = json_type \/ extra = daemonHeaders auth json_type ->
  body = b -> Forall (fun s => s <> "") segments ->
  on_route (mkRoute method segments [] b) (daemonFetchInit auth method body extra (at_v1 segments)).
Proof. intros He Hb Hs. rewrite <-(append_nil_r (at_v1 segments)). by apply (route_query method segments [] []). Qed.

(** The two proxied paths that the file writes out. *)
Lemma route_proxy a method body dep segments :
  trim a <> "" -> Forall (fun s => s <> "") segments -> starts_with "/" (path segments) = true ->
  on_route (mkRoute method ("agents" :: trim a :: "proxy" :: segments) [] body)
    (proxy_request (trim a) (path segments) method body dep).
Proof.
  intros Ha Hs Hp. pose proof (signed_proxy (trim a) (path segments) method body dep) as Hsig.
  destruct (route_bare method ("agents" :: trim a :: "proxy" :: segments) body json_type body) as (H1 & H2 & H3 & H4 & H5 & _);
    [by right; left|done|by repeat constructor|].
  assert (Hu : req_url (proxy_request (trim a) (path segments) method body dep) = at_v1 ("agents" :: trim a :: "proxy" :: segments)).
  { unfold proxy_request. rewrite Hp. cbn [req_url daemonFetchInit]. unfold at_v1. cbn [path]. by rewrite !append_assoc. }
  unfold on_route. rewrite Hu. done.
Qed.

(** *** Queries *)

Lemma qs_set_new k v (qs : params) : k ∉ map fst qs -> qs_set k v qs = qs ++ [(k, v)].
Proof.
  intros H. unfold qs_set. by rewrite (proj2 (has_false k qs)) by (by apply get_none).
Qed.

Lemma set_text_opt k s qs : k ∉ map fst qs -> set_text k s qs = qs ++ opt k s.
Proof. intros H. unfold set_text, opt. destruct (truthy_str s); [by apply qs_set_new|by rewrite app_nil_r]. Qed.

Lemma set_number_opt k x qs : k ∉ map fst qs -> set_number k x qs = qs ++ opt_num k x.
Proof. intros H. unfold set_number, opt_num. destruct x; [by apply qs_set_new|by rewrite app_nil_r]. Qed.

Lemma add_param_opt k v qs : k ∉ map fst qs -> addQueryParam k v qs = qs ++ opt_param k v.
Proof.
  intros H. unfold addQueryParam, opt_param, opt. destruct v as [v|]; [|by rewrite app_nil_r].
  destruct (truthy_str (param_text v)); [by apply qs_set_new|by rewrite app_nil_r].
Qed.

Lemma set_ids_opt l qs : "deployment_ids" ∉ map fst qs -> set_ids l qs = qs ++ opt_ids l.
Proof. intros H. unfold set_ids, opt_ids. destruct l; [by rewrite app_nil_r|by apply qs_set_new]. Qed.

Lemma absent_nil (k : string) : k ∉ map fst (@nil (string * string)).
Proof. by intros H%elem_of_nil. Qed.

Lemma absent_set k k' v (qs : params) : k <> k' -> k ∉ map fst qs -> k ∉ map fst (qs_set k' v qs).
Proof.
  intros Hk H. unfold qs_set. destruct (has k' qs).
  - apply get_none. rewrite get_replace, bool_decide_false by done. by apply get_none.
  - rewrite map_app. cbn. set_solver.
Qed.

Lemma absent_app k (l l' : params) : k ∉ map fst l -> k ∉ map fst l' -> k ∉ map fst (l ++ l').
Proof. intros H H'. rewrite map_app, elem_of_app. tauto. Qed.

Lemma absent_opt k k' s : k <> k' -> k ∉ map fst (opt k' s).
Proof. intros H. unfold opt. destruct (truthy_str s); cbn; set_solver. Qed.
Lemma absent_opt_num k k' x : k <> k' -> k ∉ map fst (opt_num k' x).
Proof. intros H. unfold opt_num. destruct x; cbn; set_solver. Qed.
Lemma absent_opt_param k k' v : k <> k' -> k ∉ map fst (opt_param k' v).
Proof. intros H. unfold opt_param. destruct v; [by apply absent_opt|cbn; set_solver]. Qed.

Lemma absent_text k k' s qs : k <> k' -> k ∉ map fst qs -> k ∉ map fst (set_text k' s qs).
Proof. intros. unfold set_text. destruct (truthy_str s); [by apply absent_set|done]. Qed.
Lemma absent_number k k' x qs : k <> k' -> k ∉ map fst qs -> k ∉ map fst (set_number k' x qs).
Proof. intros. unfold set_number. destruct x; [by apply absent_set|done]. Qed.
Lemma absent_param k k' v qs : k <> k' -> k ∉ map fst qs -> k ∉ map fst (addQueryParam k' v qs).
Proof. intros. unfold addQueryParam. destruct v as [v|]; [|done]. cbv zeta. destruct (truthy_str _); [by apply absent_set|done]. Qed.

Lemma within_require2 P n message a b {A} (f : string * string -> net A) :
  (trim a <> "" -> trim b <> "" -> within P n (f (trim a, trim b))) -> within P n (require2 message a b ≫= f).
Proof.
  intros Hf. unfold require2. destruct (truthy_str (trim a)) eqn:Ha; [|done]. destruct (truthy_str (trim b)) eqn:Hb; [|done].
  apply Hf; by apply truthy_str_true.
Qed.

Lemma within_require_both P n name name' a b {A} (f : string * string -> net A) :
  (trim a <> "" -> trim b <> "" -> within P n (f (trim a, trim b))) -> within P n (require_both name name' a b ≫= f).
Proof.
  intros Hf. unfold require_both, require. destruct (truthy_str (trim a)) eqn:Ha; [|done].
  destruct (truthy_str (trim b)) eqn:Hb; [|done]. apply Hf; by apply truthy_str_true.
Qed.

Lemma within_status_json P r : P r -> within P 1 (status_json r).
Proof.
  intros Hr. apply within_bind_last; [by apply within_send|]. intros status. apply within_bind_last; [|done].
  apply (within_catch P 0 0); [|done]. apply within_bind_last; [apply within_read_json|done].
Qed.

Lemma within_mutation P r : P r -> within P 1 (call (Send r) ;; j ← read_json; mutation_result j).
Proof.
  intros Hr. apply within_bind_last; [by apply within_send|]. intros _. apply within_bind_last; [apply within_read_json|].
  intros j. unfold mutation_result. by repeat case_match.
Qed.

Lemma or_empty_body body : body_or_empty body = or_empty body.
Proof. by destruct body. Qed.
Lemma for_deployments_body o l : VObject (withDeploymentIds o l) = for_deployments o l.
Proof. by destruct l. Qed.
Lemma whole_at_least lo x : at_least lo x = whole lo x.
Proof. unfold at_least, finite, whole. destruct x as [x|]; [|done]. cbn. by destruct (is_finite x). Qed.

Lemma types_opt l qs : "types" ∉ map fst qs ->
  match l with [] => qs | _ => qs_set "types" (join "," (List.filter truthy_str (map trim l))) qs end = qs ++ opt_types l.
Proof. intros H. destruct l; [by rewrite app_nil_r|by apply qs_set_new]. Qed.

Local Ltac new_key := repeat first [apply absent_nil | apply absent_app | apply absent_opt; discriminate | apply absent_opt_num; discriminate
  | apply absent_opt_param; discriminate | apply absent_text; [discriminate|] | apply absent_number; [discriminate|]
  | apply absent_param; [discriminate|]].
Local Ltac queries :=
  unfold page, paged, given, moderator_params, salience_params, recaps_params, add_number, add_bool, add_text;
  rewrite ?whole_at_least;
  repeat first [rewrite types_opt by new_key | rewrite set_text_opt by new_key | rewrite set_number_opt by new_key
    | rewrite add_param_opt by new_key | rewrite set_ids_opt by new_key];
  cbn [app]; rewrite <-?app_assoc; reflexivity.
Local Ltac segments_ok := repeat (done || constructor).
Local Ltac extra_ok := first [left; split; reflexivity | right; left; reflexivity | right; right; reflexivity].
Local Ltac body_ok := first [reflexivity | by rewrite or_empty_body | by rewrite for_deployments_body].
Local Ltac addressed :=
  unfold get_request, bare_request, json_request, twice_request, GET, BARE, JSON;
  first [apply route_query; [extra_ok | body_ok | segments_ok | queries]
        | apply route_plain; [extra_ok | body_ok | segments_ok | reflexivity]
        | apply route_bare; [extra_ok | body_ok | segments_ok]].
Local Ltac head_of p := lazymatch p with ?f _ => head_of f | _ => p end.
Local Ltac requested :=
  lazymatch goal with
  | |- within _ _ (require _ _ ≫= _) => apply within_require; intros; requested
  | |- within _ _ (require2 _ _ _ ≫= _) => apply within_require2; intros; requested
  | |- within _ _ (require_both _ _ _ _ ≫= _) => apply within_require_both; intros; requested
  | |- within _ _ (run_ids _ _ ≫= _) => unfold run_ids; requested
  | |- within _ _ (spawn_ids _ _ ≫= _) => unfold spawn_ids; requested
  | |- within _ _ (team_run _ _ ≫= _) => unfold team_run; requested
  | |- within _ _ (lift _ ≫= _) => destruct (parse_schema _ _); cbn [lift]; [cbn [mbind prog_bind]; requested|done]
  | |- within _ _ (call (Send _) ≫= _) => apply within_mutation; cbn [fst snd]; addressed
  | |- within _ _ (fetch_json _ _) => apply within_fetch_json; cbn [fst snd]; addressed
  | |- within _ _ (status_json (proxy_request _ _ _ _ _)) => apply within_status_json; unfold GET, JSON
  | |- within _ _ (status_json _) => apply within_status_json; cbn [fst snd]; addressed
  | |- within _ _ ?p => let f := head_of p in unfold f; requested
  end.

Lemma routes_kept a b s s' n n1 n2 x o body l dep recaps salience events :
  Forall (fun c => within (on_route (fst c)) 1 (snd c)) (broker_routes a b s s' n n1 n2 x o body l dep recaps salience events).
Proof.
  unfold broker_routes. cbv zeta. repeat (apply Forall_cons; split; [cbn [fst snd]|]); [..|done].
  all: requested.
  - by apply (route_proxy a _ _ _ ["api"; "v1"; "ota"; "update"]); [|segments_ok|].
  - by apply (route_proxy a _ _ _ ["api"; "v1"; "ota"; "status"]); [|segments_ok|].
Qed.

Lemma routes_open a b s s' n n1 n2 x o body l dep recaps salience events :
  trim a <> "" -> trim b <> "" -> trim s <> "" -> (exists v, parse_schema "ClientPrefsUpdateReqSchema" body = inl v) ->
  Forall (fun c => opens (snd c) = true) (broker_routes a b s s' n n1 n2 x o body l dep recaps salience events).
Proof.
  intros Ha%truthy_str_true Hb%truthy_str_true Hs%truthy_str_true [v Hv]. unfold broker_routes. cbv zeta.
  repeat (apply Forall_cons; split; [cbn [fst snd]|]); [..|done].
  all: repeat lazymatch goal with
    | |- context [require _ _ ≫= _] => unfold require; rewrite ?Ha, ?Hb, ?Hs
    | |- context [require2 _ _ _ ≫= _] => unfold require2; rewrite ?Ha, ?Hb
    | |- context [require_both _ _ _ _ ≫= _] => unfold require_both, require; rewrite ?Ha, ?Hb
    | |- context [lift _ ≫= _] => rewrite Hv; reflexivity
    | |- opens ?p = true => first [reflexivity | let f := head_of p in unfold f, run_ids, spawn_ids, team_run]
    end.
Qed.


(** C24: which deployment a proxied request is for.  The deployment of the
    connection overrides the one that the caller asks for: the latter counts only
    where the connection names none. *)
Theorem proxied_deployment id p method body dep :
  get "x-agentd-deployment" (req_headers (proxy_request id p method body dep))
    = match auth with
      | Some (Broker _ _ (Some d) _) => if truthy_str (trim d) then Some (trim d) else trimmed_some dep
      | _ => trimmed_some dep
      end.
Proof.
  unfold proxy_request, daemonFetchInit, daemonHeaders, trimmed_some. cbn [req_headers].
  destruct auth as [[tok|tok tok' d c]|]; cbn [auth_token mbind option_bind];
    destruct (truthy_str (trim (default "" dep))) eqn:Ht; try destruct (normalizeBearerHeader tok);
    try destruct (normalizeBearerHeader tok'); try (destruct d as [d|]; [change (default "" (Some d)) with d; destruct (truthy_str (trim d))|]);
    reflexivity.
Qed.
End broker.
