(* ===== verification/ApiSession.v ===== *)
(** The sessions' interface (src/ui/src/api/session.ts): the addresses a session
    has behind a daemon and behind the broker, the requests in order of
    preference, and what is read from the answers. *)
From S2P Require Import Prelude JsNumber JsString JsValue JsonUtils JsonText Caches ClientRpc Http.

(** ** Addresses *)

(** [/^(https?:\/\/.+\/v1\/agents\/[^/]+)\/proxy$/i] of a base without slashes at
    its end: the first group. *)
Definition after_scheme (s : string) : option string :=
  if starts_with "https://" (to_lower s) then Some (sdrop 8 s)
  else if starts_with "http://" (to_lower s) then Some (sdrop 7 s) else None.

Definition is_line_end (c : ascii) : bool := is_char "010" c || is_char "013" c.

Definition same_word (a b : string) : bool := bool_decide (to_lower a = b).

Definition brokerAliasRootFromBase (base : string) : option string :=
  let trimmed := strip_slashes (trim base) in
  match rev (split_on (is_char "/") trimmed) with
  | proxy :: agent :: agents :: v1 :: before =>
      let host := join "/" (rev before) in
      match after_scheme host with
      | Some rest =>
          if truthy_str rest && free_of is_line_end rest && truthy_str agent
             && same_word proxy "proxy" && same_word agents "agents" && same_word v1 "v1"
          then Some (join "/" (rev before ++ [v1; agents; agent])) else None
      | None => None
      end
  | _ => None
  end.

(** [s.replace(/^\/+/, "")]. *)
Definition drop_slashes (s : string) : string := trim_start_by (is_char "/") s.

Definition buildSessionAliasUrl (base sessionId suffix : string) : option string :=
  let sid := trim sessionId in
  match brokerAliasRootFromBase base with
  | Some root =>
      if negb (truthy_str sid) then None
      else let extra := drop_slashes (trim suffix) in
           Some (if truthy_str extra then root ++s "/sessions/" ++s encodeURIComponent sid ++s "/" ++s extra
                 else root ++s "/sessions/" ++s encodeURIComponent sid)
  | None => None
  end.

Definition encodeSessionRef (v : string) : string := encodeURIComponent (trim v).

Definition buildSessionEventsStreamUrl (base sessionId : string) : option string :=
  let sid := trim sessionId in
  match brokerAliasRootFromBase base with
  | Some root => if truthy_str sid then Some (root ++s "/sessions/" ++s encodeURIComponent sid ++s "/events") else None
  | None => None
  end.

(** [clean.replace(/^api\/v1\/session\/[^/]+\/?/, "")]. *)
Fixpoint drop_segment (s : string) : string :=
  match s with "" => "" | String c s => if is_char "/" c then s else drop_segment s end.

Definition drop_session_path (clean : string) : string :=
  if starts_with "api/v1/session/" clean then
    match sdrop 15 clean with
    | String c _ as rest => if is_char "/" c then clean else drop_segment rest
    | "" => clean
    end
  else clean.

(** ** Options *)

Record SessionLeaseRequestOptions := mkLease { clientId : option string; leaseSeconds : option number }.

(** [typeof x === "number" && Number.isFinite(x) && x > 0 ? Math.floor(x) : ...]. *)
Definition lease_seconds (o : SessionLeaseRequestOptions) : option number :=
  match leaseSeconds o with
  | Some x => if is_finite x && gtb x (int 0) then Some (math_floor x) else None
  | None => None
  end.

Definition buildCodexwLeaseHeaders (o : SessionLeaseRequestOptions) : headers :=
  let h := set_some "X-Codexw-Client-Id" (trimmed_some (clientId o)) [] in
  let seconds := default (int 0) (lease_seconds o) in
  if gtb seconds (int 0) then set "X-Codexw-Lease-Seconds" (num_to_string seconds) h else h.

Definition normalizeSessionId (v : value) : option string := trimmed_some (as_string v).

(** ** What the answers say *)

Section answers.
Context {S : Schemas}.

Definition safe_parse (schema : string) (v : value) : option value :=
  match parse_schema schema v with inl v => Some v | inr _ => None end.

Definition extractSessionAttachment (payload : value) : option value :=
  let record := safeObject payload in
  match safe_parse "SessionAttachmentSchema" (prop "attachment" record) with
  | Some a => Some a
  | None => safe_parse "SessionAttachmentSchema" (prop "attachment" (safeObject (prop "session" record)))
  end.

Definition messages_of (record : obj value) : value :=
  match prop "messages" record with VArray l => VArray l | _ => VUndefined end.

(** [SessionInfoSchema.safeParse({ ...record, session_id, attachment, messages })]. *)
Definition session_info (record : obj value) (session_id : option string) : option value :=
  safe_parse "SessionInfoSchema" (VObject (of_entries (record ++
    [("session_id", of_option (VString <$> session_id)); ("attachment", of_option (extractSessionAttachment (VObject record)));
     ("messages", messages_of record)]))).

Definition extractSessionInfo (payload : value) : option value :=
  let record := safeObject payload in
  let nested := safeObject (prop "session" record) in
  let sessionId := normalizeSessionId (prop "session_id" record) in
  match nested with
  | _ :: _ =>
      session_info nested (match normalizeSessionId (prop "session_id" nested) with Some id => Some id | None => sessionId end)
  | [] =>
      if bool_decide (sessionId = None) && bool_decide (messages_of record = VUndefined) && negb (truthy (prop "attachment" record))
      then None else session_info record sessionId
  end.

Definition text_or_undefined (v : value) : value := match v with VString s => VString s | _ => VUndefined end.

Definition extractSessionErrorEnvelope (payload : value) : option value :=
  let record := safeObject payload in
  let code := text_or_undefined (prop "code" record) in
  let message := text_or_undefined (prop "message" record) in
  let schema := "SessionErrorEnvelopeSchema" in
  match safe_parse schema (prop "error" record) with
  | Some e => Some e
  | None =>
      match safe_parse schema (prop "error_detail" record) with
      | Some e => Some e
      | None =>
          match safeObject (prop "error_details" record) with
          | (_ :: _) as details => safe_parse schema (VObject (of_entries (details ++ [("code", code)])))
          | [] =>
              if bool_decide (message = VUndefined) && bool_decide (code = VUndefined) then None
              else safe_parse schema (VObject [("code", code); ("message", message)])
          end
      end
  end.

(** [typeof v === "string" && v.trim()]. *)
Definition shown_text (v : value) : option string := trimmed_some (as_string v).

Fixpoint first_shown (l : list value) : option string :=
  match l with [] => None | v :: l => match shown_text v with Some t => Some t | None => first_shown l end end.

Definition extractSessionErrorMessage (payload : value) : option string :=
  let record := safeObject payload in
  let envelope := safeObject (default VUndefined (extractSessionErrorEnvelope payload)) in
  first_shown [prop "error" record; prop "err" record; prop "message" envelope; prop "code" envelope].

Definition row_session_id (row : value) : string :=
  match row with VString s => trim s | _ => trim (default "" (as_string (prop "session_id" (safeObject row)))) end.

Fixpoint extract_ids (rows : list value) (seen : list string) : list string :=
  match rows with
  | [] => []
  | row :: rows =>
      let id := row_session_id row in
      if negb (truthy_str id) || bool_decide (id ∈ seen) then extract_ids rows seen
      else id :: extract_ids rows (id :: seen)
  end.

Definition extractSessionIds (payload : obj value) : list string :=
  match prop "sessions" payload with VArray rows => extract_ids rows [] | _ => [] end.
End answers.

(** ** Requests in order of preference *)

Section session.
Context {J : Json} {S : Schemas}.
Context (base : string) (auth : option ApiAuth).

Definition read_body (status : Z) (text : string) : obj value :=
  if negb (truthy_str text) then []
  else match safeObject (safeJsonParse text) with
       | [] => [("ok", VBool (is_ok status)); ("status", VNumber (int status)); ("error", VString text)]
       | record => record
       end.

Definition parseJsonSafe (status : Z) : net (obj value) := text ← call ReadText; Ret (read_body status text).

(** [{ status: response.status, ...json }]. *)
Definition with_status (status : Z) (json : obj value) : obj value := of_entries (("status", VNumber (int status)) :: json).

(** Not found, or not by this method: the next address may know it. *)
Definition try_next (status : Z) : bool := (status =? 404) || (status =? 405).

Definition request_failed : obj value := [("ok", VBool false); ("error", VString "request failed")].

Fixpoint try_urls (request : string -> Request) (last : option (obj value)) (urls : list string) : net (obj value) :=
  match urls with
  | [] => Ret (default request_failed last)
  | url :: urls =>
      status ← call (Send (request url));
      json ← parseJsonSafe status;
      let merged := with_status status json in
      if is_ok status then Ret merged
      else if negb (try_next status) then Ret merged
      else try_urls request (Some merged) urls
  end.

Definition fetchJsonWithFallback (urls : list string) (method : string) (body : option value) (extra : headers) : net (obj value) :=
  try_urls (daemonFetchInit auth method body extra) None urls.

Definition parsed_with (schema : string) (p : net (obj value)) : net value := json ← p; lift (parse_schema schema (VObject json)).

(** The addresses of one path. *)
Definition operator_urls (sid rawPath : string) : list string :=
  let clean := drop_slashes (trim rawPath) in
  if negb (truthy_str clean) then []
  else match buildSessionAliasUrl base sid (drop_session_path clean) with
       | Some alias => [alias; base ++s "/" ++s clean]
       | None => [base ++s "/" ++s clean]
       end.

Definition fetchSessionOperatorJson (sessionId : string) (rawPaths : list string) (method : string) (body : option value) (extra : headers)
    : net value :=
  sid ← require "session_id" sessionId;
  parsed_with "SessionOperatorRespSchema"
    (fetchJsonWithFallback (concat (map (operator_urls sid) rawPaths)) method body extra).

(** [aliasRoot ? [f(aliasRoot), ...urls] : urls]. *)
Definition alias_first (f : string -> string) (urls : list string) : list string :=
  match brokerAliasRootFromBase base with Some root => f root :: urls | None => urls end.

Definition at_api (s : string) : string := base ++s "/api/v1/" ++s s.
Definition by_id (sid : string) : string := at_api ("session?session_id=" ++s sid).
Definition lease_headers (o : SessionLeaseRequestOptions) : headers := of_entries (json_type ++ buildCodexwLeaseHeaders o).

(** *** Sessions *)

Definition validated_post (reqSchema schema p : string) (req : value) : net value :=
  payload ← lift (parse_schema reqSchema req); fetch_json schema (json_request auth "POST" (at_api p) payload).

Definition apiPostSessionUpload := validated_post "SessionUploadReqSchema" "SessionUploadRespSchema" "session/upload".
Definition apiPostSessionSceneApply := validated_post "SessionSceneApplyReqSchema" "SessionSceneApplyRespSchema" "session/scene/apply".
Definition apiPostSessionUiEvent := validated_post "SessionUiEventReqSchema" "SessionUiEventRespSchema" "session/client_event".
Definition apiPostSessionVoiceControl :=
  validated_post "SessionVoiceControlReqSchema" "SessionVoiceControlRespSchema" "session/voice_control".

Definition apiListSessions : net value :=
  parsed_with "SessionsSchema"
    (fetchJsonWithFallback (alias_first (fun r => r ++s "/sessions") [at_api "sessions"; at_api "session"]) "GET" None []).

Definition apiGetSession (sessionId : string) : net value :=
  let sid := encodeURIComponent sessionId in
  parsed_with "SessionSchema"
    (fetchJsonWithFallback (alias_first (fun r => r ++s "/sessions/" ++s sid) [by_id sid; at_api ("session/" ++s sid)]) "GET" None []).

Definition apiGetSessionScene (sessionId : string) : net value :=
  fetch_json "SessionSceneSchema" (get_request auth (at_api ("session/scene?session_id=" ++s encodeURIComponent sessionId))).

(** One session's log, with bounds on what is read. *)
Definition session_log (schema p sessionId : string) (bounds : list (string * number)) : net value :=
  fetch_json schema (get_request auth (at_api p ++s
    plain_query (("session_id", sessionId) :: map (fun b => (fst b, num_to_string (snd b))) bounds))).

Definition mib : number := int 1048576.

Definition apiGetSessionVoiceStats (sessionId : string) (maxBytes : option number) : net value :=
  session_log "SessionVoiceStatsSchema" "session/voice_stats" sessionId [("max_bytes", default mib maxBytes)].
Definition apiGetSessionClientEvents (sessionId : string) (maxBytes : option number) : net value :=
  session_log "SessionClientEventsSchema" "session/client_events" sessionId [("max_bytes", default mib maxBytes)].
Definition apiGetSessionArtifacts (sessionId : string) (maxBytes maxArtifacts : option number) : net value :=
  session_log "SessionArtifactsSchema" "session/artifacts" sessionId
    [("max_bytes", default (int 2097152) maxBytes); ("max_artifacts", default (int 64) maxArtifacts)].

(** [x ? trim(x)], on a truthy text. *)
Definition truthy_text (s : option string) : option string := match s with Some t => if truthy_str t then Some t else None | None => None end.

Definition set_value (k : string) (v : option value) (o : obj value) : obj value := match v with Some v => set k v o | None => o end.

Definition apiNewSession (sessionId threadId : option string) (createFiles : option bool) (lease : SessionLeaseRequestOptions) : net value :=
  let payload := set_value "session_id" (VString <$> truthy_text sessionId) [] in
  let payload := set_value "create_files" (VBool <$> createFiles) payload in
  let payload := set_value "thread_id" ((fun t => VString (trim t)) <$> truthy_text threadId) payload in
  parsed_with "NewSessionRespSchema"
    (fetchJsonWithFallback (alias_first (fun r => r ++s "/sessions") [at_api "session/new"]) "POST" (Some (VObject payload)) (lease_headers lease)).

Definition apiDeleteSession (sessionId : string) : net value :=
  let sid := encodeURIComponent sessionId in
  parsed_with "DeleteSessionRespSchema"
    (fetchJsonWithFallback (alias_first (fun r => r ++s "/sessions/" ++s sid) [by_id sid]) "DELETE" None []).

Definition apiGetAudit (sessionId : string) : net value :=
  parsed_with "AuditSchema"
    (fetchJsonWithFallback [at_api ("session/audit?session_id=" ++s encodeURIComponent sessionId ++s "&max_bytes=1048576")] "GET" None []).

(** *** Attachments *)

Definition apiAttachSession (sessionId : string) (lease : SessionLeaseRequestOptions) (threadId : option string) : net value :=
  let sid := encodeURIComponent sessionId in
  let payload := set_value "thread_id" ((fun t => VString (trim t)) <$> truthy_text threadId) [] in
  parsed_with "SessionAttachmentActionRespSchema"
    (fetchJsonWithFallback (alias_first (fun r => r ++s "/sessions/" ++s sid ++s "/attach") [at_api "session/attach"])
       "POST" (Some (VObject payload)) (lease_headers lease)).

Definition attachment_action (action sessionId : string) (payload : obj value) (lease : SessionLeaseRequestOptions) : net value :=
  let sid := encodeURIComponent sessionId in
  let suffix := sid ++s "/attachment/" ++s action in
  parsed_with "SessionAttachmentActionRespSchema"
    (fetchJsonWithFallback (alias_first (fun r => r ++s "/sessions/" ++s suffix) [at_api ("session/" ++s suffix)])
       "POST" (Some (VObject payload)) (lease_headers lease)).

Definition client_id_of (lease : SessionLeaseRequestOptions) : value := of_option (VString <$> trimmed_some (clientId lease)).

Definition apiRenewSessionAttachment (sessionId : string) (lease : SessionLeaseRequestOptions) : net value :=
  attachment_action "renew" sessionId
    [("client_id", client_id_of lease); ("lease_seconds", of_option (VNumber <$> lease_seconds lease))] lease.
Definition apiReleaseSessionAttachment (sessionId : string) (lease : SessionLeaseRequestOptions) : net value :=
  attachment_action "release" sessionId [("client_id", client_id_of lease)] lease.

(** *** The session's operator *)

(** [`api/v1/session/${encodeSessionRef(sessionId)}/...`]. *)
Definition operator_path (sessionId : string) (resource : string) : string :=
  "api/v1/session/" ++s encodeSessionRef sessionId ++s "/" ++s resource.

Definition operator_get (sessionId resource : string) : net value :=
  fetchSessionOperatorJson sessionId [operator_path sessionId resource] "GET" None [].
Definition operator_post (sessionId resource : string) (body : value) (lease : SessionLeaseRequestOptions) : net value :=
  fetchSessionOperatorJson sessionId [operator_path sessionId resource] "POST" (Some body) (lease_headers lease).

Definition apiGetSessionOrchestrationStatus (sessionId : string) := operator_get sessionId "orchestration/status".
Definition apiGetSessionOrchestrationWorkers (sessionId : string) := operator_get sessionId "orchestration/workers".
Definition apiGetSessionOrchestrationDependencies (sessionId : string) := operator_get sessionId "orchestration/dependencies".
Definition apiListSessionShells (sessionId : string) := operator_get sessionId "shells".

Definition apiStartSessionShell (sessionId : string) (body : value) (lease : SessionLeaseRequestOptions) : net value :=
  let url := at_api ("session/" ++s encodeSessionRef sessionId ++s "/shells/start") in
  parsed_with "SessionOperatorRespSchema"
    (fetchJsonWithFallback (match buildSessionAliasUrl base sessionId "shells" with Some alias => [alias; url] | None => [url] end)
       "POST" (Some (body ??? VObject [])) (lease_headers lease)).

Definition of_job (kind jobRef : string) : string := kind ++s "/" ++s encodeSessionRef jobRef.
Definition job_action (kind jobRef action : string) : string := of_job kind jobRef ++s "/" ++s action.

Definition apiGetSessionShell (sessionId jobRef : string) := operator_get sessionId (of_job "shells" jobRef).
Definition apiPollSessionShell (sessionId jobRef : string) := operator_post sessionId (job_action "shells" jobRef "poll") (VObject []).
Definition apiSendSessionShell (sessionId jobRef text : string) :=
  operator_post sessionId (job_action "shells" jobRef "send") (VObject [("text", VString text)]).
Definition apiTerminateSessionShell (sessionId jobRef : string) :=
  operator_post sessionId (job_action "shells" jobRef "terminate") (VObject []).

Definition apiListSessionServices (sessionId : string) := operator_get sessionId "services".
Definition apiGetSessionService (sessionId jobRef : string) := operator_get sessionId (of_job "services" jobRef).
Definition apiAttachSessionService (sessionId jobRef : string) :=
  operator_post sessionId (job_action "services" jobRef "attach") (VObject []).
Definition apiWaitSessionService (sessionId jobRef : string) (body : value) :=
  operator_post sessionId (job_action "services" jobRef "wait") (body ??? VObject []).
Definition apiRunSessionService (sessionId jobRef : string) (body : value) :=
  operator_post sessionId (job_action "services" jobRef "run") (body ??? VObject []).

Definition apiListSessionCapabilities (sessionId : string) := operator_get sessionId "capabilities".
Definition apiGetSessionCapability (sessionId capability : string) := operator_get sessionId (of_job "capabilities" capability).
End session.

(** ** Addresses, read back *)

Lemma join_cons_app sep s l : l <> [] -> join sep (s :: l) = s ++s sep ++s join sep l.
Proof. by destruct l. Qed.

Lemma split_on_nonempty p s : split_on p s <> [].
Proof. destruct s as [|c s]; [done|]. cbn [split_on]. destruct (p c); [done|]. by destruct (split_on p s). Qed.

Lemma join_app sep l l' : l <> [] -> l' <> [] -> join sep (l ++ l') = join sep l ++s sep ++s join sep l'.
Proof.
  intros Hl Hl'. induction l as [|s l IH]; [done|]. destruct l as [|s' l].
  - by apply join_cons_app.
  - cbn [app] in *. rewrite !(join_cons_app sep s) by done. rewrite IH by done. by rewrite !append_assoc.
Qed.

Lemma split_on_slash a b : split_on (is_char "/") (a ++s "/" ++s b) = split_on (is_char "/") a ++ split_on (is_char "/") b.
Proof.
  induction a as [|c a IH]; [done|]. change (String c a ++s ?x) with (String c (a ++s x)). cbn [split_on].
  rewrite IH. destruct (is_char "/" c); [done|].
  pose proof (split_on_nonempty (is_char "/") a). by destruct (split_on (is_char "/") a).
Qed.

Lemma join_split s : join "/" (split_on (is_char "/") s) = s.
Proof.
  induction s as [|c s IH]; [done|]. cbn [split_on]. pose proof (split_on_nonempty (is_char "/") s) as Hne.
  destruct (is_char "/" c) eqn:Hc.
  - apply bool_decide_eq_true in Hc as <-. rewrite join_cons_app by done. by rewrite IH.
  - destruct (split_on (is_char "/") s) as [|h t]; [done|]. rewrite <-IH. by destruct t.
Qed.

(** The segments of a path are where it was cut. *)
Lemma split_path s segments :
  split_on (is_char "/") (encodeURIComponent s ++s path segments) = map encodeURIComponent (s :: segments).
Proof.
  assert (Hfree : forall x, free_of (is_char "/") (encodeURIComponent x) = true).
  { intros x. apply (free_char is_delimiter); [done|apply encode_free]. }
  revert s. induction segments as [|s' segments IH]; intros s; cbn [path].
  - rewrite append_nil_r. by apply split_on_free.
  - rewrite split_on_slash, split_on_free by done. by rewrite IH.
Qed.

Lemma encode_nonempty s : s <> "" -> encodeURIComponent s <> "".
Proof. destruct s as [|c s]; [done|]. intros _. cbn [encodeURIComponent]. by destruct c as [[] [] [] [] [] [] [] []]. Qed.

(** Encoded texts have no white space. *)
Lemma encode_no_ws s : free_of is_ws (encodeURIComponent s) = true.
Proof.
  induction s as [|c s IH]; [done|]. cbn [encodeURIComponent]. rewrite free_of_app, IH, andb_true_r.
  by destruct c as [[] [] [] [] [] [] [] []].
Qed.

Lemma path_no_ws segments : free_of is_ws (path segments) = true.
Proof. induction segments as [|s segments IH]; [done|]. cbn [path]. by rewrite !free_of_app, IH, encode_no_ws. Qed.

Lemma trim_no_ws s : free_of is_ws s = true -> trim s = s.
Proof.
  intros H. assert (He : trim_end s = s).
  { revert H. induction s as [|c s IH]; [done|]. cbn [free_of]. intros [Hc Hs]%andb_split.
    apply trim_end_cons; [by apply negb_true_iff|by apply IH]. }
  unfold trim. destruct s as [|c s]; [done|]. cbn [free_of] in H. apply andb_split in H as [Hc _].
  apply negb_true_iff in Hc. unfold trim_start. cbn [trim_start_by]. by rewrite Hc.
Qed.

Lemma trim_end_by_last p a b : trim_end_by p b = b -> b <> "" -> trim_end_by p (a ++s b) = a ++s b.
Proof.
  intros Hb Hne. induction a as [|c a IH]; [done|]. cbn [String.append trim_end_by]. rewrite IH.
  destruct (a ++s b) eqn:E; [|done]. destruct a; simpl in E; [congruence|done].
Qed.

Lemma path_app l l' : path (l ++ l') = path l ++s path l'.
Proof. induction l as [|s l IH]; [done|]. cbn [app path]. by rewrite IH, !append_assoc. Qed.

(** An agent's proxy under any address with a scheme and a host is recognised. *)
Lemma alias_root_of_proxy h rest agent :
  after_scheme h = Some rest -> rest <> "" -> free_of is_line_end rest = true -> agent <> "" ->
  brokerAliasRootFromBase (h ++s path ["v1"; "agents"; agent; "proxy"]) = Some (h ++s path ["v1"; "agents"; agent]).
Proof.
  intros Hh Hr Hl Ha. unfold brokerAliasRootFromBase.
  set (url := h ++s path ["v1"; "agents"; agent; "proxy"]).
  assert (Hu : url = (h ++s path ["v1"; "agents"; agent]) ++s "/proxy").
  { unfold url. rewrite append_assoc. f_equal. apply (path_app ["v1"; "agents"; agent] ["proxy"]). }
  assert (Ht : trim url = url).
  { unfold trim. enough (trim_start url = url) as -> by (rewrite Hu; by apply trim_end_by_last).
    unfold url. destruct h as [|c h]; [done|]. unfold trim_start. cbn [String.append trim_start_by].
    enough (is_ws c = false) as -> by done. revert Hh. clear. unfold after_scheme, to_lower. cbn [map_str].
    by destruct c as [[] [] [] [] [] [] [] []]. }
  assert (Hs : strip_slashes url = url) by (rewrite Hu; by apply trim_end_by_last).
  rewrite Ht, Hs. clear Ht Hs Hu. unfold url. clear url. set (segments := ["agents"; agent; "proxy"]).
  change (path ("v1" :: segments)) with ("/" ++s (encodeURIComponent "v1" ++s path segments)).
  rewrite split_on_slash, split_path, rev_app_distr. cbn [map segments rev app].
  rewrite rev_involutive, join_split, Hh. rewrite (proj2 (truthy_str_true rest)), Hl by done.
  rewrite (proj2 (truthy_str_true (encodeURIComponent agent))) by (by apply encode_nonempty).
  cbn [andb]. rewrite join_app by (done || apply split_on_nonempty). rewrite join_split.
  cbn [path]. by rewrite !append_nil_r.
Qed.

(** ** The addresses that are tried *)

(** An address that was requested, the status of the answer and its text, with
    the two events that they are. *)
Abbreviation reply := (string * BinNums.Z * string)%type.

Definition exchange (request : string -> Request) (a : reply) : list (answered netE) :=
  let '(url, status, text) := a in [Ev (Send (request url)) (inl status); Ev ReadText (inl text)].

Lemma get_entries_onto k (l o : obj value) :
  get k (fold_left (fun o p => set (fst p) (snd p) o) l o)
  = match get k (of_entries l) with Some x => Some x | None => get k o end.
Proof.
  enough (H : forall o, get k (fold_left (fun o p => set (fst p) (snd p) o) l o)
    = match get k (rev l) with Some x => Some x | None => get k o end).
  { unfold of_entries. rewrite !H. by destruct (get k (rev l)). }
  clear o. induction l as [|[k' v] l IH]; intros o; [done|]. cbn [fold_left rev fst snd]. rewrite IH, get_set.
  assert (Ha : get k (rev l ++ [(k', v)]) = match get k (rev l) with Some x => Some x | None => if bool_decide (k = k') then Some v else None end).
  { clear IH. induction (rev l) as [|[k1 v1] m IHm]; [done|]. cbn [app get]. by destruct (bool_decide (k = k1)). }
  rewrite Ha. destruct (get k (rev l)); [done|]. by case_bool_decide.
Qed.

Section tried.
Context {J : Json} {S : Schemas}.
Context (base : string) (auth : option ApiAuth).

(** What a record says about an answer: an empty text, the status alone; the
    text of an object with fields, those fields, and the status where none of
    them is called so; any other text, that it is an error unless the status is
    between 200 and 299. *)
Definition describes (status : BinNums.Z) (text : string) (v : obj value) : Prop :=
  match text, parse text with
  | "", _ => v = [("status", VNumber (int status))]
  | _, Some (VObject ((_ :: _) as o)) =>
      forall k, get k v = match get k (of_entries o) with
                          | Some x => Some x
                          | None => if bool_decide (k = "status") then Some (VNumber (int status)) else None
                          end
  | _, _ => v = [("status", VNumber (int status)); ("ok", VBool ((200 <=? status) && (status <=? 299))); ("error", VString text)]
  end.

Lemma record_described status text : describes status text (with_status status (read_body status text)).
Proof.
  unfold describes, read_body, safeJsonParse, str_or. destruct text as [|c text]; [done|]. cbn [truthy_str negb].
  assert (Ht : truthy_str (String c text) = true) by done. rewrite Ht.
  destruct (parse (String c text)) as [[| | | | | |[|[k0 x0] o]]|]; try reflexivity.
  intros k. cbn [default safeObject isUnknownRecord truthy is_objectish andb]. unfold with_status, of_entries at 1. cbn [fold_left fst snd].
  rewrite (get_entries_onto k ((k0, x0) :: o)). destruct (get k (of_entries _)); [done|]. rewrite get_set. by case_bool_decide.
Qed.

Lemma try_urls_spec request last urls t v :
  runs (try_urls request last urls) t (inl v) ->
  (urls = [] /\ v = default request_failed last)
  \/ exists tried url status text after,
       urls = map (fun a => fst (fst a)) tried ++ url :: after
       /\ t = flat_map (exchange request) tried ++ exchange request (url, status, text)
       /\ Forall (fun a => snd (fst a) = 404 \/ snd (fst a) = 405) tried
       /\ describes status text v
       /\ (status <> 404 /\ status <> 405 \/ after = []).
Proof.
  revert last t. induction urls as [|url urls IH]; intros last t H.
  - left. destruct H as [_ [= <-]]. done.
  - right. destruct H as (r & t1 & -> & H). destruct r as [status|e]; [|destruct H as [_ H]; discriminate H].
    destruct H as (r & t2 & -> & H). destruct r as [text|e]; [|destruct H as [_ H]; discriminate H].
    cbv beta in H. change (runs (if is_ok status then Ret (with_status status (read_body status text))
      else if negb (try_next status) then Ret (with_status status (read_body status text))
      else try_urls request (Some (with_status status (read_body status text))) urls) t2 (inl v)) in H.
    pose proof (record_described status text) as Hd.
    destruct (is_ok status) eqn:Hok; [|destruct (try_next status) eqn:Hn; cbn [negb] in H].
    + destruct H as [-> [= ->]]. exists [], url, status, text, urls. repeat split; [constructor|done|].
      left. unfold is_ok in *. lia.
    + destruct (IH _ _ H) as [[-> ->]|(tried & url' & status' & text' & after & -> & -> & Ht & Hv & Hend)].
      * destruct H as [-> _]. exists [], url, status, text, []. repeat split; [constructor|done|by right].
      * exists ((url, status, text) :: tried), url', status', text', after. repeat split; [|done|done].
        constructor; [|done]. unfold try_next in Hn. cbn. lia.
    + destruct H as [-> [= ->]]. exists [], url, status, text, urls. repeat split; [constructor|done|].
      left. unfold try_next in Hn. lia.
Qed.

(** C20: the addresses of a session are tried in order.  Where the call returns,
    it has requested the first address and read its answer, and gone on to the
    next only after the status 404 or 405; nothing else has happened.  What it
    returns says what the last answer read said, by its status and its text; and
    that answer is the first of another status or that of the last address.  The
    fields of a text come before the status of the answer, so that a field
    called [status] hides it. *)
Theorem fallback_in_order urls method body extra t v :
  urls <> [] -> runs (fetchJsonWithFallback auth urls method body extra) t (inl v) ->
  let request := daemonFetchInit auth method body extra in
  exists tried url status text after,
    urls = map (fun a => fst (fst a)) tried ++ url :: after
    /\ t = flat_map (exchange request) tried ++ exchange request (url, status, text)
    /\ Forall (fun a => snd (fst a) = 404 \/ snd (fst a) = 405) tried
    /\ describes status text v
    /\ (status <> 404 /\ status <> 405 \/ after = []).
Proof. intros Hne H. destruct (try_urls_spec _ _ _ _ _ H) as [[-> _]|H']; [done|exact H']. Qed.
End tried.

(** ** What the operator's functions request *)

Section operator.
Context {J : Json} {S : Schemas}.
Context (base : string) (auth : option ApiAuth).

(** Where a resource of a session is: under the agent's alias at the broker, if
    the address is an agent's proxy, and under the daemon's own path. *)
Definition session_addresses (sid : string) (resource : list string) : list string :=
  match brokerAliasRootFromBase base with Some root => [root ++s path ("sessions" :: sid :: resource)] | None => [] end
  ++ [base ++s path ("api" :: "v1" :: "session" :: sid :: resource)].

(** The functions that go through [fetchSessionOperatorJson], with the resource
    that each is about. *)
Definition operator_calls (sid job text : string) (body : value) (lease : SessionLeaseRequestOptions) : list (list string * net value) :=
  [(["orchestration"; "status"], apiGetSessionOrchestrationStatus base auth sid);
   (["orchestration"; "workers"], apiGetSessionOrchestrationWorkers base auth sid);
   (["orchestration"; "dependencies"], apiGetSessionOrchestrationDependencies base auth sid);
   (["shells"], apiListSessionShells base auth sid);
   (["shells"; trim job], apiGetSessionShell base auth sid job);
   (["shells"; trim job; "poll"], apiPollSessionShell base auth sid job lease);
   (["shells"; trim job; "send"], apiSendSessionShell base auth sid job text lease);
   (["shells"; trim job; "terminate"], apiTerminateSessionShell base auth sid job lease);
   (["services"], apiListSessionServices base auth sid);
   (["services"; trim job], apiGetSessionService base auth sid job);
   (["services"; trim job; "attach"], apiAttachSessionService base auth sid job lease);
   (["services"; trim job; "wait"], apiWaitSessionService base auth sid job body lease);
   (["services"; trim job; "run"], apiRunSessionService base auth sid job body lease);
   (["capabilities"], apiListSessionCapabilities base auth sid);
   (["capabilities"; trim job], apiGetSessionCapability base auth sid job)].

Lemma drop_segment_free a b : free_of (is_char "/") a = true -> drop_segment (a ++s String "/" b) = b.
Proof.
  induction a as [|c a IH]; cbn [String.append drop_segment free_of]; [done|].
  intros [Hc Ha]%andb_split. apply negb_true_iff in Hc. rewrite Hc. by apply IH.
Qed.

Lemma encode_head s rest : s <> "" -> drop_slashes (encodeURIComponent s ++s rest) = encodeURIComponent s ++s rest.
Proof. destruct s as [|c s]; [done|]. intros _. cbn [encodeURIComponent]. by destruct c as [[] [] [] [] [] [] [] []]. Qed.

Lemma drop_session_path_spec sid rest : sid <> "" ->
  drop_session_path ("api/v1/session/" ++s encodeURIComponent sid ++s String "/" rest) = rest.
Proof.
  intros Hsid. unfold drop_session_path.
  change (starts_with "api/v1/session/" ("api/v1/session/" ++s ?x)) with (starts_with "" x).
  change (sdrop 15 ("api/v1/session/" ++s ?x)) with x.
  assert (Hp : forall x, starts_with "" x = true) by (by intros []). rewrite Hp.
  pose proof (encode_head sid (String "/" rest) Hsid) as Hh.
  assert (Hf : free_of (is_char "/") (encodeURIComponent sid) = true) by (apply (free_char is_delimiter); [done|apply encode_free]).
  destruct (encodeURIComponent sid) as [|c e] eqn:E; [by apply encode_nonempty in E|].
  cbn [String.append]. cbn [free_of] in Hf. apply andb_split in Hf as [Hc Hf]. apply negb_true_iff in Hc.
  rewrite Hc. change (String c (e ++s String "/" rest)) with (String c e ++s String "/" rest).
  apply drop_segment_free. cbn [free_of]. by rewrite Hc, Hf.
Qed.

Lemma operator_urls_spec sid s segments : trim sid <> "" -> s <> "" ->
  operator_urls base (trim sid) (operator_path sid (encodeURIComponent s ++s path segments))
  = session_addresses (trim sid) (s :: segments).
Proof.
  intros Hsid Hs. unfold operator_urls, operator_path, encodeSessionRef.
  set (resource := encodeURIComponent s ++s path segments).
  set (p := "api/v1/session/" ++s encodeURIComponent (trim sid) ++s "/" ++s resource).
  assert (Hw : free_of is_ws resource = true) by (unfold resource; by rewrite free_of_app, encode_no_ws, path_no_ws).
  assert (Hp : trim p = p).
  { apply trim_no_ws. unfold p. rewrite !free_of_app, encode_no_ws, Hw. done. }
  rewrite Hp. change (drop_slashes p) with p. change (truthy_str p) with true. cbn [negb].
  unfold p. change ("/" ++s resource) with (String "/" resource). rewrite drop_session_path_spec by done.
  unfold buildSessionAliasUrl, session_addresses. rewrite trim_idem, (trim_no_ws resource Hw).
  rewrite (proj2 (truthy_str_true (trim sid))) by done. cbn [negb].
  unfold resource. rewrite encode_head by done. clear p Hp.
  assert (Ht : truthy_str (encodeURIComponent s ++s path segments) = true).
  { apply truthy_str_true. pose proof (encode_nonempty s Hs). by destruct (encodeURIComponent s). }
  rewrite Ht. by destruct (brokerAliasRootFromBase base).
Qed.

Lemma within_try_urls P request last urls :
  Forall (fun url => P (request url)) urls -> within P (length urls) (try_urls request last urls).
Proof.
  intros H. revert last. induction H as [|url urls Hu Hus IH]; intros last; [done|]. cbn [try_urls length].
  apply (within_bind P 1); [by apply within_send|]. intros status.
  apply within_bind_0; [apply within_bind_last; [by apply within_call|done]|]. intros json.
  destruct (is_ok status); [done|]. destruct (negb _); [done|]. apply IH.
Qed.

Lemma within_operator sid resource segments method body extra :
  match segments with s :: _ => s <> "" | [] => False end -> resource = sdrop 1 (path segments) ->
  within (fun r => trim sid <> "" /\ req_url r ∈ session_addresses (trim sid) segments) 2
    (fetchSessionOperatorJson base auth sid [operator_path sid resource] method body extra).
Proof.
  intros Hs ->. destruct segments as [|s segments]; [done|]. cbn [path].
  change (sdrop 1 ("/" ++s ?x)) with x.
  apply within_require. intros Hsid. apply within_bind_last; [|intros v; apply within_lift].
  cbn [map concat]. rewrite app_nil_r, operator_urls_spec by done.
  apply (within_mono _ (length (session_addresses (trim sid) (s :: segments)))).
  - unfold session_addresses. rewrite length_app. cbn [length]. destruct (brokerAliasRootFromBase base); cbn [length]; lia.
  - apply within_try_urls, Forall_forall. intros url Hurl. by split.
Qed.

(** What the operator's functions request: nothing without a session's
    identifier, and otherwise at most two requests, to the addresses of the
    session's resource, whatever characters the identifiers have. *)
Theorem operator_requests sid job text body lease :
  Forall (fun c => forall t out, runs (snd c) t out ->
      (sent t <= 2)%nat
      /\ Forall (on_event (sends (fun r => trim sid <> "" /\ req_url r ∈ session_addresses (trim sid) (fst c)))) t)
    (operator_calls sid job text body lease).
Proof.
  unfold operator_calls. repeat (apply Forall_cons; split; [intros t out; apply within_runs; cbn [fst snd]|]); [..|done].
  all: apply within_operator; [done|]; unfold job_action, of_job, encodeSessionRef; cbn [path];
    rewrite append_nil_r, ?append_assoc; reflexivity.
Qed.
End operator.

(** ** The list of sessions *)

Lemma extract_ids_spec rows seen :
  NoDup (extract_ids rows seen)
  /\ (forall id, id ∈ extract_ids rows seen <-> id <> "" /\ id ∉ seen /\ id ∈ map row_session_id rows).
Proof.
  revert seen. induction rows as [|row rows IH]; intros seen; cbn [extract_ids map].
  - split; [constructor|]. intros id. set_solver.
  - set (x := row_session_id row). destruct (truthy_str x) eqn:Ht; cbn [negb orb].
    + apply truthy_str_true in Ht. case_bool_decide as Hx; cbn [orb].
      * destruct (IH seen) as [Hn He]. split; [done|]. intros id. rewrite He. set_solver.
      * destruct (IH (x :: seen)) as [Hn He]. split.
        -- constructor; [|done]. rewrite He. set_solver.
        -- intros id. rewrite elem_of_cons, He. destruct (decide (id = x)); set_solver.
    + apply truthy_str_false in Ht. destruct (IH seen) as [Hn He]. split; [done|]. intros id. rewrite He. set_solver.
Qed.

Lemma extract_ids_order rows seen : sublist (extract_ids rows seen) (map row_session_id rows).
Proof.
  revert seen. induction rows as [|row rows IH]; intros seen; cbn [extract_ids map]; [constructor|].
  destruct (_ || _); [by apply sublist_cons|by constructor].
Qed.

Lemma row_session_id_trimmed row : trim (row_session_id row) = row_session_id row.
Proof. unfold row_session_id. destruct row; apply trim_idem. Qed.

(** The sessions of a list: each identifier once, trimmed, in the order of its
    first row, and none is missing. *)
Lemma session_ids_once payload rows : prop "sessions" payload = VArray rows ->
  NoDup (extractSessionIds payload)
  /\ sublist (extractSessionIds payload) (map row_session_id rows)
  /\ (forall id, id ∈ extractSessionIds payload <-> id <> "" /\ id ∈ map row_session_id rows)
  /\ Forall (fun id => trim id = id) (extractSessionIds payload).
Proof.
  intros Hr. unfold extractSessionIds. rewrite Hr. destruct (extract_ids_spec rows []) as [Hn He].
  split; [done|]. split; [apply extract_ids_order|]. split; [intros id; rewrite He; set_solver|].
  apply Forall_forall. intros id Hid. rewrite He in Hid. destruct Hid as (_ & _ & Hid).
  apply list_elem_of_In, in_map_iff in Hid as (row & <- & _). apply row_session_id_trimmed.
Qed.

(** What a message shows is trimmed and not empty. *)
Lemma error_message_shown {S : Schemas} payload m : extractSessionErrorMessage payload = Some m -> trim m = m /\ m <> "".
Proof.
  unfold extractSessionErrorMessage. generalize [prop "error" (safeObject payload); prop "err" (safeObject payload);
    prop "message" (safeObject (default VUndefined (extractSessionErrorEnvelope payload)));
    prop "code" (safeObject (default VUndefined (extractSessionErrorEnvelope payload)))].
  intros l. induction l as [|v l IH]; [done|]. cbn [first_shown]. unfold shown_text, trimmed_some.
  destruct (truthy_str _) eqn:Ht; [|done]. intros [= <-]. split; [apply trim_idem|by apply truthy_str_true].
Qed.

(** ** A server that knows one address *)

(** The state is the last address. *)
Definition demo_server (known : string) : world netE string := fun R e s =>
  match e in netE R return R * string with
  | Send r => (inl (if bool_decide (req_url r = known) then 200 else 404), req_url r)
  | ReadText => (inl (if bool_decide (s = known) then stringify (Json := text_json) (VObject [("ok", VBool true)]) else "no"), s)
  | Now => (int 0, s)
  | Sleep _ => (tt, s)
  | TraceId => ("", s)
  end.

Definition demo_fallback : list (answered netE) * (obj value + string) * string :=
  exec (demo_server "/b") (fetchJsonWithFallback (J := text_json) None ["/a"; "/b"; "/c"] "GET" None []) "".

Lemma fallback_in_order_witness :
  let request := daemonFetchInit None "GET" None [] in
  exists tried url status text after,
    ["/a"; "/b"; "/c"] = map (fun a => fst (fst a)) tried ++ url :: after
    /\ fst (fst demo_fallback) = flat_map (exchange request) tried ++ exchange request (url, status, text)
    /\ Forall (fun a => snd (fst a) = 404 \/ snd (fst a) = 405) tried
    /\ describes (J := text_json) status text [("status", VNumber (int 200)); ("ok", VBool true)]
    /\ (status <> 404 /\ status <> 405 \/ after = []).
Proof.
  apply (fallback_in_order (J := text_json) None ["/a"; "/b"; "/c"] "GET" None []); [done|].
  apply (exec_runs (demo_server "/b") _ "" _ _ "/b"). vm_compute. reflexivity.
Defined.
