(* ===== verification/ApiDaemon.v ===== *)
(** The daemon's interface (src/ui/src/api/daemon.ts, db.ts, run.ts, memory.ts,
    moderator.ts, tools.ts, workflow.ts, workflow_schedule.ts, runtime_skills.ts,
    approvals.ts and apiAgentdTrace of trace.ts): for every function its request
    and what it makes of the answer; a run that is waited for, with fuel for its
    loop. *)
From S2P Require Import Prelude JsNumber JsString JsValue JsonUtils JsonText Caches ClientRpc Http ApiBroker.

(** [if (b) qs.set(k, "1")], [if (typeof b === "boolean") qs.set(k, b ? "1" : "0")]. *)
Definition set_flag (k : string) (b : bool) (qs : params) : params := if b then qs_set k "1" qs else qs.
Definition set_bool (k : string) (b : option bool) (qs : params) : params :=
  match b with Some b => qs_set k (if b then "1" else "0") qs | None => qs end.

Definition num_text (d : Z) (x : option number) : string := num_to_string (default (int d) x).

Section daemon.
Context {J : Json} {S : Schemas}.
Context (base : string) (auth : option ApiAuth).

Definition at_api (segments : list string) : string := base ++s path ("api" :: "v1" :: segments).

Definition get_api (schema : string) (segments : list string) (qs : params) : net value :=
  fetch_json schema (get_request auth (at_api segments ++s query qs)).
Definition plain_api (schema : string) (segments : list string) (qs : params) : net value :=
  fetch_json schema (get_request auth (at_api segments ++s plain_query qs)).
Definition post_api (schema : string) (segments : list string) (body : value) : net value :=
  fetch_json schema (json_request auth "POST" (at_api segments) body).

(** With a schema for what is sent. *)
Definition validated_api (reqSchema schema : string) (segments : list string) (req : value) : net value :=
  payload ← lift (parse_schema reqSchema req); post_api schema segments payload.

(** ** daemon.ts *)

Definition apiUpdateDaemonConfig := validated_api "DaemonConfigUpdateReqSchema" "DaemonConfigUpdateRespSchema" ["config"; "update"].
Definition apiGetHealth : net value := get_api "HealthSchema" ["health"] [].
Definition apiGetCaps : net value := get_api "CapsSchema" ["caps"] [].
Definition apiGetConfig : net value := get_api "DaemonConfigSchema" ["config"] [].
Definition apiGetDiagnostics : net value := get_api "DiagnosticsSchema" ["diagnostics"] [].
Definition apiGetDiagnosticsProviders : net value := get_api "DiagnosticsProvidersSchema" ["diagnostics"; "providers"] [].
Definition apiPostDiagnosticsProviderTest :=
  validated_api "DiagnosticsProviderTestReqSchema" "DiagnosticsProviderTestRespSchema" ["diagnostics"; "provider_test"].
Definition apiPostSandboxMountValidate :=
  validated_api "SandboxMountValidateReqSchema" "SandboxMountValidateRespSchema" ["sandbox"; "mount_validate"].
Definition apiGetClientPrefs (clientId clientKind : string) : net value :=
  fetch_or_throw "ClientPrefsSchema"
    (get_request auth (at_api ["client"; "prefs"] ++s query [("client_id", clientId); ("client_kind", clientKind)])).
Definition apiPostClientPrefs (req : value) : net value :=
  payload ← lift (parse_schema "ClientPrefsUpdateReqSchema" req);
  fetch_or_throw "ClientPrefsSchema" (json_request auth "POST" (at_api ["client"; "prefs"]) payload).

(** ** db.ts *)

(** A page of a session's rows. *)
Definition db_page (sessionId : string) (limit offset : option number) : params :=
  [("session_id", sessionId); ("limit", num_text 50 limit); ("offset", num_text 0 offset)].

Definition apiGetDbRuns (sessionId : string) (limit offset : option number) (onlyErrors : bool) (stopReason : string) : net value :=
  let reason := trim stopReason in
  plain_api "DbRunsSchema" ["db"; "runs"]
    (db_page sessionId limit offset ++ [("only_errors", if onlyErrors then "1" else "0")]
     ++ (if truthy_str reason then [("stop_reason", reason)] else [])).
Definition apiGetDbRun (runId : number) (includeEvents includeTools includeArtifacts includeUiActions : bool) : net value :=
  get_api "DbRunSchema" ["db"; "run"]
    (set_flag "include_ui_actions" includeUiActions (set_flag "include_artifacts" includeArtifacts
      (set_flag "include_tools" includeTools (set_flag "include_events" includeEvents [("run_id", num_to_string runId)])))).
Definition apiGetDbArtifacts (sessionId : string) (limit offset : option number) : net value :=
  plain_api "DbArtifactsSchema" ["db"; "artifacts"] (db_page sessionId limit offset).
Definition apiGetDbUiActions (sessionId : string) (limit offset : option number) : net value :=
  plain_api "DbUiActionsSchema" ["db"; "ui_actions"] (db_page sessionId limit offset).
Definition apiGetDbSessions (limit offset : option number) : net value :=
  plain_api "DbSessionsSchema" ["db"; "sessions"] [("limit", num_text 50 limit); ("offset", num_text 0 offset)].
Definition apiGetDbMessages (sessionId : string) (limit offset maxContentBytes maxMmBytes : option number) : net value :=
  plain_api "DbMessagesSchema" ["db"; "messages"]
    (db_page sessionId limit offset
     ++ [("max_content_bytes", num_text 8192 maxContentBytes); ("max_mm_bytes", num_text 1048576 maxMmBytes)]).
Definition apiGetDbClientEvents (sessionId : string) (limit offset : option number) : net value :=
  plain_api "DbClientEventsSchema" ["db"; "client_events"] (db_page sessionId limit offset).

(** ** memory.ts *)

Record MemoryRange := mkRange {
  sinceUtcMs : option number; untilUtcMs : option number; structuredPath : option string; keyPrefix : option string }.

Definition range_params (r : MemoryRange) (prefixed : bool) (qs : params) : params :=
  let qs := add_text "structured_path" (structuredPath r)
    (add_number "until_utc_ms" (untilUtcMs r) (add_number "since_utc_ms" (sinceUtcMs r) qs)) in
  if prefixed then add_text "key_prefix" (keyPrefix r) qs else qs.

Definition apiMemoryQuery (r : MemoryRange) (limit : option number) : net value :=
  get_api "MemoryQueryRespSchema" ["memory"; "query"] (add_number "limit" limit (range_params r true [])).
Definition apiMemoryCorrelate (traceId : string) (r : MemoryRange) (maxEntries : option number) (timeline : bool) : net value :=
  tid ← require "trace_id" traceId;
  let qs := add_number "max_entries" maxEntries (range_params r true (add_text "trace_id" (Some tid) [])) in
  get_api "MemoryCorrelateRespSchema" ["memory"; "correlate"] (if timeline then add_text "timeline" (Some "1") qs else qs).
Definition apiMemoryCorrelationIndexBuild (body : value) : net value :=
  post_api "MemoryCorrelationIndexRespSchema" ["memory"; "correlation"; "index"] (body_or_empty body).
Definition apiMemoryCheckpoints (r : MemoryRange) (limit : option number) : net value :=
  get_api "MemoryCheckpointsRespSchema" ["memory"; "checkpoints"] (add_number "limit" limit (range_params r false [])).
Definition apiMemoryIndex (sessionId : option string) (structured core daily session : option bool) (dailyDays : option number) : net value :=
  get_api "MemoryIndexRespSchema" ["memory"; "index"]
    (add_number "daily_days" dailyDays (add_bool "include_session" session (add_bool "include_daily" daily
      (add_bool "include_core" core (add_bool "include_structured" structured (add_text "session_id" sessionId [])))))).
Definition apiMemorySalience (p : MemorySalienceParams) : net value :=
  get_api "MemorySalienceRespSchema" ["memory"; "salience"] (salience_params p).
Definition apiMemoryRetentionEnforce (body : value) : net value :=
  post_api "MemoryRetentionRespSchema" ["memory"; "retention"; "enforce"] (body_or_empty body).
Definition apiMemoryRecapsList (p : MemoryRecapsListParams) : net value :=
  get_api "MemoryRecapsListRespSchema" ["memory"; "recaps"] (recaps_params p).
Definition apiMemoryRecapsCreate (body : value) : net value :=
  post_api "MemoryRecapRespSchema" ["memory"; "recaps"] (body_or_empty body).

(** ** moderator.ts, tools.ts, trace.ts *)

Definition apiPostModeratorDirective := validated_api "ModeratorDirectiveReqSchema" "ModeratorPostRespSchema" ["moderator"; "directive"].
Definition apiPostModeratorTask := validated_api "ModeratorTaskReqSchema" "ModeratorPostRespSchema" ["moderator"; "task"].
Definition apiGetModeratorEvents (sessionId : string) (maxBytes : option number) (types : list string) : net value :=
  get_api "ModeratorEventsRespSchema" ["moderator"; "events"]
    (set_text "types" (join "," types) [("session_id", sessionId); ("max_bytes", num_text 1048576 maxBytes)]).

(** These two always write the question mark. *)
Definition apiGetTools (tools : string) (yolo : option bool) (hostPolicy sessionId : string) : net value :=
  fetch_json "ToolDefsRespSchema" (get_request auth (at_api ["tools"] ++s "?" ++s
    qs_string (set_text "session_id" sessionId (set_text "host_policy" hostPolicy (set_bool "yolo" yolo (set_text "tools" tools [])))))).

Record OpenRouterOpts := mkOpenRouter {
  apiKey : string; openrouterBaseUrl : string; minTotal : option number; maxTotal : option number;
  requireMultimodalInput : option bool; requireTools : option bool; includeFree : option bool;
  models_limit : option number; refresh : bool }.

Definition models_params (o : OpenRouterOpts) : params :=
  set_flag "refresh" (refresh o) (set_number "limit" (models_limit o) (set_bool "include_free" (includeFree o)
    (set_bool "require_tools" (requireTools o) (set_bool "require_multimodal_input" (requireMultimodalInput o)
      (set_number "max_total" (maxTotal o) (set_number "min_total" (minTotal o) (set_text "base_url" (openrouterBaseUrl o) []))))))).

Definition apiGetOpenRouterModels (o : OpenRouterOpts) : net value :=
  let h := daemonHeaders auth [] in
  let h := if truthy_str (trim (apiKey o)) then set "X-OpenRouter-Key" (trim (apiKey o)) h else h in
  fetch_json "OpenRouterModelsRespSchema"
    (daemonFetchInit auth "GET" None h (at_api ["openrouter"; "models"] ++s "?" ++s qs_string (models_params o))).

Definition apiAgentdTrace (traceId : string) : net value :=
  tid ← require "trace_id" traceId;
  plain_api "AgentdTraceRespSchema" ["trace"] [("trace_id", tid); ("limit", "200"); ("max_bytes", "1048576")].

(** ** workflow.ts, workflow_schedule.ts, runtime_skills.ts *)

Definition apiListWorkflows (status : option string) (limit : option number) (q : option string) : net value :=
  get_api "WorkflowListRespSchema" ["workflows"] (add_text "q" q (add_number "limit" limit (add_text "status" status []))).
Definition apiGetWorkflow (workflowId : string) (tasks results spec : option bool) : net value :=
  get_api "WorkflowDetailRespSchema" ["workflow"]
    (add_bool "include_spec" spec (add_bool "include_results" results (add_bool "include_tasks" tasks
      (add_text "workflow_id" (Some workflowId) [])))).
Definition apiListWorkflowEvents (workflowId : string) (afterEventId limit : option number) (taskId eventType : option string) : net value :=
  get_api "WorkflowEventsRespSchema" ["workflow"; "events"]
    (add_text "event_type" eventType (add_text "task_id" taskId (add_number "limit" limit (add_number "after_event_id" afterEventId
      (add_text "workflow_id" (Some workflowId) []))))).
Definition apiSubmitWorkflow (payload : value) : net value := post_api "WorkflowSubmitRespSchema" ["workflow"; "submit"] payload.
Definition apiCancelWorkflow (workflowId : string) : net value :=
  post_api "WorkflowCancelRespSchema" ["workflow"; "cancel"] (VObject [("workflow_id", VString workflowId)]).

Definition apiListWorkflowSchedules (status : option string) (limit offset : option number) : net value :=
  get_api "WorkflowScheduleListRespSchema" ["workflow_schedules"]
    (add_number "offset" offset (add_number "limit" limit (add_text "status" status []))).
Definition apiGetWorkflowSchedule (scheduleId : string) : net value :=
  get_api "WorkflowScheduleGetRespSchema" ["workflow_schedule"] (add_text "schedule_id" (Some scheduleId) []).
Definition apiCreateWorkflowSchedule (payload : value) : net value :=
  post_api "WorkflowScheduleCreateRespSchema" ["workflow_schedules"] payload.
Definition apiDeleteWorkflowSchedule (scheduleId : string) : net value :=
  fetch_json "WorkflowScheduleUpdateRespSchema"
    (bare_request auth "DELETE" (at_api ["workflow_schedule"] ++s query (add_text "schedule_id" (Some scheduleId) []))).
Definition apiPauseWorkflowSchedule (scheduleId : string) : net value :=
  post_api "WorkflowScheduleUpdateRespSchema" ["workflow_schedule"; "pause"] (VObject [("schedule_id", VString scheduleId)]).
Definition apiResumeWorkflowSchedule (scheduleId : string) : net value :=
  post_api "WorkflowScheduleUpdateRespSchema" ["workflow_schedule"; "resume"] (VObject [("schedule_id", VString scheduleId)]).
Definition apiListWorkflowScheduleRuns (scheduleId : string) (limit offset : option number) : net value :=
  get_api "WorkflowScheduleRunsRespSchema" ["workflow_schedule"; "runs"]
    (add_number "offset" offset (add_number "limit" limit (add_text "schedule_id" (Some scheduleId) []))).

Definition apiListRuntimeSkills (kind category : option string) : net value :=
  get_api "RuntimeSkillListRespSchema" ["runtime_skills"] (add_text "category" category (add_text "kind" kind [])).
Definition apiResolveRuntimeSkill (payload : value) : net value :=
  post_api "RuntimeSkillResolveRespSchema" ["runtime_skills"; "resolve"] payload.

(** ** approvals.ts *)

Record ApprovalsListQuery := mkApprovalsQuery {
  q_status : string; q_teamId : string; q_traceId : string; q_jobId : string; q_toolName : string;
  q_runId : option param; q_limit : option number }.

Definition approvals_params (q : ApprovalsListQuery) : params :=
  let qs := set_text "tool_name" (q_toolName q) (set_text "job_id" (q_jobId q) (set_text "trace_id" (q_traceId q)
    (set_text "team_id" (q_teamId q) (set_text "status" (q_status q) [])))) in
  let qs := match q_runId q with Some v => set_text "run_id" (param_text v) qs | None => qs end in
  set_number "limit" (match q_limit q with Some x => if num_truthy x && is_finite x then Some x else None | None => None end) qs.

Definition apiListApprovals (q : ApprovalsListQuery) : net value :=
  fetch_or_throw "ApprovalsListSchema" (get_request auth (at_api ["approvals"] ++s query (approvals_params q))).

(** The identifier goes into the address as it is. *)
Definition apiGetApproval (approvalId : string) : net value :=
  fetch_or_throw "ApprovalDetailSchema" (get_request auth (at_api ["approvals"] ++s "/" ++s approvalId)).

Record ApprovalDecisionReq := mkDecision { memberId : string; memberRole : option string; decision : string; note : option string }.

Definition apiPostApprovalDecision (approvalId : string) (req : ApprovalDecisionReq) : net value :=
  fetch_or_throw "ApprovalDecisionRespSchema"
    (json_request auth "POST" (at_api ["approvals"] ++s "/" ++s approvalId ++s "/decisions")
       (VObject [("member_id", VString (memberId req)); ("member_role", VString (default "" (memberRole req)));
                 ("decision", VString (decision req)); ("note", VString (default "" (note req)))])).

(** ** run.ts *)

Definition has_trace (req : obj value) : bool := match prop "trace_id" req with VString s => truthy_str s | _ => false end.

(** [TraceId] answers what follows the prefix, a random identifier. *)
Definition newTraceId : net string := tid ← ask TraceId; Ret ("trace_" ++s tid).

Definition ensureTraceId (req : obj value) : net (obj value) :=
  if has_trace req then Ret req else tid ← newTraceId; Ret (set "trace_id" (VString tid) (of_entries req)).

Definition run_call (schema endpoint : string) (req : obj value) : net value :=
  parsed ← lift (parse_schema "RunRequestSchema" (VObject req));
  payload ← ensureTraceId (safeObject parsed);
  post_api schema [endpoint] (VObject payload).

Definition apiRun : obj value -> net value := run_call "RunResponseSchema" "run".
Definition apiRunAsync : obj value -> net value := run_call "RunAsyncRespSchema" "run_async".

Definition apiGetJob (jobId : string) : net value := plain_api "JobRespSchema" ["job"] [("job_id", jobId)].
Definition apiGetJobProgress (jobId : string) (cursor maxEvents : option number) : net value :=
  plain_api "JobRespSchema" ["job"]
    [("job_id", jobId); ("include_events", "1"); ("cursor", num_text 0 cursor); ("max_events", num_text 256 maxEvents)].

Definition parseJsonObject : net (obj value) := catch (j ← read_json; Ret (safeObject j)) (fun _ => Ret []).

Definition apiCancelJob (jobId : string) : net value :=
  status ← call (Send (bare_request auth "POST" (at_api ["job"; "cancel"] ++s plain_query [("job_id", jobId)])));
  j ← parseJsonObject;
  lift (parse_schema "JobCancelRespSchema"
          (VObject (of_entries (("ok", VBool (is_ok status)) :: ("status", VNumber (int status)) :: j)))).

(** A run's recording: an answer that is not a success is one that says so. *)
Definition run_record (schema endpoint runId : string) : net value :=
  rid ← require "run_id" runId;
  status ← call (Send (get_request auth (at_api ["run"; endpoint] ++s plain_query [("run_id", rid)])));
  j ← parseJsonObject;
  lift (parse_schema schema (VObject (if is_ok status then j else of_entries (("ok", VBool false) :: j)))).

Definition apiRunReplay : string -> net value := run_record "RunReplayRespSchema" "replay".
Definition apiRunAttestation : string -> net value := run_record "RunAttestationRespSchema" "attestation".

(** [asyncResp], [job] and [opts]. *)
Definition job_error (job : obj value) : string :=
  match prop "error" job with VString s => str_or s "job failed" | _ => "job failed" end.

Definition finished (job : obj value) : bool :=
  bool_decide (prop "status" job = VString "done") || bool_decide (prop "status" job = VString "error").

(** The loop; [None] when the fuel is used up. *)
Fixpoint wait_for_job (fuel : nat) (jobId : string) (started pollMs timeoutMs : number) : net (option value) :=
  match fuel with
  | O => Ret None
  | Datatypes.S fuel =>
      now ← ask Now;
      if gtb (sub now started) timeoutMs then throw_error ("Timed out waiting for job " ++s jobId)
      else
        j ← apiGetJob jobId;
        let job := safeObject j in
        if negb (truthy (prop "ok" job)) then throw_error (job_error job)
        else if finished job then
          if truthy (prop "result" job) then Ret (Some (prop "result" job)) else throw_error "job completed but missing result"
        else ask (Sleep pollMs) ;; wait_for_job fuel jobId started pollMs timeoutMs
  end.

Definition job_id_of (asyncResp : obj value) : string := default "" (as_string (prop "job_id" asyncResp)).

Definition apiRunMaybeAsync (fuel : nat) (req : obj value) (pollMs timeoutMs : option number) : net (option value) :=
  req ← ensureTraceId req;
  let poll := default (int 500) pollMs in
  let timeout := default (int 120000) timeoutMs in
  started ← ask Now;
  asyncResp ← catch (j ← apiRunAsync req; Ret (Some (safeObject j))) (fun _ => Ret None);
  match asyncResp with
  | Some a =>
      if truthy (prop "ok" a) && truthy_str (job_id_of a) then wait_for_job fuel (job_id_of a) started poll timeout
      else v ← apiRun req; Ret (Some v)
  | None => v ← apiRun req; Ret (Some v)
  end.

(** ** What the functions request *)

(** A resource of the daemon, with the parameters that name what is meant. *)
Definition endpoint : Type := list string * params.

(** A parameter that is left out when it is blank. *)
Definition unless_blank (k v : string) : params := if truthy_str (trim v) then [(k, trim v)] else [].

(** Every function with one request, but those of one approval, whose
    identifier is not encoded. *)
Definition daemon_calls (id s1 s2 : string) (n1 n2 n3 n4 : option number) (x : number) (b1 b2 b3 b4 : bool) (o1 o2 o3 o4 : option bool)
    (t1 t2 : option string) (l : list string) (req : value) (o : obj value) (range : MemoryRange) (salience : MemorySalienceParams)
    (recaps : MemoryRecapsListParams) (models : OpenRouterOpts) (approvals : ApprovalsListQuery) : list (endpoint * net value) :=
  [((["config"; "update"], []), apiUpdateDaemonConfig req); ((["health"], []), apiGetHealth); ((["caps"], []), apiGetCaps);
   ((["config"], []), apiGetConfig); ((["diagnostics"], []), apiGetDiagnostics);
   ((["diagnostics"; "providers"], []), apiGetDiagnosticsProviders);
   ((["diagnostics"; "provider_test"], []), apiPostDiagnosticsProviderTest req);
   ((["sandbox"; "mount_validate"], []), apiPostSandboxMountValidate req);
   ((["client"; "prefs"], [("client_id", id); ("client_kind", s1)]), apiGetClientPrefs id s1);
   ((["client"; "prefs"], []), apiPostClientPrefs req);
   ((["db"; "runs"], [("session_id", id)]), apiGetDbRuns id n1 n2 b1 s1);
   ((["db"; "run"], [("run_id", num_to_string x)]), apiGetDbRun x b1 b2 b3 b4);
   ((["db"; "artifacts"], [("session_id", id)]), apiGetDbArtifacts id n1 n2);
   ((["db"; "ui_actions"], [("session_id", id)]), apiGetDbUiActions id n1 n2);
   ((["db"; "sessions"], []), apiGetDbSessions n1 n2);
   ((["db"; "messages"], [("session_id", id)]), apiGetDbMessages id n1 n2 n3 n4);
   ((["db"; "client_events"], [("session_id", id)]), apiGetDbClientEvents id n1 n2);
   ((["memory"; "query"], []), apiMemoryQuery range n1);
   ((["memory"; "correlate"], [("trace_id", trim id)]), apiMemoryCorrelate id range n1 b1);
   ((["memory"; "correlation"; "index"], []), apiMemoryCorrelationIndexBuild req);
   ((["memory"; "checkpoints"], []), apiMemoryCheckpoints range n1);
   ((["memory"; "index"], []), apiMemoryIndex t1 o1 o2 o3 o4 n1); ((["memory"; "salience"], []), apiMemorySalience salience);
   ((["memory"; "retention"; "enforce"], []), apiMemoryRetentionEnforce req);
   ((["memory"; "recaps"], []), apiMemoryRecapsList recaps); ((["memory"; "recaps"], []), apiMemoryRecapsCreate req);
   ((["moderator"; "directive"], []), apiPostModeratorDirective req); ((["moderator"; "task"], []), apiPostModeratorTask req);
   ((["moderator"; "events"], [("session_id", id)]), apiGetModeratorEvents id n1 l);
   ((["tools"], []), apiGetTools s1 o1 s2 id); ((["openrouter"; "models"], []), apiGetOpenRouterModels models);
   ((["trace"], [("trace_id", trim id)]), apiAgentdTrace id);
   ((["workflows"], []), apiListWorkflows t1 n1 t2); ((["workflow"], unless_blank "workflow_id" id), apiGetWorkflow id o1 o2 o3);
   ((["workflow"; "events"], unless_blank "workflow_id" id), apiListWorkflowEvents id n1 n2 t1 t2); ((["workflow"; "submit"], []), apiSubmitWorkflow req);
   ((["workflow"; "cancel"], []), apiCancelWorkflow id); ((["workflow_schedules"], []), apiListWorkflowSchedules t1 n1 n2);
   ((["workflow_schedule"], unless_blank "schedule_id" id), apiGetWorkflowSchedule id); ((["workflow_schedules"], []), apiCreateWorkflowSchedule req);
   ((["workflow_schedule"], unless_blank "schedule_id" id), apiDeleteWorkflowSchedule id); ((["workflow_schedule"; "pause"], []), apiPauseWorkflowSchedule id);
   ((["workflow_schedule"; "resume"], []), apiResumeWorkflowSchedule id);
   ((["workflow_schedule"; "runs"], unless_blank "schedule_id" id), apiListWorkflowScheduleRuns id n1 n2);
   ((["runtime_skills"], []), apiListRuntimeSkills t1 t2); ((["runtime_skills"; "resolve"], []), apiResolveRuntimeSkill req);
   ((["approvals"], []), apiListApprovals approvals); ((["run"], []), apiRun o); ((["run_async"], []), apiRunAsync o);
   ((["job"], [("job_id", id)]), apiGetJob id); ((["job"], [("job_id", id)]), apiGetJobProgress id n1 n2);
   ((["job"; "cancel"], [("job_id", id)]), apiCancelJob id); ((["run"; "replay"], [("run_id", trim id)]), apiRunReplay id);
   ((["run"; "attestation"], [("run_id", trim id)]), apiRunAttestation id)].

Definition to_endpoint (e : endpoint) (r : Request) : Prop :=
  signed auth r
  /\ exists qs, read_address base (req_url r) = ("api" :: "v1" :: fst e, qs)
        /\ req_url r = base ++s sdrop (String.length base) (req_url r)
        /\ Forall (fun p => p ∈ qs) (snd e).

Lemma to_endpoint_query e method body extra qs :
  (extra = [] /\ body = None) \/ extra = json_type \/ extra = daemonHeaders auth json_type -> Forall (fun p => p ∈ qs) (snd e) ->
  to_endpoint e (daemonFetchInit auth method body extra (at_api (fst e) ++s query qs)).
Proof.
  intros He Hq. split; [by apply signed_init|]. exists qs. unfold at_api. cbn [req_url daemonFetchInit]. rewrite !append_assoc.
  split; [apply read_address_path|]. by rewrite sdrop_append.
Qed.

Lemma to_endpoint_plain e method body extra p qs :
  (extra = [] /\ body = None) \/ extra = json_type \/ extra = daemonHeaders auth json_type -> Forall (fun q => q ∈ p :: qs) (snd e) ->
  to_endpoint e (daemonFetchInit auth method body extra (at_api (fst e) ++s plain_query (p :: qs))).
Proof.
  intros He Hq. split; [by apply signed_init|]. exists (p :: qs). unfold at_api. cbn [req_url daemonFetchInit]. rewrite !append_assoc.
  split; [by apply read_address_path|]. by rewrite sdrop_append.
Qed.

Lemma to_endpoint_bare segments method body extra :
  (extra = [] /\ body = None) \/ extra = json_type \/ extra = daemonHeaders auth json_type ->
  to_endpoint (segments, []) (daemonFetchInit auth method body extra (at_api segments)).
Proof.
  intros He. pose proof (to_endpoint_query (segments, []) method body extra [] He) as H.
  cbn [fst snd] in H. rewrite append_nil_r in H. apply H. constructor.
Qed.

Lemma to_endpoint_marked segments method body extra qs :
  signed auth (daemonFetchInit auth method body extra (at_api segments ++s "?" ++s qs_string qs)) ->
  to_endpoint (segments, []) (daemonFetchInit auth method body extra (at_api segments ++s "?" ++s qs_string qs)).
Proof.
  intros He. split; [done|]. eexists. unfold at_api. cbn [req_url daemonFetchInit fst snd]. rewrite !append_assoc.
  split; [|by rewrite sdrop_append]. unfold read_address. rewrite sdrop_append, cut_free by apply path_free.
  set (q := qs_string qs). replace (cut "?"%char ("?" ++s q)) with ("", Some q) by done. cbn [fst snd]. rewrite append_nil_r.
  f_equal. change (path ("api" :: "v1" :: segments)) with ("/" ++s (encodeURIComponent "api" ++s path ("v1" :: segments))).
  change ("/" ++s ?x) with (String "/" x). apply path_split.
Qed.

Lemma signed_models o method url :
  signed auth (daemonFetchInit auth method None
    (if truthy_str (trim (apiKey o)) then set "X-OpenRouter-Key" (trim (apiKey o)) (daemonHeaders auth []) else daemonHeaders auth []) url).
Proof.
  split; [|split; [by destruct auth as [[|x y z []]|]|done]].
  unfold daemonFetchInit, daemonHeaders. cbn [req_headers].
  destruct auth as [[t|t t' d c]|]; cbn [auth_token mbind option_bind]; destruct (truthy_str _); try reflexivity;
    destruct (normalizeBearerHeader t); try reflexivity;
    destruct (normalizeBearerHeader t'), (trimmed_some d); reflexivity.
Qed.
End daemon.

(** ** Parameters that are there *)

Section parameters.
Context (p : string * string).

Lemma in_qs_set k v qs : fst p <> k -> p ∈ qs -> p ∈ qs_set k v qs.
Proof.
  intros Hk Hp. unfold qs_set. destruct (has k qs); [|apply elem_of_app; by left].
  induction qs as [|[k' v'] qs IH]; [done|]. cbn [replace].
  apply elem_of_cons in Hp as [-> | Hp]; cbn [fst] in *.
  - rewrite bool_decide_false by congruence. by left.
  - destruct (bool_decide (k = k')); right; auto.
Qed.

Lemma in_set_text k v qs : fst p <> k -> p ∈ qs -> p ∈ set_text k v qs.
Proof. intros Hk Hp. unfold set_text. destruct (truthy_str v); [by apply in_qs_set|done]. Qed.
Lemma in_set_number k v qs : fst p <> k -> p ∈ qs -> p ∈ set_number k v qs.
Proof. intros Hk Hp. destruct v; [by apply in_qs_set|done]. Qed.
Lemma in_set_flag k b qs : fst p <> k -> p ∈ qs -> p ∈ set_flag k b qs.
Proof. intros Hk Hp. destruct b; [by apply in_qs_set|done]. Qed.
Lemma in_addQueryParam k v qs : fst p <> k -> p ∈ qs -> p ∈ addQueryParam k v qs.
Proof. intros Hk Hp. destruct v; [|done]. cbn [addQueryParam]. destruct (truthy_str _); [by apply in_qs_set|done]. Qed.
Lemma in_add_number k v qs : fst p <> k -> p ∈ qs -> p ∈ add_number k v qs.
Proof. apply in_addQueryParam. Qed.
Lemma in_add_bool k v qs : fst p <> k -> p ∈ qs -> p ∈ add_bool k v qs.
Proof. apply in_addQueryParam. Qed.
Lemma in_add_text k v qs : fst p <> k -> p ∈ qs -> p ∈ add_text k v qs.
Proof. apply in_addQueryParam. Qed.

Lemma in_range_params r b qs :
  fst p <> "structured_path" -> fst p <> "until_utc_ms" -> fst p <> "since_utc_ms" -> fst p <> "key_prefix" -> p ∈ qs ->
  p ∈ range_params r b qs.
Proof. intros. unfold range_params. destruct b; repeat (apply in_add_text || apply in_add_number); done. Qed.
End parameters.

Lemma in_unless_blank k s p : p ∈ unless_blank k s -> fst p = k /\ p ∈ add_text k (Some s) [].
Proof.
  unfold unless_blank, add_text, addQueryParam. cbn [fmap option_fmap option_map param_text].
  destruct (truthy_str (trim s)); [|by rewrite elem_of_nil]. rewrite list_elem_of_singleton. intros ->. split; [done|by left].
Qed.

Lemma in_add_trimmed k s : trim s <> "" -> (k, trim s) ∈ add_text k (Some (trim s)) [].
Proof.
  intros Hs. unfold add_text, addQueryParam. cbn [fmap option_fmap option_map param_text]. rewrite trim_idem.
  rewrite (proj2 (truthy_str_true _)) by done. by left.
Qed.

Section requests.
Context {J : Json} {S : Schemas}.
Context (base : string) (auth : option ApiAuth).

Lemma within_parseJsonObject P : within P 0 parseJsonObject.
Proof. apply (within_catch P 0 0); [|done]. apply within_bind_last; [apply within_read_json|done]. Qed.

Lemma within_run_record e schema ep id : to_endpoint base auth e (get_request auth (at_api base ["run"; ep] ++s plain_query [("run_id", trim id)])) ->
  within (to_endpoint base auth e) 1 (run_record base auth schema ep id).
Proof.
  intros He. unfold run_record. apply within_require. intros _. apply within_bind_last; [by apply within_send|].
  intros status. apply within_bind_last; [apply within_parseJsonObject|]. intros j. apply within_lift.
Qed.

Lemma within_run_call schema ep req : within (to_endpoint base auth ([ep], [])) 1 (run_call base auth schema ep req).
Proof.
  unfold run_call. apply within_bind_0; [apply within_lift|]. intros parsed.
  apply within_bind_0; [unfold ensureTraceId; destruct (has_trace _); done|]. intros payload.
  apply within_fetch_json, to_endpoint_bare. by right; left.
Qed.

Local Ltac extra_ok := first [left; split; reflexivity | right; left; reflexivity | right; right; reflexivity].
Local Ltac other := first [done | match goal with H : fst _ = _ |- _ => rewrite H; done end].
Local Ltac present :=
  first [ assumption | by apply in_add_trimmed | apply list_elem_of_here | apply list_elem_of_further; present
        | lazymatch goal with
          | |- _ ∈ set_text _ _ _ => apply in_set_text; [other|present]
          | |- _ ∈ set_flag _ _ _ => apply in_set_flag; [other|present]
          | |- _ ∈ add_number _ _ _ => apply in_add_number; [other|present]
          | |- _ ∈ add_bool _ _ _ => apply in_add_bool; [other|present]
          | |- _ ∈ add_text _ _ _ => apply in_add_text; [other|present]
          | |- _ ∈ range_params _ _ _ => apply in_range_params; [done..|present]
          end ].
Local Ltac named :=
  cbn [fst snd];
  lazymatch goal with
  | |- Forall _ (unless_blank _ _) => apply Forall_forall; intros q [Hk Hq]%in_unless_blank; present
  | |- Forall _ [] => apply Forall_nil_2
  | |- Forall _ _ => repeat (apply Forall_cons_2; [present|]); apply Forall_nil_2
  end.
Local Ltac addressed :=
  unfold get_request, bare_request, json_request;
  lazymatch goal with
  | |- to_endpoint _ _ _ (daemonFetchInit _ _ _ _ (_ ++s query _)) => apply to_endpoint_query; [extra_ok|named]
  | |- to_endpoint _ _ _ (daemonFetchInit _ _ _ _ (_ ++s plain_query _)) => apply to_endpoint_plain; [extra_ok|named]
  | |- to_endpoint _ _ _ (daemonFetchInit _ _ _ _ (at_api _ _)) => apply to_endpoint_bare; extra_ok
  end.
Local Ltac head_of p := lazymatch p with ?f _ => head_of f | _ => p end.
Local Ltac requested :=
  lazymatch goal with
  | |- within _ _ (require _ _ ≫= _) => apply within_require; intros; requested
  | |- within _ _ (lift _ ≫= _) => apply within_bind_0; [apply within_lift|intros; requested]
  | |- within _ _ (run_record _ _ _ _ _) => apply within_run_record; addressed
  | |- within _ _ (run_call _ _ _ _ _) => apply within_run_call
  | |- within _ _ (fetch_json _ _) => apply within_fetch_json; try solve [addressed]
  | |- within _ _ (fetch_or_throw _ _) => apply within_fetch_or_throw; try solve [addressed]
  | |- within _ _ (call _ ≫= _) => idtac
  | |- within _ _ ?p => let f := head_of p in unfold f; requested
  end.

(** What the clients of the daemon ask for: at most one request each, to the
    endpoint of the function under [api/v1], with the parameters that name what
    is meant, and with the credentials of the connection. *)
Theorem daemon_requests id s1 s2 n1 n2 n3 n4 x b1 b2 b3 b4 o1 o2 o3 o4 t1 t2 l req o range salience recaps models approvals :
  Forall (fun c => forall t out, runs (snd c) t out ->
      (sent t <= 1)%nat /\ Forall (on_event (sends (to_endpoint base auth (fst c)))) t)
    (daemon_calls base auth id s1 s2 n1 n2 n3 n4 x b1 b2 b3 b4 o1 o2 o3 o4 t1 t2 l req o range salience recaps models approvals).
Proof.
  unfold daemon_calls. repeat (apply Forall_cons; split; [intros t out; apply within_runs; cbn [fst snd]|]); [..|done].
  all: requested.
  - destruct b1; addressed.
  - apply to_endpoint_marked, signed_init; by left.
  - apply to_endpoint_marked, signed_models.
  - apply within_bind_last; [apply within_send; [done|addressed]|]. intros status.
    apply within_bind_last; [apply within_parseJsonObject|]. intros j. apply within_lift.
Qed.
End requests.

(** ** A run that is waited for *)

Section waiting.
Context {J : Json} {S : Schemas}.
Context (base : string) (auth : option ApiAuth).

(** What an execution posts, and what the clock says. *)
Definition post_of (r : Request) : list (string * option value) :=
  if bool_decide (req_method r = "POST") then [(req_url r, req_body r)] else [].
Definition posts (t : list (answered netE)) : list (string * option value) :=
  flat_map (fun ev => match ev with Ev e _ => match e with Send q => post_of q | _ => [] end end) t.
Definition clock (t : list (answered netE)) : list number :=
  flat_map (fun ev => match ev with Ev e r => match e in netE R return R -> list number with
                                              | Now => fun x => [x] | _ => fun _ => [] end r end) t.

Lemma posts_app t t' : posts (t ++ t') = posts t ++ posts t'.
Proof. apply flat_map_app. Qed.
Lemma clock_app t t' : clock (t ++ t') = clock t ++ clock t'.
Proof. apply flat_map_app. Qed.

Lemma no_posts {A} (p : net A) t o : always (sends (fun r => req_method r <> "POST")) p -> runs p t o -> posts t = [].
Proof.
  intros Hp Ht. pose proof (always_runs _ _ _ _ Hp Ht) as H. clear Hp Ht. induction H as [|[R e r] t He _ IH]; [done|].
  change (posts (Ev e r :: t)) with (match e with Send q => post_of q | _ => [] end ++ posts t). rewrite IH.
  destruct e; try done. unfold post_of. cbn in He. by rewrite bool_decide_false.
Qed.

Lemma no_clock {A} (p : net A) t o : always (fun R e => match e with Now => False | _ => True end) p -> runs p t o -> clock t = [].
Proof.
  intros Hp Ht. pose proof (always_runs _ _ _ _ Hp Ht) as H. clear Hp Ht. induction H as [|[R e r] t He _ IH]; [done|].
  destruct e; done.
Qed.

Lemma fetch_json_clock schema r t o : runs (fetch_json schema r) t o -> clock t = [].
Proof.
  apply no_clock, always_bind; [by apply always_call|]. intros _. apply always_bind; [|intros ?; by destruct (parse_schema _ _)].
  apply always_bind; [by apply always_call|]. intros s. by destruct (parse s).
Qed.

Lemma read_json_quiet schema : always (sends (fun r => req_method r <> "POST")) (j ← read_json; lift (parse_schema schema j)).
Proof.
  apply always_bind; [|intros ?; by destruct (parse_schema _ _)].
  apply always_bind; [by apply always_call|]. intros s. by destruct (parse s).
Qed.

Lemma fetch_json_posts schema r t o : runs (fetch_json schema r) t o -> posts t = post_of r.
Proof.
  intros (x & t' & -> & H). change (posts (Ev (Send r) x :: t')) with (post_of r ++ posts t').
  enough (posts t' = []) as -> by apply app_nil_r.
  destruct x as [status|e]; [|by destruct H as [-> _]]. exact (no_posts _ _ _ (read_json_quiet schema) H).
Qed.

Lemma within_always P n {A} (p : net A) : within P n p -> always (sends P) p.
Proof. revert n. induction p; intros n; cbn [within always]; [done..|]. intros (_ & He & Hk). split; eauto. Qed.

Lemma get_job_quiet id : always (sends (fun r => req_method r <> "POST")) (apiGetJob base auth id).
Proof. eapply within_always. by apply within_fetch_json. Qed.

Lemma wait_quiet fuel id started poll timeout :
  always (sends (fun r => req_method r <> "POST")) (wait_for_job base auth fuel id started poll timeout).
Proof.
  induction fuel as [|fuel IH]; [done|]. cbn [wait_for_job]. apply always_bind; [by apply always_ask|]. intros now.
  destruct (gtb _ _); [done|]. apply always_bind; [apply get_job_quiet|]. intros j.
  destruct (negb _); [done|]. destruct (finished _); [by destruct (truthy _)|].
  apply always_bind; [by apply always_ask|]. intros _. apply IH.
Qed.

(** When the fuel is used up, every reading was within the time. *)
Lemma wait_none fuel id started poll timeout t :
  runs (wait_for_job base auth fuel id started poll timeout) t (inl None) ->
  length (clock t) = fuel /\ Forall (fun x => gtb (sub x started) timeout = false) (clock t).
Proof.
  revert t. induction fuel as [|fuel IH]; cbn [wait_for_job]; intros t; [by intros [-> _]|].
  intros (now & t' & -> & H). change (prog_bind _ _ ?f (Ret now)) with (f now) in H. cbv beta in H.
  change (clock (Ev Now now :: t')) with (now :: clock t').
  destruct (gtb (sub now started) timeout) eqn:Ht; [by destruct H|].
  apply runs_bind in H as [(e & _ & [=])|(j & t1 & t2 & -> & Hj & H)]. cbv beta in H.
  assert (Hc : clock t1 = []).
  { by apply fetch_json_clock in Hj. }
  destruct (negb _); [by destruct H|]. destruct (finished _); [destruct (truthy _); [by destruct H as [_ [=]]|by destruct H]|].
  destruct H as (r & t3 & -> & H). change (prog_bind _ _ ?f (Ret r)) with (f r) in H. cbv beta in H.
  destruct (IH _ H) as [Hl Hf]. rewrite clock_app, Hc. change (clock (Ev (Sleep poll) r :: t3)) with (clock t3).
  cbn [app length]. split; [by rewrite Hl|by constructor].
Qed.

(** Readings of a clock, [p] milliseconds apart at least: what the timers keep
    when the loop sleeps for [p]. *)
Definition ticks (s p : Z) (readings : list number) : Prop :=
  forall k x, readings !! k = Some x -> exists n, x = int n /\ s + Z.of_nat k * p <= n < 2 ^ 52.

Lemma run_call_posts schema ep req t o :
  (forall o v, has_trace o = true -> parse_schema "RunRequestSchema" (VObject o) = inl v -> has_trace (safeObject v) = true) ->
  has_trace req = true -> runs (run_call base auth schema ep req) t o ->
  clock t = [] /\
  posts t = match parse_schema "RunRequestSchema" (VObject req) with
            | inl v => [(at_api base [ep], Some (VObject (safeObject v)))]
            | inr _ => []
            end.
Proof.
  intros Hkeep Hreq H. unfold run_call in H. destruct (parse_schema "RunRequestSchema" (VObject req)) as [v|e] eqn:Hp.
  - change (lift (inl v) ≫= ?f) with (f v) in H. cbv beta in H. unfold ensureTraceId in H.
    rewrite (Hkeep _ _ Hreq Hp) in H. change (Ret ?x ≫= ?f) with (f x) in H. cbv beta in H.
    split; [by apply fetch_json_clock in H|]. by apply fetch_json_posts in H.
  - by destruct H as [-> _].
Qed.

(** The trace identifier of the request is there before anything is posted. *)
Lemma ensure_trace req t req' : runs (ensureTraceId req) t (inl req') -> has_trace req' = true /\ posts t = [] /\ clock t = [].
Proof.
  unfold ensureTraceId. destruct (has_trace req) eqn:Hr; [intros [-> [= ->]]; done|].
  intros (tid & t' & -> & H). change (prog_bind _ _ ?f (Ret tid)) with (f tid) in H.
  destruct H as [-> [= ->]]. split; [|done]. unfold has_trace, prop. by rewrite get_set_eq.
Qed.

Lemma maybe_async_parts fuel req pollMs timeoutMs t o :
  runs (apiRunMaybeAsync base auth fuel req pollMs timeoutMs) t o ->
  exists req' t0 started t1 o1 t2,
    t = t0 ++ Ev Now started :: t1 ++ t2 /\ runs (ensureTraceId req) t0 (inl req') /\ runs (apiRunAsync base auth req') t1 o1
    /\ (runs (v ← apiRun base auth req'; Ret (Some v)) t2 o
        \/ exists id, runs (wait_for_job base auth fuel id started (default (int 500) pollMs) (default (int 120000) timeoutMs)) t2 o).
Proof.
  intros H. apply runs_bind in H as [(e & He & _)|(req' & t0 & t' & -> & H0 & H)].
  { exfalso. unfold ensureTraceId in He. destruct (has_trace req); [by destruct He|].
    destruct He as (tid & t' & -> & He). by destruct He. }
  cbv beta zeta in H. destruct H as (started & t'' & -> & H).
  change (prog_bind _ _ ?f (Ret started)) with (f started) in H. cbv beta in H.
  apply runs_bind in H as [(e & He & _)|(a & t1 & t2 & -> & H1 & H2)].
  { exfalso. apply runs_catch in He as [(x & _ & [=])|(e' & t1 & t2 & _ & _ & [_ Hn])]. discriminate Hn. }
  apply runs_catch in H1 as [(x & H1 & [= <-])|(e' & t3 & t4 & -> & H1 & [-> [= ->]])].
  - apply runs_bind in H1 as [(e & _ & [=])|(j & t3 & t4 & -> & H1 & [-> [= ->]])].
    exists req', t0, started, t3, (inl j), t2. rewrite app_nil_r. split_and!; [done..|].
    destruct (_ && _); [right; eauto|by left].
  - apply runs_bind in H1 as [(e & H1 & _)|(j & t5 & t6 & _ & _ & [_ Hn])]; [|discriminate Hn].
    exists req', t0, started, t3, (inr e), t2. rewrite app_nil_r. split_and!; [done..|]. by left.
Qed.

Lemma run_then_some_posts req t o : 
  (forall o v, has_trace o = true -> parse_schema "RunRequestSchema" (VObject o) = inl v -> has_trace (safeObject v) = true) ->
  has_trace req = true -> runs (v ← apiRun base auth req; Ret (Some v)) t o ->
  posts t = match parse_schema "RunRequestSchema" (VObject req) with
            | inl v => [(at_api base ["run"], Some (VObject (safeObject v)))]
            | inr _ => []
            end
  /\ o <> inl None.
Proof.
  intros Hkeep Hreq H. apply runs_bind in H as [(e & H & ->)|(v & t1 & t2 & -> & H & [-> ->])].
  - split; [|done]. by apply run_call_posts in H as [_ ->].
  - split; [|done]. rewrite app_nil_r. by apply run_call_posts in H as [_ ->].
Qed.

(** What the schema of requests keeps. *)
Hypothesis keeps_trace : forall o v,
  has_trace o = true -> parse_schema "RunRequestSchema" (VObject o) = inl v -> has_trace (safeObject v) = true.

(** A run that is waited for is posted at most twice, first to be run
    asynchronously, with the same body and the same trace identifier. *)
Theorem run_posted fuel req pollMs timeoutMs t o :
  runs (apiRunMaybeAsync base auth fuel req pollMs timeoutMs) t o ->
  exists payload, has_trace payload = true
    /\ posts t `prefix_of` [(at_api base ["run_async"], Some (VObject payload)); (at_api base ["run"], Some (VObject payload))].
Proof.
  intros H. apply maybe_async_parts in H as (req' & t0 & started & t1 & o1 & t2 & -> & H0 & H1 & H2).
  apply ensure_trace in H0 as (Hr & H0 & _). apply run_call_posts in H1 as [_ H1]; [|done..].
  rewrite posts_app. change (posts (Ev Now started :: t1 ++ t2)) with (posts (t1 ++ t2)). rewrite posts_app, H0, H1.
  assert (H3 : posts t2 `prefix_of` match parse_schema "RunRequestSchema" (VObject req') with
      | inl v => [(at_api base ["run"], Some (VObject (safeObject v)))] | inr _ => [] end).
  { destruct H2 as [H2|[id H2]]; [by apply run_then_some_posts in H2 as [-> _]|].
    rewrite (no_posts _ _ _ (wait_quiet _ _ _ _ _) H2). apply prefix_nil. }
  destruct (parse_schema "RunRequestSchema" (VObject req')) as [v|e] eqn:Hp.
  - exists (safeObject v). split; [by eapply keeps_trace|]. by apply (prefix_app [_]).
  - exists req'. split; [done|]. apply prefix_nil_inv in H3 as ->. apply prefix_nil.
Qed.

(** A run that is waited for ends: with a clock that the loop's sleeps advance,
    fuel for one pass more than fit into the time is enough. *)
Theorem run_ends fuel req pollMs timeoutMs p timeout s readings t o :
  runs (apiRunMaybeAsync base auth fuel req pollMs timeoutMs) t o ->
  default (int 120000) timeoutMs = int timeout ->
  clock t = int s :: readings -> 0 <= s < 2 ^ 52 -> 0 < p -> 0 <= timeout -> ticks s p readings ->
  timeout < (Z.of_nat fuel - 1) * p -> o <> inl None.
Proof.
  intros H Ht Hc Hs Hp0 Hto Hticks Hfuel ->.
  apply maybe_async_parts in H as (req' & t0 & started & t1 & o1 & t2 & -> & H0 & H1 & H2).
  apply ensure_trace in H0 as (Hr & _ & H0). apply run_call_posts in H1 as [H1 _]; [|done..].
  rewrite clock_app in Hc. change (clock (Ev Now started :: t1 ++ t2)) with (started :: clock (t1 ++ t2)) in Hc.
  rewrite clock_app, H0, H1 in Hc. cbn [app] in Hc. injection Hc as -> Hc.
  destruct H2 as [H2|[id H2]]; [by apply run_then_some_posts in H2 as [_ H2]|].
  apply wait_none in H2 as [Hl Hf]. rewrite Hc in Hl, Hf. rewrite Ht in Hf.
  destruct fuel as [|fuel]; [lia|]. destruct (lookup_lt_is_Some_2 readings fuel) as [x Hx]; [lia|].
  destruct (Hticks _ _ Hx) as (n & -> & Hn). rewrite Forall_lookup in Hf. specialize (Hf _ _ Hx). cbv beta in Hf.
  assert (0 <= Z.of_nat fuel * p) by nia. rewrite sub_int in Hf by lia. unfold gtb in Hf. rewrite ltb_int in Hf. nia.
Qed.
End waiting.

(** ** A daemon that never finishes a job *)

Definition demo_answer (status url : string) : value :=
  if starts_with "/api/v1/run_async" url then VObject [("ok", VBool true); ("job_id", VString "j")]
  else VObject [("ok", VBool true); ("status", VString status)].

(** The state is the time and the last address. *)
Definition demo_daemon (status : string) : world netE (Z * string) := fun R e s =>
  match e in netE R return R * (Z * string) with
  | Send r => (inl 200, (fst s, req_url r))
  | ReadText => (inl (stringify (Json := text_json) (demo_answer status (snd s))), s)
  | Now => (int (fst s), s)
  | Sleep ms => (tt, (fst s + match to_Z ms with Some n => n | None => 0 end, snd s))
  | TraceId => ("1", s)
  end.

#[local] Instance demo_schemas : Schemas := fun _ v => inl v.

Definition demo_prompt : obj value := [("prompt", VString "hi")].

Definition demo_wait (status : string) : list (answered netE) * (option value + string) * (Z * string) :=
  exec (demo_daemon status) (apiRunMaybeAsync (J := text_json) "" None 4 demo_prompt (Some (int 500)) (Some (int 1000))) (0, "").

Lemma demo_keeps o v : has_trace o = true -> parse_schema "RunRequestSchema" (VObject o) = inl v -> has_trace (safeObject v) = true.
Proof.
  intros Ho [= <-]. unfold safeObject, isUnknownRecord. cbn. done.
Qed.

Lemma run_ends_witness : snd (fst (demo_wait "running")) <> inl None.
Proof.
  apply (run_ends (J := text_json) "" None demo_keeps 4 demo_prompt (Some (int 500)) (Some (int 1000)) 500 1000 0
           [int 0; int 500; int 1000; int 1500] (fst (fst (demo_wait "running")))).
  - eapply (exec_runs (demo_daemon "running")). unfold demo_wait. by rewrite <-!surjective_pairing.
  - reflexivity.
  - vm_compute. reflexivity.
  - done.
  - done.
  - done.
  - intros k x Hk. do 4 (destruct k as [|k]; [injection Hk as <-; eexists; split; [reflexivity|lia]|]). done.
  - done.
Defined.

Lemma run_posted_witness :
  exists payload, has_trace payload = true
    /\ posts (fst (fst (demo_wait "running"))) `prefix_of` [("/api/v1/run_async", Some (VObject payload)); ("/api/v1/run", Some (VObject payload))].
Proof.
  apply (run_posted (J := text_json) "" None demo_keeps 4 demo_prompt (Some (int 500)) (Some (int 1000)) _ (snd (fst (demo_wait "running")))).
  eapply (exec_runs (demo_daemon "running")). unfold demo_wait. by rewrite <-!surjective_pairing.
Defined.

(** A cancelled job is asked about until the time is up. *)
Example cancelled_job_times_out :
  snd (fst (demo_wait "cancelled")) = inr "Error: Timed out waiting for job j" /\ length (clock (fst (fst (demo_wait "cancelled")))) = 5%nat.
Proof. split; vm_compute; reflexivity. Qed.

(** An approval's identifier is not encoded: one with a question mark asks for
    another resource, with a parameter. *)
Example approval_id_unencoded : 
  map (fun r => read_address "" (req_url r)) 
    match apiGetApproval (J := text_json) "" None "a?b=c" with Act (Send r) _ => [r] | _ => [] end
  = [(["api"; "v1"; "approvals"; "a"], [("b", "c")])].
Proof. reflexivity. Qed.
