(* ===== verification/ConnectionAddresses.v ===== *)
(** The addresses and credentials that the active connection profile gives
    (src/ui/src/hooks/useUiConnectionSettings.ts), and that the clients of
    ApiSession and Http take them for what they are. *)
From S2P Require Import Prelude JsNumber JsString JsValue Sse Caches ClientRpc RuntimeConfig ConnectionProfiles Http ApiSession.

(** ** The profile's fields *)

(** The setters, [next(prev.field)] already applied: nothing changes when the
    value does not. *)
Definition set_field (k : string) (next : value -> value) (prev : obj value) : obj value :=
  let v := next (prop k prev) in if bool_decide (v = prop k prev) then prev else set k v prev.

Definition setMode := set_field "mode".
Definition setBase := set_field "base".
Definition setBrokerBase := set_field "brokerBase".
Definition setBrokerAgentId := set_field "brokerAgentId".
Definition setBrokerDeploymentId := set_field "brokerDeploymentId".
Definition setBrokerCookieAuth := set_field "brokerCookieAuth".
Definition setBrokerAuthToken := set_field "brokerAuthToken".
Definition setDaemonAuthToken := set_field "daemonAuthToken".

Definition text (k : string) (p : obj value) : string := default "" (as_string (prop k p)).
Definition is_broker (p : obj value) : bool := bool_decide (prop "mode" p = VString "broker").
Definition cookie_auth (p : obj value) : bool := truthy (prop "brokerCookieAuth" p).

Section connection.
Context {P : PageLocation}.
Context (p : obj value).

Definition serverPrefsBase : string :=
  if is_broker p then normalizeHttpBase (text "brokerBase" p) "https://127.0.0.1:8443" "https"
  else normalizeHttpBase (text "base" p) "http://127.0.0.1:8123" "http".

Definition agent_id : string := trim (text "brokerAgentId" p).

Definition effectiveBase : string :=
  if is_broker p then
    let normalizedBrokerBase := normalizeHttpBase (text "brokerBase" p) "https://127.0.0.1:8443" "https" in
    if negb (truthy_str agent_id) then normalizedBrokerBase
    else normalizedBrokerBase ++s "/v1/agents/" ++s encodeURIComponent agent_id ++s "/proxy"
  else normalizeHttpBase (text "base" p) "http://127.0.0.1:8123" "http".

Definition effectiveSseBase : string :=
  if negb (is_broker p) then effectiveBase
  else
    let brokerBaseTrimmed := strip_slashes (trim (text "brokerBase" p)) in
    let withScheme := if has_scheme brokerBaseTrimmed then brokerBaseTrimmed else "https://" ++s brokerBaseTrimmed in
    if negb (truthy_str agent_id) then withScheme
    else withScheme ++s "/v1/agents/" ++s encodeURIComponent agent_id ++s "/proxy_sse".

Definition daemonAuth : ApiAuth :=
  if is_broker p then
    Broker (as_string (prop "brokerAuthToken" p)) (as_string (prop "daemonAuthToken" p))
           (as_string (prop "brokerDeploymentId" p)) (cookie_auth p)
  else Direct (as_string (prop "daemonAuthToken" p)).

(** The key under which answers are cached; [profileId] is
    [String(activeProfileId || "default")]. *)
Definition length_text (s : option string) : string := pretty (Z.of_nat (String.length (trim (default "" s)))).

Definition auth_key (profileId : string) (auth : ApiAuth) : string :=
  match auth with
  | Broker token agentdToken deploymentId cookie =>
      "broker:pid=" ++s profileId ++s ":dep=" ++s trim (default "" deploymentId) ++s ":"
        ++s (if cookie then "cookie=1" else "cookie=0") ++s ":tlen=" ++s length_text token ++s ":alen=" ++s length_text agentdToken
  | Direct token => "direct:pid=" ++s profileId ++s ":tlen=" ++s length_text token
  end.

Definition brokerAuthReady : bool := negb (is_broker p) || cookie_auth p || truthy_str (trim (text "brokerAuthToken" p)).
End connection.

(** ** The setters *)

Lemma set_field_reads k next p : prop k (set_field k next p) = next (prop k p).
Proof. unfold set_field. case_bool_decide as H; [done|]. unfold prop. by rewrite get_set_eq. Qed.

Lemma set_field_other k k' next p : k' <> k -> prop k' (set_field k next p) = prop k' p.
Proof. intros Hk. unfold set_field. case_bool_decide as H; [done|]. unfold prop. by rewrite get_set_ne. Qed.

(** Another deployment, token or cookie setting changes no address. *)
Lemma addresses_kept {P : PageLocation} setter next p :
  setter ∈ [setBrokerDeploymentId; setBrokerCookieAuth; setBrokerAuthToken; setDaemonAuthToken] ->
  effectiveBase (setter next p) = effectiveBase p /\ effectiveSseBase (setter next p) = effectiveSseBase p
  /\ serverPrefsBase (setter next p) = serverPrefsBase p.
Proof.
  intros Hs. assert (exists k, setter = set_field k /\ k ∈ ["brokerDeploymentId"; "brokerCookieAuth"; "brokerAuthToken"; "daemonAuthToken"])
    as (k & -> & Hk).
  { repeat (apply elem_of_cons in Hs as [-> | Hs]; [eexists; split; [reflexivity|set_solver]|]). by apply elem_of_nil in Hs. } unfold effectiveBase, effectiveSseBase, serverPrefsBase, effectiveBase, agent_id, is_broker, text.
  enough (forall k', k' ∈ ["mode"; "base"; "brokerBase"; "brokerAgentId"] -> prop k' (set_field k next p) = prop k' p) as H.
  { rewrite !H by set_solver. done. }
  intros k' Hk'. apply set_field_other. set_solver.
Qed.

(** ** Both sides of an agent's address *)

Lemma agent_address {P : PageLocation} p : is_broker p = true -> agent_id p <> "" ->
  effectiveBase p = serverPrefsBase p ++s path ["v1"; "agents"; agent_id p; "proxy"].
Proof.
  intros Hb Ha. unfold effectiveBase, serverPrefsBase. rewrite Hb, (proj2 (truthy_str_true _)) by done. done.
Qed.

Lemma has_after_scheme s rest : after_scheme s = Some rest -> has_scheme s = true.
Proof.
  unfold after_scheme, has_scheme. destruct (starts_with "https://" _); [by rewrite orb_true_r|].
  by destruct (starts_with "http://" _).
Qed.

Lemma trim_end_by_split q s : exists t, s = trim_end_by q s ++s t.
Proof.
  induction s as [|c s [t IH]]; [by exists ""|]. cbn [trim_end_by]. destruct (trim_end_by q s) as [|d r] eqn:E.
  - destruct (q c); [by exists (String c s)|by exists s].
  - exists t. cbn [String.append] in *. by rewrite IH at 1.
Qed.

Lemma map_str_app f a b : map_str f (a ++s b) = map_str f a ++s map_str f b.
Proof. induction a as [|c a IH]; [done|]. cbn [String.append map_str]. by rewrite IH. Qed.

Lemma has_scheme_app a b : has_scheme a = true -> has_scheme (a ++s b) = true.
Proof.
  unfold has_scheme, to_lower. rewrite map_str_app, !orb_true_iff. intros [H|H]; [left|right]; by apply prefix_app.
Qed.

Lemma after_scheme_app scheme rest :
  to_lower scheme = "http://" \/ to_lower scheme = "https://" -> after_scheme (scheme ++s rest) = Some rest.
Proof.
  intros Hs. assert (Hl : String.length scheme = String.length (to_lower scheme)).
  { clear. unfold to_lower. induction scheme; cbn; congruence. }
  pose proof (sdrop_append scheme rest) as Hd. rewrite Hl in Hd.
  unfold after_scheme. replace (to_lower (scheme ++s rest)) with (to_lower scheme ++s to_lower rest) by (symmetry; apply map_str_app).
  destruct Hs as [Hs | Hs]; rewrite Hs in Hd |- *; cbn in Hd |- *; destruct (to_lower rest); by rewrite Hd.
Qed.

(** C21: the address that the settings give for an agent behind a broker is
    recognised by the clients of its sessions, whatever the agent is called and
    however the broker's scheme is written.  Its alias is the agent's address at
    the broker; the address of a session, of each of its resources and of the
    stream of its events are those under [sessions] there; and for a resource
    of the daemon's own path, that one is tried first, and then the path at the
    agent's proxy. *)
Theorem agent_address_recognised {P : PageLocation} p scheme rest sid :
  is_broker p = true -> agent_id p <> "" -> trim sid <> "" ->
  serverPrefsBase p = scheme ++s rest -> to_lower scheme = "http://" \/ to_lower scheme = "https://" ->
  rest <> "" -> free_of is_line_end rest = true ->
  let agent := serverPrefsBase p ++s "/v1/agents/" ++s encodeURIComponent (agent_id p) in
  let session := agent ++s "/sessions/" ++s encodeURIComponent (trim sid) in
  brokerAliasRootFromBase (effectiveBase p) = Some agent
  /\ buildSessionEventsStreamUrl (effectiveBase p) sid = Some (session ++s "/events")
  /\ buildSessionAliasUrl (effectiveBase p) sid "" = Some session
  /\ (forall s segments, s <> "" ->
       buildSessionAliasUrl (effectiveBase p) sid (encodeURIComponent s ++s path segments) = Some (session ++s path (s :: segments))
       /\ operator_urls (effectiveBase p) (trim sid)
            ("api/v1/session/" ++s encodeURIComponent (trim sid) ++s "/" ++s encodeURIComponent s ++s path segments)
          = [session ++s path (s :: segments);
             agent ++s "/proxy/api/v1/session/" ++s encodeURIComponent (trim sid) ++s path (s :: segments)]).
Proof.
  intros Hb Ha Hsid Hbase Hscheme Hr Hl agent session. rewrite agent_address by done.
  assert (Hs : after_scheme (serverPrefsBase p) = Some rest) by (rewrite Hbase; by apply after_scheme_app).
  assert (Hroot : brokerAliasRootFromBase (serverPrefsBase p ++s path ["v1"; "agents"; agent_id p; "proxy"]) = Some agent).
  { rewrite (alias_root_of_proxy _ _ _ Hs Hr Hl Ha). unfold agent. cbn [path]. by rewrite !append_nil_r. }
  split; [exact Hroot|]. unfold buildSessionEventsStreamUrl, buildSessionAliasUrl. rewrite Hroot, (proj2 (truthy_str_true (trim sid))) by done.
  split; [unfold session; by rewrite !append_assoc|]. split; [done|]. intros s segments Hne. split.
  - assert (Hw : free_of is_ws (encodeURIComponent s ++s path segments) = true) by (by rewrite free_of_app, encode_no_ws, path_no_ws).
    rewrite (trim_no_ws _ Hw), encode_head by done. cbn [negb]. rewrite (proj2 (truthy_str_true _)).
    + unfold session. cbn [path]. by rewrite !append_assoc.
    + pose proof (encode_nonempty s Hne). by destruct (encodeURIComponent s).
  - pose proof (operator_urls_spec (serverPrefsBase p ++s path ["v1"; "agents"; agent_id p; "proxy"]) sid s segments Hsid Hne) as Hu.
    unfold operator_path, encodeSessionRef in Hu. rewrite Hu. unfold session_addresses. rewrite Hroot. unfold session, agent.
    cbn [path app]. by rewrite !append_assoc.
Qed.

(** With a scheme in the broker's address, streams and requests go to the same
    broker and agent. *)
Theorem sse_follows_base {P : PageLocation} p :
  is_broker p = true -> agent_id p <> "" -> has_scheme (strip_slashes (trim (text "brokerBase" p))) = true ->
  effectiveBase p = serverPrefsBase p ++s path ["v1"; "agents"; agent_id p; "proxy"]
  /\ effectiveSseBase p = serverPrefsBase p ++s path ["v1"; "agents"; agent_id p; "proxy_sse"].
Proof.
  intros Hb Ha Hs. split; [by apply agent_address|]. unfold effectiveSseBase, serverPrefsBase. rewrite Hb, Hs.
  rewrite (proj2 (truthy_str_true (agent_id p))) by done. cbn [negb]. unfold normalizeHttpBase.
  destruct (trim_end_by_split (is_char "/") (trim (text "brokerBase" p))) as [t Ht]. fold (strip_slashes (trim (text "brokerBase" p))) in Ht.
  pose proof (has_scheme_app _ t Hs) as Hs'. rewrite <-Ht in Hs'.
  destruct (truthy_str (trim (text "brokerBase" p))) eqn:E; cbn [negb]; [by rewrite Hs'|].
  apply truthy_str_false in E. by rewrite E in Hs'.
Qed.

(** Where it is not: a broker on this machine without a scheme, on a page
    without TLS, and no broker's address at all. *)
Definition broker_profile (brokerBase : string) : obj value :=
  [("mode", VString "broker"); ("brokerBase", VString brokerBase); ("brokerAgentId", VString "a")].

Example sse_base_differs :
  effectiveBase (P := "http:") (broker_profile "localhost:8443") = "http://localhost:8443/v1/agents/a/proxy"
  /\ effectiveSseBase (P := "http:") (broker_profile "localhost:8443") = "https://localhost:8443/v1/agents/a/proxy_sse"
  /\ effectiveBase (P := "http:") (broker_profile "") = "https://127.0.0.1:8443/v1/agents/a/proxy"
  /\ effectiveSseBase (P := "http:") (broker_profile "") = "https:///v1/agents/a/proxy_sse".
Proof. repeat split; vm_compute; reflexivity. Qed.

(** ** The key of cached answers *)

(** Another token of the same length has the same key. *)
Lemma same_key profileId token token' agentdToken deploymentId cookie :
  String.length (trim token) = String.length (trim token') ->
  auth_key profileId (Broker (Some token) agentdToken deploymentId cookie)
  = auth_key profileId (Broker (Some token') agentdToken deploymentId cookie)
  /\ auth_key profileId (Direct (Some token)) = auth_key profileId (Direct (Some token')).
Proof.
  intros H. unfold auth_key, length_text. change (default "" (Some token)) with token. change (default "" (Some token')) with token'.
  by rewrite H.
Qed.

(** ** At concrete profiles *)

Definition demo_profile : obj value :=
  [("mode", VString "broker"); ("brokerBase", VString " https://broker.example/ "); ("brokerAgentId", VString "agent 1")].

Lemma agent_address_recognised_witness :
  brokerAliasRootFromBase (effectiveBase (P := "https:") demo_profile) = Some "https://broker.example/v1/agents/agent%201".
Proof.
  apply (agent_address_recognised (P := "https:") demo_profile "https://" "broker.example" "s1"); (reflexivity || by_compute || (by right)).
Defined.

Lemma sse_follows_base_witness :
  effectiveSseBase (P := "https:") demo_profile = "https://broker.example/v1/agents/agent%201/proxy_sse".
Proof. apply (sse_follows_base (P := "https:") demo_profile); (reflexivity || by_compute). Defined.
