(* ===== verification/Approvals.v ===== *)
(** The approval queue (src/ui/src/components/approvalQueue/useApprovalQueueState.ts):
    the filters, the list, the approval that is selected and the decision about
    it.  Its requests are those of ApiDaemon; they are answered one by one, in
    any order, so the state lists those under way with what each has captured. *)
From S2P Require Import Prelude JsNumber JsString JsValue Caches Http ApiDaemon.

(** ** Data *)

Record filters := mkFilters {
  statusFilter : string; teamIdFilter : string; traceIdFilter : string; jobIdFilter : string; toolNameFilter : string;
  runIdFilter : string; limitFilter : string }.

(** What has been requested and not answered.  After a decision its approval
    is loaded again, and then the list with the filters of that moment. *)
Inductive pending :=
  | PDetail (id : string) (role : string) (deciding : option filters)
  | PList (deciding : bool)
  | PDecision (id : string) (role : string) (then_list : filters).

(** The requests, for the record. *)
Inductive asked :=
  | AskDetail (id : string)
  | AskList (q : ApprovalsListQuery)
  | AskDecision (id : string) (req : ApprovalDecisionReq).

Record state := mkState {
  filter : filters;
  approvals : list value; listError : option string; listBusy : bool;
  selectedId : option string; detailApproval : option (obj value); detailDecisions : list value;
  detailBusy : bool; detailError : option string;
  memberId : string; memberRole : string; note : string; decisionBusy : bool; decisionError : option string;
  inflight : list pending; log : list asked }.

Definition initial : state :=
  mkState (mkFilters "" "" "" "" "" "" "100") [] None false None None [] false None "" "" "" false None [] [].

(** *** Setters *)

Definition set_filter (f : filters) (s : state) : state :=
  mkState f (approvals s) (listError s) (listBusy s) (selectedId s) (detailApproval s) (detailDecisions s) (detailBusy s)
    (detailError s) (memberId s) (memberRole s) (note s) (decisionBusy s) (decisionError s) (inflight s) (log s).
Definition set_list (rows : list value) (err : option string) (busy : bool) (s : state) : state :=
  mkState (filter s) rows err busy (selectedId s) (detailApproval s) (detailDecisions s) (detailBusy s)
    (detailError s) (memberId s) (memberRole s) (note s) (decisionBusy s) (decisionError s) (inflight s) (log s).
Definition set_selected (id : string) (s : state) : state :=
  mkState (filter s) (approvals s) (listError s) (listBusy s) (Some id) (detailApproval s) (detailDecisions s) (detailBusy s)
    (detailError s) (memberId s) (memberRole s) (note s) (decisionBusy s) (decisionError s) (inflight s) (log s).
Definition set_detail (a : option (obj value)) (ds : list value) (busy : bool) (err : option string) (s : state) : state :=
  mkState (filter s) (approvals s) (listError s) (listBusy s) (selectedId s) a ds busy
    err (memberId s) (memberRole s) (note s) (decisionBusy s) (decisionError s) (inflight s) (log s).
Definition set_form (member role n : string) (s : state) : state :=
  mkState (filter s) (approvals s) (listError s) (listBusy s) (selectedId s) (detailApproval s) (detailDecisions s) (detailBusy s)
    (detailError s) member role n (decisionBusy s) (decisionError s) (inflight s) (log s).
Definition set_decision (busy : bool) (err : option string) (s : state) : state :=
  mkState (filter s) (approvals s) (listError s) (listBusy s) (selectedId s) (detailApproval s) (detailDecisions s) (detailBusy s)
    (detailError s) (memberId s) (memberRole s) (note s) busy err (inflight s) (log s).
Definition set_inflight (l : list pending) (s : state) : state :=
  mkState (filter s) (approvals s) (listError s) (listBusy s) (selectedId s) (detailApproval s) (detailDecisions s) (detailBusy s)
    (detailError s) (memberId s) (memberRole s) (note s) (decisionBusy s) (decisionError s) l (log s).
Definition add_log (a : asked) (s : state) : state :=
  mkState (filter s) (approvals s) (listError s) (listBusy s) (selectedId s) (detailApproval s) (detailDecisions s) (detailBusy s)
    (detailError s) (memberId s) (memberRole s) (note s) (decisionBusy s) (decisionError s) (inflight s) (log s ++ [a]).

(** A request is sent, and is then under way. *)
Definition send (a : asked) (p : pending) (s : state) : state := set_inflight (inflight s ++ [p]) (add_log a s).

(** ** The list *)

(** [Number.parseInt(s, 10)] of a trimmed text. *)
Definition parse_int (s : string) : number :=
  let '(sg, t) := match s with String "-" t => (-1, t) | String "+" t => (1, t) | _ => (1, s) end in
  let '(m, n, _) := digits 0 0 t in
  if (n =? 0)%nat then NaN else if sg <? 0 then neg (of_decimal m 0) else of_decimal m 0.

Definition parseLimit (raw : string) (fallback : number) : number :=
  let n := parse_int (trim raw) in
  if negb (is_finite n) || leb n (int 0) then fallback else math_min n (int 500).

Definition list_query (f : filters) : ApprovalsListQuery :=
  mkApprovalsQuery (trim (statusFilter f)) (trim (teamIdFilter f)) (trim (traceIdFilter f)) (trim (jobIdFilter f)) (trim (toolNameFilter f))
    (PString <$> trimmed_some (Some (runIdFilter f))) (Some (parseLimit (limitFilter f) (int 100))).

(** [String(new Error(res.error || fallback))]. *)
Definition refusal (fallback : string) (res : obj value) : string :=
  "Error: " ++s match prop "error" res with VString e => str_or e fallback | _ => fallback end.

(** [finally] of [submitDecision]. *)
Definition decided (s : state) : state := set_decision false (decisionError s) s.

Section queue.
Context (baseUrl : string).

Definition base : string := strip_slashes (trim baseUrl).
Definition canQuery : bool := truthy_str base.

(** [loadApprovals] up to its request, and [deciding]: is it awaited by
    [submitDecision]? *)
Definition load_approvals (deciding : bool) (f : filters) (s : state) : state :=
  let s := set_list (approvals s) None true s in
  if canQuery then send (AskList (list_query f)) (PList deciding) s
  else
    let s := set_list (approvals s) (Some "Error: missing base URL") false s in
    if deciding then decided s else s.

Definition list_answer (deciding : bool) (res : outcome (obj value)) (s : state) : state :=
  let s :=
    match res with
    | inl res =>
        if truthy (prop "ok" res) then
          set_list (match prop "approvals" res with VArray l => l | _ => [] end) (listError s) false s
        else set_list (approvals s) (Some (refusal "failed to load approvals" res)) false s
    | inr e => set_list (approvals s) (Some e) false s
    end in
  if deciding then decided s else s.

Definition clearApprovals (s : state) : state := set_list [] None (listBusy s) s.

(** ** The selected approval *)

Definition load_detail (id role : string) (deciding : option filters) (s : state) : state :=
  send (AskDetail id) (PDetail id role deciding) (set_detail (detailApproval s) (detailDecisions s) true None s).

Definition roles_of (a : option (obj value)) : list value :=
  match a with Some a => match prop "role_constraints" a with VArray l => l | _ => [] end | None => [] end.

Definition answered_approval (res : obj value) : option (obj value) :=
  match prop "approval" res with VObject a => Some a | _ => None end.

(** [role] is the role of the moment the request was sent. *)
Definition detail_answer (role : string) (deciding : option filters) (res : outcome (obj value)) (s : state) : state :=
  let s :=
    match res with
    | inl res =>
        if truthy (prop "ok" res) then
          let s := set_detail (answered_approval res) (match prop "decisions" res with VArray l => l | _ => [] end) false (detailError s) s in
          match roles_of (answered_approval res) with
          | first :: _ => if truthy_str (trim role) then s else set_form (memberId s) (v_to_string first) (note s) s
          | [] => s
          end
        else set_detail None [] false (Some (refusal "failed to load approval" res)) s
    | inr e => set_detail None [] false (Some e) s
    end in
  match deciding with Some f => load_approvals true f s | None => s end.

Definition selectApproval (id : string) (s : state) : state :=
  let role := memberRole s in
  load_detail id role None (set_form "" "" "" (set_decision (decisionBusy s) None (set_selected id s))).

(** ** The decision *)

Definition decision_request (decision : string) (s : state) : ApprovalDecisionReq :=
  mkDecision (trim (memberId s)) (trimmed_some (Some (memberRole s))) decision (trimmed_some (Some (note s))).

Definition submitDecision (decision : string) (s : state) : state :=
  match selectedId s with
  | None => s
  | Some id =>
      if negb (truthy_str id) then s
      else
        let s := set_decision true None s in
        if negb (truthy_str (trim (memberId s))) then set_decision false (Some "Error: missing member_id") s
        else if negb (length (roles_of (detailApproval s)) =? 0)%nat && negb (truthy_str (trim (memberRole s)))
        then set_decision false (Some "Error: missing member_role") s
        else send (AskDecision id (decision_request decision s)) (PDecision id (memberRole s) (filter s)) s
  end.

Definition decision_answer (id role : string) (f : filters) (res : outcome (obj value)) (s : state) : state :=
  match res with
  | inl res =>
      if truthy (prop "ok" res) then load_detail id role (Some f) s
      else set_decision false (Some (refusal "decision failed" res)) s
  | inr e => set_decision false (Some e) s
  end.

Definition selectedStatus (s : state) : string :=
  match detailApproval s with Some a => match prop "status" a with VString t => t | _ => "" end | None => "" end.
Definition isPending (s : state) : bool := bool_decide (selectedStatus s = "pending") || negb (truthy_str (selectedStatus s)).

(** ** Steps *)

Inductive event :=
  | Filter (f : filters)
  | Load
  | Clear
  | Select (id : string)
  | Edit (member role n : string)
  | Submit (decision : string)
  | Answer (i : nat) (res : outcome (obj value)).

Definition answer (p : pending) (res : outcome (obj value)) (s : state) : state :=
  match p with
  | PDetail _ role deciding => detail_answer role deciding res s
  | PList deciding => list_answer deciding res s
  | PDecision id role f => decision_answer id role f res s
  end.

Definition step (ev : event) (s : state) : state :=
  match ev with
  | Filter f => set_filter f s
  | Load => load_approvals false (filter s) s
  | Clear => clearApprovals s
  | Select id => selectApproval id s
  | Edit member role n => set_form member role n s
  | Submit decision => submitDecision decision s
  | Answer i res =>
      match inflight s !! i with
      | Some p => answer p res (set_inflight (delete i (inflight s)) s)
      | None => s
      end
  end.

Definition run (evs : list event) (s : state) : state := fold_left (fun s ev => step ev s) evs s.
End queue.

(** What every step keeps holds of every execution. *)
Lemma queue_invariant baseUrl (I : state -> Prop) evs s :
  (forall ev s, I s -> I (step baseUrl ev s)) -> I s -> I (run baseUrl evs s).
Proof. intros H. revert s. induction evs as [|ev evs IH]; [done|]. intros s Hs. apply IH. by apply H. Qed.

(** ** No flag stays set *)

Definition is_list (p : pending) : bool := match p with PList _ => true | _ => false end.
Definition is_detail (p : pending) : bool := match p with PDetail _ _ _ => true | _ => false end.
Definition is_deciding (p : pending) : bool :=
  match p with PDecision _ _ _ => true | PDetail _ _ (Some _) => true | PList d => d | _ => false end.

(** A flag is set only while a request that clears it is under way. *)
Definition settled (s : state) : Prop :=
  (listBusy s = true -> existsb is_list (inflight s) = true)
  /\ (detailBusy s = true -> existsb is_detail (inflight s) = true)
  /\ (decisionBusy s = true -> existsb is_deciding (inflight s) = true).

Lemma existsb_add f l (p : pending) : existsb f (l ++ [p]) = existsb f l || f p.
Proof. rewrite existsb_app. cbn. by rewrite orb_false_r. Qed.

Lemma existsb_delete f l i (p : pending) : l !! i = Some p -> existsb f l = existsb f (delete i l) || f p.
Proof.
  revert i. induction l as [|q l IH]; intros [|i]; [done..| |]; cbn [lookup list_lookup delete list_delete existsb].
  - intros [= ->]. apply orb_comm.
  - intros H. by rewrite (IH i H), orb_assoc.
Qed.

Section settling.
Context (baseUrl : string).

Local Ltac settle := intros (Hl & Hd & Hc); unfold settled; repeat split; cbn; rewrite ?existsb_add; cbn; try done;
  try (intros H; first [rewrite Hl by exact H | rewrite Hd by exact H | rewrite Hc by exact H]; by rewrite ?orb_true_r);
  try (by rewrite ?orb_true_r).

Lemma settled_load_approvals f s : settled s -> settled (load_approvals baseUrl false f s).
Proof. unfold load_approvals. destruct (canQuery baseUrl); settle. Qed.

(** The same where a decision awaits it. *)
Lemma settled_deciding_list f s :
  (listBusy s = true -> existsb is_list (inflight s) = true) -> (detailBusy s = true -> existsb is_detail (inflight s) = true) ->
  settled (load_approvals baseUrl true f s).
Proof.
  intros Hl Hd. unfold load_approvals. destruct (canQuery baseUrl); repeat split; cbn; rewrite ?existsb_add; cbn;
    rewrite ?orb_true_r; try done; intros H; by rewrite Hd.
Qed.

Lemma settled_step ev s : settled s -> settled (step baseUrl ev s).
Proof.
  destruct ev as [f| | |id|m r n|d|i res]; cbn [step]; [settle|apply settled_load_approvals|settle|settle|settle| |].
  - unfold submitDecision. destruct (selectedId s) as [id|]; [|done]. destruct (negb _); [done|].
    destruct (negb _); [settle|]. destruct (_ && _); settle.
  - destruct (inflight s !! i) as [p|] eqn:Hp; [|done]. intros (Hl & Hd & Hc).
    rewrite (existsb_delete is_list _ _ _ Hp) in Hl. rewrite (existsb_delete is_detail _ _ _ Hp) in Hd.
    rewrite (existsb_delete is_deciding _ _ _ Hp) in Hc.
    destruct p as [id role deciding|deciding|id role f]; cbn [answer is_list is_detail is_deciding] in *;
      rewrite ?orb_false_r in *.
    + set (s' := set_inflight _ _).
      assert (H : exists s1, detail_answer baseUrl role deciding res s' = match deciding with Some f => load_approvals baseUrl true f s1 | None => s1 end
        /\ listBusy s1 = listBusy s /\ detailBusy s1 = false /\ decisionBusy s1 = decisionBusy s /\ inflight s1 = delete i (inflight s)).
      { unfold detail_answer. eexists. split; [reflexivity|]. destruct res as [res|e]; [|done].
        destruct (truthy _); [|done]. destruct (roles_of _); [done|]. by destruct (truthy_str _). }
      destruct H as (s1 & -> & E1 & E2 & E3 & E4). destruct deciding as [f|].
      * apply settled_deciding_list; rewrite ?E1, ?E2, ?E4; done.
      * rewrite orb_false_r in Hc. unfold settled. by rewrite E1, E2, E3, E4.
    + unfold list_answer. destruct deciding; rewrite ?orb_false_r in *;
        (destruct res as [res|e]; [destruct (truthy _)|]); repeat split; cbn; done.
    + unfold decision_answer. destruct res as [res|e]; [destruct (truthy _)|]; repeat split; cbn; rewrite ?existsb_add; cbn;
        rewrite ?orb_true_r, ?orb_false_r; done.
Qed.

(** No busy flag stays set: under every sequence of events a flag is set only
    while a request is under way whose answer, or failure, clears it. *)
Theorem flags_settle evs : settled (run baseUrl evs initial).
Proof. apply queue_invariant; [apply settled_step|done]. Qed.
End settling.

(** ** What is shown is what is decided about *)

(** Does the request concern one approval, and which? *)
Definition about (p : pending) : option string :=
  match p with PDetail id _ _ | PDecision id _ _ => Some id | PList _ => None end.

(** The daemon answers with the approval that was asked for. *)
Definition truthful (p : pending) (res : outcome (obj value)) : Prop :=
  match p, res with
  | PDetail id _ _, inl res => forall a, answered_approval res = Some a -> prop "approval_id" a = VString id
  | _, _ => True
  end.

(** Nothing about another approval is under way when one is selected. *)
Definition orderly (ev : event) (s : state) : Prop :=
  match ev with
  | Select _ => Forall (fun p => about p = None) (inflight s)
  | Answer i res => match inflight s !! i with Some p => truthful p res | None => True end
  | _ => True
  end.

Fixpoint orderly_run (baseUrl : string) (evs : list event) (s : state) : Prop :=
  match evs with [] => True | ev :: evs => orderly ev s /\ orderly_run baseUrl evs (step baseUrl ev s) end.

(** The details, if they are shown, are those of the selected approval. *)
Definition shows_selected (s : state) : Prop :=
  forall a, detailBusy s = false -> detailApproval s = Some a ->
    exists id, selectedId s = Some id /\ prop "approval_id" a = VString id.

Definition focused (s : state) : Prop :=
  Forall (fun p => about p = None \/ about p = selectedId s) (inflight s) /\ shows_selected s.

Section focus.
Context (baseUrl : string).

Lemma focused_list deciding f s : focused s -> focused (load_approvals baseUrl deciding f s).
Proof.
  intros [Hf Hs]. unfold load_approvals. destruct (canQuery baseUrl); [|by destruct deciding].
  split; [|exact Hs]. cbn. apply Forall_app. split; [exact Hf|]. constructor; [by left|done].
Qed.

Lemma focused_detail id role deciding s :
  Forall (fun p => about p = None \/ about p = selectedId s) (inflight s) -> selectedId s = Some id ->
  focused (load_detail id role deciding s).
Proof.
  intros Hf Hid. split; [|by intros a]. cbn. apply Forall_app. split; [exact Hf|]. constructor; [|done]. by right.
Qed.

Lemma focused_detail_answer id role deciding res s :
  Forall (fun p => about p = None \/ about p = selectedId s) (inflight s) -> selectedId s = Some id ->
  truthful (PDetail id role deciding) res -> focused (detail_answer baseUrl role deciding res s).
Proof.
  intros Hf Hid Ht. unfold detail_answer.
  match goal with |- focused (match deciding with Some f => load_approvals _ _ _ ?s1 | None => _ end) =>
    enough (focused s1) as H by (destruct deciding; [by apply focused_list|done]) end.
  destruct res as [res|e]; [|by split].
  destruct (truthy _); [|by split].
  assert (Hd : focused (set_detail (answered_approval res) (match prop "decisions" res with VArray l => l | _ => [] end) false (detailError s) s)).
  { split; [done|]. intros a _ Ha. exists id. split; [done|]. by apply Ht. }
  destruct (roles_of _); [done|]. by destruct (truthy_str _).
Qed.

Lemma focused_step ev s : orderly ev s -> focused s -> focused (step baseUrl ev s).
Proof.
  intros Ho Hfoc. pose proof Hfoc as [Hf Hs].
  destruct ev as [f| | |id|m r n|d|i res]; cbn [step]; [exact Hfoc| |exact Hfoc| |exact Hfoc| |].
  - by apply focused_list.
  - apply focused_detail; [|done]. cbn. eapply Forall_impl; [exact Ho|]. by left.
  - unfold submitDecision. destruct (selectedId s) as [id|] eqn:Hid; [|exact Hfoc]. destruct (negb _); [exact Hfoc|].
    destruct (negb _); [exact Hfoc|]. destruct (_ && _); [exact Hfoc|].
    split; [|exact Hs]. cbn. apply Forall_app. split; [by rewrite Hid|]. constructor; [|done]. by right.
  - cbn [orderly] in Ho. destruct (inflight s !! i) as [p|] eqn:Hp; [|done].
    assert (Hf' : Forall (fun p => about p = None \/ about p = selectedId s) (delete i (inflight s))) by (by apply Forall_delete).
    pose proof (Forall_lookup_1 _ _ _ _ Hf Hp) as Hpid. destruct p as [id role deciding|deciding|id role f]; cbn [answer about] in *.
    + destruct Hpid as [|Hid]; [done|]. by apply (focused_detail_answer id).
    + unfold list_answer. destruct deciding; (destruct res as [res|e]; [destruct (truthy _)|]); by split.
    + destruct Hpid as [|Hid]; [done|]. unfold decision_answer. destruct res as [res|e]; [destruct (truthy _)|]; [|by split..].
      by apply focused_detail.
Qed.

Lemma focused_run evs : orderly_run baseUrl evs initial -> focused (run baseUrl evs initial).
Proof.
  intros H. assert (H0 : focused initial) by (split; [constructor|by intros a]).
  revert H H0. generalize initial. induction evs as [|ev evs IH]; intros s; [done|]. intros [Ho H] Hs.
  apply IH; [exact H|]. by apply focused_step.
Qed.

(** The decisions that were posted. *)
Definition decision_of (a : asked) : option (string * ApprovalDecisionReq) :=
  match a with AskDecision id req => Some (id, req) | _ => None end.
Definition decisions (s : state) : list (string * ApprovalDecisionReq) := omap decision_of (log s).

Lemma decisions_send a p s : decisions (send a p s) = decisions s ++ option_list (decision_of a).
Proof. unfold decisions, send, add_log. cbn [log set_inflight]. rewrite omap_app. cbn. by destruct a. Qed.

Lemma decisions_list deciding f s : decisions (load_approvals baseUrl deciding f s) = decisions s.
Proof.
  unfold load_approvals. destruct (canQuery baseUrl); [rewrite decisions_send; by rewrite app_nil_r|by destruct deciding].
Qed.

(** Nothing but the button posts a decision. *)
Lemma decisions_other ev s : (forall d, ev <> Submit d) -> decisions (step baseUrl ev s) = decisions s.
Proof.
  intros Hev. destruct ev as [f| | |id|m r n|d|i res]; cbn [step]; try done.
  - by rewrite decisions_list.
  - unfold selectApproval, load_detail. rewrite decisions_send. by rewrite app_nil_r.
  - by destruct (Hev d).
  - destruct (inflight s !! i) as [p|]; [|done]. destruct p as [id role deciding|deciding|id role f]; cbn [answer].
    + unfold detail_answer. set (s' := match res with inl _ => _ | inr _ => _ end).
      assert (Hs : decisions s' = decisions s).
      { unfold s'. destruct res as [res|e]; [|done]. destruct (truthy _); [|done]. destruct (roles_of _); [done|].
        by destruct (truthy_str _). }
      destruct deciding; [by rewrite decisions_list|done].
    + unfold list_answer. destruct res as [res|e]; [destruct (truthy _)|]; by destruct deciding.
    + unfold decision_answer. destruct res as [res|e]; [destruct (truthy _)|]; try done.
      unfold load_detail. rewrite decisions_send. by rewrite app_nil_r.
Qed.

(** The button: what keeps it from posting, and what it posts. *)
Lemma submit_spec decision s :
  let s' := step baseUrl (Submit decision) s in
  (decisions s' = decisions s
   /\ (selectedId s = None \/ selectedId s = Some "" \/ trim (memberId s) = ""
       \/ roles_of (detailApproval s) <> [] /\ trim (memberRole s) = ""))
  \/ exists id, selectedId s = Some id /\ id <> "" /\ trim (memberId s) <> ""
       /\ (roles_of (detailApproval s) = [] \/ trim (memberRole s) <> "")
       /\ decisions s' = decisions s ++ [(id, {| ApiDaemon.memberId := trim (memberId s); ApiDaemon.memberRole := trimmed_some (Some (memberRole s));
                                                 ApiDaemon.decision := decision; ApiDaemon.note := trimmed_some (Some (note s)) |})].
Proof.
  cbn [step]. unfold submitDecision. destruct (selectedId s) as [id|] eqn:Hid; [|left; by eauto].
  destruct (truthy_str id) eqn:Hne; cbn [negb]; [|apply truthy_str_false in Hne as ->; left; by eauto].
  apply truthy_str_true in Hne. change (memberId (set_decision true None s)) with (memberId s).
  destruct (truthy_str (trim (memberId s))) eqn:Hm; cbn [negb]; [|apply truthy_str_false in Hm; left; by eauto].
  apply truthy_str_true in Hm. change (memberRole (set_decision true None s)) with (memberRole s).
  change (detailApproval (set_decision true None s)) with (detailApproval s).
  destruct (roles_of (detailApproval s)) as [|r rs] eqn:Hr, (truthy_str (trim (memberRole s))) eqn:Hrole; cbn [length Nat.eqb negb andb].
  4: { apply truthy_str_false in Hrole. left. split; [done|]. right. right. by right. }
  all: right; exists id; rewrite decisions_send; repeat (split; [done|]); (split; [|done]).
  1, 2: by left.
  right. by apply truthy_str_true.
Qed.

(** C18: a decision is about the approval that is shown, and is the one that was
    made.  When an approval is selected only while no request about another one
    is under way, and the daemon answers with what was asked for, then in every
    state that is reached: only the button posts a decision; it posts one unless
    nothing is selected, no member is named, or a role is required and missing;
    what it posts is the decision of the button, with the member, role and note
    of the form, trimmed, to the selected approval; and the details, when they
    are shown, are those of that approval. *)
Theorem decides_what_is_shown evs :
  orderly_run baseUrl evs initial ->
  let s := run baseUrl evs initial in
  (forall ev, (forall d, ev <> Submit d) -> decisions (step baseUrl ev s) = decisions s)
  /\ (forall decision,
       let s' := step baseUrl (Submit decision) s in
       (decisions s' = decisions s
        /\ (selectedId s = None \/ selectedId s = Some "" \/ trim (memberId s) = ""
            \/ roles_of (detailApproval s) <> [] /\ trim (memberRole s) = ""))
       \/ exists id, selectedId s = Some id /\ id <> "" /\ trim (memberId s) <> ""
            /\ (roles_of (detailApproval s) = [] \/ trim (memberRole s) <> "")
            /\ decisions s' = decisions s ++ [(id, {| ApiDaemon.memberId := trim (memberId s); ApiDaemon.memberRole := trimmed_some (Some (memberRole s));
                                                      ApiDaemon.decision := decision; ApiDaemon.note := trimmed_some (Some (note s)) |})]
            /\ (forall a, detailBusy s = false -> detailApproval s = Some a -> prop "approval_id" a = VString id)).
Proof.
  intros H s. destruct (focused_run evs H) as [_ Hs]. fold s in Hs. split; [intros ev; apply decisions_other|].
  intros decision. destruct (submit_spec decision s) as [Hn|(id & Hid & Hp)]; [by left|right]. exists id.
  destruct Hp as (H1 & H2 & H3 & H4). repeat (split; [done|]). intros a Hb Ha. destruct (Hs a Hb Ha) as (id' & Hid' & Hap). congruence.
Qed.
End focus.

(** An approval without constraints is shown, whatever is selected. *)
Lemma detail_step baseUrl i record id role rest s :
  roles_of (Some record) = [] -> inflight s !! i = Some (PDetail id role None) -> delete i (inflight s) = rest ->
  step baseUrl (Answer i (inl [("ok", VBool true); ("approval", VObject record)])) s
  = set_inflight rest (set_detail (Some record) [] false (detailError s) s).
Proof.
  intros HR Hi Hd. cbn [step]. rewrite Hi. cbn [answer]. unfold detail_answer.
  change (truthy (prop "ok" [("ok", VBool true); ("approval", VObject record)])) with true. cbv iota zeta.
  change (answered_approval [("ok", VBool true); ("approval", VObject record)]) with (Some record). by rewrite HR, Hd.
Qed.

(** C23: a late answer to the request for a former selection is shown under the new
    one: the approver sees the former approval, and the decision is posted about
    the other. *)
Theorem late_detail_misleads baseUrl a b recordA recordB member decision :
  truthy_str b = true -> truthy_str (trim member) = true -> roles_of (Some recordA) = [] -> roles_of (Some recordB) = [] ->
  let s := run baseUrl [Select a; Select b; Answer 1 (inl [("ok", VBool true); ("approval", VObject recordB)]);
                        Answer 0 (inl [("ok", VBool true); ("approval", VObject recordA)]); Edit member "" ""; Submit decision] initial in
  detailBusy s = false /\ selectedId s = Some b /\ detailApproval s = Some recordA
  /\ log s = [AskDetail a; AskDetail b; AskDecision b (mkDecision (trim member) None decision None)].
Proof.
  intros Hb Hm HA HB s. subst s. unfold run. cbn [fold_left].
  replace (step baseUrl (Select b) (step baseUrl (Select a) initial))
    with (mkState (filter initial) [] None false (Some b) None [] true None "" "" "" false None
            [PDetail a "" None; PDetail b "" None] [AskDetail a; AskDetail b]) by reflexivity.
  rewrite (detail_step baseUrl 1 recordB b "" [PDetail a "" None]) by done.
  rewrite (detail_step baseUrl 0 recordA a "" []) by done. cbn [step].
  change (set_form member "" "" _) with (mkState (filter initial) [] None false (Some b) (Some recordA) [] false None member "" "" false None
                                           [] [AskDetail a; AskDetail b]).
  cbn [step]. unfold submitDecision. cbn [selectedId]. rewrite Hb. cbn [negb]. unfold set_decision. cbn [memberId].
  rewrite Hm. cbn [negb detailApproval]. by rewrite HA.
Qed.

Definition demo_record (id : string) : obj value := [("approval_id", VString id); ("status", VString "pending")].

(** The same two selections, one after the other is answered. *)
Definition demo_selections : list event :=
  [Select "a"; Answer 0 (inl [("ok", VBool true); ("approval", VObject (demo_record "a"))]);
   Select "b"; Answer 0 (inl [("ok", VBool true); ("approval", VObject (demo_record "b"))]); Edit " m " "" ""].

Lemma decides_what_is_shown_witness :
  let s := run "http://h" demo_selections initial in
  decisions (step "http://h" (Submit "approve") s) = [("b", mkDecision "m" None "approve" None)]
  /\ exists id, selectedId s = Some id /\ (forall a, detailBusy s = false -> detailApproval s = Some a -> prop "approval_id" a = VString id).
Proof.
  split; [by vm_compute|].
  destruct (decides_what_is_shown "http://h" demo_selections) as [_ H].
  { repeat split; try (intros x [= <-]); repeat constructor. }
  destruct (H "approve") as [[H1 _]|(id & H1 & H2)]; [exfalso; revert H1; vm_compute; discriminate|].
  exists id. split; [exact H1|]. intros a Hb Ha. by apply H2.
Defined.

Lemma late_detail_misleads_witness :
  let s := run "http://h" [Select "a"; Select "b"; Answer 1 (inl [("ok", VBool true); ("approval", VObject (demo_record "b"))]);
             Answer 0 (inl [("ok", VBool true); ("approval", VObject (demo_record "a"))]); Edit "m" "" ""; Submit "approve"] initial in
  detailBusy s = false /\ selectedId s = Some "b" /\ detailApproval s = Some (demo_record "a")
  /\ log s = [AskDetail "a"; AskDetail "b"; AskDecision "b" (mkDecision "m" None "approve" None)].
Proof. apply (late_detail_misleads "http://h" "a" "b" (demo_record "a") (demo_record "b") "m" "approve"); reflexivity. Defined.
